(* ===== verification/_CoqProject ===== *)
-Q . S2P
Prelude.v
Utility.v
Lock.v
Stat.v
Memory.v
MemoryBits.v
Tiling.v
Buddy.v
PageAlloc.v
PoolInit.v
Allocator.v
ShmPool.v
Shm.v
DlList.v
Atomic.v
Ticket.v
Mutex.v
IrqLock.v
LocalApic.v
ShellStorage.v
Thread.v
Context.v
Sched.v
ThreadInv.v
ThreadOps.v
ThreadSched.v
ThreadCalls.v
ThreadCreate.v
Boot.v
ThreadSafety.v
Frames.v
Sleep.v
Timer.v
Channel.v
Pool.v
Offload.v
OffloadInv.v
Paging.v
Mapping.v
OffloadProxy.v
OffloadCalls.v
OffloadLayout.v
Semaphore.v
Wakeup.v
