(* ===== verification/Prelude.v ===== *)
(** * A verification development of the Azalea unikernel

    Azalea runs one application per unikernel on cores and memory that a Linux
    host has set aside.  The kernel (src/kernel) has its own memory management,
    page tables, threads, locks and System V shared memory; file and network calls
    are offloaded: the kernel puts a request into a queue in shared memory, and a
    proxy process on the host (src/sideloader/offload_proxy) executes it and
    replies.  This library models these parts function by function, with C
    integers at their width, and proves what the parts promise and how they fit
    together.

    ** Conventions

    This file holds what all others use: the C integer types as conversions on [Z]
    ([u32], [s32], ...), arrays as lists with a [Z] index, record update, and the
    state monad with faults [M].  A fault stands for what a correct run never does
    (an index out of bounds, a NULL pointer, a division by zero, a halt, a wait
    that nobody can end).  [wp m Q s] says that [m] returns from [s] with [Q]:
    theorems about calls are of this kind, never "if it returns".  Locks, the
    semaphore, the thread pool and the offload channel are step functions on the
    shared state, one step per access or per critical section, and the theorems
    quantify over all sequences of steps.  The calls of the thread component are
    coarser: a call of a core is one step, and other cores act between calls and
    by the list locks they hold while it runs.  Code outside src (the host's C library, mmap, the hardware's
    clocks) is a parameter, and where a theorem assumes something of it, the
    assumption is a named hypothesis that a witness discharges.

    ** Files

    - Memory: [Utility] (byte memory, lk_memset, lk_memcpy, lk_memcmp); [Memory]
      (kernel/memory.c, all functions), [MemoryBits], [Tiling], [Buddy],
      [PageAlloc], [PoolInit] (its invariant: the blocks tile the pool, buddies are
      merged), [Allocator] (what callers see, and the class [PageAllocator] that
      clients are verified against); [ShmPool] (kernel/shm/shm_mm.c, translated on
      its own) and [Shm] (shmget, shmat, shmdt, shmctl over any allocator of the
      class).
    - Page tables: [Paging] (kernel/page.c and the processor's walk), [Mapping]
      (kernel/map.c, get_pa of kernel/offload/offload_page.c, the page-fault
      handler, the order of the memory set-up in kernel/main.c).
    - Synchronisation: [Lock] (spin lock), [Atomic] (kernel/atomic.h, irq.h),
      [Ticket], [Mutex] (kernel/offload/mutex.c), [IrqLock] (kernel/sync.h),
      [Semaphore] (kernel/semaphore.h, semaphore.c, with the scheduler reduced to
      the intention and the blocked list), [Wakeup] (a semaphore and the whole
      thread tables).
    - Threads: [DlList] (kernel/list.h), [Thread] and [Sched] (kernel/thread.c,
      signal.c), [Context] (kernel/entry.h, entrypoint.S), [ThreadInv],
      [ThreadOps], [ThreadSched], [ThreadCalls], [ThreadCreate] (the invariant and
      the specifications), [Boot] (initialisation), [ThreadSafety] (the calls of
      all cores together), [LocalApic] (the slice timer), [Frames] (what the calls
      leave alone), [Sleep] (what keeps a thread on the blocked list), [Timer] (kernel/timer.c, core numbers of multiprocessor.c).
    - Records for the host: [Stat] (kernel/stat.c), [ShellStorage]
      (kernel/shellstorage.c).
    - Offloading: [Channel] (queues and packets), [Pool] (the proxy's thread pool
      with its linked job queue, up to the joins of destroy_pool),
      [Offload] and [OffloadInv] (kernel threads, watch thread and workers on one
      channel), [OffloadProxy] (the proxy's handlers), [OffloadCalls] (the kernel's
      calls), [OffloadLayout] (where both sides expect the queues).

    ** What the theorems show

    - Allocation: any sequence of requests behaves as on a set of disjoint blocks
      (C4); one call (C28, C29); the code copied for the shared pool computes the
      same (C30); the segments of shared memory and their life cycle (C7, C31, C32).
    - Translation: the boot tables are linear (C10, C15); mapping and unmapping do
      what the processor then sees (C6); get_pa is the processor's translation
      (C11); a page fault maps a fresh zero page (C12).
    - Exclusion and order of the locks under every interleaving (C8, C17, C33), and
      of semaphores (C20); bounded waiting at the mutex under fair schedules (C26).
    - Threads: from the boot (C27) on, any calls of any cores keep every thread on
      one list and on at most one core (C1); the scheduler returns (C24), wakes
      (C25) and slices (C34); timer interrupts, which may preempt, are counted and
      keep all that (C2), and the clock is exact (C35); contexts are saved, switched
      and started (C21 to C23); lists are sequences (C16).
    - Offloading: queues are first-in first-out (C19); every call is executed once
      and answered to its caller (C3), over the pool of workers (C18); both sides
      agree on the queues (C9); requests are well formed (C14); pointers reach the
      bytes that were meant (C13); and so a call of the kernel is the call of the
      host, but for listed calls and arguments, whose behaviour is stated too (C5).
      C3 assumes that the proxy's malloc succeeds: otherwise the request is dropped.
    - Behaviour that is not as meant: lost wake-ups (C37), after which a waiter at a
      semaphore sleeps for good (C38), shared memory unmapped at boot (C36),
      arithmetic on sizes (C39, C40).

    ** Bounds and fuel

    Loops over arrays and levels run over their C bounds. select_next_thread jumps
    back under a fuel of two rounds, and C24 proves that one jump is all. The walk
    of a linked list takes the length of the heap as fuel. An access by way of the
    page tables faults at most twice: after the first fault the page is there, or
    the memory is used up and the second halts the kernel ([reach_ends]). Queues of
    the offload channels have a power of two of elements, up to 2 ^ 30, which
    cq_avail_data needs; requests to the allocator are up to 1 GiB, above which the
    C code overflows; the free memory is between 4 MiB and 4 TiB; a semaphore is
    posted fewer than 2 ^ 32 times; there are fewer threads than ticket numbers; a
    core has fewer than 2 ^ 64 ticks and a physical number below the length of
    core_load.

    ** Not modelled

    Device registers other than the local APIC's, the interrupt stubs and descriptor
    tables, the console (a second set of channels of the same form), printing and
    string routines, the ELF loader, the boot loader and image tools, the Linux
    driver that reserves cores and memory, the start-up of the proxy, and the
    headers of the C library. Of process_systemcall the 24 offloaded calls are
    modelled. Of destroy_pool the joins, and the release of threads, jobs and pool
    after them, are not. The arguments of a C call are evaluated from left to right.
    Memory is sequentially consistent, as the accesses that the steps divide are
    locked, volatile or ordered by x86; transfers that cross a page are translated
    by their first byte, as the code does. *)

From Stdlib Require Export ZArith Lia.
From stdpp Require Export prelude gmap numbers list.

#[global] Open Scope Z_scope.
#[global] Set Default Goal Selector "!".
#[global] Unset Program Cases.

Declare Scope azalea_scope.
Delimit Scope azalea_scope with az.
#[global] Open Scope azalea_scope.

(** ** Machine integers

    A C integer is a [Z]; the conversions below are the ones the compiler
    inserts when a value is stored in a variable of the given width
    ([az_types.h]: BYTE, WORD, DWORD, QWORD are the unsigned types of 8, 16, 32
    and 64 bits; [int] and [long] are signed, of 32 and 64 bits). *)

Definition u8 (z : Z) : Z := z mod 2 ^ 8.

Definition u16 (z : Z) : Z := z mod 2 ^ 16.

Definition u32 (z : Z) : Z := z mod 2 ^ 32.

Definition u64 (z : Z) : Z := z mod 2 ^ 64.

Definition s32 (z : Z) : Z := (z + 2 ^ 31) mod 2 ^ 32 - 2 ^ 31.

Definition s64 (z : Z) : Z := (z + 2 ^ 63) mod 2 ^ 64 - 2 ^ 63.

Lemma u8_small z : 0 <= z < 2 ^ 8 -> u8 z = z.
Proof. apply Z.mod_small. Qed.

Lemma u16_small z : 0 <= z < 2 ^ 16 -> u16 z = z.
Proof. apply Z.mod_small. Qed.

Lemma u32_small z : 0 <= z < 2 ^ 32 -> u32 z = z.
Proof. apply Z.mod_small. Qed.

Lemma u64_small z : 0 <= z < 2 ^ 64 -> u64 z = z.
Proof. apply Z.mod_small. Qed.

Lemma s32_small z : - 2 ^ 31 <= z < 2 ^ 31 -> s32 z = z.
Proof. intros ?. unfold s32. rewrite Z.mod_small; lia. Qed.

Lemma s64_small z : - 2 ^ 63 <= z < 2 ^ 63 -> s64 z = z.
Proof. intros ?. unfold s64. rewrite Z.mod_small; lia. Qed.

Lemma u32_bound z : 0 <= u32 z < 2 ^ 32.
Proof. apply Z.mod_pos_bound; lia. Qed.

Lemma u64_bound z : 0 <= u64 z < 2 ^ 64.
Proof. apply Z.mod_pos_bound; lia. Qed.

Lemma s32_bound z : - 2 ^ 31 <= s32 z < 2 ^ 31.
Proof. unfold s32. pose proof (Z.mod_pos_bound (z + 2 ^ 31) (2 ^ 32)). lia. Qed.

(** Rewrites a conversion away when its argument visibly fits. *)
Ltac fit :=
  repeat first
    [ rewrite u8_small by lia | rewrite u16_small by lia | rewrite u32_small by lia
    | rewrite u64_small by lia | rewrite s32_small by lia | rewrite s64_small by lia ].

(** Linear arithmetic with division and remainder by constants. *)
Ltac zdm := Z.to_euclidean_division_equations; lia.

(** ** Outcomes of a C function

    A call either returns or does not: it touches memory outside the object it
    addresses, it follows a null pointer, it divides by zero, it stops the machine
    ([debug_halt]/[debug_niy], an endless loop with a message), it waits for a
    lock or a condition that only another core can change, or the model's loop
    bound is used up.  Theorems that say a call returns exclude all of them. *)

Inductive fault : Set :=
| OutOfBounds
| NullPointer
| DivideByZero
| KernelHalt
| Spinning
| NoFuel.

#[global] Instance fault_eq_dec : EqDecision fault.
Proof. solve_decision. Defined.

Inductive outcome (A : Type) : Type :=
| Ok (a : A)
| Fault (f : fault).
Arguments Ok {A} a.
Arguments Fault {A} f.

(** ** State with faults *)

Definition M (St A : Type) : Type := St -> outcome (A * St).

Definition ret {St A} (a : A) : M St A := fun s => Ok (a, s).

Definition bind {St A B} (m : M St A) (k : A -> M St B) : M St B :=
  fun s => match m s with
           | Ok (a, s') => k a s'
           | Fault f => Fault f
           end.

Definition fail {St A} (f : fault) : M St A := fun _ => Fault f.

Definition get {St} : M St St := fun s => Ok (s, s).

Definition put {St} (s : St) : M St unit := fun _ => Ok (tt, s).

Definition gets {St A} (f : St -> A) : M St A := fun s => Ok (f s, s).

Definition modify {St} (f : St -> St) : M St unit := fun s => Ok (tt, f s).

(** The value of an option, or the fault an absent one stands for. *)
Definition the {St A} (f : fault) (o : option A) : M St A :=
  match o with
  | Some a => ret a
  | None => fail f
  end.

Notation "'let!' x := c 'in' k" := (bind c (fun x => k))
  (at level 10, x name, c at level 100, k at level 200) : azalea_scope.
Notation "'let!' ' p := c 'in' k" := (bind c (fun x => match x with p => k end))
  (at level 10, p pattern, c at level 100, k at level 200) : azalea_scope.
Notation "c ;; k" := (bind c (fun _ => k))
  (at level 100, right associativity) : azalea_scope.

(** [when b c] is C's [if (b) c;]. *)
Definition when {St} (b : bool) (c : M St unit) : M St unit :=
  if b then c else ret tt.

(** [for_up n i body] is [for (k = i; k < i + n; k++) body], with no early exit. *)
Fixpoint for_up {St} (n : nat) (i : Z) (body : Z -> M St unit) : M St unit :=
  match n with
  | O => ret tt
  | S n' => body i ;; for_up n' (i + 1) body
  end.

(** [for_each xs body] runs [body] on the elements of [xs], in order. *)
Fixpoint for_each {St A} (xs : list A) (body : A -> M St unit) : M St unit :=
  match xs with
  | [] => ret tt
  | x :: xs' => body x ;; for_each xs' body
  end.

(** ** Total-correctness triples

    [wp m Q s]: run from [s], [m] returns, with a value and a state that
    satisfy [Q]. *)

Definition wp {St A} (m : M St A) (Q : A -> St -> Prop) (s : St) : Prop :=
  match m s with
  | Ok (a, s') => Q a s'
  | Fault _ => False
  end.

Section wp_rules.
Context {St : Type}.
Implicit Types s : St.

Lemma wp_ret {A} (a : A) Q s : Q a s -> wp (ret a) Q s.
Proof. done. Qed.

Lemma wp_bind {A B} (m : M St A) (k : A -> M St B) Q s :
  wp m (fun a => wp (k a) Q) s -> wp (bind m k) Q s.
Proof. unfold wp, bind. by destruct (m s) as [[a s']|f]. Qed.

Lemma wp_get Q s : Q s s -> wp get Q s.
Proof. done. Qed.

Lemma wp_gets {A} (f : St -> A) Q s : Q (f s) s -> wp (gets f) Q s.
Proof. done. Qed.

Lemma wp_put s' Q s : Q tt s' -> wp (put s') Q s.
Proof. done. Qed.

Lemma wp_modify (f : St -> St) Q s : Q tt (f s) -> wp (modify f) Q s.
Proof. done. Qed.

Lemma wp_the {A} f (o : option A) a Q s : o = Some a -> Q a s -> wp (the f o) Q s.
Proof. by intros ->. Qed.

Lemma wp_mono {A} (m : M St A) (P Q : A -> St -> Prop) s :
  wp m P s -> (forall a s', P a s' -> Q a s') -> wp m Q s.
Proof. unfold wp. destruct (m s) as [[a s']|f]; naive_solver. Qed.

Lemma wp_when (b : bool) (c : M St unit) Q s :
  (b = true -> wp c Q s) -> (b = false -> Q tt s) -> wp (when b c) Q s.
Proof. destruct b; cbn; auto. Qed.

Lemma wp_Ok {A} (m : M St A) Q s : wp m Q s <-> exists a s', m s = Ok (a, s') /\ Q a s'.
Proof. unfold wp. destruct (m s) as [[a s']|f]; naive_solver. Qed.

(** The rule of a counted loop: an invariant indexed by the counter. *)
Lemma wp_for_up (I : Z -> St -> Prop) n i (body : Z -> M St unit) Q s :
  I i s ->
  (forall k t, i <= k < i + Z.of_nat n -> I k t -> wp (body k) (fun _ => I (k + 1)) t) ->
  (forall t, I (i + Z.of_nat n) t -> Q tt t) ->
  wp (for_up n i body) Q s.
Proof.
  revert i s. induction n as [|n IH]; intros i s HI Hbody HQ; cbn [for_up].
  - apply wp_ret, HQ. by replace (i + Z.of_nat 0) with i by lia.
  - apply wp_bind. eapply wp_mono; [apply Hbody; [lia|done]|].
    intros ? t Ht. apply IH; [done| |].
    + intros k t' Hk. apply Hbody. lia.
    + intros t' Ht'. apply HQ. by replace (i + Z.of_nat (S n))
        with (i + 1 + Z.of_nat n) by lia.
Qed.

(** The rule of a list traversal: an invariant indexed by what is left. *)
Lemma wp_for_each {A} (I : list A -> St -> Prop) xs (body : A -> M St unit) Q s :
  I xs s ->
  (forall x l t, I (x :: l) t -> wp (body x) (fun _ => I l) t) ->
  (forall t, I [] t -> Q tt t) ->
  wp (for_each xs body) Q s.
Proof.
  revert s. induction xs as [|x xs IH]; intros s HI Hbody HQ; cbn [for_each].
  - by apply wp_ret, HQ.
  - apply wp_bind. eapply wp_mono; [by apply Hbody|]. eauto.
Qed.
End wp_rules.

Create HintDb az_wp.
#[export] Hint Resolve wp_ret wp_get wp_gets wp_put wp_modify : az_wp.

(** Steps through straight-line monadic code. *)
Ltac wp_step :=
  lazymatch goal with
  | |- wp (bind _ _) _ _ => apply wp_bind
  | |- wp (ret _) _ _ => apply wp_ret
  | |- wp get _ _ => apply wp_get
  | |- wp (gets _) _ _ => apply wp_gets
  | |- wp (put _) _ _ => apply wp_put
  | |- wp (modify _) _ _ => apply wp_modify
  end.
Ltac wp_steps := repeat (wp_step; cbn beta).

(** ** Record update

    [r <| f := v |>] is C's [r.f = v] on a record value.  A record opts in with
    one [Eta] instance that rebuilds it field by field; the setter of a field is
    computed from it, with binder names that no context uses. *)

Class Eta (R : Type) := eta : R -> R.

Class SetField {R T : Type} (f : R -> T) := set_field : T -> R -> R.
Arguments set_field {R T} f {_} v r /.

Ltac solve_set_field :=
  lazymatch goal with
  | |- @SetField ?R ?T ?f =>
      let setter := constr:(fun (set__value : T) (set__record : R) =>
        ltac:(let body := eval cbv beta delta [eta] in (@eta R _ set__record) in
              let body := eval hnf in body in
              lazymatch eval pattern (f set__record) in body with
              | ?g _ => let res := eval cbv beta in (g set__value) in exact res
              end)) in
      exact setter
  end.
#[global] Hint Extern 1 (SetField _) => solve_set_field : typeclass_instances.

Notation "r <| f := v |>" := (set_field f v r)
  (at level 12, left associativity, f at level 11, v at level 60) : azalea_scope.

(** Runs an operation on one field of a larger state. *)
Definition zoom {R T A} (f : R -> T) {H : SetField f} (m : M T A) : M R A :=
  fun r => match m (f r) with
           | Ok (a, t) => Ok (a, set_field f t r)
           | Fault e => Fault e
           end.

Lemma wp_zoom {R T A} (f : R -> T) {H : SetField f} (m : M T A) Q r :
  wp m (fun a t => Q a (set_field f t r)) (f r) -> wp (zoom f m) Q r.
Proof. unfold wp, zoom. by destruct (m (f r)) as [[a t]|e]. Qed.

(** ** Arrays

    An array is a list read and written at a C index; an index outside it is no
    element at all. *)

Definition nthZ {A} (l : list A) (i : Z) : option A :=
  if 0 <=? i then l !! Z.to_nat i else None.

Definition updZ {A} (l : list A) (i : Z) (x : A) : list A :=
  if 0 <=? i then <[Z.to_nat i := x]> l else l.

Definition lenZ {A} (l : list A) : Z := Z.of_nat (length l).

Section arrays.
Context {A : Type}.
Implicit Types (l : list A) (x y : A) (i j : Z).

Lemma nthZ_Some_range l i x : nthZ l i = Some x -> 0 <= i < lenZ l.
Proof.
  unfold nthZ, lenZ. destruct (Z.leb_spec 0 i); [|done].
  intros ?%lookup_lt_Some. lia.
Qed.

Lemma nthZ_in_range l i : 0 <= i < lenZ l -> exists x, nthZ l i = Some x.
Proof.
  unfold nthZ, lenZ. intros [? ?]. destruct (Z.leb_spec 0 i); [|lia].
  destruct (lookup_lt_is_Some_2 l (Z.to_nat i)) as [x Hx]; [lia|]. by exists x.
Qed.

Lemma nthZ_None l i : nthZ l i = None <-> ~ (0 <= i < lenZ l).
Proof.
  split.
  - intros Hn Hr. destruct (nthZ_in_range l i Hr) as [x Hx]. congruence.
  - intros Hn. destruct (nthZ l i) as [x|] eqn:E; [|done].
    apply nthZ_Some_range in E. tauto.
Qed.

Lemma lenZ_updZ l i x : lenZ (updZ l i x) = lenZ l.
Proof. unfold lenZ, updZ. destruct (0 <=? i); [by rewrite length_insert|done]. Qed.

Lemma nthZ_updZ_eq l i x : 0 <= i < lenZ l -> nthZ (updZ l i x) i = Some x.
Proof.
  unfold nthZ, updZ, lenZ. intros [? ?]. destruct (Z.leb_spec 0 i); [|lia].
  apply list_lookup_insert_eq. lia.
Qed.

Lemma nthZ_updZ_ne l i j x : i <> j -> nthZ (updZ l i x) j = nthZ l j.
Proof.
  unfold nthZ, updZ. intros ?. destruct (Z.leb_spec 0 j); [|done].
  destruct (Z.leb_spec 0 i); [|done]. apply list_lookup_insert_ne. lia.
Qed.

Lemma nthZ_updZ l i j x :
  nthZ (updZ l i x) j =
  if decide (i = j /\ 0 <= i < lenZ l) then Some x else nthZ l j.
Proof.
  case_decide as Hd.
  - destruct Hd as [-> Hr]. by apply nthZ_updZ_eq.
  - destruct (decide (i = j)) as [->|]; [|by apply nthZ_updZ_ne].
    rewrite (proj2 (nthZ_None l j)) by tauto. apply nthZ_None.
    rewrite lenZ_updZ. tauto.
Qed.

Lemma updZ_updZ l i x y : updZ (updZ l i x) i y = updZ l i y.
Proof. unfold updZ. destruct (0 <=? i); [apply list_insert_insert_eq|done]. Qed.

Lemma updZ_same l i x : nthZ l i = Some x -> updZ l i x = l.
Proof.
  unfold nthZ, updZ. destruct (0 <=? i); [|done]. apply list_insert_id.
Qed.

Lemma nthZ_app_l l1 l2 i : i < lenZ l1 -> nthZ (l1 ++ l2) i = nthZ l1 i.
Proof.
  unfold nthZ, lenZ. intros ?. destruct (Z.leb_spec 0 i); [|done].
  apply lookup_app_l. lia.
Qed.

Lemma nthZ_app_r l1 l2 i : lenZ l1 <= i -> nthZ (l1 ++ l2) i = nthZ l2 (i - lenZ l1).
Proof.
  unfold nthZ, lenZ. intros ?. destruct (Z.leb_spec 0 i); [|lia].
  destruct (Z.leb_spec 0 (i - Z.of_nat (length l1))); [|lia].
  rewrite lookup_app_r by lia. f_equal. lia.
Qed.

Lemma nthZ_replicate n x i : 0 <= i < Z.of_nat n -> nthZ (replicate n x) i = Some x.
Proof.
  unfold nthZ. intros ?. destruct (Z.leb_spec 0 i); [|lia].
  apply lookup_replicate_2. lia.
Qed.

Lemma lenZ_replicate n x : lenZ (replicate n x) = Z.of_nat n.
Proof. unfold lenZ. by rewrite length_replicate. Qed.

Lemma lenZ_app l1 l2 : lenZ (l1 ++ l2) = lenZ l1 + lenZ l2.
Proof. unfold lenZ. rewrite length_app. lia. Qed.

Lemma list_eq_nthZ l1 l2 : (forall i, nthZ l1 i = nthZ l2 i) -> l1 = l2.
Proof.
  intros H. apply list_eq. intros i. specialize (H (Z.of_nat i)).
  unfold nthZ in H. rewrite (proj2 (Z.leb_le 0 (Z.of_nat i))), Nat2Z.id in H by lia.
  done.
Qed.

Lemma nthZ_elem_of l x : x ∈ l <-> exists i, nthZ l i = Some x.
Proof.
  rewrite list_elem_of_lookup. split.
  - intros [i Hi]. exists (Z.of_nat i). unfold nthZ.
    by rewrite (proj2 (Z.leb_le 0 (Z.of_nat i))), Nat2Z.id by lia.
  - intros [i Hi]. unfold nthZ in Hi. destruct (0 <=? i); [eauto|done].
Qed.
End arrays.

(** What a list holds, element by element, around a change of one element *)
Lemma bind_updZ {A B} (h : A -> list B) l i x : nthZ l i = Some x ->
  exists rest, l ≫= h ≡ₚ h x ++ rest /\ forall y, updZ l i y ≫= h ≡ₚ h y ++ rest.
Proof.
  unfold nthZ, updZ. destruct (0 <=? i); [|done]. intros Hi.
  exists ((take (Z.to_nat i) l ≫= h) ++ (drop (S (Z.to_nat i)) l ≫= h)).
  assert (forall y, (take (Z.to_nat i) l ++ y :: drop (S (Z.to_nat i)) l) ≫= h ≡ₚ
    h y ++ (take (Z.to_nat i) l ≫= h) ++ (drop (S (Z.to_nat i)) l ≫= h)) as Hy.
  { intros y. rewrite bind_app, bind_cons. by rewrite Permutation_app_swap_app. }
  split; [by rewrite <- Hy, take_drop_middle|]. intros y.
  rewrite insert_take_drop by (by eapply lookup_lt_Some). apply Hy.
Qed.

Lemma nthZ_fmap {A B} (f : A -> B) l i : nthZ (f <$> l) i = f <$> nthZ l i.
Proof. unfold nthZ. destruct (0 <=? i); [apply list_lookup_fmap|done]. Qed.

(** ** Bits and powers of two *)

Lemma pow2_pos l : 0 <= l -> 0 < 2 ^ l.
Proof. intros. apply Z.pow_pos_nonneg; lia. Qed.

Lemma pow2_succ l : 0 <= l -> 2 ^ (l + 1) = 2 * 2 ^ l.
Proof. intros. rewrite Z.pow_add_r by lia. lia. Qed.

Lemma pow2_mono a b : a <= b -> 2 ^ a <= 2 ^ b.
Proof. intros. apply Z.pow_le_mono_r; lia. Qed.

Lemma shiftr_pow2 n l : 0 <= l -> Z.shiftr n l = n / 2 ^ l.
Proof. intros. by apply Z.shiftr_div_pow2. Qed.

Lemma shiftl_pow2 n l : 0 <= l -> Z.shiftl n l = n * 2 ^ l.
Proof. intros. by apply Z.shiftl_mul_pow2. Qed.

Lemma div_pow2_succ p l : 0 <= l -> p / 2 ^ (l + 1) = p / 2 ^ l / 2.
Proof.
  intros. pose proof (pow2_pos l). rewrite pow2_succ, Z.mul_comm by lia.
  by rewrite Z.div_div by lia.
Qed.

#[export] Hint Resolve pow2_pos : az_arith.

(** A test of a byte against a one-bit mask is a test of that bit. *)
Lemma land_bit_eq0 b k : 0 <= k -> (Z.land b (Z.shiftl 1 k) =? 0) = negb (Z.testbit b k).
Proof.
  intros Hk. destruct (Z.testbit b k) eqn:E; cbn.
  - apply Z.eqb_neq. intros H0.
    assert (Z.testbit (Z.land b (Z.shiftl 1 k)) k = false) as H1
      by (rewrite H0; apply Z.bits_0).
    rewrite Z.land_spec, E, Z.shiftl_spec, Z.sub_diag in H1 by lia. done.
  - apply Z.eqb_eq. apply Z.bits_inj'. intros i Hi.
    rewrite Z.land_spec, Z.bits_0, Z.shiftl_spec by lia.
    destruct (decide (i = k)) as [->|]; [by rewrite E|].
    assert (Z.testbit 1 (i - k) = false) as ->; [|apply andb_false_r].
    destruct (decide (0 <= i - k)); [|apply Z.testbit_neg_r; lia].
    apply Z.bits_above_log2; cbn; lia.
Qed.

Lemma testbit_one k : Z.testbit 1 k = bool_decide (k = 0).
Proof.
  destruct (bool_decide_reflect (k = 0)) as [->|]; [done|].
  destruct (decide (0 <= k)); [|apply Z.testbit_neg_r; lia].
  apply Z.bits_above_log2; cbn; lia.
Qed.

(** Setting and clearing one bit. *)
Lemma testbit_set b k i : 0 <= k -> 0 <= i ->
  Z.testbit (Z.lor b (Z.shiftl 1 k)) i = bool_decide (i = k) || Z.testbit b i.
Proof.
  intros. rewrite Z.lor_spec, Z.shiftl_spec, testbit_one by lia.
  rewrite orb_comm. f_equal. apply bool_decide_ext. lia.
Qed.

Lemma testbit_clear b k i : 0 <= k -> 0 <= i ->
  Z.testbit (Z.land b (Z.lnot (Z.shiftl 1 k))) i =
  negb (bool_decide (i = k)) && Z.testbit b i.
Proof.
  intros. rewrite Z.land_spec, Z.lnot_spec, Z.shiftl_spec, testbit_one by lia.
  rewrite andb_comm. do 2 f_equal. apply bool_decide_ext. lia.
Qed.

(** A number whose bits from [n] on are clear is below [2 ^ n], and conversely. *)
Lemma bits_lt_pow2 b n : 0 <= b -> 0 <= n -> (forall i, n <= i -> Z.testbit b i = false) -> b < 2 ^ n.
Proof.
  intros Hb Hn Hi. destruct (Z.lt_ge_cases b (2 ^ n)) as [|Hge]; [done|].
  pose proof (pow2_pos n Hn).
  assert (n <= Z.log2 b) as Hl by (apply Z.log2_le_pow2; lia).
  specialize (Hi _ Hl). rewrite Z.bit_log2 in Hi by lia. done.
Qed.

Lemma lt_pow2_bits b n i : 0 <= b < 2 ^ n -> 0 <= n <= i -> Z.testbit b i = false.
Proof.
  intros Hb Hn. destruct (decide (b = 0)) as [->|]; [apply Z.bits_0|].
  apply Z.bits_above_log2; [lia|]. apply Z.log2_lt_pow2; [lia|].
  eapply Z.lt_le_trans; [apply Hb|]. apply pow2_mono. lia.
Qed.

Lemma byte_high_bits b i : 0 <= b < 2 ^ 8 -> 8 <= i -> Z.testbit b i = false.
Proof. intros ? ?. by apply (lt_pow2_bits b 8). Qed.
