(* ===== verification/Utility.v ===== *)
(** * Byte memory and the kernel's memory routines ([kernel/utility.c])

    Memory is a total map from addresses to bytes.  The routines copy, fill and
    compare eight bytes at a time and finish byte by byte; the theorems say that
    they agree with their byte-by-byte definitions. *)

From S2P Require Import Prelude.

(** ** Memory *)

Definition memory : Type := Z -> Z.

Definition store8 (m : memory) (a v : Z) : memory :=
  fun x => if x =? a then u8 v else m x.

(** A little-endian 8-byte store and load. *)
Fixpoint store_bytes (n : nat) (m : memory) (a v : Z) : memory :=
  match n with
  | O => m
  | S n' => store_bytes n' (store8 m a v) (a + 1) (Z.shiftr v 8)
  end.

Definition store64 (m : memory) (a v : Z) : memory := store_bytes 8 m a v.

Fixpoint load_bytes (n : nat) (m : memory) (a : Z) : Z :=
  match n with
  | O => 0
  | S n' => Z.lor (u8 (m a)) (Z.shiftl (load_bytes n' m (a + 1)) 8)
  end.

Definition load64 (m : memory) (a : Z) : Z := load_bytes 8 m a.

(** Every cell holds a byte. *)
Definition mem_ok (m : memory) : Prop := forall a, 0 <= m a < 2 ^ 8.

(** ** lk_memset *)

(** The eight-fold repetition of [data] in a QWORD. *)
Fixpoint fill_qword (n : nat) (tmp data : Z) : Z :=
  match n with
  | O => tmp
  | S n' => fill_qword n' (u64 (Z.lor (Z.shiftl tmp 8) data)) data
  end.

Fixpoint memset_words (n : nat) (i : Z) (m : memory) (address tmp : Z) : memory :=
  match n with
  | O => m
  | S n' => memset_words n' (i + 1) (store64 m (address + 8 * i) tmp) address tmp
  end.

Fixpoint memset_bytes (n : nat) (off : Z) (m : memory) (address data : Z) : memory :=
  match n with
  | O => m
  | S n' => memset_bytes n' (off + 1) (store8 m (address + off) data) address data
  end.

Definition lk_memset (m : memory) (address data size : Z) : memory :=
  let tmp := fill_qword 8 0 data in
  let words := Z.to_nat (Z.quot size 8) in
  let m1 := memset_words words 0 m address tmp in
  let remain_offset := Z.of_nat words * 8 in
  memset_bytes (Z.to_nat (Z.rem size 8)) remain_offset m1 address data.

(** ** lk_memcpy *)

Fixpoint memcpy_words (n : nat) (i : Z) (m : memory) (dst src : Z) : memory :=
  match n with
  | O => m
  | S n' => memcpy_words n' (i + 1)
              (store64 m (dst + 8 * i) (load64 m (src + 8 * i))) dst src
  end.

Fixpoint memcpy_bytes (n : nat) (off : Z) (m : memory) (dst src : Z) : memory :=
  match n with
  | O => m
  | S n' => memcpy_bytes n' (off + 1) (store8 m (dst + off) (m (src + off))) dst src
  end.

(** Returns [size], as the code does. *)
Definition lk_memcpy (m : memory) (dst src size : Z) : memory * Z :=
  let words := Z.to_nat (Z.quot size 8) in
  let m1 := memcpy_words words 0 m dst src in
  let remain_byte := Z.of_nat words * 8 in
  (memcpy_bytes (Z.to_nat (Z.rem size 8)) remain_byte m1 dst src, size).

(** ** lk_memcmp *)

(** The lowest non-zero byte of a QWORD, from byte [j] on. *)
Fixpoint low_byte (n : nat) (j value : Z) : option Z :=
  match n with
  | O => None
  | S n' =>
      let b := Z.land (Z.shiftr value (j * 8)) 0xFF in
      if b =? 0 then low_byte n' (j + 1) value else Some b
  end.

Fixpoint memcmp_words (n : nat) (i : Z) (m : memory) (dst src : Z) : option Z :=
  match n with
  | O => None
  | S n' =>
      let value := u64 (load64 m (dst + 8 * i) - load64 m (src + 8 * i)) in
      match (if value =? 0 then None else low_byte 8 0 value) with
      | Some r => Some r
      | None => memcmp_words n' (i + 1) m dst src
      end
  end.

(** A [char] is signed: the difference of two bytes, reduced to a signed byte. *)
Definition s8 (z : Z) : Z := (z + 2 ^ 7) mod 2 ^ 8 - 2 ^ 7.

Fixpoint memcmp_bytes (n : nat) (off : Z) (m : memory) (dst src : Z) : Z :=
  match n with
  | O => 0
  | S n' =>
      let ch_value := s8 (s8 (m (dst + off)) - s8 (m (src + off))) in
      if ch_value =? 0 then memcmp_bytes n' (off + 1) m dst src else ch_value
  end.

Definition lk_memcmp (m : memory) (dst src size : Z) : Z :=
  let words := Z.to_nat (Z.quot size 8) in
  match memcmp_words words 0 m dst src with
  | Some r => r
  | None => memcmp_bytes (Z.to_nat (Z.rem size 8)) (Z.of_nat words * 8) m dst src
  end.

(** ** Stores and loads *)

Lemma u8_bound z : 0 <= u8 z < 2 ^ 8.
Proof. apply Z.mod_pos_bound. lia. Qed.

Lemma u8_testbit z i : 0 <= i < 8 -> Z.testbit (u8 z) i = Z.testbit z i.
Proof. intros. unfold u8. apply Z.mod_pow2_bits_low. lia. Qed.

Lemma store_bytes_spec n m a v x :
  store_bytes n m a v x =
  if decide (a <= x < a + Z.of_nat n) then u8 (Z.shiftr v (8 * (x - a))) else m x.
Proof.
  revert m a v. induction n as [|n IH]; intros m a v; cbn [store_bytes].
  - rewrite decide_False by lia. done.
  - rewrite IH. unfold store8. destruct (Z.eqb_spec x a) as [->|].
    + rewrite decide_False, decide_True by lia.
      by replace (8 * (a - a)) with 0 by lia.
    + destruct (decide (a + 1 <= x < a + 1 + Z.of_nat n)).
      * rewrite decide_True by lia. rewrite Z.shiftr_shiftr by lia.
        do 2 f_equal. lia.
      * rewrite decide_False by lia. done.
Qed.

Lemma load_bytes_testbit n m a i : 0 <= i ->
  Z.testbit (load_bytes n m a) i =
  bool_decide (i < 8 * Z.of_nat n) && Z.testbit (u8 (m (a + i / 8))) (i mod 8).
Proof.
  revert a i. induction n as [|n IH]; intros a i Hi; cbn [load_bytes].
  - rewrite Z.bits_0, bool_decide_false by lia. done.
  - rewrite Z.lor_spec, Z.shiftl_spec by lia.
    destruct (decide (i < 8)).
    + rewrite (Z.testbit_neg_r _ (i - 8)), orb_false_r by lia.
      rewrite bool_decide_true by lia. cbn.
      rewrite Z.div_small, Z.add_0_r, Z.mod_small by lia. done.
    + rewrite (byte_high_bits (u8 (m a)) i) by (try apply u8_bound; lia). cbn.
      rewrite IH by lia. f_equal.
      * apply bool_decide_ext. lia.
      * replace (i / 8) with ((i - 8) / 8 + 1)
          by (rewrite <- Z.div_add by lia; f_equal; lia).
        replace ((i - 8) mod 8) with (i mod 8)
          by (rewrite <- (Z.mod_add (i - 8) 1 8) by lia; f_equal; lia).
        do 3 f_equal. lia.
Qed.

Lemma load_bytes_u8 n m a k : 0 <= k < Z.of_nat n ->
  u8 (Z.shiftr (load_bytes n m a) (8 * k)) = u8 (m (a + k)).
Proof.
  intros Hk. apply Z.bits_inj'. intros i Hi. destruct (decide (i < 8)).
  - rewrite u8_testbit, Z.shiftr_spec, load_bytes_testbit by lia.
    rewrite bool_decide_true by lia. cbn.
    replace ((i + 8 * k) / 8) with k
      by (rewrite (Z.mul_comm 8 k), Z.div_add, Z.div_small by lia; lia).
    rewrite (Z.mul_comm 8 k), Z.mod_add, Z.mod_small by lia. done.
  - rewrite !byte_high_bits by (try apply u8_bound; lia). done.
Qed.

Lemma load_bytes_ext n m m' a b :
  load_bytes n m a = load_bytes n m' b <->
  forall k, 0 <= k < Z.of_nat n -> u8 (m (a + k)) = u8 (m' (b + k)).
Proof.
  split.
  - intros E k Hk. rewrite <- !(load_bytes_u8 n) by lia. by rewrite E.
  - revert a b. induction n as [|n IH]; intros a b Hk; cbn [load_bytes]; [done|].
    f_equal.
    + specialize (Hk 0). rewrite !Z.add_0_r in Hk. apply Hk. lia.
    + f_equal. apply IH. intros k ?. rewrite <- !Z.add_assoc. apply Hk. lia.
Qed.

Lemma load_bytes_bound n m a : 0 <= load_bytes n m a < 2 ^ (8 * Z.of_nat n).
Proof.
  assert (forall a, 0 <= load_bytes n m a) as Hpos.
  { induction n as [|n IH]; intros b; cbn [load_bytes]; [done|].
    apply Z.lor_nonneg. split; [apply u8_bound|].
    apply Z.shiftl_nonneg. auto. }
  split; [done|]. apply bits_lt_pow2; [done|lia|].
  intros i Hi. rewrite load_bytes_testbit, bool_decide_false by lia. done.
Qed.

Lemma store64_spec m a v x :
  store64 m a v x = if decide (a <= x < a + 8) then u8 (Z.shiftr v (8 * (x - a))) else m x.
Proof. apply (store_bytes_spec 8). Qed.

(** A stored QWORD reads back. *)
Lemma load64_store64 m a v : 0 <= v < 2 ^ 64 -> load64 (store64 m a v) a = v.
Proof.
  intros Hv. apply Z.bits_inj'. intros i Hi. unfold load64.
  rewrite load_bytes_testbit by lia. destruct (decide (i < 64)).
  - rewrite bool_decide_true by lia. cbn [andb].
    pose proof (Z.mod_pos_bound i 8). rewrite u8_testbit by lia.
    rewrite store64_spec, decide_True by (pose proof (Z.div_mod i 8); lia).
    rewrite u8_testbit, Z.shiftr_spec by lia.
    f_equal. pose proof (Z.div_mod i 8). lia.
  - rewrite bool_decide_false by lia. symmetry. apply (lt_pow2_bits v 64); lia.
Qed.

Lemma load64_store64_ne m a b v : b + 8 <= a \/ a + 8 <= b -> load64 (store64 m a v) b = load64 m b.
Proof.
  intros Hne. apply load_bytes_ext. intros k Hk. rewrite store64_spec.
  destruct (decide _) as [?|?]; [lia|done].
Qed.

(** ** lk_memset fills exactly its range *)

Lemma fill_qword_testbit n tmp data j : 0 <= data < 2 ^ 8 -> 0 <= j < 64 ->
  Z.testbit (fill_qword n tmp data) j =
  if decide (j < 8 * Z.of_nat n) then Z.testbit data (j mod 8)
  else Z.testbit tmp (j - 8 * Z.of_nat n).
Proof.
  intros Hd Hj. revert tmp. induction n as [|n IH]; intros tmp; cbn [fill_qword].
  { rewrite decide_False by lia. f_equal. lia. }
  rewrite IH. destruct (decide (j < 8 * Z.of_nat n)).
  { rewrite decide_True by lia. done. }
  unfold u64. rewrite Z.mod_pow2_bits_low, Z.lor_spec, Z.shiftl_spec by lia.
  case_decide.
  - rewrite Z.testbit_neg_r by lia. cbn. f_equal.
    replace j with (j - 8 * Z.of_nat n + Z.of_nat n * 8) at 2 by lia.
    rewrite Z.mod_add, Z.mod_small; lia.
  - rewrite (byte_high_bits data), orb_false_r by lia. f_equal. lia.
Qed.

Lemma fill_qword_byte data k : 0 <= data < 2 ^ 8 -> 0 <= k < 8 ->
  u8 (Z.shiftr (fill_qword 8 0 data) (8 * k)) = data.
Proof.
  intros Hd Hk. apply Z.bits_inj'. intros i Hi. destruct (decide (i < 8)).
  - rewrite u8_testbit, Z.shiftr_spec, fill_qword_testbit, decide_True by lia.
    by rewrite (Z.mul_comm 8 k), Z.mod_add, Z.mod_small by lia.
  - by rewrite !byte_high_bits by (try apply u8_bound; lia).
Qed.

Lemma memset_words_spec n i m address data x : 0 <= data < 2 ^ 8 ->
  memset_words n i m address (fill_qword 8 0 data) x =
  if decide (address + 8 * i <= x < address + 8 * (i + Z.of_nat n)) then data else m x.
Proof.
  intros Hd. revert i m. induction n as [|n IH]; intros i m; cbn [memset_words].
  { by rewrite decide_False by lia. }
  rewrite IH, store64_spec. case_decide; [by rewrite decide_True by lia|].
  case_decide; [rewrite decide_True by lia|by rewrite decide_False by lia].
  apply fill_qword_byte; lia.
Qed.

Lemma memset_bytes_spec n off m address data x : 0 <= data < 2 ^ 8 ->
  memset_bytes n off m address data x =
  if decide (address + off <= x < address + off + Z.of_nat n) then data else m x.
Proof.
  intros Hd. revert off m. induction n as [|n IH]; intros off m; cbn [memset_bytes].
  { by rewrite decide_False by lia. }
  rewrite IH. unfold store8. case_decide; [by rewrite decide_True by lia|].
  destruct (Z.eqb_spec x (address + off)).
  - rewrite decide_True by lia. by apply u8_small.
  - by rewrite decide_False by lia.
Qed.

(** [size / 8] words and [size % 8] bytes are [size] bytes, and none at all when
    [size] is negative. *)
Lemma words_and_bytes size :
  8 * Z.of_nat (Z.to_nat (Z.quot size 8)) + Z.of_nat (Z.to_nat (Z.rem size 8)) = Z.max 0 size.
Proof.
  pose proof (Z.quot_rem' size 8). destruct (Z.le_gt_cases 0 size).
  - pose proof (Z.rem_bound_pos size 8). pose proof (Z.quot_pos size 8). lia.
  - pose proof (Z.rem_bound_pos (- size) 8). pose proof (Z.quot_pos (- size) 8).
    rewrite Z.rem_opp_l, Z.quot_opp_l in * by lia. lia.
Qed.

(** The byte-by-byte reading of [lk_memset]; a negative size fills nothing. *)
Lemma lk_memset_lookup m address data size x : 0 <= data < 2 ^ 8 ->
  lk_memset m address data size x =
  if decide (address <= x < address + size) then data else m x.
Proof.
  intros Hd. pose proof (words_and_bytes size). unfold lk_memset.
  rewrite memset_bytes_spec, memset_words_spec by lia.
  repeat case_decide; try done; lia.
Qed.

(** ** lk_memcpy copies exactly its range *)

Lemma memcpy_words_spec n i m dst src x :
  mem_ok m -> 0 <= i ->
  (dst + 8 * (i + Z.of_nat n) <= src + 8 * i \/ src + 8 * (i + Z.of_nat n) <= dst + 8 * i) ->
  memcpy_words n i m dst src x =
  if decide (dst + 8 * i <= x < dst + 8 * (i + Z.of_nat n)) then m (src + (x - dst)) else m x.
Proof.
  intros Hm. revert i m Hm. induction n as [|n IH]; intros i m Hm Hi Hsep;
    cbn [memcpy_words].
  { by rewrite decide_False by lia. }
  assert (mem_ok (store64 m (dst + 8 * i) (load64 m (src + 8 * i)))) as Hm'.
  { intros a. rewrite store64_spec. case_decide; [apply u8_bound|done]. }
  rewrite IH by (done || lia). rewrite !store64_spec. case_decide.
  - rewrite !decide_False, decide_True by lia. done.
  - case_decide; [|by rewrite decide_False by lia].
    rewrite decide_True by lia. unfold load64. rewrite load_bytes_u8 by lia.
    rewrite u8_small by apply Hm. f_equal. lia.
Qed.

Lemma memcpy_bytes_spec n off m dst src x :
  mem_ok m -> 0 <= off ->
  (dst + off + Z.of_nat n <= src + off \/ src + off + Z.of_nat n <= dst + off) ->
  memcpy_bytes n off m dst src x =
  if decide (dst + off <= x < dst + off + Z.of_nat n) then m (src + (x - dst)) else m x.
Proof.
  intros Hm. revert off m Hm. induction n as [|n IH]; intros off m Hm Hoff Hsep;
    cbn [memcpy_bytes].
  { by rewrite decide_False by lia. }
  assert (mem_ok (store8 m (dst + off) (m (src + off)))) as Hm'.
  { intros a. unfold store8. destruct (a =? _); [apply u8_bound|done]. }
  rewrite IH by (done || lia). unfold store8. case_decide.
  - rewrite decide_True by lia. destruct (Z.eqb_spec (src + (x - dst)) (dst + off)); [lia|done].
  - destruct (Z.eqb_spec x (dst + off)); [|by rewrite decide_False by lia].
    rewrite decide_True by lia. rewrite u8_small by apply Hm. f_equal. lia.
Qed.

(** [lk_memcpy] on regions that do not overlap copies [size] bytes and leaves
    every other byte of memory alone, although it moves eight bytes at a time; it
    returns [size]. *)
Theorem lk_memcpy_copies m dst src size :
  mem_ok m -> 0 <= size -> (dst + size <= src \/ src + size <= dst) ->
  snd (lk_memcpy m dst src size) = size /\
  forall x, fst (lk_memcpy m dst src size) x =
    if decide (dst <= x < dst + size) then m (src + (x - dst)) else m x.
Proof.
  intros Hm Hsize Hsep. split; [done|]. intros x. pose proof (words_and_bytes size).
  cbn [fst lk_memcpy].
  set (w := Z.to_nat (Z.quot size 8)) in *. set (b := Z.to_nat (Z.rem size 8)) in *.
  assert (forall a, memcpy_words w 0 m dst src a =
    if decide (dst <= a < dst + 8 * Z.of_nat w) then m (src + (a - dst)) else m a) as Hw.
  { intros a. rewrite memcpy_words_spec by (done || lia).
    destruct (decide (dst <= a < dst + 8 * Z.of_nat w)).
    - by rewrite decide_True by lia.
    - by rewrite decide_False by lia. }
  rewrite memcpy_bytes_spec; [|intros a; rewrite Hw; by case_decide|lia|lia].
  rewrite !Hw. case_decide.
  - rewrite decide_False, decide_True by lia. done.
  - destruct (decide (dst <= x < dst + 8 * Z.of_nat w)).
    + by rewrite decide_True by lia.
    + by rewrite decide_False by lia.
Qed.

Lemma lk_memcpy_copies_witness :
  let m : memory := fun a => if a =? 3 then 7 else 0 in
  fst (lk_memcpy m 20 0 11) 23 = 7 /\ fst (lk_memcpy m 20 0 11) 31 = 0.
Proof.
  cbn zeta. set (m := fun a => _).
  assert (mem_ok m) as Hm by (intros a; unfold m; destruct (a =? 3); lia).
  destruct (lk_memcpy_copies m 20 0 11 Hm ltac:(lia) ltac:(lia)) as [_ H].
  split; rewrite H; reflexivity.
Defined.

(** ** lk_memcmp decides equality *)

Lemma low_byte_None n j value : 0 <= j ->
  low_byte n j value = None <->
  forall k, j <= k < j + Z.of_nat n -> u8 (Z.shiftr value (8 * k)) = 0.
Proof.
  revert j. induction n as [|n IH]; intros j Hj; cbn [low_byte].
  { split; [lia|done]. }
  change 0xFF with (Z.ones 8). rewrite Z.land_ones, (Z.mul_comm j 8) by lia.
  change (Z.shiftr value (8 * j) mod 2 ^ 8) with (u8 (Z.shiftr value (8 * j))).
  destruct (Z.eqb_spec (u8 (Z.shiftr value (8 * j))) 0) as [E|E].
  - rewrite IH by lia. split.
    + intros H k Hk. destruct (decide (k = j)) as [->|]; [done|]. apply H. lia.
    + intros H k Hk. apply H. lia.
  - split; [done|]. intros H. destruct E. apply H. lia.
Qed.

Lemma low_byte_Some n j value r : low_byte n j value = Some r -> r <> 0.
Proof.
  revert j. induction n as [|n IH]; intros j; cbn [low_byte]; [done|].
  destruct (Z.eqb_spec (Z.land (Z.shiftr value (j * 8)) 0xFF) 0); [apply IH|].
  by intros [= <-].
Qed.

Lemma qword_zero_bytes v : 0 <= v < 2 ^ 64 ->
  (forall k, 0 <= k < 8 -> u8 (Z.shiftr v (8 * k)) = 0) -> v = 0.
Proof.
  intros Hv Hk. apply Z.bits_inj'. intros i Hi. rewrite Z.bits_0.
  destruct (decide (i < 64)); [|apply (lt_pow2_bits v 64); lia].
  pose proof (Z.div_mod i 8). pose proof (Z.mod_pos_bound i 8).
  assert (Z.testbit (u8 (Z.shiftr v (8 * (i / 8)))) (i mod 8) = false) as E
    by (rewrite Hk by lia; apply Z.bits_0).
  rewrite u8_testbit, Z.shiftr_spec in E by lia.
  by replace (i mod 8 + 8 * (i / 8)) with i in E by lia.
Qed.

Lemma memcmp_words_None n i m dst src : mem_ok m -> 0 <= i ->
  memcmp_words n i m dst src = None <->
  forall k, 8 * i <= k < 8 * (i + Z.of_nat n) -> m (dst + k) = m (src + k).
Proof.
  intros Hm. revert i. induction n as [|n IH]; intros i Hi; cbn [memcmp_words].
  { split; [lia|done]. }
  pose proof (load_bytes_bound 8 m (dst + 8 * i)) as B1.
  pose proof (load_bytes_bound 8 m (src + 8 * i)) as B2.
  change (8 * Z.of_nat 8) with 64 in B1, B2.
  fold (load64 m (dst + 8 * i)) in *. fold (load64 m (src + 8 * i)) in *.
  set (value := u64 _). pose proof (u64_bound (load64 m (dst + 8 * i) - load64 m (src + 8 * i))).
  assert (value = 0 <-> forall k, 0 <= k < 8 -> m (dst + 8 * i + k) = m (src + 8 * i + k)) as Hv.
  { transitivity (load64 m (dst + 8 * i) = load64 m (src + 8 * i)).
    - unfold value, u64 in *. split; [|intros ->; by rewrite Z.sub_diag].
      intros Hz. apply Z.mod_divide in Hz; [|lia]. destruct Hz as [q Hq]. nia.
    - unfold load64. rewrite load_bytes_ext. split; intros Hk k Hk'.
      + specialize (Hk k ltac:(lia)). by rewrite !u8_small in Hk by apply Hm.
      + f_equal. apply Hk. lia. }
  destruct (Z.eqb_spec value 0) as [E|E].
  - rewrite IH by lia. rewrite Hv in E. split; intros Hk k Hk'.
    + destruct (decide (k < 8 * i + 8)); [|apply Hk; lia].
      specialize (E (k - 8 * i) ltac:(lia)).
      by replace (dst + 8 * i + (k - 8 * i)) with (dst + k) in E by lia;
        replace (src + 8 * i + (k - 8 * i)) with (src + k) in E by lia.
    + apply Hk. lia.
  - destruct (low_byte 8 0 value) as [r|] eqn:El.
    + split; [done|]. intros Hk. destruct E. apply Hv. intros k Hk'.
      rewrite <- !Z.add_assoc. apply Hk. lia.
    + rewrite low_byte_None in El by lia. destruct E.
      apply qword_zero_bytes; [done|]. intros k ?. apply El. lia.
Qed.

Lemma memcmp_words_nonzero n i m dst src r : memcmp_words n i m dst src = Some r -> r <> 0.
Proof.
  revert i. induction n as [|n IH]; intros i; cbn [memcmp_words]; [done|].
  destruct (_ =? 0); [apply IH|]. destruct (low_byte _ _ _) eqn:E; [|apply IH].
  intros [= <-]. by eapply low_byte_Some.
Qed.

Lemma s8_sub_zero a b : 0 <= a < 2 ^ 8 -> 0 <= b < 2 ^ 8 ->
  s8 (s8 a - s8 b) = 0 <-> a = b.
Proof. unfold s8. intros ? ?. split; [|intros ->; by rewrite Z.sub_diag]. zdm. Qed.

Lemma memcmp_bytes_zero n off m dst src : mem_ok m ->
  memcmp_bytes n off m dst src = 0 <->
  forall k, off <= k < off + Z.of_nat n -> m (dst + k) = m (src + k).
Proof.
  intros Hm. revert off. induction n as [|n IH]; intros off; cbn [memcmp_bytes].
  { split; [lia|done]. }
  destruct (Z.eqb_spec (s8 (s8 (m (dst + off)) - s8 (m (src + off)))) 0) as [E|E].
  - rewrite IH. rewrite s8_sub_zero in E by apply Hm. split; intros Hk k Hk'.
    + destruct (decide (k = off)) as [->|]; [done|]. apply Hk. lia.
    + apply Hk. lia.
  - split; [done|]. intros Hk. destruct E. apply s8_sub_zero; [apply Hm..|].
    apply Hk. lia.
Qed.

(** [lk_memcmp] returns 0 exactly when the two regions hold the same bytes,
    although it compares QWORDs by subtraction. *)
Theorem lk_memcmp_zero_iff m dst src size :
  mem_ok m -> 0 <= size ->
  lk_memcmp m dst src size = 0 <-> forall k, 0 <= k < size -> m (dst + k) = m (src + k).
Proof.
  intros Hm Hsize. pose proof (words_and_bytes size). unfold lk_memcmp.
  destruct (memcmp_words _ 0 m dst src) as [r|] eqn:E.
  - split.
    + intros ->. by apply memcmp_words_nonzero in E.
    + intros Hk. assert (memcmp_words (Z.to_nat (Z.quot size 8)) 0 m dst src = None); [|congruence].
      apply memcmp_words_None; [done|lia|]. intros k ?. apply Hk. lia.
  - rewrite memcmp_words_None in E by (done || lia). rewrite memcmp_bytes_zero by done.
    split; intros Hk k Hk'.
    + destruct (decide (k < Z.of_nat (Z.to_nat (Z.quot size 8)) * 8)).
      * apply E. lia.
      * apply Hk. lia.
    + apply Hk. lia.
Qed.

Lemma lk_memcmp_zero_iff_witness :
  lk_memcmp (fun a => if a =? 12 then 1 else 0) 0 100 13 <> 0.
Proof.
  set (m := fun a => _).
  assert (mem_ok m) as Hm by (intros a; unfold m; destruct (a =? 12); lia).
  intros H. apply (lk_memcmp_zero_iff m 0 100 13 Hm ltac:(lia)) with (k := 12) in H; [|lia].
  discriminate H.
Defined.
