(* ===== verification/Lock.v ===== *)
(** * Spin locks ([include/api/sys/lock.h])

    The lock word is a [volatile unsigned long], 0 when free.  The operations
    are given on the word alone, as the caller sees them when no other core
    interferes: a lock that is held makes [spinlock_lock] wait.  A machine of
    threads that exchange the word then shows that the lock excludes. *)

From S2P Require Import Prelude.

Definition TRUE : Z := 1.

Definition FALSE : Z := 0.

(** [lock; cmpxchgq]: the value returned and the new content of the word. *)
Definition cmpxchg (word old new : Z) : Z * Z :=
  (word, if word =? old then new else word).

Definition spinlock_init : M Z unit := put FALSE.

Definition spinlock_trylock : M Z Z := fun lock =>
  let '(ret, lock') := cmpxchg lock 0 1 in
  Ok (if negb (ret =? FALSE) then FALSE else TRUE, lock').

Definition spinlock_lock : M Z unit := fun lock =>
  if lock =? TRUE then Fault Spinning
  else
    let '(ret, lock') := cmpxchg lock 0 1 in
    if negb (ret =? FALSE) then Fault Spinning else Ok (tt, lock').

Definition spinlock_unlock : M Z unit := put FALSE.

Lemma wp_spinlock_lock Q lock : lock = FALSE -> Q tt TRUE -> wp spinlock_lock Q lock.
Proof. by intros ->. Qed.

Lemma wp_spinlock_unlock Q lock : Q tt FALSE -> wp spinlock_unlock Q lock.
Proof. done. Qed.

(** ** Many cores on one lock

    Cores interleave at the accesses to the word: a read per round of the inner
    loop of [spinlock_lock], the locked exchange, the write of [spinlock_unlock];
    [spinlock_trylock] is the exchange alone. *)

Inductive spin_pc :=
| Out
| Reading
| Exchanging
| Held.

Inductive spin_call := CallLock | CallTry | CallUnlock.

(** [entries] and [exits] count the acquisitions and releases. *)
Record spin_sys := mkSpin {
  word : Z;
  spcs : list spin_pc;
  spin_entries : Z;
  spin_exits : Z
}.

#[export] Instance eta_spin : Eta spin_sys := fun s =>
  mkSpin (word s) (spcs s) (spin_entries s) (spin_exits s).

Definition spin_goto (i : Z) (p : spin_pc) (s : spin_sys) : spin_sys :=
  s <| spcs := updZ (spcs s) i p |>.

(** [cmpxchg(&lock->lock, 0, 1)], and where the core goes when it gets the lock
    and when it does not. *)
Definition spin_exchange (i : Z) (failed : spin_pc) (s : spin_sys) : spin_sys :=
  let '(r, w) := cmpxchg (word s) 0 1 in
  let s := s <| word := w |> in
  if negb (r =? FALSE) then spin_goto i failed s
  else spin_goto i Held (s <| spin_entries := spin_entries s + 1 |>).

Definition spin_step (e : Z * spin_call) (s : spin_sys) : spin_sys :=
  let '(i, call) := e in
  match nthZ (spcs s) i, call with
  | Some Out, CallLock => spin_goto i Reading s
  | Some Out, CallTry => spin_exchange i Out s
  | Some Reading, _ => if word s =? TRUE then s else spin_goto i Exchanging s
  | Some Exchanging, _ => spin_exchange i Reading s
  | Some Held, CallUnlock =>
      spin_goto i Out (s <| word := FALSE |> <| spin_exits := spin_exits s + 1 |>)
  | _, _ => s
  end.

Definition spin_run (es : list (Z * spin_call)) (s : spin_sys) : spin_sys :=
  fold_left (fun s e => spin_step e s) es s.

Definition spin_start (n : nat) : spin_sys := mkSpin FALSE (replicate n Out) 0 0.

(** The word is 1 exactly when a core holds the lock, and then only one does. *)
Record spin_inv (s : spin_sys) (holder : option Z) : Prop := {
  si_word : word s = if holder then TRUE else FALSE;
  si_holder i : nthZ (spcs s) i = Some Held <-> holder = Some i;
  si_count : spin_entries s = spin_exits s + (if holder then 1 else 0)
}.

Lemma nthZ_goto i p s j : (exists q, nthZ (spcs s) i = Some q) ->
  nthZ (spcs (spin_goto i p s)) j = if decide (j = i) then Some p else nthZ (spcs s) j.
Proof.
  intros [q Hq%nthZ_Some_range]. cbn. case_decide; [subst; by apply nthZ_updZ_eq|].
  by apply nthZ_updZ_ne.
Qed.

Lemma spin_inv_exchange s h i p q : nthZ (spcs s) i = Some q -> q <> Held -> p <> Held ->
  spin_inv s h -> exists h', spin_inv (spin_exchange i p s) h'.
Proof.
  intros Hi Hq Hp [Hw Hh Hc]. unfold spin_exchange, cmpxchg.
  assert (h <> Some i) as Hne by (intros E%Hh; congruence).
  destruct h as [j|]; rewrite Hw; cbn [Z.eqb negb FALSE TRUE].
  - exists (Some j). split; [done| |done]. intros x. rewrite nthZ_goto by eauto.
    case_decide; [subst x|apply Hh]. split; [congruence|]. intros [= ->]. done.
  - exists (Some i). split; [done| |cbn in *; lia]. intros x. rewrite nthZ_goto by eauto.
    case_decide; [by subst x|]. cbn [spcs set_field]. rewrite Hh. split; [done|congruence].
Qed.

Lemma spin_inv_step e s h : spin_inv s h -> exists h', spin_inv (spin_step e s) h'.
Proof.
  intros H. destruct e as [i call]. unfold spin_step.
  destruct (nthZ (spcs s) i) as [p|] eqn:Hi; [|by eauto].
  assert (forall q, q <> Held -> p <> Held -> spin_inv (spin_goto i q s) h) as Hgo.
  { intros q Hq Hp. destruct H as [Hw Hh Hc]. split; [done| |done]. intros x.
    rewrite nthZ_goto by eauto. case_decide; [subst x|apply Hh]. split; [congruence|].
    intros E%Hh. congruence. }
  destruct p, call; try (by exists h); try (exists h; by apply Hgo);
    try (by eapply spin_inv_exchange; eauto);
    try (destruct (word s =? TRUE); exists h; [done|by apply Hgo]).
  exists None. pose proof (proj1 (si_holder _ _ H i) Hi) as ->. destruct H as [Hw Hh Hc].
  split; [done| |cbn in *; lia]. intros x. rewrite nthZ_goto by eauto. case_decide; [done|].
  cbn [spcs set_field]. rewrite Hh. split; congruence.
Qed.

(** C33: whatever the interleaving of lock, try-lock and unlock calls, at most one
    core holds the spin lock at a time, the word is nonzero exactly then, and a
    free lock is obtained by the next exchange: a core alone in its loop gets it
    in two accesses. *)
Theorem spinlock_excludes n es :
  let s := spin_run es (spin_start n) in
  (forall i j, nthZ (spcs s) i = Some Held -> nthZ (spcs s) j = Some Held -> i = j) /\
  (word s = FALSE <-> forall i, nthZ (spcs s) i <> Some Held) /\
  spin_exits s <= spin_entries s <= spin_exits s + 1 /\
  (forall i, nthZ (spcs s) i = Some Reading -> word s = FALSE ->
     nthZ (spcs (spin_run [(i, CallLock); (i, CallLock)] s)) i = Some Held).
Proof.
  intros s. assert (exists h, spin_inv s h) as [h H].
  { subst s. assert (exists h, spin_inv (spin_start n) h) as Hstart.
    { exists None. split; [done| |done]. intros i. split; [|done]. intros Hi. cbn in Hi.
      pose proof (nthZ_Some_range _ _ _ Hi) as Hr. rewrite lenZ_replicate in Hr.
      by rewrite nthZ_replicate in Hi. }
    revert Hstart. generalize (spin_start n) as s0. induction es as [|e es IH]; [done|].
    intros s0 [h H]. apply IH. by eapply spin_inv_step. }
  split_and!.
  - intros i j Hi%(si_holder _ _ H) Hj%(si_holder _ _ H). congruence.
  - rewrite (si_word _ _ H). destruct h as [i|]; split; try done.
    + intros Hno. destruct (Hno i). by apply (si_holder _ _ H).
    + intros _ i Hi%(si_holder _ _ H). done.
  - rewrite (si_count _ _ H). by destruct h; lia.
  - rewrite (si_count _ _ H). by destruct h; lia.
  - intros i Hi Hw. cbn. rewrite Hi, Hw. cbn [Z.eqb FALSE TRUE].
    pose proof (nthZ_Some_range _ _ _ Hi) as Hr.
    rewrite nthZ_goto, decide_True by eauto. unfold spin_exchange, cmpxchg. cbn [word spin_goto set_field].
    rewrite Hw. cbn [Z.eqb FALSE negb]. rewrite nthZ_goto, decide_True; [done|done|].
    exists Exchanging. cbn. by apply nthZ_updZ_eq.
Qed.
