(* ===== verification/Stat.v ===== *)
(** * The statistics area ([kernel/stat.c], [kernel/stat.h])

    Memory and load figures the unikernels publish in shared memory. *)

From S2P Require Import Prelude.
From S2P Require Import Lock.

Record Unikernel := mkUnikernel {
  total_core_num : Z;
  core : list Z;
  mem_used : Z
}.

#[export] Instance eta_Unikernel : Eta Unikernel := fun u =>
  mkUnikernel (total_core_num u) (core u) (mem_used u).

(** The area, the unikernel's own index [g_ukid] and [stat_lock]. *)
Record STAT_AREA := mkSTAT {
  core_load : list Z;
  ukernel : list Unikernel;
  g_ukid : Z;
  stat_lock : Z
}.

#[export] Instance eta_STAT_AREA : Eta STAT_AREA := fun s =>
  mkSTAT (core_load s) (ukernel s) (g_ukid s) (stat_lock s).

Definition set_mem_info (mem_size : Z) : M STAT_AREA unit :=
  zoom stat_lock spinlock_lock ;;
  let! s := get in
  let! u := the OutOfBounds (nthZ (ukernel s) (g_ukid s)) in
  put (s <| ukernel := updZ (ukernel s) (g_ukid s) (u <| mem_used := mem_size |>) |>) ;;
  zoom stat_lock spinlock_unlock.

Definition set_cpu_num (core_num : Z) : M STAT_AREA unit :=
  zoom stat_lock spinlock_lock ;;
  let! s := get in
  let! u := the OutOfBounds (nthZ (ukernel s) (g_ukid s)) in
  let! _ := the OutOfBounds (nthZ (core u) (total_core_num u)) in
  let u' := u <| core := updZ (core u) (total_core_num u) core_num |>
              <| total_core_num := s32 (total_core_num u + 1) |> in
  put (s <| ukernel := updZ (ukernel s) (g_ukid s) u' |>) ;;
  zoom stat_lock spinlock_unlock.

(** [core_load] is an [int] array, the load a QWORD. *)
Definition set_cpu_load (pid load : Z) : M STAT_AREA unit :=
  zoom stat_lock spinlock_lock ;;
  let! s := get in
  let! _ := the OutOfBounds (nthZ (core_load s) pid) in
  put (s <| core_load := updZ (core_load s) pid (s32 load) |>) ;;
  zoom stat_lock spinlock_unlock.

(** The statistics lock is free and the unikernel's entry exists. *)
Definition stat_ok (s : STAT_AREA) : Prop :=
  stat_lock s = FALSE /\ 0 <= g_ukid s < lenZ (ukernel s).

Lemma wp_set_mem_info mem_size (Q : unit -> STAT_AREA -> Prop) s :
  stat_ok s ->
  (forall u, nthZ (ukernel s) (g_ukid s) = Some u ->
     Q tt (s <| ukernel := updZ (ukernel s) (g_ukid s) (u <| mem_used := mem_size |>) |>)) ->
  wp (set_mem_info mem_size) Q s.
Proof.
  intros [Hl Hr] HQ. destruct (nthZ_in_range _ _ Hr) as [u Hu]. unfold set_mem_info.
  wp_step. apply wp_zoom, wp_spinlock_lock; [done|]. simpl. wp_steps.
  eapply wp_the; [exact Hu|]. wp_steps. apply wp_zoom, wp_spinlock_unlock. simpl.
  specialize (HQ u Hu). simpl in HQ. by rewrite Hl in HQ.
Qed.

Lemma stat_ok_set_mem s u mem_size : stat_ok s ->
  stat_ok (s <| ukernel := updZ (ukernel s) (g_ukid s) (u <| mem_used := mem_size |>) |>).
Proof. unfold stat_ok. simpl. by rewrite lenZ_updZ. Qed.
