(* ===== verification/Memory.v ===== *)
(** * The kernel page allocator ([kernel/memory.c], [kernel/memory.h])

    A buddy allocator over a pool of 4 KiB pages.  Level [l] of the allocator
    deals in blocks of [2 ^ l] pages; a bitmap per level says which blocks are
    free, and [block_index] holds, at the first page of an allocated block, the
    level it was allocated at (0xFF elsewhere).  The file holds the data, every
    function of [memory.c] and the facts about single bits and single levels. *)

From S2P Require Import Prelude.
From S2P Require Import Utility.
From S2P Require Import Lock.
From S2P Require Import Stat.

(** ** Constants ([memory.h], [memory_config.h], [page.h]) *)

Definition MM_TRUE : Z := 1.

Definition MM_FALSE : Z := 0.

Definition PAGE_MIN_SIZE : Z := 4 * 1024.

Definition PAGE_SIZE_4K : Z := 0x1000.

(** sizeof (BITMAP): a pointer and a QWORD. *)
Definition BITMAP_SIZE : Z := 16.

Definition CONFIG_KERNEL_SIZE : Z := 0x40000000.

Definition CONFIG_PAGE_OFFSET : Z := 0xFFFF8000C0000000.

Definition HEAP_START : Z := 0x40000000.

Definition HEAP_SIZE : Z := 0x280000000.

Definition ENOMEM : Z := 12.

(** [va(p)]: the kernel virtual address of a physical one. *)
Definition va (g_memory_start p : Z) : Z := u64 (p + CONFIG_PAGE_OFFSET - g_memory_start).

(** ** Data *)

(** [bitmap_at] is the pointer, [bitmap] the bytes it points to. *)
Record BITMAP := mkBITMAP {
  bitmap_at : Z;
  bitmap : list Z;
  bitmap_count : Z
}.

#[export] Instance eta_BITMAP : Eta BITMAP := fun b =>
  mkBITMAP (bitmap_at b) (bitmap b) (bitmap_count b).

(** [block_index_at] and [bitmaps_at] are the pointers [block_index] and
    [bitmap], [block_index] and [bitmaps] the arrays they point to. *)
Record MM := mkMM {
  max_level : Z;
  smallest_block : Z;
  used_size : Z;
  start_addr : Z;
  end_addr : Z;
  block_index_at : Z;
  block_index : list Z;
  bitmaps_at : Z;
  bitmaps : list BITMAP;
  mm_spl : Z
}.

#[export] Instance eta_MM : Eta MM := fun m =>
  mkMM (max_level m) (smallest_block m) (used_size m) (start_addr m) (end_addr m)
    (block_index_at m) (block_index m) (bitmaps_at m) (bitmaps m) (mm_spl m).

(** ** Sizes and levels *)

(** [PAGE_MIN_SIZE << i] is computed in [int] and then converted to QWORD. *)
Definition page_shift (i : Z) : Z := u64 (s32 (Z.shiftl PAGE_MIN_SIZE i)).

Fixpoint align_loop (n : nat) (i size : Z) : Z :=
  match n with
  | O => 0
  | S n' => if size <=? page_shift i then page_shift i else align_loop n' (i + 1) size
  end.

(** Smallest block size that holds [size]; 0 when no level is large enough. *)
Definition align_buddy_block (m : MM) (size : Z) : Z :=
  align_loop (Z.to_nat (max_level m)) 0 size.

Fixpoint index_loop (n : nat) (i aligned_size : Z) : Z :=
  match n with
  | O => -1
  | S n' => if aligned_size <=? page_shift i then i else index_loop n' (i + 1) aligned_size
  end.

Definition block_list_index (m : MM) (aligned_size : Z) : Z :=
  index_loop (Z.to_nat (max_level m)) 0 aligned_size.

(** ** The bitmaps *)

Definition set_bitmap_flag (block_list_index offset flag : Z) : M MM unit :=
  let! m := get in
  let! bm := the OutOfBounds (nthZ (bitmaps m) block_list_index) in
  let! b := the OutOfBounds (nthZ (bitmap bm) (Z.quot offset 8)) in
  let mask := Z.shiftl 1 (Z.rem offset 8) in
  let bm' :=
    if flag =? MM_TRUE then
      mkBITMAP (bitmap_at bm)
        (updZ (bitmap bm) (Z.quot offset 8) (u8 (Z.lor b mask)))
        (if Z.land b mask =? 0 then u64 (bitmap_count bm + 1) else bitmap_count bm)
    else
      mkBITMAP (bitmap_at bm)
        (updZ (bitmap bm) (Z.quot offset 8) (u8 (Z.land b (Z.lnot mask))))
        (if negb (Z.land b mask =? 0) then u64 (bitmap_count bm - 1) else bitmap_count bm) in
  put (m <| bitmaps := updZ (bitmaps m) block_list_index bm' |>).

Definition get_bitmap_flag (block_list_index offset : Z) : M MM Z :=
  let! m := get in
  let! bm := the OutOfBounds (nthZ (bitmaps m) block_list_index) in
  let! b := the OutOfBounds (nthZ (bitmap bm) (Z.quot offset 8)) in
  ret (if Z.land b (Z.shiftl 1 (Z.rem offset 8)) =? 0 then MM_FALSE else MM_TRUE).

(** The QWORD at byte [k] of a bitmap: eight bytes, little endian. *)
Fixpoint read_le (n : nat) (bytes : list Z) (k : Z) : option Z :=
  match n with
  | O => Some 0
  | S n' =>
      match nthZ bytes k, read_le n' bytes (k + 1) with
      | Some b, Some r => Some (Z.lor b (Z.shiftl r 8))
      | _, _ => None
      end
  end.

(** The scan of [find_free_block] from bit [i]; each round moves [i] forward, so
    [max_count] rounds are enough. *)
Fixpoint find_free_loop (fuel : nat) (i max_count : Z) (bytes : list Z) : outcome Z :=
  if i <? max_count then
    match fuel with
    | O => Fault NoFuel
    | S fuel' =>
        let test :=
          match nthZ bytes (Z.quot i 8) with
          | None => Fault OutOfBounds
          | Some b =>
              if negb (Z.land b (Z.shiftl MM_TRUE (Z.rem i 8)) =? 0) then Ok i
              else find_free_loop fuel' (i + 1) max_count bytes
          end in
        if 0 <? Z.quot (max_count - i) 64 then
          match read_le 8 bytes (Z.quot i 8) with
          | None => Fault OutOfBounds
          | Some q => if q =? 0 then find_free_loop fuel' (i + 64) max_count bytes else test
          end
        else test
    end
  else Ok (-1).

Definition find_free_block (block_list_index : Z) : M MM Z := fun m =>
  match nthZ (bitmaps m) block_list_index with
  | None => Fault OutOfBounds
  | Some bm =>
      if bitmap_count bm =? 0 then Ok (-1, m)
      else
        let max_count := Z.shiftr (smallest_block m) block_list_index in
        match find_free_loop (Z.to_nat max_count) 0 max_count (bitmap bm) with
        | Ok r => Ok (r, m)
        | Fault f => Fault f
        end
  end.

(** ** Blocks *)

(** [for (i = bl_index; i < max_level; i++)], left at the first level that has a
    free block; the result is the level and the offset found there (-1: none). *)
Fixpoint find_level (n : nat) (i : Z) : M MM (Z * Z) :=
  match n with
  | O => ret (i, -1)
  | S n' =>
      let! free_offset := find_free_block i in
      if negb (free_offset =? -1) then ret (i, free_offset) else find_level n' (i + 1)
  end.

(** [for (i = i - 1; i >= bl_index; i--)]: split the block found, keep the left
    half, free the right one. *)
Fixpoint split_loop (n : nat) (i free_offset : Z) : M MM Z :=
  match n with
  | O => ret free_offset
  | S n' =>
      set_bitmap_flag i (s32 (free_offset * 2)) MM_FALSE ;;
      set_bitmap_flag i (s32 (free_offset * 2 + 1)) MM_TRUE ;;
      split_loop n' (i - 1) (s32 (free_offset * 2))
  end.

Definition alloc_buddy_block (aligned_size : Z) : M MM Z :=
  let! bl_index := gets (fun m => block_list_index m aligned_size) in
  if bl_index =? -1 then ret (-1)
  else
    let! ml := gets max_level in
    let! '(i, free_offset) := find_level (Z.to_nat (ml - bl_index)) bl_index in
    if free_offset =? -1 then ret (-1)
    else
      set_bitmap_flag i free_offset MM_FALSE ;;
      split_loop (Z.to_nat (i - bl_index)) (i - 1) free_offset.

(** [for (i = block_list_index; i < max_level; i++)] with its break: set the
    block free, merge it with its buddy while the buddy is free. *)
Fixpoint free_loop (n : nat) (i block_offset : Z) : M MM unit :=
  match n with
  | O => ret tt
  | S n' =>
      set_bitmap_flag i block_offset MM_TRUE ;;
      let buddy_block_offset :=
        if Z.rem block_offset 2 =? 0 then s32 (block_offset + 1) else s32 (block_offset - 1) in
      let! flag := get_bitmap_flag i buddy_block_offset in
      if flag =? MM_FALSE then ret tt
      else
        set_bitmap_flag i buddy_block_offset MM_FALSE ;;
        set_bitmap_flag i block_offset MM_FALSE ;;
        free_loop n' (i + 1) (Z.quot block_offset 2)
  end.

Definition free_buddy_block (block_list_index block_offset : Z) : M MM bool :=
  let! ml := gets max_level in
  free_loop (Z.to_nat (ml - block_list_index)) block_list_index block_offset ;;
  ret true.

(** ** Setting the pool up *)

(** [for (i = 0; (blocks >> i) > 0; i++)] around a body that adds to [acc]. *)
Fixpoint shift_loop (fuel : nat) (i blocks : Z) (body : Z -> Z -> Z) (acc : Z) : outcome (Z * Z) :=
  if 0 <? Z.shiftr blocks i then
    match fuel with
    | O => Fault NoFuel
    | S fuel' => shift_loop fuel' (i + 1) blocks body (body i acc)
    end
  else Ok (i, acc).

(** Pages needed for the block index, the BITMAP array and the bitmaps.  The
    sums are in DWORD, the result is an [int]. *)
Definition bitmap_size (free_mem_size : Z) : outcome Z :=
  let smallest_block_size := s64 (free_mem_size / PAGE_MIN_SIZE) in
  let block_index := u32 smallest_block_size in
  match shift_loop 64 0 smallest_block_size
          (fun i bitmap_size =>
             u32 (u32 (bitmap_size + BITMAP_SIZE)
                  + Z.quot (Z.shiftr smallest_block_size i + 7) 8)) 0 with
  | Ok (_, bitmap_size) =>
      Ok (s32 (u32 (u32 (block_index + bitmap_size) + PAGE_MIN_SIZE - 1) / PAGE_MIN_SIZE))
  | Fault f => Fault f
  end.

(** The bitmap of one level: all clear, but for the last block of an odd number
    of blocks, which has no buddy to merge with (the trash block). *)
Definition init_bytes (block_count : Z) : list Z :=
  replicate (Z.to_nat (Z.quot block_count 8)) 0x00 ++
  if negb (Z.rem block_count 8 =? 0) then
    let i := Z.rem block_count 8 in
    if Z.rem i 2 =? 1 then [u8 (Z.lor 0x00 (Z.shiftl MM_TRUE (i - 1)))] else [0x00]
  else [].

Definition init_count (block_count : Z) : Z :=
  if negb (Z.rem block_count 8 =? 0) && (Z.rem (Z.rem block_count 8) 2 =? 1) then 1 else 0.

Fixpoint init_bitmaps (n : nat) (j smallest_block cur_bitmap : Z) : list BITMAP :=
  match n with
  | O => []
  | S n' =>
      let block_count := Z.shiftr smallest_block j in
      let bytes := init_bytes block_count in
      mkBITMAP cur_bitmap bytes (init_count block_count)
        :: init_bitmaps n' (j + 1) smallest_block (cur_bitmap + lenZ bytes)
  end.

(** The pool built over the addresses [free_mem_start, free_mem_end). *)
Definition mm_layout (free_mem_start free_mem_end : Z) : outcome MM :=
  let free_mem_size := u64 (free_mem_end - free_mem_start) in
  match bitmap_size free_mem_size with
  | Fault f => Fault f
  | Ok bitmap0 =>
      let bitmap := Z.land (s32 (bitmap0 + (512 - 1))) (Z.lnot (512 - 1)) in
      let smallest_block := s32 (u64 (free_mem_size / PAGE_MIN_SIZE - bitmap)) in
      match shift_loop 32 0 smallest_block (fun _ acc => acc) 0 with
      | Fault f => Fault f
      | Ok (max_level, _) =>
          let bitmaps_at := u64 (free_mem_start + smallest_block) in
          Ok {| max_level := max_level;
                smallest_block := smallest_block;
                used_size := 0;
                start_addr := u64 (free_mem_start + s32 (bitmap * PAGE_MIN_SIZE));
                end_addr := free_mem_end;
                block_index_at := free_mem_start;
                block_index := replicate (Z.to_nat smallest_block) 0xFF;
                bitmaps_at := bitmaps_at;
                bitmaps := init_bitmaps (Z.to_nat max_level) 0 smallest_block
                             (bitmaps_at + BITMAP_SIZE * max_level);
                mm_spl := FALSE |}
      end
  end.

(** The kernel's pool, over the physical memory [g_memory_start, g_memory_end). *)
Definition mm_init (g_memory_start g_memory_end : Z) : outcome MM :=
  mm_layout (va g_memory_start (u64 (g_memory_start + CONFIG_KERNEL_SIZE)))
            (va g_memory_start g_memory_end).

(** ** The allocator's globals *)

(** The file's static variables, the statistics area and the memory itself. *)
Record kmem := mkKmem {
  g_free_memory : MM;
  g_alloc_count : Z;
  g_free_count : Z;
  heap_end : Z;
  heap_lock : Z;
  stat_area : STAT_AREA;
  ram : memory
}.

#[export] Instance eta_kmem : Eta kmem := fun k =>
  mkKmem (g_free_memory k) (g_alloc_count k) (g_free_count k) (heap_end k) (heap_lock k)
    (stat_area k) (ram k).

Definition free_mem_init (g_memory_start g_memory_end : Z) : M kmem unit := fun k =>
  match mm_init g_memory_start g_memory_end with
  | Fault f => Fault f
  | Ok m => Ok (tt, k <| g_free_memory := m |> <| heap_end := HEAP_START |>
                      <| heap_lock := FALSE |>)
  end.

Definition mm_lock : M kmem unit := zoom g_free_memory (zoom mm_spl spinlock_lock).

Definition mm_unlock : M kmem unit := zoom g_free_memory (zoom mm_spl spinlock_unlock).

(** The second half of [az_alloc], for the block found: record its level, clear
    it, count it, unlock.  [lk_memset]'s size is an [int]; the counters printed
    on the screen are not modelled. *)
Definition hand_out (aligned_size bl_offset : Z) : M kmem Z :=
  let! m := gets g_free_memory in
  let bl_index := block_list_index m aligned_size in
  let rel_address := u64 (aligned_size * bl_offset) in
  let array_offset := s32 (rel_address / PAGE_MIN_SIZE) in
  let! _ := the OutOfBounds (nthZ (block_index m) array_offset) in
  let m' := m <| block_index := updZ (block_index m) array_offset (u8 bl_index) |>
              <| used_size := u64 (used_size m + aligned_size) |> in
  modify (fun k => k <| g_free_memory := m' |>) ;;
  let ret_addr := u64 (rel_address + start_addr m) in
  modify (fun k => k <| ram := lk_memset (ram k) ret_addr 0 (s32 aligned_size) |>) ;;
  modify (fun k => k <| g_alloc_count := u64 (g_alloc_count k + 1) |>) ;;
  zoom stat_area (set_mem_info (used_size m')) ;;
  mm_unlock ;;
  ret ret_addr.

(** The address of the block, 0 when there is none. *)
Definition az_alloc (size : Z) : M kmem Z :=
  mm_lock ;;
  let! m := gets g_free_memory in
  let aligned_size := align_buddy_block m size in
  if aligned_size =? 0 then mm_unlock ;; ret 0
  else if end_addr m <? u64 (u64 (start_addr m + used_size m) + aligned_size) then
    mm_unlock ;; ret 0
  else
    let! bl_offset := zoom g_free_memory (alloc_buddy_block aligned_size) in
    if bl_offset =? -1 then mm_unlock ;; ret 0
    else hand_out aligned_size bl_offset.

Definition az_free (address : Z) : M kmem Z :=
  mm_lock ;;
  if address =? 0 then mm_unlock ;; ret FALSE
  else
    let! m := gets g_free_memory in
    let rel_address := u64 (address - start_addr m) in
    let array_offset := s32 (rel_address / PAGE_MIN_SIZE) in
    let! entry := the OutOfBounds (nthZ (block_index m) array_offset) in
    if entry =? 0xFF then mm_unlock ;; ret FALSE
    else
      modify (fun k => k <| g_free_memory :=
                m <| block_index := updZ (block_index m) array_offset 0xFF |> |>) ;;
      let block_size := page_shift entry in
      if block_size =? 0 then ret FALSE
      else
        let bitmap_offset := s32 (rel_address / block_size) in
        let! done := zoom g_free_memory (free_buddy_block entry bitmap_offset) in
        if done then
          modify (fun k => k <| g_free_memory := g_free_memory k
                     <| used_size := u64 (used_size (g_free_memory k) - block_size) |> |>) ;;
          modify (fun k => k <| g_free_count := u64 (g_free_count k + 1) |>) ;;
          let! used := gets (fun k => used_size (g_free_memory k)) in
          zoom stat_area (set_mem_info used) ;;
          mm_unlock ;;
          ret TRUE
        else mm_unlock ;; ret FALSE.

(** ** The program break *)

Definition heap_in_range (h : Z) : bool := (HEAP_START <=? h) && (h <? HEAP_START + HEAP_SIZE).

Definition sys_sbrk (incr : Z) : M kmem Z :=
  zoom heap_lock spinlock_lock ;;
  let! r := gets (fun k => s64 (heap_end k)) in
  let! h := gets heap_end in
  let! r' :=
    (if heap_in_range h then
       modify (fun k => k <| heap_end := u64 (heap_end k + incr) |>) ;; ret r
     else ret (- ENOMEM)) in
  zoom heap_lock spinlock_unlock ;;
  ret r'.

Definition sys_brk (val : Z) : M kmem Z :=
  zoom heap_lock spinlock_lock ;;
  let! h := gets heap_end in
  let! r' :=
    (if heap_in_range h then
       modify (fun k => k <| heap_end := u64 val |>) ;; ret 0
     else ret (-1)) in
  zoom heap_lock spinlock_unlock ;;
  ret r'.
