(* ===== verification/MemoryBits.v ===== *)
(** * The bitmaps of the page allocator

    What the bit operations of [memory.c] do to the bits: [set_bitmap_flag] and
    [get_bitmap_flag] write and read one bit and keep [bitmap_count] equal to
    the number of bits set; [find_free_block], which skips 64 bits at a time,
    finds the first set bit. *)

From S2P Require Import Prelude.
From S2P Require Import Utility.
From S2P Require Import Lock.
From S2P Require Import Stat.
From S2P Require Import Memory.

(** ** Bits of a byte array *)

Definition bit_of (bytes : list Z) (o : Z) : bool :=
  match nthZ bytes (o / 8) with
  | Some b => Z.testbit b (o mod 8)
  | None => false
  end.

Definition bytes_ok (bytes : list Z) : Prop :=
  forall i b, nthZ bytes i = Some b -> 0 <= b < 2 ^ 8.

(** Number of [i < n] with [f i]. *)
Fixpoint count_bits (f : Z -> bool) (n : nat) : Z :=
  match n with
  | O => 0
  | S n' => count_bits f n' + (if f (Z.of_nat n') then 1 else 0)
  end.

Lemma count_bits_ext f g n :
  (forall i, 0 <= i < Z.of_nat n -> f i = g i) -> count_bits f n = count_bits g n.
Proof.
  induction n as [|n IH]; intros H; cbn; [done|].
  rewrite IH by (intros; apply H; lia). by rewrite H by lia.
Qed.

Lemma count_bits_bound f n : 0 <= count_bits f n <= Z.of_nat n.
Proof. induction n as [|n IH]; cbn; [lia|]. destruct (f (Z.of_nat n)); lia. Qed.

Lemma count_bits_zero f n i : count_bits f n = 0 -> 0 <= i < Z.of_nat n -> f i = false.
Proof.
  induction n as [|n IH]; cbn; [lia|]. pose proof (count_bits_bound f n).
  intros H0 Hi. destruct (f (Z.of_nat n)) eqn:E; [lia|].
  destruct (decide (i = Z.of_nat n)) as [->|]; [done|]. apply IH; lia.
Qed.

Lemma count_bits_all_clear f n :
  (forall i, 0 <= i < Z.of_nat n -> f i = false) -> count_bits f n = 0.
Proof.
  intros H. rewrite (count_bits_ext f (fun _ => false)) by done.
  clear H. induction n; cbn; lia.
Qed.

(** Changing one position changes the count by the difference there. *)
Lemma count_bits_upd f g n o : 0 <= o < Z.of_nat n ->
  (forall i, i <> o -> g i = f i) ->
  count_bits g n = count_bits f n + Z.b2z (g o) - Z.b2z (f o).
Proof.
  induction n as [|n IH]; intros Ho Hg; cbn; [lia|].
  destruct (decide (o = Z.of_nat n)) as [->|].
  - rewrite (count_bits_ext g f) by (intros; apply Hg; lia).
    destruct (f (Z.of_nat n)), (g (Z.of_nat n)); cbn; lia.
  - rewrite IH by (done || lia). rewrite (Hg (Z.of_nat n)) by lia. lia.
Qed.

Lemma same_byte_bit o i : o / 8 = i / 8 -> o mod 8 = i mod 8 -> o = i.
Proof. zdm. Qed.

(** Writing back the byte that holds bit [o], with bit [o] equal to [v] and the
    others as they were. *)
Lemma bit_of_upd bytes o b b' (v : bool) i :
  0 <= o -> nthZ bytes (o / 8) = Some b ->
  (forall k, 0 <= k < 8 -> Z.testbit b' k = if decide (k = o mod 8) then v else Z.testbit b k) ->
  bit_of (updZ bytes (o / 8) b') i = if decide (i = o) then v else bit_of bytes i.
Proof.
  intros Ho Hb Hb'. pose proof (nthZ_Some_range _ _ _ Hb). unfold bit_of.
  pose proof (Z.mod_pos_bound i 8 ltac:(lia)).
  rewrite nthZ_updZ. destruct (decide (i = o)) as [->|Hne].
  - rewrite decide_True by done. rewrite Hb' by zdm. by rewrite decide_True.
  - destruct (decide (o / 8 = i / 8)) as [He|He].
    + rewrite decide_True by done. rewrite <- He, Hb, Hb' by lia.
      rewrite decide_False; [done|]. intros Hm. by apply Hne, same_byte_bit.
    + by rewrite decide_False by tauto.
Qed.

Lemma bytes_ok_upd bytes k b : bytes_ok bytes -> 0 <= b < 2 ^ 8 -> bytes_ok (updZ bytes k b).
Proof.
  intros Hok Hb i c. rewrite nthZ_updZ. case_decide; [by intros [= <-]|apply Hok].
Qed.

(** ** One level *)

(** A level of [blocks] blocks: enough bytes, no stray bit, and a truthful
    [bitmap_count]. *)
Record level_ok (blocks : Z) (bm : BITMAP) : Prop := {
  lo_blocks : 0 <= blocks < 2 ^ 31;
  lo_len : lenZ (bitmap bm) = (blocks + 7) / 8;
  lo_bytes : bytes_ok (bitmap bm);
  lo_stray : forall o, blocks <= o -> bit_of (bitmap bm) o = false;
  lo_count : bitmap_count bm = count_bits (bit_of (bitmap bm)) (Z.to_nat blocks)
}.

Lemma level_ok_byte blocks bm o : level_ok blocks bm -> 0 <= o < blocks ->
  exists b, nthZ (bitmap bm) (o / 8) = Some b /\ 0 <= b < 2 ^ 8.
Proof.
  intros H Ho. destruct (nthZ_in_range (bitmap bm) (o / 8)) as [b Hb].
  { rewrite (lo_len _ _ H). zdm. }
  exists b. split; [done|]. eapply lo_bytes; eauto.
Qed.

(** The level after its bit [o] became [v]. *)
Lemma level_ok_upd blocks bm o b b' (v : bool) count :
  level_ok blocks bm -> 0 <= o < blocks ->
  nthZ (bitmap bm) (o / 8) = Some b ->
  0 <= b' < 2 ^ 8 ->
  (forall k, 0 <= k < 8 -> Z.testbit b' k = if decide (k = o mod 8) then v else Z.testbit b k) ->
  count = bitmap_count bm + Z.b2z v - Z.b2z (bit_of (bitmap bm) o) ->
  level_ok blocks (mkBITMAP (bitmap_at bm) (updZ (bitmap bm) (o / 8) b') count).
Proof.
  intros H Ho Hb Hrange Hb' ->.
  assert (forall i, bit_of (updZ (bitmap bm) (o / 8) b') i =
                    if decide (i = o) then v else bit_of (bitmap bm) i) as Hbit.
  { intros i. eapply bit_of_upd; eauto. lia. }
  constructor; cbn [bitmap bitmap_count].
  - apply (lo_blocks _ _ H).
  - rewrite lenZ_updZ. apply (lo_len _ _ H).
  - apply bytes_ok_upd; [apply (lo_bytes _ _ H)|done].
  - intros i Hi. rewrite Hbit, decide_False by lia. by apply (lo_stray _ _ H).
  - rewrite (lo_count _ _ H).
    rewrite (count_bits_upd (bit_of (bitmap bm)) (bit_of (updZ (bitmap bm) (o / 8) b')) _ o);
      [|lia|].
    + by rewrite Hbit, decide_True.
    + intros i Hi. by rewrite Hbit, decide_False.
Qed.

(** ** All the levels *)

Record shape (m : MM) : Prop := {
  sh_blocks : 1 <= smallest_block m < 2 ^ 31;
  sh_levels : 1 <= max_level m;
  sh_top : 2 ^ (max_level m - 1) <= smallest_block m < 2 ^ max_level m;
  sh_bitmaps : lenZ (bitmaps m) = max_level m;
  sh_level : forall l bm, nthZ (bitmaps m) l = Some bm -> level_ok (smallest_block m / 2 ^ l) bm;
  sh_index : lenZ (block_index m) = smallest_block m
}.

(** Bit [o] of level [l]. *)
Definition free_bit (m : MM) (l o : Z) : bool :=
  match nthZ (bitmaps m) l with
  | Some bm => bit_of (bitmap bm) o
  | None => false
  end.

(** [m'] differs from [m] in the contents of the bitmaps at most. *)
Definition frame (m m' : MM) : Prop :=
  m' = m <| bitmaps := bitmaps m' |> /\
  bitmap_at <$> bitmaps m' = bitmap_at <$> bitmaps m.

#[global] Instance frame_preorder : PreOrder frame.
Proof.
  split; [by intros []|]. unfold frame. intros m1 m2 m3 [H1 H1'] [H2 H2'].
  split; [|congruence]. rewrite H2, H1. done.
Qed.

Lemma shape_levels_bound m : shape m -> max_level m <= 31.
Proof.
  intros H. pose proof (sh_blocks _ H). pose proof (sh_top _ H). pose proof (sh_levels _ H).
  destruct (Z.le_gt_cases (max_level m) 31); [done|].
  assert (2 ^ 31 <= 2 ^ (max_level m - 1)) by (apply pow2_mono; lia). lia.
Qed.

Lemma shape_level m l : shape m -> 0 <= l < max_level m ->
  exists bm, nthZ (bitmaps m) l = Some bm /\ level_ok (smallest_block m / 2 ^ l) bm.
Proof.
  intros H Hl. destruct (nthZ_in_range (bitmaps m) l) as [bm Hbm].
  { by rewrite (sh_bitmaps _ H). }
  exists bm. split; [done|]. by apply (sh_level _ H).
Qed.

(** A free bit stands for a block inside the pool. *)
Lemma free_bit_range m l o : shape m -> free_bit m l o = true ->
  0 <= l < max_level m /\ 0 <= o < smallest_block m / 2 ^ l.
Proof.
  intros H. unfold free_bit. destruct (nthZ (bitmaps m) l) as [bm|] eqn:E; [|done].
  pose proof (nthZ_Some_range _ _ _ E) as Hl. rewrite (sh_bitmaps _ H) in Hl.
  pose proof (sh_level _ H _ _ E) as Hok. intros Hb. split; [done|]. split.
  - unfold bit_of in Hb. destruct (nthZ (bitmap bm) (o / 8)) eqn:E'; [|done].
    apply nthZ_Some_range in E'. zdm.
  - destruct (Z.lt_ge_cases o (smallest_block m / 2 ^ l)); [done|].
    rewrite (lo_stray _ _ Hok) in Hb by done. done.
Qed.

Lemma bytes_ext bytes bytes' : bytes_ok bytes -> bytes_ok bytes' ->
  lenZ bytes = lenZ bytes' -> (forall o, 0 <= o -> bit_of bytes o = bit_of bytes' o) ->
  bytes = bytes'.
Proof.
  intros H H' Hlen Hbit. apply list_eq_nthZ. intros i.
  destruct (decide (0 <= i < lenZ bytes)) as [Hi|Hi].
  - destruct (nthZ_in_range bytes i Hi) as [b Hb].
    destruct (nthZ_in_range bytes' i) as [b' Hb']; [lia|].
    rewrite Hb, Hb'. f_equal. apply Z.bits_inj'. intros k Hk.
    destruct (decide (k < 8)) as [Hk8|Hk8].
    + specialize (Hbit (8 * i + k)). unfold bit_of in Hbit.
      replace ((8 * i + k) / 8) with i in Hbit by zdm.
      replace ((8 * i + k) mod 8) with k in Hbit by zdm.
      rewrite Hb, Hb' in Hbit. apply Hbit. lia.
    + rewrite !byte_high_bits; eauto; lia.
  - rewrite (proj2 (nthZ_None bytes i)), (proj2 (nthZ_None bytes' i)); [done|lia|done].
Qed.

(** The pool is determined by its frame and its bits. *)
Lemma mm_ext m m' : shape m -> shape m' -> frame m m' ->
  (forall l o, free_bit m' l o = free_bit m l o) -> m' = m.
Proof.
  intros H H' [Hm' Hat] Hbits. rewrite Hm'.
  enough (bitmaps m' = bitmaps m) as -> by by destruct m.
  assert (smallest_block m' = smallest_block m) as Hn by by rewrite Hm'.
  assert (max_level m' = max_level m) as Hml by by rewrite Hm'.
  apply list_eq_nthZ. intros l. destruct (decide (0 <= l < max_level m)) as [Hl|Hl].
  - destruct (shape_level m l H Hl) as (bm & Hbm & Hok).
    destruct (shape_level m' l H') as (bm' & Hbm' & Hok'); [lia|].
    rewrite Hbm, Hbm'. f_equal. rewrite Hn in Hok'.
    assert (bitmap bm' = bitmap bm) as Hbytes.
    { apply bytes_ext; [apply (lo_bytes _ _ Hok')|apply (lo_bytes _ _ Hok)|..].
      - by rewrite (lo_len _ _ Hok), (lo_len _ _ Hok').
      - intros o _. specialize (Hbits l o). unfold free_bit in Hbits.
        by rewrite Hbm, Hbm' in Hbits. }
    assert (bitmap_at bm' = bitmap_at bm) as Hptr.
    { apply (f_equal (fun x => nthZ x l)) in Hat. rewrite !nthZ_fmap, Hbm, Hbm' in Hat.
      by injection Hat. }
    pose proof (lo_count _ _ Hok). pose proof (lo_count _ _ Hok').
    destruct bm, bm'; simpl in *. congruence.
  - rewrite !(proj2 (nthZ_None _ l)); [done|..]; by rewrite sh_bitmaps, ?Hml.
Qed.

(** ** Writing and reading a bit *)

(** [m'] is [m] with bit [o] of level [l] equal to [v]. *)
Record bit_written (m m' : MM) (l o : Z) (v : bool) : Prop := {
  bw_shape : shape m';
  bw_frame : frame m m';
  bw_bits : forall l' o', free_bit m' l' o' =
    if decide (l' = l /\ o' = o) then v else free_bit m l' o'
}.

Lemma level_written m l o v bm bytes count :
  shape m -> nthZ (bitmaps m) l = Some bm ->
  level_ok (smallest_block m / 2 ^ l) (mkBITMAP (bitmap_at bm) bytes count) ->
  (forall i, bit_of bytes i = if decide (i = o) then v else bit_of (bitmap bm) i) ->
  bit_written m (m <| bitmaps := updZ (bitmaps m) l (mkBITMAP (bitmap_at bm) bytes count) |>)
    l o v.
Proof.
  intros H Hbm Hok Hbits. pose proof (nthZ_Some_range _ _ _ Hbm) as Hl.
  constructor; [constructor; simpl; try apply H|split; [done|simpl]|].
  - rewrite lenZ_updZ. apply H.
  - intros l' bm'. rewrite nthZ_updZ. case_decide as Hd; [|apply H].
    intros [= <-]. by rewrite <- (proj1 Hd).
  - apply list_eq_nthZ. intros l'. rewrite !nthZ_fmap, nthZ_updZ.
    case_decide as Hd; [|done]. by rewrite <- (proj1 Hd), Hbm.
  - intros l' o'. unfold free_bit. simpl. rewrite nthZ_updZ.
    destruct (decide (l = l')) as [<-|Hne].
    + rewrite decide_True by done. cbn [bitmap]. rewrite Hbits, Hbm.
      destruct (decide (o' = o)); [by rewrite decide_True|by rewrite decide_False by tauto].
    + rewrite decide_False by tauto. by rewrite decide_False by naive_solver.
Qed.

(** The byte written back, whichever way the flag goes. *)
Lemma flag_byte b j (v : bool) k : 0 <= j < 8 -> 0 <= k < 8 ->
  Z.testbit (u8 (if v then Z.lor b (Z.shiftl 1 j)
                 else Z.land b (Z.lnot (Z.shiftl 1 j)))) k =
  if decide (k = j) then v else Z.testbit b k.
Proof.
  intros Hj Hk. rewrite u8_testbit by done.
  destruct v; rewrite ?testbit_set, ?testbit_clear by lia;
    case_decide; case_bool_decide; done.
Qed.

(** The count written back. *)
Lemma flag_count blocks bm o (v : bool) : level_ok blocks bm -> 0 <= o < blocks ->
  (if v then if negb (bit_of (bitmap bm) o) then u64 (bitmap_count bm + 1) else bitmap_count bm
   else if negb (negb (bit_of (bitmap bm) o)) then u64 (bitmap_count bm - 1)
        else bitmap_count bm) =
  bitmap_count bm + Z.b2z v - Z.b2z (bit_of (bitmap bm) o).
Proof.
  intros H Ho. pose proof (lo_blocks _ _ H).
  pose proof (count_bits_bound (bit_of (bitmap bm)) (Z.to_nat blocks)) as Hc.
  rewrite <- (lo_count _ _ H) in Hc.
  destruct v, (bit_of (bitmap bm) o) eqn:E; cbn; rewrite ?u64_small; try lia.
  assert (bitmap_count bm <> 0); [|lia].
  intros Hz. rewrite (lo_count _ _ H) in Hz.
  rewrite (count_bits_zero _ _ o Hz) in E; [done|lia].
Qed.

Lemma wp_set_bitmap_flag l o (v : bool) (Q : unit -> MM -> Prop) m :
  shape m -> 0 <= l < max_level m -> 0 <= o < smallest_block m / 2 ^ l ->
  (forall m', bit_written m m' l o v -> Q tt m') ->
  wp (set_bitmap_flag l o (if v then MM_TRUE else MM_FALSE)) Q m.
Proof.
  intros H Hl Ho HQ. destruct (shape_level m l H Hl) as (bm & Hbm & Hok).
  destruct (level_ok_byte _ _ o Hok Ho) as (b & Hb & Hb8).
  pose proof (Z.mod_pos_bound o 8 ltac:(lia)) as Hmod.
  pose proof (flag_count _ _ o v Hok Ho) as Hcount.
  assert (bit_of (bitmap bm) o = Z.testbit b (o mod 8)) as Hbit
    by (unfold bit_of; by rewrite Hb).
  unfold set_bitmap_flag. wp_steps. eapply wp_the; [exact Hbm|]. wp_steps.
  rewrite Z.quot_div_nonneg, Z.rem_mod_nonneg by lia.
  eapply wp_the; [exact Hb|]. wp_steps. apply HQ. rewrite land_bit_eq0, <- Hbit by lia.
  pose proof (flag_byte b (o mod 8) v) as Hbyte.
  destruct v; cbn [Z.eqb MM_TRUE MM_FALSE Pos.eqb]; rewrite Hcount;
    (apply level_written; [done|done|eapply level_ok_upd; eauto using u8_bound|]);
    intros i; (eapply bit_of_upd; [lia|exact Hb|auto]).
Qed.

(** Reading is allowed one past the last block, where the byte exists because
    the block below it is even. *)
Lemma wp_get_bitmap_flag l o (Q : Z -> MM -> Prop) m :
  shape m -> 0 <= l < max_level m -> 0 <= o ->
  o < smallest_block m / 2 ^ l \/ (o = smallest_block m / 2 ^ l /\ o mod 2 = 1) ->
  Q (if free_bit m l o then MM_TRUE else MM_FALSE) m ->
  wp (get_bitmap_flag l o) Q m.
Proof.
  intros H Hl Ho Hr HQ. destruct (shape_level m l H Hl) as (bm & Hbm & Hok).
  destruct (nthZ_in_range (bitmap bm) (o / 8)) as [b Hb].
  { rewrite (lo_len _ _ Hok). zdm. }
  unfold get_bitmap_flag. wp_steps. eapply wp_the; [exact Hbm|]. wp_steps.
  rewrite Z.quot_div_nonneg, Z.rem_mod_nonneg by lia.
  eapply wp_the; [exact Hb|]. wp_steps. rewrite land_bit_eq0 by (apply Z.mod_pos_bound; lia).
  unfold free_bit, bit_of in HQ. rewrite Hbm, Hb in HQ. by destruct (Z.testbit b (o mod 8)).
Qed.

(** ** Searching *)

(** The reference search: the first of the [n] positions from [i] with [f]. *)
Fixpoint first_free (n : nat) (i : Z) (f : Z -> bool) : Z :=
  match n with
  | O => -1
  | S n' => if f i then i else first_free n' (i + 1) f
  end.

Lemma first_free_spec n i f : 0 <= i ->
  (first_free n i f = -1 /\ forall k, i <= k < i + Z.of_nat n -> f k = false) \/
  (i <= first_free n i f < i + Z.of_nat n /\ f (first_free n i f) = true /\
   forall k, i <= k < first_free n i f -> f k = false).
Proof.
  revert i. induction n as [|n IH]; intros i Hi; cbn [first_free]; [left; split; [done|lia]|].
  destruct (f i) eqn:E; [right; split_and!; [lia|lia|done|lia]|].
  assert (forall k, i <= k -> (k = i \/ i + 1 <= k)) as Hsplit by lia.
  destruct (IH (i + 1)) as [[-> Hk]|(Hr & Hf & Hk)]; [lia|left|right].
  - split; [done|]. intros k Hk'. destruct (Hsplit k) as [->|]; [lia|done|apply Hk; lia].
  - split_and!; [lia|lia|done|].
    intros k Hk'. destruct (Hsplit k) as [->|]; [lia|done|apply Hk; lia].
Qed.

Lemma first_free_skip d n i f : (d <= n)%nat ->
  (forall k, i <= k < i + Z.of_nat d -> f k = false) ->
  first_free n i f = first_free (n - d) (i + Z.of_nat d) f.
Proof.
  revert n i. induction d as [|d IH]; intros n i Hd Hk.
  - rewrite Nat.sub_0_r. f_equal. lia.
  - destruct n as [|n]; [lia|]. cbn [first_free]. rewrite Hk by lia.
    rewrite IH; [|lia|intros; apply Hk; lia]. cbn [Nat.sub]. f_equal. lia.
Qed.

Lemma read_le_some n bytes k : 0 <= k -> k + Z.of_nat n <= lenZ bytes ->
  exists q, read_le n bytes k = Some q.
Proof.
  revert k. induction n as [|n IH]; intros k Hk Hlen; cbn [read_le]; [eauto|].
  destruct (nthZ_in_range bytes k) as [b ->]; [lia|].
  destruct (IH (k + 1)) as [r ->]; [lia..|]. eauto.
Qed.

(** Eight bytes that read as zero hold 64 clear bits. *)
Lemma read_le_zero n bytes k o : bytes_ok bytes -> read_le n bytes k = Some 0 ->
  8 * k <= o < 8 * (k + Z.of_nat n) -> bit_of bytes o = false.
Proof.
  intros Hok. revert k. induction n as [|n IH]; intros k Hr Ho; [lia|].
  cbn [read_le] in Hr. destruct (nthZ bytes k) as [b|] eqn:Hb; [|done].
  destruct (read_le n bytes (k + 1)) as [r|] eqn:Hr'; [|done]. injection Hr as Hr.
  apply Z.lor_eq_0_iff in Hr as [-> Hs]. rewrite Z.shiftl_eq_0_iff in Hs by lia. subst r.
  destruct (decide (o / 8 = k)) as [He|He].
  - unfold bit_of. rewrite He, Hb. apply Z.bits_0.
  - apply (IH (k + 1)); [done|zdm].
Qed.

Section find.
Context (blocks : Z) (bm : BITMAP) (Hok : level_ok blocks bm).

(** Away from a byte boundary the scan is inside a QWORD it has looked at and
    found to be nonzero, so a skip always starts on a byte boundary. *)
Definition scan_ok (i : Z) : Prop :=
  i mod 8 = 0 \/ (64 <= blocks - i -> read_le 8 (bitmap bm) (i / 8) <> Some 0).

Lemma find_free_loop_spec fuel i : 0 <= i -> blocks - i <= Z.of_nat fuel -> scan_ok i ->
  find_free_loop fuel i blocks (bitmap bm) =
  Ok (first_free (Z.to_nat (blocks - i)) i (bit_of (bitmap bm))).
Proof.
  revert i. induction fuel as [|fuel IH]; intros i Hi Hf Hscan; cbn [find_free_loop];
    destruct (Z.ltb_spec i blocks) as [Hlt|Hge]; try lia;
    try (replace (Z.to_nat (blocks - i)) with O by lia; done).
  destruct (level_ok_byte _ _ i Hok ltac:(lia)) as (b & Hb & _).
  rewrite !Z.quot_div_nonneg, Z.rem_mod_nonneg, Hb by lia.
  change MM_TRUE with 1. rewrite land_bit_eq0 by (apply Z.mod_pos_bound; lia).
  rewrite negb_involutive.
  assert (Z.testbit b (i mod 8) = bit_of (bitmap bm) i) as ->
    by (unfold bit_of; by rewrite Hb).
  assert ((64 <= blocks - i -> read_le 8 (bitmap bm) (i / 8) <> Some 0) ->
    (if bit_of (bitmap bm) i then Ok i else find_free_loop fuel (i + 1) blocks (bitmap bm)) =
    Ok (first_free (Z.to_nat (blocks - i)) i (bit_of (bitmap bm)))) as Htest.
  { intros Hq. replace (Z.to_nat (blocks - i)) with (S (Z.to_nat (blocks - (i + 1)))) by lia.
    cbn [first_free]. destruct (bit_of (bitmap bm) i); [done|]. apply IH; [lia|lia|].
    destruct (decide ((i + 1) mod 8 = 0)); [by left|right].
    intros ?. replace ((i + 1) / 8) with (i / 8) by zdm. apply Hq. lia. }
  destruct (Z.ltb_spec 0 ((blocks - i) / 64)) as [H64|H64]; [|apply Htest; zdm].
  destruct (read_le_some 8 (bitmap bm) (i / 8)) as [q Hq];
    [zdm|rewrite (lo_len _ _ Hok); zdm|].
  rewrite Hq. destruct (Z.eqb_spec q 0) as [->|Hne]; [|apply Htest; congruence].
  assert (i mod 8 = 0) as Hal by (destruct Hscan as [|Hn]; [done|]; destruct Hn; [zdm|done]).
  rewrite IH; [|lia|lia|left; zdm]. f_equal. symmetry.
  rewrite (first_free_skip 64); [|zdm|].
  - f_equal; lia.
  - intros k Hk. eapply read_le_zero; [apply (lo_bytes _ _ Hok)|exact Hq|zdm].
Qed.
End find.

Definition level_blocks (m : MM) (l : Z) : Z := smallest_block m / 2 ^ l.

(** [find_free_block] is the reference search, on a level that is in order. *)
Lemma find_free_block_first l m : shape m -> 0 <= l < max_level m ->
  find_free_block l m = Ok (first_free (Z.to_nat (level_blocks m l)) 0 (free_bit m l), m).
Proof.
  intros H Hl. destruct (shape_level m l H Hl) as (bm & Hbm & Hok).
  unfold find_free_block, level_blocks. rewrite Hbm, shiftr_pow2 by lia.
  assert (free_bit m l = bit_of (bitmap bm)) as ->.
  { unfold free_bit. by rewrite Hbm. }
  pose proof (lo_blocks _ _ Hok).
  destruct (Z.eqb_spec (bitmap_count bm) 0) as [Hz|Hn].
  - rewrite (lo_count _ _ Hok) in Hz.
    destruct (first_free_spec (Z.to_nat (smallest_block m / 2 ^ l)) 0 (bit_of (bitmap bm)))
      as [[-> _]|(Hr & Ht & _)]; [lia|done|].
    rewrite (count_bits_zero _ _ _ Hz) in Ht by lia. done.
  - rewrite (find_free_loop_spec _ _ Hok); [|lia|lia|by left].
    by rewrite Z.sub_0_r.
Qed.
