(* ===== verification/Tiling.v ===== *)
(** * Tilings of a page range by buddy blocks

    The abstract picture of the allocator: the pages [0, n) are cut into blocks
    [o * 2 ^ l, (o + 1) * 2 ^ l), each of them free, allocated, or taken out of
    the books while an operation is at work on it.  Every page lies in exactly
    one block.  One lemma says that exchanging some blocks for others that cover
    the same pages keeps it so; retagging, splitting and merging are its cases. *)

From S2P Require Import Prelude.

Inductive kind : Set := Free | Allocated | Hole.

#[global] Instance kind_eq_dec : EqDecision kind.
Proof. solve_decision. Defined.

Record block := Block { tag : kind; level : Z; offset : Z }.

#[global] Instance block_eq_dec : EqDecision block.
Proof. solve_decision. Defined.

(** The pages of a block: from its first to its last. *)
Definition first_page (b : block) : Z := offset b * 2 ^ level b.

Definition end_page (b : block) : Z := (offset b + 1) * 2 ^ level b.

Definition covers (b : block) (p : Z) : Prop := first_page b <= p < end_page b.

Definition fits (n : Z) (b : block) : Prop :=
  0 <= level b /\ 0 <= offset b /\ end_page b <= n.

Record Tiling (n : Z) (P : block -> Prop) : Prop := {
  tiling_fits : forall b, P b -> fits n b;
  tiling_cover : forall p, 0 <= p < n -> exists b, P b /\ covers b p;
  tiling_unique : forall b c p, P b -> P c -> covers b p -> covers c p -> b = c
}.

(** [P'] is [P] with the blocks [old] exchanged for the blocks [new]. *)
Definition exchanged (P P' : block -> Prop) (old new : list block) : Prop :=
  forall b, P' b <-> (P b /\ b ∉ old) \/ b ∈ new.

Lemma covers_div b p : 0 <= level b -> covers b p <-> p / 2 ^ level b = offset b.
Proof.
  intros Hl. unfold covers, first_page, end_page. pose proof (pow2_pos _ Hl).
  pose proof (Z.div_mod p (2 ^ level b)). pose proof (Z.mod_pos_bound p (2 ^ level b)).
  split; [intros ?; symmetry; apply Z.div_unique with (p - offset b * 2 ^ level b); lia|].
  intros <-. lia.
Qed.

Lemma covers_first b : 0 <= level b -> covers b (first_page b).
Proof. intros ?%pow2_pos. unfold covers, first_page, end_page. lia. Qed.

(** Two blocks that share a page are nested one in the other, so blocks of one
    level that share a page are the same place. *)
Lemma covers_same_level b c p : 0 <= level b -> level b = level c ->
  covers b p -> covers c p -> offset b = offset c.
Proof.
  intros Hl He Hb Hc. apply covers_div in Hb; [|done]. apply covers_div in Hc; [|lia].
  rewrite He in Hb. congruence.
Qed.

Section tiling.
Context (n : Z).
Implicit Types (P : block -> Prop) (b c : block).

Lemma tiling_exchange P P' (old new : list block) :
  Tiling n P ->
  Forall P old ->
  Forall (fits n) new ->
  (forall p, Exists (fun b => covers b p) old <-> Exists (fun b => covers b p) new) ->
  (forall b c p, b ∈ new -> c ∈ new -> covers b p -> covers c p -> b = c) ->
  exchanged P P' old new ->
  Tiling n P'.
Proof.
  intros [Hfits Hcov Huniq] Hold Hnew Hpages Hdisj Hex.
  rewrite list.Forall_forall in Hold. rewrite list.Forall_forall in Hnew.
  assert (forall b c p, P b -> b ∉ old -> c ∈ new -> covers b p -> covers c p -> False)
    as Hcross.
  { intros b c p Hb Hno Hc Hbp Hcp.
    assert (Exists (fun b => covers b p) old) as (d & Hd & Hdp)%list.Exists_exists.
    { apply Hpages. apply list.Exists_exists. eauto. }
    apply Hno. rewrite (Huniq b d p); auto. }
  constructor.
  - intros b Hb. apply Hex in Hb as [[Hb _]|Hb]; auto.
  - intros p Hp. destruct (Hcov p Hp) as (b & Hb & Hbp).
    destruct (decide (b ∈ old)) as [Hin|Hno].
    + assert (Exists (fun b => covers b p) new) as (c & Hc & Hcp)%list.Exists_exists.
      { apply Hpages. apply list.Exists_exists. eauto. }
      exists c. split; [apply Hex; auto|done].
    + exists b. split; [apply Hex; auto|done].
  - intros b c p Hb Hc Hbp Hcp.
    apply Hex in Hb as [[Hb Hbo]|Hb]; apply Hex in Hc as [[Hc Hco]|Hc];
      try solve [eauto | exfalso; eauto].
Qed.

(** The block changes hands. *)
Lemma tiling_retag P P' k k' l o :
  Tiling n P -> P (Block k l o) ->
  exchanged P P' [Block k l o] [Block k' l o] -> Tiling n P'.
Proof.
  intros HT Hb Hex. eapply tiling_exchange; [exact HT| | | | |exact Hex]; [by repeat constructor|..].
  - repeat constructor; apply (tiling_fits _ _ HT _ Hb).
  - intros p. by rewrite !Exists_cons, !Exists_nil.
  - set_solver.
Qed.

(** The block gives way to its two halves. *)
Lemma tiling_split P P' k k1 k2 l o :
  0 <= l -> Tiling n P -> P (Block k (l + 1) o) ->
  exchanged P P' [Block k (l + 1) o] [Block k1 l (2 * o); Block k2 l (2 * o + 1)] ->
  Tiling n P'.
Proof.
  intros Hl HT Hb Hex. pose proof (pow2_pos l Hl).
  destruct (tiling_fits _ _ HT _ Hb) as (? & ? & He). unfold end_page in He. cbn in *.
  rewrite pow2_succ in He by done.
  eapply tiling_exchange; [exact HT| | | | |exact Hex]; [by repeat constructor|..].
  - repeat constructor; unfold end_page; cbn; nia.
  - intros p. rewrite !Exists_cons, !Exists_nil. unfold covers, first_page, end_page. cbn.
    rewrite pow2_succ by done. split; [|nia].
    intros [?|[]]. destruct (Z.lt_ge_cases p ((2 * o + 1) * 2 ^ l)); [left|right; left]; nia.
  - intros b c p. unfold covers, first_page, end_page.
    rewrite !elem_of_cons. intros [->|[->|[]%elem_of_nil]] [->|[->|[]%elem_of_nil]]; cbn; nia || done.
Qed.

(** Two buddies give way to the block they make up. *)
Lemma tiling_merge P P' k k1 k2 l o :
  0 <= l -> Tiling n P -> P (Block k1 l (2 * o)) -> P (Block k2 l (2 * o + 1)) ->
  exchanged P P' [Block k1 l (2 * o); Block k2 l (2 * o + 1)] [Block k (l + 1) o] ->
  Tiling n P'.
Proof.
  intros Hl HT Hb Hc Hex. pose proof (pow2_pos l Hl).
  destruct (tiling_fits _ _ HT _ Hb) as (? & ? & _).
  destruct (tiling_fits _ _ HT _ Hc) as (_ & _ & He). unfold end_page in He. cbn in *.
  eapply tiling_exchange; [exact HT| | | | |exact Hex]; [by repeat constructor|..].
  - repeat constructor; unfold end_page; cbn; rewrite ?pow2_succ; nia.
  - intros p. rewrite !Exists_cons, !Exists_nil. unfold covers, first_page, end_page. cbn.
    rewrite pow2_succ by done. split; [nia|].
    intros [?|[]]. destruct (Z.lt_ge_cases p ((2 * o + 1) * 2 ^ l)); [left|right; left]; nia.
  - set_solver.
Qed.

(** A block of the tiling keeps its neighbours out of its pages. *)
Lemma tiling_disjoint P b c : Tiling n P -> P b -> P c -> b <> c ->
  end_page b <= first_page c \/ end_page c <= first_page b.
Proof.
  intros HT Hb Hc Hne.
  destruct (Z.le_gt_cases (end_page b) (first_page c)); [by left|right].
  destruct (Z.le_gt_cases (end_page c) (first_page b)); [done|exfalso].
  destruct (tiling_fits _ _ HT _ Hb) as (Hlb & _ & _).
  destruct (tiling_fits _ _ HT _ Hc) as (Hlc & _ & _).
  pose proof (covers_first b Hlb). pose proof (covers_first c Hlc). unfold covers in *.
  destruct (Z.le_gt_cases (first_page b) (first_page c)).
  - apply Hne, (tiling_unique _ _ HT b c (first_page c)); try done; unfold covers; lia.
  - apply Hne, (tiling_unique _ _ HT b c (first_page b)); try done; unfold covers; lia.
Qed.

(** No smaller block lies under a block of the tiling, whatever its tag. *)
Lemma tiling_parent_out P k k' l o :
  Tiling n P -> 0 <= l -> P (Block k (l + 1) o) ->
  ~ P (Block k' l (2 * o)) /\ ~ P (Block k' l (2 * o + 1)).
Proof.
  intros HT Hl Hb. pose proof (pow2_pos l Hl).
  assert (forall c : Z, P (Block k' l c) -> c = 2 * o \/ c = 2 * o + 1 -> False) as H'.
  { intros c Hc Hco.
    assert (Block k (l + 1) o = Block k' l c) as [=]; [|lia].
    apply (tiling_unique _ _ HT _ _ (c * 2 ^ l)); [done..| |];
      unfold covers, first_page, end_page; cbn; rewrite ?pow2_succ by done; nia. }
  split; intros Hc; eapply H'; eauto.
Qed.

(** One block per place. *)
Lemma tiling_one_tag P k k' l o :
  Tiling n P -> P (Block k l o) -> P (Block k' l o) -> k = k'.
Proof.
  intros HT Hb Hc. destruct (tiling_fits _ _ HT _ Hb) as (Hl & _).
  assert (Block k l o = Block k' l o) as [=]; [|done].
  apply (tiling_unique _ _ HT _ _ (o * 2 ^ l)); [done..| |]; by apply covers_first.
Qed.
End tiling.

(** A tiling depends on the set of blocks only. *)
#[global] Instance Tiling_proper n : Proper (pointwise_relation _ iff ==> iff) (Tiling n).
Proof.
  assert (forall P P', pointwise_relation _ iff P P' -> Tiling n P -> Tiling n P') as H.
  { intros P P' HP [Hf Hc Hu]. constructor.
    - intros b Hb. apply Hf. by apply HP.
    - intros p Hp. destruct (Hc p Hp) as (b & Hb & Hbp). exists b. split; [by apply HP|done].
    - intros b c p Hb Hc'. apply HP in Hb. apply HP in Hc'. eauto. }
  intros P P' HP. split; apply H; [done|]. intros b. symmetry. apply HP.
Qed.
