(* ===== verification/Buddy.v ===== *)
(** * The buddy invariant

    The pages of the pool are tiled by the blocks the bitmaps declare free and
    the blocks [block_index] declares allocated, and no two buddies are both
    free.  [alloc_buddy_block] takes a block out of the tiling, splitting a
    larger one if need be, [free_buddy_block] puts one back, merging as far as
    it goes; both keep the invariant.  A pool is determined by its allocated
    blocks: the free ones are the maximal ranges left. *)

From S2P Require Import Prelude.
From S2P Require Import Utility.
From S2P Require Import Lock.
From S2P Require Import Stat.
From S2P Require Import Memory.
From S2P Require Import MemoryBits.
From S2P Require Import Tiling.

(** The blocks of a pool, [h] the one an operation has in hand. *)
Definition blocks_of (m : MM) (h : option (Z * Z)) (b : block) : Prop :=
  match tag b with
  | Free => free_bit m (level b) (offset b) = true
  | Allocated => 0 <= level b < max_level m /\ 0 <= offset b /\
                 nthZ (block_index m) (first_page b) = Some (level b)
  | Hole => h = Some (level b, offset b)
  end.

Definition coalesced (m : MM) : Prop :=
  forall l o, free_bit m l (2 * o) = true -> free_bit m l (2 * o + 1) = true -> False.

Definition entries_ok (m : MM) : Prop :=
  forall p e, nthZ (block_index m) p = Some e ->
  e = 0xFF \/ (0 <= e < max_level m /\ p mod 2 ^ e = 0).

Record buddy_inv (m : MM) (h : option (Z * Z)) : Prop := {
  bi_shape : shape m;
  bi_tiling : Tiling (smallest_block m) (blocks_of m h);
  bi_entries : entries_ok m;
  bi_coalesced : coalesced m
}.

(** ** Single steps *)

Lemma frame_fields m m' : frame m m' ->
  smallest_block m' = smallest_block m /\ max_level m' = max_level m /\
  block_index m' = block_index m /\ used_size m' = used_size m /\
  start_addr m' = start_addr m /\ end_addr m' = end_addr m /\ mm_spl m' = mm_spl m.
Proof. intros [-> _]. done. Qed.

Lemma entries_ok_frame m m' : frame m m' -> entries_ok m -> entries_ok m'.
Proof. intros (_ & Hml & Hbi & _)%frame_fields H p e. rewrite Hbi, Hml. apply H. Qed.

(** What a written bit and a new hole do to the set of blocks. *)
Lemma blocks_of_written m m' l o v h h' b : bit_written m m' l o v ->
  blocks_of m' h' b <->
  match tag b with
  | Free => if decide (b = Block Free l o) then v = true else blocks_of m h b
  | Allocated => blocks_of m h b
  | Hole => h' = Some (level b, offset b)
  end.
Proof.
  intros Hw. destruct (frame_fields _ _ (bw_frame _ _ _ _ _ Hw)) as (_ & Hml & Hbi & _).
  destruct b as [[] l' o']; unfold blocks_of, first_page; cbn; [|by rewrite Hml, Hbi|done].
  rewrite (bw_bits _ _ _ _ _ Hw).
  destruct (decide (l' = l /\ o' = o)) as [[-> ->]|Hne]; [by rewrite decide_True|].
  rewrite decide_False by naive_solver. done.
Qed.

(** A hole and a free block never share a place, so the bit of a hole is clear. *)
Lemma hole_bit m l o : buddy_inv m (Some (l, o)) -> free_bit m l o = false.
Proof.
  intros H. destruct (free_bit m l o) eqn:E; [|done].
  pose proof (tiling_one_tag _ _ Free Hole l o (bi_tiling _ _ H)) as Ht.
  by discriminate Ht.
Qed.

Lemma block_range m h b : buddy_inv m h -> blocks_of m h b ->
  0 <= level b < max_level m /\ 0 <= offset b < smallest_block m / 2 ^ level b.
Proof.
  intros H Hb. destruct (tiling_fits _ _ (bi_tiling _ _ H) _ Hb) as (Hl & Ho & He).
  unfold end_page in He. pose proof (pow2_pos _ Hl).
  pose proof (sh_top _ (bi_shape _ _ H)). pose proof (sh_levels _ (bi_shape _ _ H)).
  split; split; try done.
  - destruct (Z.lt_ge_cases (level b) (max_level m)); [done|].
    pose proof (pow2_mono (max_level m) (level b)). nia.
  - apply Z.lt_le_trans with (offset b + 1); [lia|]. apply Z.div_le_lower_bound; lia.
Qed.

(** Writing a bit its own value changes nothing. *)
Lemma written_same m m' l o v : shape m -> bit_written m m' l o v -> free_bit m l o = v -> m' = m.
Proof.
  intros H Hw Hv. apply mm_ext; [done|apply Hw..|].
  intros l' o'. rewrite (bw_bits _ _ _ _ _ Hw). case_decide as Hd; [|done].
  by destruct Hd as [-> ->].
Qed.

(** Decides membership of a block in a list of explicit blocks. *)
Ltac block_cases :=
  unfold exchanged; intros [kk ll oo];
  rewrite ?elem_of_cons, ?elem_of_nil, ?not_elem_of_cons.

(** [set_bitmap_flag(i, free_offset, MM_FALSE)]: a free block becomes the hole. *)
Lemma step_take m m' l o : buddy_inv m None -> free_bit m l o = true ->
  bit_written m m' l o false -> buddy_inv m' (Some (l, o)).
Proof.
  intros H Hf Hw. pose proof (frame_fields _ _ (bw_frame _ _ _ _ _ Hw)) as (Hn & _).
  constructor; [apply Hw| |eapply entries_ok_frame; [apply Hw|apply H]|].
  - rewrite Hn. eapply (tiling_retag _ _ _ Free Hole l o); [apply H|exact Hf|].
    block_cases. rewrite (blocks_of_written _ _ _ _ _ None) by done.
    destruct kk; unfold blocks_of; cbn; [case_decide| |]; naive_solver.
  - intros l' o'. rewrite !(bw_bits _ _ _ _ _ Hw). do 2 (case_decide; [done|]).
    apply (bi_coalesced _ _ H).
Qed.

(** The hole keeps its left half, the right half becomes free. *)
Lemma step_split m m' l o : 0 <= l -> buddy_inv m (Some (l + 1, o)) ->
  bit_written m m' l (2 * o + 1) true -> buddy_inv m' (Some (l, 2 * o)).
Proof.
  intros Hl H Hw. pose proof (frame_fields _ _ (bw_frame _ _ _ _ _ Hw)) as (Hn & _).
  pose proof (tiling_parent_out _ _ Hole Free l o (bi_tiling _ _ H) Hl) as [Hleft Hright];
    [done|].
  unfold blocks_of in Hleft, Hright. cbn in Hleft, Hright.
  constructor; [apply Hw| |eapply entries_ok_frame; [apply Hw|apply H]|].
  - rewrite Hn. eapply (tiling_split _ _ _ Hole Hole Free l o);
      [done|apply H|done|].
    block_cases. rewrite (blocks_of_written _ _ _ _ _ (Some (l + 1, o))) by done.
    destruct kk; unfold blocks_of; cbn; [case_decide| |]; naive_solver.
  - intros l' o'. rewrite !(bw_bits _ _ _ _ _ Hw).
    case_decide as H1; case_decide as H2; try lia; try apply (bi_coalesced _ _ H).
    destruct H2 as [-> ?]. assert (o' = o) as -> by lia. intros ?. congruence.
Qed.

Definition buddy (o : Z) : Z := if o mod 2 =? 0 then o + 1 else o - 1.

Lemma buddy_pair o : exists q, (o = 2 * q /\ buddy o = 2 * q + 1) \/
                               (o = 2 * q + 1 /\ buddy o = 2 * q).
Proof.
  unfold buddy. exists (o / 2). destruct (Z.eqb_spec (o mod 2) 0); [left|right]; zdm.
Qed.

(** The hole becomes free when its buddy is not. *)
Lemma step_fill m m' l o : buddy_inv m (Some (l, o)) -> free_bit m l (buddy o) = false ->
  bit_written m m' l o true -> buddy_inv m' None.
Proof.
  intros H Hbud Hw. pose proof (frame_fields _ _ (bw_frame _ _ _ _ _ Hw)) as (Hn & _).
  pose proof (hole_bit _ _ _ H) as Hbit.
  constructor; [apply Hw| |eapply entries_ok_frame; [apply Hw|apply H]|].
  - rewrite Hn. eapply (tiling_retag _ _ _ Hole Free l o); [apply H|done|].
    block_cases. rewrite (blocks_of_written _ _ _ _ _ (Some (l, o))) by done.
    destruct kk; unfold blocks_of; cbn; [case_decide| |]; naive_solver.
  - intros l' o'. rewrite !(bw_bits _ _ _ _ _ Hw).
    destruct (buddy_pair o) as (q & [[Ho Hb]|[Ho Hb]]); rewrite Hb in Hbud;
      case_decide as H1; case_decide as H2; try lia; try apply (bi_coalesced _ _ H).
    + destruct H1 as [-> ?]. assert (o' = q) as -> by lia. intros _. congruence.
    + destruct H2 as [-> ?]. assert (o' = q) as -> by lia. congruence.
Qed.

(** The hole and its free buddy become the hole one level up. *)
Lemma step_merge m m' l o : 0 <= l -> buddy_inv m (Some (l, o)) ->
  free_bit m l (buddy o) = true -> bit_written m m' l (buddy o) false ->
  buddy_inv m' (Some (l + 1, o / 2)).
Proof.
  intros Hl H Hbud Hw. pose proof (frame_fields _ _ (bw_frame _ _ _ _ _ Hw)) as (Hn & _).
  constructor; [apply Hw| |eapply entries_ok_frame; [apply Hw|apply H]|].
  - rewrite Hn. destruct (buddy_pair o) as (q & [[Ho Hb]|[Ho Hb]]); rewrite Hb in Hbud, Hw;
      replace (o / 2) with q by zdm; rewrite Ho in *.
    + eapply (tiling_merge _ _ _ Hole Hole Free l q); [done|apply H|done|exact Hbud|].
      block_cases. rewrite (blocks_of_written _ _ _ _ _ (Some (l, 2 * q))) by done.
      destruct kk; unfold blocks_of; cbn; [case_decide| |]; naive_solver.
    + eapply (tiling_merge _ _ _ Hole Free Hole l q); [done|apply H|exact Hbud|done|].
      block_cases. rewrite (blocks_of_written _ _ _ _ _ (Some (l, 2 * q + 1))) by done.
      destruct kk; unfold blocks_of; cbn; [case_decide| |]; naive_solver.
  - intros l' o'. rewrite !(bw_bits _ _ _ _ _ Hw). do 2 (case_decide; [done|]).
    apply (bi_coalesced _ _ H).
Qed.

(** ** Taking a block out *)

Lemma half_range n l o : 0 <= l -> 0 <= o < n / 2 ^ (l + 1) -> 0 <= 2 * o + 1 < n / 2 ^ l.
Proof. intros Hl Ho. rewrite div_pow2_succ in Ho by done. zdm. Qed.

Lemma level_blocks_bound m l : shape m -> 0 <= l -> smallest_block m / 2 ^ l < 2 ^ 31.
Proof.
  intros H Hl. pose proof (sh_blocks _ H). pose proof (pow2_pos l Hl).
  apply Z.div_lt_upper_bound; nia.
Qed.

Lemma wp_split_loop n l o m : 0 <= l -> buddy_inv m (Some (l + Z.of_nat n, o)) ->
  wp (split_loop n (l + Z.of_nat n - 1) o)
     (fun r m' => 0 <= r /\ buddy_inv m' (Some (l, r)) /\ frame m m') m.
Proof.
  revert o m. induction n as [|n IH]; intros o m Hl H; cbn [split_loop].
  - replace (l + Z.of_nat 0) with l in H by lia.
    pose proof (block_range _ _ (Block Hole l o) H eq_refl) as [_ Ho]. cbn in Ho.
    apply wp_ret. split_and!; [lia|done|reflexivity].
  - set (i := l + Z.of_nat n). replace (l + Z.of_nat (S n) - 1) with i by lia.
    replace (l + Z.of_nat (S n)) with (i + 1) in H by lia.
    pose proof (bi_shape _ _ H) as Hs.
    destruct (block_range _ _ (Block Hole (i + 1) o) H eq_refl) as [Hi Ho]. cbn in Hi, Ho.
    pose proof (half_range _ i o ltac:(lia) Ho) as Hh.
    pose proof (level_blocks_bound m i Hs ltac:(lia)).
    replace (o * 2) with (2 * o) by lia. fit.
    pose proof (tiling_parent_out _ _ Hole Free i o (bi_tiling _ _ H) ltac:(lia) eq_refl)
      as [Hleft _]. unfold blocks_of in Hleft. cbn in Hleft.
    apply wp_bind, (wp_set_bitmap_flag i (2 * o) false); [done|lia|lia|].
    intros m1 Hw1. apply written_same in Hw1; [subst m1|done|by destruct free_bit].
    apply wp_bind, (wp_set_bitmap_flag i (2 * o + 1) true); [done|lia|lia|].
    intros m2 Hw2. eapply wp_mono.
    + replace (i - 1) with (l + Z.of_nat n - 1) by lia. apply IH; [done|].
      eapply step_split; [lia|exact H|exact Hw2].
    + intros r m' (? & ? & Hf). split_and!; [done|done|].
      etrans; [apply (bw_frame _ _ _ _ _ Hw2)|done].
Qed.

Lemma find_level_spec n i m : shape m -> 0 <= i -> i + Z.of_nat n = max_level m ->
  exists l o, find_level n i m = Ok ((l, o), m) /\
    ((o = -1 /\ forall l' o', i <= l' -> free_bit m l' o' = false) \/
     (i <= l < max_level m /\ 0 <= o /\ free_bit m l o = true)).
Proof.
  intros H. revert i. induction n as [|n IH]; intros i Hi Hn; cbn [find_level].
  - exists i, (-1). split; [done|left]. split; [done|]. intros l' o' Hl.
    destruct (free_bit m l' o') eqn:E; [|done]. apply free_bit_range in E; [lia|done].
  - unfold bind. rewrite find_free_block_first by (done || lia).
    destruct (first_free_spec (Z.to_nat (level_blocks m i)) 0 (free_bit m i))
      as [[-> Hno]|(Hr & Hf & _)]; [lia| |].
    + cbn [Z.eqb Pos.eqb negb]. destruct (IH (i + 1)) as (l & o & -> & Hlo); [lia..|].
      exists l, o. split; [done|]. destruct Hlo as [[-> Hl]|(?&?&?)]; [left|right; split; [lia|done]].
      split; [done|]. intros l' o' Hl'. destruct (decide (l' = i)) as [->|]; [|apply Hl; lia].
      destruct (free_bit m i o') eqn:E; [|done]. exfalso.
      apply free_bit_range in E as HE; [|done]. rewrite Hno in E; [done|].
      unfold level_blocks. lia.
    + set (o := first_free _ _ _) in *. destruct (Z.eqb_spec o (-1)) as [|_]; [lia|].
      exists i, o. split; [done|right]. split_and!; [lia|lia|lia|done].
Qed.

(** The result of [alloc_buddy_block] for a block of level [l]: nothing free at
    level [l] or above and nothing changed, or a block taken out of the tiling. *)
Lemma wp_alloc_buddy_block l aligned_size m :
  buddy_inv m None -> block_list_index m aligned_size = l -> 0 <= l < max_level m ->
  wp (alloc_buddy_block aligned_size)
     (fun r m' =>
        (r = -1 /\ m' = m /\ forall l' o', l <= l' -> free_bit m l' o' = false) \/
        (0 <= r /\ buddy_inv m' (Some (l, r)) /\ frame m m' /\
         exists l' o', l <= l' /\ free_bit m l' o' = true)) m.
Proof.
  intros H Hidx Hl. unfold alloc_buddy_block. wp_steps. rewrite Hidx.
  destruct (Z.eqb_spec l (-1)) as [|_]; [lia|]. wp_steps.
  destruct (find_level_spec (Z.to_nat (max_level m - l)) l m) as (i & o & Hfind & Hio);
    [apply H|lia|lia|].
  unfold wp. rewrite Hfind. fold (wp (St := MM) (A := Z)).
  destruct Hio as [[-> Hno]|(Hi & Ho & Hf)]; [left; done|].
  destruct (Z.eqb_spec o (-1)) as [|_]; [lia|].
  pose proof (free_bit_range _ _ _ (bi_shape _ _ H) Hf) as [Hir Hor].
  enough (wp (set_bitmap_flag i o MM_FALSE ;; split_loop (Z.to_nat (i - l)) (i - 1) o)
    (fun r m' => 0 <= r /\ buddy_inv m' (Some (l, r)) /\ frame m m') m) as Hwp.
  { eapply wp_mono; [exact Hwp|]. intros r m' (? & ? & ?). right. split_and!; [done..|].
    exists i, o. split; [lia|done]. }
  apply wp_bind, (wp_set_bitmap_flag i o false); [apply H|done|done|].
  intros m1 Hw. eapply wp_mono.
  - replace (i - 1) with (l + Z.of_nat (Z.to_nat (i - l)) - 1) by lia.
    apply wp_split_loop; [lia|]. replace (l + Z.of_nat (Z.to_nat (i - l))) with i by lia.
    eapply step_take; eauto.
  - intros r m' (? & ? & ?). split_and!; [done|done|].
    etrans; [apply (bw_frame _ _ _ _ _ Hw)|done].
Qed.

(** ** Putting a block back *)

Lemma wp_free_loop n l o m : buddy_inv m (Some (l, o)) -> l + Z.of_nat n = max_level m ->
  wp (free_loop n l o) (fun _ m' => buddy_inv m' None /\ frame m m') m.
Proof.
  revert l o m. induction n as [|n IH]; intros l o m H Hn;
    destruct (block_range _ _ (Block Hole l o) H eq_refl) as [Hl Ho]; cbn in Hl, Ho; [lia|].
  cbn [free_loop]. pose proof (bi_shape _ _ H) as Hs.
  pose proof (level_blocks_bound m l Hs ltac:(lia)) as Hb31.
  apply wp_bind, (wp_set_bitmap_flag l o true); [done|done|done|]. intros m1 Hw1.
  destruct (frame_fields _ _ (bw_frame _ _ _ _ _ Hw1)) as (Hn1 & Hml1 & _).
  assert ((if Z.rem o 2 =? 0 then s32 (o + 1) else s32 (o - 1)) = buddy o) as ->.
  { unfold buddy. rewrite Z.rem_mod_nonneg by lia. destruct (Z.eqb_spec (o mod 2) 0); [|by fit].
    rewrite s32_small; lia. }
  destruct (buddy_pair o) as (q & Hq).
  assert (free_bit m1 l (buddy o) = free_bit m l (buddy o)) as Hbb.
  { rewrite (bw_bits _ _ _ _ _ Hw1), decide_False by lia. done. }
  apply wp_bind, wp_get_bitmap_flag; [apply Hw1|lia|lia|rewrite Hn1; zdm|]. rewrite Hbb.
  destruct (free_bit m l (buddy o)) eqn:Hbud; cbn [MM_TRUE MM_FALSE Z.eqb Pos.eqb].
  - destruct (free_bit_range _ _ _ Hs Hbud) as [_ Hbr].
    apply wp_bind, (wp_set_bitmap_flag l (buddy o) false); [apply Hw1|lia|by rewrite Hn1|].
    intros m2 Hw2. destruct (frame_fields _ _ (bw_frame _ _ _ _ _ Hw2)) as (Hn2 & Hml2 & _).
    apply wp_bind, (wp_set_bitmap_flag l o false); [apply Hw2|lia|rewrite Hn2, Hn1; lia|].
    intros m3 Hw3. assert (frame m m3) as Hf3 by
      (etrans; [apply Hw1|etrans; [apply Hw2|apply Hw3]]).
    assert (bit_written m m3 l (buddy o) false) as Hw.
    { constructor; [apply Hw3|done|]. intros l' o'.
      rewrite (bw_bits _ _ _ _ _ Hw3), (bw_bits _ _ _ _ _ Hw2), (bw_bits _ _ _ _ _ Hw1).
      pose proof (hole_bit _ _ _ H). repeat case_decide; try done; destruct_and?; simplify_eq; congruence. }
    rewrite Z.quot_div_nonneg by lia.
    eapply wp_mono; [apply IH; [eapply step_merge; eauto; lia|]|].
    + destruct (frame_fields _ _ Hf3) as (_ & -> & _). lia.
    + intros ? m' [? ?]. split; [done|]. by etrans.
  - apply wp_ret. split; [by eapply step_fill|apply Hw1].
Qed.

Lemma wp_free_buddy_block l o m : buddy_inv m (Some (l, o)) ->
  wp (free_buddy_block l o) (fun r m' => r = true /\ buddy_inv m' None /\ frame m m') m.
Proof.
  intros H. destruct (block_range _ _ (Block Hole l o) H eq_refl) as [Hl _]. cbn in Hl.
  unfold free_buddy_block. wp_steps. eapply wp_mono; [apply wp_free_loop; [done|lia]|].
  intros ? m' ?. by apply wp_ret.
Qed.

(** ** Canonical form *)

(** No allocated block reaches into the pages [a, a + len). *)
Definition range_unused (m : MM) (a len : Z) : Prop :=
  forall q e, nthZ (block_index m) q = Some e -> e <> 0xFF -> q + 2 ^ e <= a \/ a + len <= q.

(** An entry of [block_index] is an allocated block. *)
Lemma entry_block m h q e : buddy_inv m h -> nthZ (block_index m) q = Some e -> e <> 0xFF ->
  blocks_of m h (Block Allocated e (q / 2 ^ e)) /\ 0 <= e < max_level m /\
  q = q / 2 ^ e * 2 ^ e.
Proof.
  intros H Hq He. destruct (bi_entries _ _ H q e Hq) as [?|[Hr Hm]]; [done|].
  pose proof (pow2_pos e ltac:(lia)). pose proof (nthZ_Some_range _ _ _ Hq).
  assert (q = q / 2 ^ e * 2 ^ e) as Hd by (pose proof (Z.div_mod q (2 ^ e)); lia).
  split_and!; [|lia|lia|done]. unfold blocks_of, first_page. cbn.
  split_and!; [lia|lia|apply Z.div_pos; lia|congruence].
Qed.

Lemma block_unused m h b : buddy_inv m h -> blocks_of m h b -> tag b <> Allocated ->
  range_unused m (first_page b) (2 ^ level b).
Proof.
  intros H Hb Ht q e Hq He. destruct (entry_block m h q e H Hq He) as (Hc & Her & Hqd).
  destruct (tiling_disjoint _ _ b _ (bi_tiling _ _ H) Hb Hc) as [Hd|Hd];
    [intros ->; done|right|left]; unfold first_page, end_page in *; cbn in *; lia.
Qed.

(** A larger block that covers the first page of a place contains the place. *)
Lemma covers_contains b l o : 0 <= l <= level b -> covers b (o * 2 ^ l) ->
  first_page b <= o * 2 ^ l /\ (o + 1) * 2 ^ l <= end_page b.
Proof.
  unfold covers, first_page, end_page. intros Hl Hc. split; [lia|].
  pose proof (pow2_pos l). replace (2 ^ level b) with (2 ^ (level b - l) * 2 ^ l) in *.
  - set (D := 2 ^ (level b - l)) in *. set (T := 2 ^ l) in *.
    assert (o < (offset b + 1) * D) by (apply Z.mul_lt_mono_pos_r with T; lia).
    replace ((offset b + 1) * (D * T)) with ((offset b + 1) * D * T) by lia.
    apply Z.mul_le_mono_nonneg_r; lia.
  - rewrite <- Z.pow_add_r by lia. f_equal. lia.
Qed.

Lemma covers_align b l p : 0 <= l <= level b -> covers b p -> covers b (p / 2 ^ l * 2 ^ l).
Proof.
  intros Hl Hc. apply covers_div in Hc; [|lia]. apply covers_div; [lia|]. rewrite <- Hc.
  pose proof (pow2_pos l). pose proof (pow2_pos (level b - l)).
  replace (2 ^ level b) with (2 ^ (level b - l) * 2 ^ l)
    by (rewrite <- Z.pow_add_r by lia; f_equal; lia).
  rewrite Z.div_mul_cancel_r by lia. rewrite (Z.mul_comm (2 ^ (level b - l))).
  by rewrite Z.div_div by lia.
Qed.

(** In a coalesced pool an unused range with the place of a block lies inside
    one free block. *)
Lemma unused_free m (l : nat) o : buddy_inv m None ->
  0 <= o -> (o + 1) * 2 ^ Z.of_nat l <= smallest_block m ->
  range_unused m (o * 2 ^ Z.of_nat l) (2 ^ Z.of_nat l) ->
  exists b, blocks_of m None b /\ tag b = Free /\ Z.of_nat l <= level b /\
    covers b (o * 2 ^ Z.of_nat l).
Proof.
  intros H. revert o. induction l as [|l IH]; intros o Ho Hn Hu.
  - change (2 ^ Z.of_nat 0) with 1 in *.
    destruct (tiling_cover _ _ (bi_tiling _ _ H) (o * 1)) as (b & Hb & Hc); [lia|].
    exists b. pose proof (tiling_fits _ _ (bi_tiling _ _ H) _ Hb) as (? & _).
    split_and!; [done| |lia|done]. destruct b as [[] lb ob]; [done| |done]. exfalso.
    destruct Hb as (Hlb & Hob & Hb). cbn in *.
    destruct (Hu _ _ Hb) as [Hd|Hd]; [pose proof (shape_levels_bound _ (bi_shape _ _ H)); lia|..];
      unfold covers, first_page, end_page in *; cbn in *; lia.
  - set (L := Z.of_nat l) in *. replace (Z.of_nat (S l)) with (L + 1) in * by lia.
    pose proof (pow2_pos L ltac:(lia)). rewrite pow2_succ in * by lia.
    destruct (IH (2 * o)) as (b1 & Hb1 & Ht1 & Hl1 & Hc1); [lia|lia| |].
    { intros q e Hq He. destruct (Hu q e Hq He); [left|right]; lia. }
    destruct (IH (2 * o + 1)) as (b2 & Hb2 & Ht2 & Hl2 & Hc2); [lia|lia| |].
    { intros q e Hq He. destruct (Hu q e Hq He); [left|right]; lia. }
    replace (2 * o * 2 ^ L) with (o * (2 * 2 ^ L)) in Hc1 by lia.
    destruct (decide (L + 1 <= level b1)); [by exists b1|].
    destruct (decide (L + 1 <= level b2)) as [Hl|].
    { exists b2. split_and!; [done..|]. apply (covers_align b2 (L + 1)) in Hc2; [|lia].
      rewrite pow2_succ in Hc2 by lia. replace (o * (2 * 2 ^ L)) with
        ((2 * o + 1) * 2 ^ L / (2 * 2 ^ L) * (2 * 2 ^ L)); [done|].
      f_equal. symmetry. apply (Z.div_unique _ _ _ (2 ^ L)); lia. }
    destruct b1 as [t1 l1 o1], b2 as [t2 l2 o2]. cbn in *. subst t1 t2.
    assert (l1 = L /\ l2 = L) as [-> ->] by lia.
    assert (o1 = 2 * o) as ->.
    { apply covers_div in Hc1; [|cbn; lia]. cbn in Hc1. rewrite <- Hc1.
      replace (o * (2 * 2 ^ L)) with (2 * o * 2 ^ L) by lia. apply Z.div_mul. lia. }
    assert (o2 = 2 * o + 1) as ->.
    { apply covers_div in Hc2; [|cbn; lia]. cbn in Hc2. rewrite <- Hc2. apply Z.div_mul. lia. }
    destruct (bi_coalesced _ _ H _ _ Hb1 Hb2).
Qed.

Lemma free_determined m m' l o :
  buddy_inv m None -> buddy_inv m' None ->
  smallest_block m' = smallest_block m -> block_index m' = block_index m ->
  free_bit m l o = true -> free_bit m' l o = true.
Proof.
  intros H H' Hn Hbi Hf. pose proof (Hf : blocks_of m None (Block Free l o)) as Hb.
  destruct (tiling_fits _ _ (bi_tiling _ _ H) _ Hb) as (Hl & Ho & He). cbn in *.
  destruct (unused_free m' (Z.to_nat l) o H') as ([t' l' o'] & Hb' & Ht & Hl' & Hc'); [done| | |].
  - rewrite Z2Nat.id, Hn by done. exact He.
  - rewrite Z2Nat.id by done. intros q e. rewrite Hbi. by apply (block_unused m None (Block Free l o)).
  - rewrite Z2Nat.id in * by done. cbn in Ht, Hl'. subst t'.
    destruct (decide (l' = l)) as [->|Hne].
    { rewrite covers_div in Hc' by done. cbn in Hc'. rewrite Z.div_mul in Hc'
        by (pose proof (pow2_pos l); lia). by subst o'. }
    destruct (tiling_fits _ _ (bi_tiling _ _ H') _ Hb') as (Hl1 & Ho1 & He1). cbn in *.
    destruct (unused_free m (Z.to_nat l') o' H) as (b & Hb2 & Ht2 & Hl2 & Hc2); [done| | |].
    + rewrite Z2Nat.id, <- Hn by done. exact He1.
    + rewrite Z2Nat.id by done. intros q e. rewrite <- Hbi.
      by apply (block_unused m' None (Block Free l' o')).
    + rewrite Z2Nat.id in * by done. exfalso.
      apply covers_contains in Hc2; [|lia].
      assert (Block Free l o = b) as <-; [|cbn in *; lia].
      apply (tiling_unique _ _ (bi_tiling _ _ H) _ _ (o * 2 ^ l)); [done|done|by apply covers_first|].
      unfold covers, first_page, end_page in *. cbn in *. lia.
Qed.

(** A pool in order is determined by its geometry and its allocated blocks. *)
Lemma pool_canonical m m' :
  buddy_inv m None -> buddy_inv m' None -> frame m m' -> m' = m.
Proof.
  intros H H' Hf. destruct (frame_fields _ _ Hf) as (Hn & _ & Hbi & _).
  apply mm_ext; [apply H|apply H'|done|]. intros l o.
  pose proof (free_determined m m' l o H H' Hn Hbi).
  pose proof (free_determined m' m l o H' H (eq_sym Hn) (eq_sym Hbi)).
  destruct (free_bit m l o), (free_bit m' l o); naive_solver.
Qed.

(** ** Steps on [block_index] *)

Definition set_index (m : MM) (p e : Z) : MM :=
  m <| block_index := updZ (block_index m) p e |>.

Lemma set_index_shape m p e : shape m -> shape (set_index m p e).
Proof. intros []. constructor; simpl; try done. by rewrite lenZ_updZ. Qed.

Lemma set_index_free m p e l o : free_bit (set_index m p e) l o = free_bit m l o.
Proof. done. Qed.

(** Where no allocated block starts the entry is 0xFF. *)
Lemma entry_none m h b : buddy_inv m h -> blocks_of m h b -> tag b <> Allocated ->
  nthZ (block_index m) (first_page b) = Some 0xFF.
Proof.
  intros H Hb Ht. destruct (tiling_fits _ _ (bi_tiling _ _ H) _ Hb) as (Hl & Ho & He).
  pose proof (covers_first b Hl) as Hc. unfold covers in Hc.
  destruct (nthZ_in_range (block_index m) (first_page b)) as [e Hq].
  { rewrite (sh_index _ (bi_shape _ _ H)). unfold first_page. pose proof (pow2_pos _ Hl).
    unfold first_page in Hc. nia. }
  destruct (decide (e = 0xFF)) as [->|Hne]; [done|].
  destruct (entry_block _ _ _ _ H Hq Hne) as (_ & Her & _).
  pose proof (pow2_pos e ltac:(lia)). pose proof (pow2_pos _ Hl).
  destruct (block_unused m h b H Hb Ht _ _ Hq Hne); lia.
Qed.

(** The level of an entry is never 0xFF. *)
Lemma level_not_none m l : shape m -> l < max_level m -> l <> 0xFF.
Proof. intros H ?. pose proof (shape_levels_bound m H). lia. Qed.

(** [block_index[array_offset] = bl_index]: the hole is handed out. *)
Lemma step_commit m l o : buddy_inv m (Some (l, o)) ->
  buddy_inv (set_index m (o * 2 ^ l) l) None.
Proof.
  intros H. pose proof (eq_refl : blocks_of m (Some (l, o)) (Block Hole l o)) as Hh.
  destruct (block_range _ _ _ H Hh) as [Hl Ho]. cbn in Hl, Ho.
  assert (nthZ (block_index m) (o * 2 ^ l) = Some 0xFF) as H0
    by by apply (entry_none m _ (Block Hole l o) H).
  pose proof (nthZ_Some_range _ _ _ H0) as Hr.
  pose proof (bi_shape _ _ H) as Hs. pose proof (pow2_pos l ltac:(lia)).
  constructor; [by apply set_index_shape| | |apply H].
  - apply (tiling_retag _ (blocks_of m (Some (l, o))) _ Hole Allocated l o); [apply H|done|].
    block_cases. unfold blocks_of, first_page. destruct kk; simpl; [naive_solver| |naive_solver].
    rewrite nthZ_updZ. case_decide as Hd.
    + destruct Hd as [Hd _]. rewrite <- Hd, H0. split.
      * intros (? & ? & [= ->]). right. left. f_equal. apply Z.mul_cancel_r with (2 ^ ll); lia.
      * intros [[(? & ? & [= ?]) _]|[[= -> ->]|[]]]; [|split_and!; [lia|lia|lia|done]].
        destruct (level_not_none m ll); [done|lia|lia].
    + split; [intros ?; left; split; [done|naive_solver]|].
      intros [[? _]|[[= -> ->]|[]]]; [done|]. destruct Hd. done.
  - intros p e. simpl. rewrite nthZ_updZ. case_decide as Hd; [|apply (bi_entries _ _ H)].
    intros [= <-]. right. split; [lia|]. rewrite <- (proj1 Hd). apply Z.mod_mul. lia.
Qed.

(** [block_index[array_offset] = 0xFF]: the block is taken back. *)
Lemma step_release m p e : buddy_inv m None ->
  nthZ (block_index m) p = Some e -> e <> 0xFF ->
  buddy_inv (set_index m p 0xFF) (Some (e, p / 2 ^ e)).
Proof.
  intros H Hp Hne. destruct (entry_block _ _ _ _ H Hp Hne) as (Hb & Her & Hpd).
  pose proof (nthZ_Some_range _ _ _ Hp) as Hr. pose proof (bi_shape _ _ H) as Hs.
  set (o := p / 2 ^ e) in *. pose proof (pow2_pos e ltac:(lia)).
  constructor; [by apply set_index_shape| | |apply H].
  - apply (tiling_retag _ (blocks_of m None) _ Allocated Hole e o); [apply H|done|].
    block_cases. unfold blocks_of, first_page. destruct kk; simpl; [naive_solver| |].
    2: { split; [intros [= -> ->]; right; by left|]. intros [[? _]|[[= -> ->]|[]]]; done. }
    rewrite nthZ_updZ. case_decide as Hd.
    + destruct Hd as [Hd _]. rewrite <- Hd, Hp. split.
      * intros (? & _ & [= <-]). destruct (level_not_none m 0xFF); [done|lia|done].
      * intros [[(? & ? & [= ->]) Hx]|[[=]|[]]]. destruct Hx. left. f_equal.
        apply Z.mul_cancel_r with (2 ^ ll); lia.
    + split; [intros ?; left; split; [done|]|by intros [[? _]|[[=]|[]]]].
      intros [[= -> ->]|[]]. by destruct Hd.
  - intros q e'. simpl. rewrite nthZ_updZ. case_decide as Hd; [|apply (bi_entries _ _ H)].
    intros [= <-]. by left.
Qed.
