(* ===== verification/PageAlloc.v ===== *)
(** * The page allocator's contract ([az_alloc], [az_free], [free_mem_init])

    The invariant of the allocator's globals, that [free_mem_init] sets it up
    and [az_alloc] and [az_free] keep it, and what the calls return.  Requests
    are up to 1 GiB: above, [PAGE_MIN_SIZE << i] overflows its [int]. *)

From S2P Require Import Prelude.
From S2P Require Import Utility.
From S2P Require Import Lock.
From S2P Require Import Stat.
From S2P Require Import Memory.
From S2P Require Import MemoryBits.
From S2P Require Import Tiling.
From S2P Require Import Buddy.

(** ** Sizes *)

Lemma page_shift_small i : 0 <= i <= 18 -> page_shift i = 4096 * 2 ^ i.
Proof.
  intros Hi. unfold page_shift, PAGE_MIN_SIZE. rewrite shiftl_pow2 by lia.
  pose proof (pow2_pos i ltac:(lia)). pose proof (pow2_mono i 18 ltac:(lia)).
  change (2 ^ 18) with 262144 in *. fit. lia.
Qed.

(** [l] is the smallest level whose blocks hold [size] bytes. *)
Definition level_for (size l : Z) : Prop :=
  0 <= l /\ size <= 4096 * 2 ^ l /\ forall i, 0 <= i < l -> 4096 * 2 ^ i < size.

Lemma level_for_unique size l l' : level_for size l -> level_for size l' -> l = l'.
Proof.
  intros (Hl & Hs & Hm) (Hl' & Hs' & Hm').
  destruct (Z.lt_trichotomy l l') as [Hlt|[|Hlt]]; [|done|].
  - specialize (Hm' l ltac:(lia)). lia.
  - specialize (Hm l' ltac:(lia)). lia.
Qed.

Lemma level_for_block l : 0 <= l -> level_for (4096 * 2 ^ l) l.
Proof.
  intros Hl. split_and!; [done|done|]. intros i Hi. apply Z.mul_lt_mono_pos_l; [lia|].
  apply Z.pow_lt_mono_r; lia.
Qed.

(** [align_buddy_block] is the block size of the level [block_list_index] finds. *)
Lemma align_index n i size : 0 <= i ->
  align_loop n i size =
  if index_loop n i size =? -1 then 0 else page_shift (index_loop n i size).
Proof.
  revert i. induction n as [|n IH]; intros i Hi; cbn [align_loop index_loop]; [done|].
  destruct (size <=? page_shift i); [|by rewrite IH by lia].
  by destruct (Z.eqb_spec i (-1)); [lia|].
Qed.

Lemma index_loop_spec n i size : 0 <= i -> size <= 2 ^ 30 ->
  (forall j, 0 <= j < i -> 4096 * 2 ^ j < size) ->
  (index_loop n i size = -1 /\ forall j, 0 <= j < i + Z.of_nat n -> 4096 * 2 ^ j < size) \/
  (exists l, i <= l < i + Z.of_nat n /\ l <= 18 /\ level_for size l /\ index_loop n i size = l).
Proof.
  intros Hi Hs. revert i Hi. induction n as [|n IH]; intros i Hi Hj; cbn [index_loop].
  - left. split; [done|]. intros j ?. apply Hj. lia.
  - assert (i <= 18) as H18.
    { destruct (Z.le_gt_cases i 18); [done|]. specialize (Hj 18 ltac:(lia)).
      change (4096 * 2 ^ 18) with (2 ^ 30) in Hj. lia. }
    rewrite page_shift_small by lia. destruct (Z.leb_spec size (4096 * 2 ^ i)).
    + right. exists i. split_and!; [lia|lia|done|done|done].
    + destruct (IH (i + 1)) as [(-> & Hno)|(l & Hl & Hl18 & Hlev & ->)]; [lia| | |].
      * intros j ?. destruct (decide (j = i)) as [->|]; [done|]. apply Hj. lia.
      * left. split; [done|]. intros j ?. apply Hno. lia.
      * right. exists l. split_and!; [lia|lia|done|done|done].
Qed.

(** What the two functions say of a request of up to 1 GiB: no level is large
    enough, or its level, the size of its blocks and the level of that size. *)
Lemma align_buddy_block_spec m size : shape m -> size <= 2 ^ 30 ->
  (align_buddy_block m size = 0 /\ 4096 * 2 ^ (max_level m - 1) < size) \/
  (exists l, 0 <= l < max_level m /\ l <= 18 /\ level_for size l /\
     align_buddy_block m size = 4096 * 2 ^ l /\
     block_list_index m (4096 * 2 ^ l) = l).
Proof.
  intros H Hs. pose proof (sh_levels _ H). unfold align_buddy_block, block_list_index.
  rewrite align_index by done.
  destruct (index_loop_spec (Z.to_nat (max_level m)) 0 size)
    as [(-> & Hno)|(l & Hl & Hl18 & Hlev & ->)]; [lia..|left|right].
  - split; [done|]. apply Hno. lia.
  - destruct (Z.eqb_spec l (-1)); [lia|].
    exists l. split_and!; [lia|lia|lia|done|apply page_shift_small; lia|].
    pose proof (pow2_mono l 18 ltac:(lia)).
    destruct (index_loop_spec (Z.to_nat (max_level m)) 0 (4096 * 2 ^ l))
      as [(_ & Hno)|(l' & _ & _ & Hlev' & ->)]; [lia| |lia| |].
    + change (2 ^ 30) with (4096 * 2 ^ 18). lia.
    + specialize (Hno l ltac:(lia)). lia.
    + eapply level_for_unique; [exact Hlev'|]. apply level_for_block. lia.
Qed.

(** ** Pages in use *)

Definition weight (e : Z) : Z := if e =? 0xFF then 0 else 2 ^ e.

(** Pages of the allocated blocks. *)
Fixpoint index_sum (l : list Z) : Z :=
  match l with
  | [] => 0
  | e :: l' => weight e + index_sum l'
  end.

Lemma index_sum_insert l (i : nat) e e' : l !! i = Some e ->
  index_sum (<[i := e']> l) = index_sum l - weight e + weight e'.
Proof.
  revert i. induction l as [|x l IH]; intros [|i] H; cbn in *; simplify_eq; [lia|].
  change (weight x + index_sum (<[i := e']> l) = weight x + index_sum l - weight e + weight e').
  rewrite (IH i H). lia.
Qed.

Lemma index_sum_updZ l p e e' : nthZ l p = Some e ->
  index_sum (updZ l p e') = index_sum l - weight e + weight e'.
Proof. unfold nthZ, updZ. destruct (0 <=? p); [apply index_sum_insert|done]. Qed.

Lemma index_sum_replicate n : index_sum (replicate n 0xFF) = 0.
Proof. induction n; cbn; auto. Qed.

(** The entries of [l], the first of them for page [a], keep clear of each other
    and of the pages from [n] on. *)
Definition entries_apart (l : list Z) (a n : Z) : Prop :=
  forall i e, nthZ l i = Some e -> e <> 0xFF -> 0 <= e /\ a + i + 2 ^ e <= n /\
  forall j e', i < j -> nthZ l j = Some e' -> e' <> 0xFF -> i + 2 ^ e <= j.

Lemma nthZ_cons {A} (x : A) l i : 0 <= i -> nthZ (x :: l) (i + 1) = nthZ l i.
Proof.
  intros Hi. unfold nthZ. rewrite !(proj2 (Z.leb_le 0 _)) by lia.
  by replace (Z.to_nat (i + 1)) with (S (Z.to_nat i)) by lia.
Qed.

Lemma entries_apart_tail x l a n : entries_apart (x :: l) a n -> entries_apart l (a + 1) n.
Proof.
  intros H i e Hi He. pose proof (nthZ_Some_range _ _ _ Hi).
  destruct (H (i + 1) e) as (? & ? & Hj); [by rewrite nthZ_cons by lia|done|].
  split_and!; [done|lia|]. intros j e' Hij Hj' He'. pose proof (nthZ_Some_range _ _ _ Hj').
  specialize (Hj (j + 1) e' ltac:(lia)). rewrite nthZ_cons in Hj by lia.
  specialize (Hj Hj' He'). lia.
Qed.

Lemma index_sum_bound l a n lb : entries_apart l a n -> lb <= n ->
  (forall i e, nthZ l i = Some e -> e <> 0xFF -> lb <= a + i) -> index_sum l <= n - lb.
Proof.
  revert a lb. induction l as [|x l IH]; intros a lb H Hlb Hge; cbn [index_sum]; [lia|].
  unfold weight. destruct (Z.eqb_spec x 0xFF) as [->|Hne].
  - specialize (IH (a + 1) lb (entries_apart_tail _ _ _ _ H) Hlb).
    enough (index_sum l <= n - lb) by lia. apply IH. intros i e Hi He.
    pose proof (nthZ_Some_range _ _ _ Hi).
    specialize (Hge (i + 1) e). rewrite nthZ_cons in Hge by lia. specialize (Hge Hi He). lia.
  - destruct (H 0 x eq_refl Hne) as (? & ? & Hj). pose proof (pow2_pos x ltac:(lia)).
    specialize (Hge 0 x eq_refl Hne).
    enough (index_sum l <= n - (a + 2 ^ x)) by lia.
    apply (IH (a + 1)); [by eapply entries_apart_tail|lia|]. intros i e Hi He.
    pose proof (nthZ_Some_range _ _ _ Hi).
    specialize (Hj (i + 1) e ltac:(lia)). rewrite nthZ_cons in Hj by lia.
    specialize (Hj Hi He). lia.
Qed.

Lemma buddy_entries_apart m h : buddy_inv m h -> entries_apart (block_index m) 0 (smallest_block m).
Proof.
  intros H i e Hi He. destruct (entry_block _ _ _ _ H Hi He) as (Hb & Her & Hid).
  destruct (tiling_fits _ _ (bi_tiling _ _ H) _ Hb) as (_ & _ & Hend).
  unfold end_page in Hend. cbn in Hend. split_and!; [lia|lia|].
  intros j e' Hij Hj He'. destruct (entry_block _ _ _ _ H Hj He') as (Hc & Her' & Hjd).
  pose proof (pow2_pos e' ltac:(lia)).
  destruct (tiling_disjoint _ _ _ _ (bi_tiling _ _ H) Hb Hc) as [Hd|Hd];
    [intros [= -> ?]; lia|..]; unfold end_page, first_page in Hd; cbn in Hd; lia.
Qed.

Lemma pages_bound m h : buddy_inv m h -> 0 <= index_sum (block_index m) <= smallest_block m.
Proof.
  intros H. pose proof (buddy_entries_apart _ _ H) as Ha. pose proof (sh_blocks _ (bi_shape _ _ H)).
  split.
  - assert (forall i e, nthZ (block_index m) i = Some e -> e <> 0xFF -> 0 <= e) as Hp.
    { intros i e Hi He. apply (Ha i e Hi He). }
    clear Ha H. revert Hp. generalize (block_index m). intros l.
    induction l as [|x l IH]; intros Hp; cbn [index_sum]; [lia|].
    assert (0 <= weight x).
    { unfold weight. destruct (Z.eqb_spec x 0xFF) as [|Hne]; [lia|].
      apply Z.lt_le_incl, pow2_pos, (Hp 0); done. }
    enough (0 <= index_sum l) by lia. apply IH. intros i e Hi.
    pose proof (nthZ_Some_range _ _ _ Hi). apply (Hp (i + 1)). by rewrite nthZ_cons by lia.
  - rewrite <- (Z.sub_0_r (smallest_block m)). apply (index_sum_bound _ 0); [done|lia|].
    intros i e Hi _. pose proof (nthZ_Some_range _ _ _ Hi). lia.
Qed.

(** A free block has room beside the pages in use. *)
Lemma pages_bound_free m l o : buddy_inv m None -> free_bit m l o = true ->
  index_sum (block_index m) + 2 ^ l <= smallest_block m.
Proof.
  intros H Hf. destruct (free_bit_range _ _ _ (bi_shape _ _ H) Hf) as [Hl Ho].
  destruct (wp_Ok (set_bitmap_flag l o MM_FALSE) (fun _ m' => bit_written m m' l o false) m)
    as [(x & m' & _ & Hw) _].
  { apply (wp_set_bitmap_flag l o false); [apply H|done|done|auto]. }
  pose proof (step_take _ _ _ _ H Hf Hw) as H1. pose proof (step_commit _ _ _ H1) as H2.
  pose proof (proj2 (pages_bound _ _ H2)) as Hb. simpl in Hb.
  destruct (frame_fields _ _ (bw_frame _ _ _ _ _ Hw)) as (Hn & _ & Hbi & _).
  rewrite Hn, (index_sum_updZ _ _ 0xFF) in Hb
    by (apply (entry_none m' _ (Block Hole l o) H1); done).
  rewrite Hbi in Hb. unfold weight in Hb. cbn in Hb.
  pose proof (level_not_none m l (bi_shape _ _ H) ltac:(lia)).
  destruct (Z.eqb_spec l 0xFF); lia.
Qed.

(** ** The allocator's invariant *)

Record pool_inv (m : MM) : Prop := {
  pi_buddy : buddy_inv m None;
  pi_small : forall p e, nthZ (block_index m) p = Some e -> e <> 0xFF -> e <= 18;
  pi_used : used_size m = 4096 * index_sum (block_index m);
  pi_start : 0 < start_addr m;
  pi_end : start_addr m + 4096 * smallest_block m <= end_addr m < 2 ^ 64;
  pi_spl : mm_spl m = FALSE
}.

Definition kmem_inv (k : kmem) : Prop := pool_inv (g_free_memory k) /\ stat_ok (stat_area k).

(** The tiling does not look at the lock, the addresses or the size in use. *)
Lemma buddy_inv_fields m m' h :
  max_level m' = max_level m -> smallest_block m' = smallest_block m ->
  block_index m' = block_index m -> bitmaps m' = bitmaps m ->
  buddy_inv m h -> buddy_inv m' h.
Proof.
  intros Hml Hn Hbi Hbm [Hs Ht He Hc].
  assert (forall l o, free_bit m' l o = free_bit m l o) as Hf
    by (intros; unfold free_bit; by rewrite Hbm).
  constructor.
  - destruct Hs. constructor; rewrite ?Hml, ?Hn, ?Hbi, ?Hbm; done.
  - rewrite Hn. eapply Tiling_proper; [|exact Ht]. intros [[] l o]; unfold blocks_of; cbn;
      rewrite ?Hf, ?Hml, ?Hbi; done.
  - intros p e. rewrite Hbi, Hml. apply He.
  - intros l o. rewrite !Hf. apply Hc.
Qed.

Lemma wp_mm_lock (Q : unit -> kmem -> Prop) k : mm_spl (g_free_memory k) = FALSE ->
  Q tt (k <| g_free_memory := g_free_memory k <| mm_spl := TRUE |> |>) -> wp mm_lock Q k.
Proof. intros Hf HQ. apply wp_zoom, wp_zoom, wp_spinlock_lock; done. Qed.

Lemma wp_mm_unlock (Q : unit -> kmem -> Prop) k :
  Q tt (k <| g_free_memory := g_free_memory k <| mm_spl := FALSE |> |>) -> wp mm_unlock Q k.
Proof. intros HQ. apply wp_zoom, wp_zoom, wp_spinlock_unlock; done. Qed.

Lemma relock k : mm_spl (g_free_memory k) = FALSE ->
  k <| g_free_memory := g_free_memory k <| mm_spl := TRUE |> <| mm_spl := FALSE |> |> = k.
Proof. destruct k as [[]]; simpl. by intros ->. Qed.

(** ** Allocation *)

(** There is a place of level [l] with no allocated page in it. *)
Definition room (m : MM) (l : Z) : Prop :=
  exists o, 0 <= o /\ (o + 1) * 2 ^ l <= smallest_block m /\
  range_unused m (o * 2 ^ l) (2 ^ l).

Lemma room_free m l : buddy_inv m None -> 0 <= l ->
  room m l <-> exists l' o', l <= l' /\ free_bit m l' o' = true.
Proof.
  intros H Hl. pose proof (pow2_pos l Hl). split.
  - intros (o & Ho & Hn & Hu).
    destruct (unused_free m (Z.to_nat l) o H) as ([t l' o'] & Hb & Ht & Hl' & _);
      rewrite ?Z2Nat.id in * by done; try done.
    cbn in Ht. subst t. exists l', o'. split; [done|]. apply Hb.
  - intros (l' & o' & Hl' & Hf).
    assert (blocks_of m None (Block Free l' o')) as Hb by exact Hf.
    destruct (tiling_fits _ _ (bi_tiling _ _ H) _ Hb) as (? & Ho' & He).
    unfold end_page in He. cbn in He, Ho'.
    pose proof (block_unused _ _ _ H Hb ltac:(done)) as Hu. unfold first_page in Hu. cbn in Hu.
    pose proof (pow2_pos (l' - l) ltac:(lia)).
    replace (2 ^ l') with (2 ^ (l' - l) * 2 ^ l) in *
      by (rewrite <- Z.pow_add_r by lia; f_equal; lia).
    exists (o' * 2 ^ (l' - l)). split_and!; [nia|nia|].
    intros q e Hq He'. destruct (Hu q e Hq He'); [left|right]; nia.
Qed.

(** What an allocation of level [l] that succeeds leaves: the block of pages
    [p, p + 2 ^ l), aligned, was unused; it is recorded and its bytes cleared;
    nothing else about the allocated blocks or the memory changes. *)
Record allocated (k k' : kmem) (l p r : Z) : Prop := {
  al_aligned : p mod 2 ^ l = 0;
  al_range : 0 <= p /\ p + 2 ^ l <= smallest_block (g_free_memory k);
  al_unused : range_unused (g_free_memory k) p (2 ^ l);
  al_addr : r = start_addr (g_free_memory k) + 4096 * p;
  al_index : block_index (g_free_memory k') = updZ (block_index (g_free_memory k)) p l;
  al_used : used_size (g_free_memory k') = used_size (g_free_memory k) + 4096 * 2 ^ l;
  al_frame : exists bms, bitmap_at <$> bms = bitmap_at <$> bitmaps (g_free_memory k) /\
    g_free_memory k' = g_free_memory k <| block_index := block_index (g_free_memory k') |>
      <| used_size := used_size (g_free_memory k') |> <| bitmaps := bms |>;
  al_ram : forall a, ram k' a =
    if decide (r <= a < r + 4096 * 2 ^ l) then 0 else ram k a;
  al_count : g_alloc_count k' = u64 (g_alloc_count k + 1);
  al_others : g_free_count k' = g_free_count k /\ heap_end k' = heap_end k /\
    heap_lock k' = heap_lock k
}.

Lemma level_bytes l : 0 <= l <= 18 -> 0 < 4096 * 2 ^ l <= 2 ^ 30.
Proof.
  intros Hl. pose proof (pow2_pos l ltac:(lia)). pose proof (pow2_mono l 18 ltac:(lia)).
  change (2 ^ 30) with (4096 * 2 ^ 18). lia.
Qed.

(** The state [hand_out] leaves: block [o] of level [l] of the pool [m1]. *)
Definition handed_out (k : kmem) (m1 : MM) (l o : Z) (u : Unikernel) : kmem :=
  let used := used_size m1 + 4096 * 2 ^ l in
  k <| g_free_memory := set_index m1 (o * 2 ^ l) l <| used_size := used |> <| mm_spl := FALSE |> |>
    <| ram := lk_memset (ram k) (start_addr m1 + 4096 * (o * 2 ^ l)) 0 (4096 * 2 ^ l) |>
    <| g_alloc_count := u64 (g_alloc_count k + 1) |>
    <| stat_area := stat_area k <| ukernel :=
         updZ (ukernel (stat_area k)) (g_ukid (stat_area k)) (u <| mem_used := used |>) |> |>.

Lemma hand_out_run k m1 l o (Q : Z -> kmem -> Prop) :
  stat_ok (stat_area k) -> 0 <= l <= 18 -> block_list_index m1 (4096 * 2 ^ l) = l ->
  0 <= o * 2 ^ l < lenZ (block_index m1) -> lenZ (block_index m1) < 2 ^ 31 ->
  0 <= start_addr m1 + 4096 * (o * 2 ^ l) < 2 ^ 64 ->
  0 <= used_size m1 + 4096 * 2 ^ l < 2 ^ 64 ->
  (forall u, nthZ (ukernel (stat_area k)) (g_ukid (stat_area k)) = Some u ->
     Q (start_addr m1 + 4096 * (o * 2 ^ l)) (handed_out k m1 l o u)) ->
  wp (hand_out (4096 * 2 ^ l) o) Q (k <| g_free_memory := m1 |>).
Proof.
  intros Hst Hl Hidx Hr Hlen Haddr Hus HQ. pose proof (level_bytes l Hl) as Hlb.
  destruct (nthZ_in_range _ _ Hr) as [e He].
  replace (start_addr m1 + 4096 * (o * 2 ^ l)) with (4096 * 2 ^ l * o + start_addr m1) in * by lia.
  unfold hand_out. wp_steps. simpl. rewrite Hidx, (u64_small (4096 * 2 ^ l * o)) by lia.
  replace (4096 * 2 ^ l * o / PAGE_MIN_SIZE) with (o * 2 ^ l)
    by (unfold PAGE_MIN_SIZE; apply Z.div_unique with 0; lia).
  rewrite s32_small by lia. eapply wp_the; [exact He|]. wp_steps. simpl.
  rewrite u8_small, s32_small by lia. rewrite (u64_small (used_size m1 + _)) by lia.
  rewrite (u64_small (4096 * 2 ^ l * o + start_addr m1)) by lia.
  apply wp_zoom, wp_set_mem_info; [done|]. intros u Hu.
  apply wp_bind, wp_mm_unlock, wp_ret. specialize (HQ u Hu). unfold handed_out, set_index in HQ.
  simpl in HQ |- *.
  by replace (start_addr m1 + 4096 * (o * 2 ^ l)) with (4096 * 2 ^ l * o + start_addr m1) in HQ
    by lia.
Qed.

(** After [alloc_buddy_block] took block [o] of level [l] out of the pool. *)
Lemma wp_hand_out k m1 l o :
  kmem_inv k -> 0 <= l <= 18 -> block_list_index (g_free_memory k) (4096 * 2 ^ l) = l ->
  0 <= o -> buddy_inv m1 (Some (l, o)) -> frame (g_free_memory k <| mm_spl := TRUE |>) m1 ->
  wp (hand_out (4096 * 2 ^ l) o)
     (fun r k' => kmem_inv k' /\ allocated k k' l (o * 2 ^ l) r) (k <| g_free_memory := m1 |>).
Proof.
  intros [Hp Hst] Hl18 Hidx Ho Hh Hf. set (m := g_free_memory k) in *.
  destruct (frame_fields _ _ Hf) as (Hn & Hml & Hbi & Hus & Hsa & Hea & _).
  simpl in Hn, Hml, Hbi, Hus, Hsa, Hea.
  pose proof (sh_blocks _ (bi_shape _ _ Hh)) as Hn31. pose proof (pi_end _ Hp) as Hend.
  pose proof (pi_start _ Hp) as Hstart. pose proof (pi_used _ Hp) as Hused.
  assert (blocks_of m1 (Some (l, o)) (Block Hole l o)) as Hblk by done.
  pose proof (tiling_fits _ _ (bi_tiling _ _ Hh) _ Hblk) as (_ & _ & He).
  unfold end_page in He. cbn in He. pose proof (pow2_pos l ltac:(lia)) as Hl2.
  assert (nthZ (block_index m1) (o * 2 ^ l) = Some 0xFF) as Hnone
    by by apply (entry_none m1 _ (Block Hole l o) Hh).
  pose proof (nthZ_Some_range _ _ _ Hnone) as Hr. pose proof (step_commit _ _ _ Hh) as Hcommit.
  pose proof (pages_bound _ _ Hcommit) as Hpages. simpl in Hpages.
  assert (index_sum (updZ (block_index m1) (o * 2 ^ l) l) = index_sum (block_index m) + 2 ^ l)
    as Hsum.
  { rewrite (index_sum_updZ _ _ 0xFF), Hbi by done. unfold weight.
    destruct (Z.eqb_spec l 0xFF); cbn; lia. }
  pose proof (sh_index _ (bi_shape _ _ Hh)) as Hlen.
  apply hand_out_run; [done|done|by unfold block_list_index in *; rewrite Hml|lia..|].
  intros u Hu. split; [split; [constructor|by apply stat_ok_set_mem]|constructor]; simpl;
    try rewrite !Hsa; try rewrite !Hus; try done.
  - by eapply buddy_inv_fields, Hcommit.
  - intros q e. rewrite nthZ_updZ. case_decide; [intros [= <-] _; lia|]. rewrite Hbi.
    apply (pi_small _ Hp).
  - lia.
  - lia.
  - apply Z.mod_mul. lia.
  - fold m. lia.
  - intros q e. fold m. rewrite <- Hbi. apply (block_unused m1 _ (Block Hole l o) Hh); done.
  - by rewrite Hbi.
  - exists (bitmaps m1). split; [apply Hf|]. destruct Hf as [-> _]. simpl.
    fold m. by rewrite <- (pi_spl _ Hp).
  - intros a. rewrite lk_memset_lookup by lia. done.
Qed.

(** A request no level is large enough for has no room. *)
Lemma too_large m size l : shape m -> 4096 * 2 ^ (max_level m - 1) < size ->
  level_for size l -> ~ room m l.
Proof.
  intros H Hbig (Hl & Hs & _) (o & Ho & Hn & _). pose proof (sh_top _ H).
  assert (2 ^ max_level m <= 2 ^ l); [|pose proof (pow2_pos l Hl); nia].
  apply pow2_mono. destruct (Z.le_gt_cases (max_level m) l); [done|].
  pose proof (pow2_mono l (max_level m - 1) ltac:(lia)). lia.
Qed.

(** The test against [end_addr] never refuses a request there is room for. *)
Lemma room_end m l : pool_inv m -> 0 <= l <= 18 -> room m l ->
  u64 (u64 (start_addr m + used_size m) + 4096 * 2 ^ l) <= end_addr m.
Proof.
  intros Hp Hl Hroom. pose proof (pi_buddy _ Hp) as Hb.
  apply room_free in Hroom as (l' & o' & Hl' & Hf); [|done|lia].
  pose proof (pages_bound_free _ _ _ Hb Hf). pose proof (pages_bound _ _ Hb).
  pose proof (pi_end _ Hp). pose proof (pi_start _ Hp). pose proof (pi_used _ Hp).
  pose proof (pow2_mono l l' Hl'). pose proof (level_bytes l Hl).
  rewrite (u64_small (start_addr m + used_size m)), u64_small by lia. lia.
Qed.

(** Every way [az_alloc] ends. *)
Lemma wp_az_alloc k size : kmem_inv k -> size <= 2 ^ 30 ->
  wp (az_alloc size) (fun r k' =>
    kmem_inv k' /\
    ((r = 0 /\ k' = k /\
      forall l, level_for size l -> ~ room (g_free_memory k) l) \/
     (exists l p, level_for size l /\ room (g_free_memory k) l /\ allocated k k' l p r))) k.
Proof.
  intros Hk Hsize. pose proof Hk as [Hp Hst]. pose proof (pi_buddy _ Hp) as Hb.
  pose proof (bi_shape _ _ Hb) as Hs. set (m := g_free_memory k) in *.
  assert (forall P : Prop, P -> wp (mm_unlock ;; ret 0) (fun r k' => kmem_inv k' /\
            ((r = 0 /\ k' = k /\ P) \/ (exists l p, level_for size l /\ room m l /\
              allocated k k' l p r))) (k <| g_free_memory := m <| mm_spl := TRUE |> |>)) as Hfail.
  { intros P HP. apply wp_bind, wp_mm_unlock, wp_ret.
    pose proof (relock k (pi_spl _ Hp)) as E. simpl in E |- *. unfold m. rewrite E. eauto. }
  unfold az_alloc. apply wp_bind, wp_mm_lock; [apply Hp|]. wp_steps. fold m.
  change (align_buddy_block (g_free_memory _) size) with (align_buddy_block m size).
  change (end_addr (g_free_memory _)) with (end_addr m).
  change (start_addr (g_free_memory _)) with (start_addr m).
  change (used_size (g_free_memory _)) with (used_size m).
  destruct (align_buddy_block_spec m size Hs Hsize)
    as [[-> Hbig]|(l & Hl & Hl18 & Hlev & -> & Hidx)].
  { apply Hfail. intros l Hlev. by eapply too_large. }
  pose proof (level_bytes l ltac:(lia)). destruct (Z.eqb_spec (4096 * 2 ^ l) 0) as [|_]; [lia|].
  destruct (Z.ltb_spec (end_addr m) (u64 (u64 (start_addr m + used_size m) + 4096 * 2 ^ l)))
    as [Hover|_].
  { apply Hfail. intros l' Hlev'. rewrite (level_for_unique _ _ _ Hlev' Hlev). intros Hroom.
    pose proof (room_end m l Hp ltac:(lia) Hroom). lia. }
  apply wp_bind, wp_zoom. eapply wp_mono.
  { apply (wp_alloc_buddy_block l); [by eapply buddy_inv_fields, Hb|exact Hidx|exact Hl]. }
  intros r m1 [(-> & -> & Hno)|(Hr & Hh & Hf & l' & o' & Hl' & Hfree)]; simpl.
  - apply Hfail. intros l' Hlev'. rewrite (level_for_unique _ _ _ Hlev' Hlev), room_free by (done || lia).
    intros (l1 & o1 & Hl1 & Hf1). pose proof (Hno l1 o1 Hl1 : free_bit m l1 o1 = false). congruence.
  - destruct (Z.eqb_spec r (-1)); [lia|].
    eapply wp_mono; [apply (wp_hand_out k m1 l r); [done|lia|done..]|].
    intros a k' [? ?]. split; [done|right]. exists l, (r * 2 ^ l). split_and!; [done| |done].
    apply room_free; [done|lia|]. exists l', o'. done.
Qed.

(** ** Release *)

(** What releasing the block of level [e] at page [p] leaves. *)
Record freed (k k' : kmem) (e p : Z) : Prop := {
  fr_index : block_index (g_free_memory k') = updZ (block_index (g_free_memory k)) p 0xFF;
  fr_used : used_size (g_free_memory k') = used_size (g_free_memory k) - 4096 * 2 ^ e;
  fr_frame : exists bms, bitmap_at <$> bms = bitmap_at <$> bitmaps (g_free_memory k) /\
    g_free_memory k' = g_free_memory k <| block_index := block_index (g_free_memory k') |>
      <| used_size := used_size (g_free_memory k') |> <| bitmaps := bms |>;
  fr_count : g_free_count k' = u64 (g_free_count k + 1);
  fr_others : g_alloc_count k' = g_alloc_count k /\ heap_end k' = heap_end k /\
    heap_lock k' = heap_lock k /\ ram k' = ram k
}.

(** The page an address lies in. *)
Definition page_of (m : MM) (address : Z) : Z := (address - start_addr m) / 4096.

Lemma in_pool m address : pool_inv m ->
  start_addr m <= address < start_addr m + 4096 * smallest_block m ->
  address <> 0 /\ u64 (address - start_addr m) = address - start_addr m /\
  s32 ((address - start_addr m) / PAGE_MIN_SIZE) = page_of m address /\
  0 <= page_of m address < smallest_block m.
Proof.
  intros Hp Ha. pose proof (pi_end _ Hp). pose proof (pi_start _ Hp).
  pose proof (sh_blocks _ (bi_shape _ _ (pi_buddy _ Hp))).
  assert (0 <= page_of m address < smallest_block m).
  { unfold page_of. split; [apply Z.div_pos; lia|]. apply Z.div_lt_upper_bound; lia. }
  split_and!; [lia|apply u64_small; lia| |lia|lia].
  change PAGE_MIN_SIZE with 4096. fold (page_of m address). apply s32_small. lia.
Qed.

(** Nothing is allocated at the page: the call is refused. *)
Lemma wp_az_free_none k address : kmem_inv k ->
  start_addr (g_free_memory k) <= address <
    start_addr (g_free_memory k) + 4096 * smallest_block (g_free_memory k) ->
  nthZ (block_index (g_free_memory k)) (page_of (g_free_memory k) address) = Some 0xFF ->
  wp (az_free address) (fun r k' => r = FALSE /\ k' = k) k.
Proof.
  intros [Hp Hst] Ha He. destruct (in_pool _ _ Hp Ha) as (Hne & Hu & Hs32 & Hr).
  unfold az_free. apply wp_bind, wp_mm_lock; [apply Hp|].
  destruct (Z.eqb_spec address 0) as [|_]; [done|]. wp_steps. simpl.
  rewrite Hu, Hs32. eapply wp_the; [exact He|]. cbn [Z.eqb Pos.eqb].
  apply wp_bind, wp_mm_unlock, wp_ret. split; [done|]. exact (relock k (pi_spl _ Hp)).
Qed.

(** The state [az_free] leaves, [m2] being the pool [free_buddy_block] made. *)
Definition taken_back (k : kmem) (m2 : MM) (e : Z) (u : Unikernel) : kmem :=
  let used := used_size m2 - 4096 * 2 ^ e in
  k <| g_free_memory := m2 <| used_size := used |> <| mm_spl := FALSE |> |>
    <| g_free_count := u64 (g_free_count k + 1) |>
    <| stat_area := stat_area k <| ukernel :=
         updZ (ukernel (stat_area k)) (g_ukid (stat_area k)) (u <| mem_used := used |>) |> |>.

(** The pages in use after a release. *)
Lemma release_sum m p e : buddy_inv m None -> nthZ (block_index m) p = Some e -> e <> 0xFF ->
  2 ^ e <= index_sum (block_index m) /\
  index_sum (updZ (block_index m) p 0xFF) = index_sum (block_index m) - 2 ^ e.
Proof.
  intros H He Hne. pose proof (pages_bound _ _ (step_release _ _ _ H He Hne)) as Hs.
  simpl in Hs. rewrite (index_sum_updZ _ _ _ _ He) in *. unfold weight in *.
  destruct (Z.eqb_spec e 0xFF); [done|]. cbn in *. lia.
Qed.

(** A block is allocated at the page: it is released. *)
Lemma wp_az_free_run k address e (m := g_free_memory k) (p := page_of m address)
    (Q : Z -> kmem -> Prop) : kmem_inv k ->
  start_addr m <= address < start_addr m + 4096 * smallest_block m ->
  nthZ (block_index m) p = Some e -> e <> 0xFF ->
  (forall m2 u, buddy_inv m2 None -> frame (set_index m p 0xFF <| mm_spl := TRUE |>) m2 ->
     nthZ (ukernel (stat_area k)) (g_ukid (stat_area k)) = Some u ->
     Q TRUE (taken_back k m2 e u)) ->
  wp (az_free address) Q k.
Proof.
  intros [Hp Hst] Ha He Hne HQ. destruct (in_pool _ _ Hp Ha) as (Hn0 & Hu & Hs32 & Hr).
  destruct (entry_block _ _ _ _ (pi_buddy _ Hp) He Hne) as (_ & Her & Hpd).
  pose proof (pi_small _ Hp _ _ He Hne) as He18. pose proof (level_bytes e ltac:(lia)) as Hlb.
  pose proof (sh_blocks _ (bi_shape _ _ (pi_buddy _ Hp))) as Hn31.
  pose proof (pow2_pos e ltac:(lia)) as He2.
  unfold az_free. apply wp_bind, wp_mm_lock; [apply Hp|].
  destruct (Z.eqb_spec address 0) as [|_]; [done|]. wp_steps. simpl.
  rewrite Hu, Hs32. eapply wp_the; [exact He|].
  destruct (Z.eqb_spec e 0xFF) as [|_]; [done|]. wp_steps.
  rewrite page_shift_small by lia. destruct (Z.eqb_spec (4096 * 2 ^ e) 0) as [|_]; [lia|].
  assert (s32 ((address - start_addr (g_free_memory k)) / (4096 * 2 ^ e)) = p / 2 ^ e) as ->.
  { rewrite <- Z.div_div by lia. fold m. fold (page_of m address). apply s32_small.
    fold m p in Hr. fold p. assert (0 <= p / 2 ^ e <= p); [|fold m in Hn31; lia].
    split; [apply Z.div_pos; lia|apply Z.div_le_upper_bound; nia]. }
  apply wp_bind, wp_zoom. eapply wp_mono.
  { apply wp_free_buddy_block. eapply buddy_inv_fields;
      [..|exact (step_release m p e (pi_buddy _ Hp) He Hne)]; done. }
  intros r m2 (-> & Hb2 & Hf2). wp_steps. simpl.
  assert (used_size m2 = used_size m) as Hus2 by apply (frame_fields _ _ Hf2).
  pose proof (release_sum m p e (pi_buddy _ Hp) He Hne) as [Hin _].
  pose proof (pages_bound _ _ (pi_buddy _ Hp)) as Hpg. pose proof (pi_used _ Hp) as Hused. fold m in Hpg, Hused, Hn31.
  rewrite u64_small by lia.
  apply wp_zoom, wp_set_mem_info; [done|]. intros u Hu'.
  apply wp_bind, wp_mm_unlock, wp_ret. exact (HQ m2 u Hb2 Hf2 Hu').
Qed.

Lemma wp_az_free k address e (m := g_free_memory k) (p := page_of m address) : kmem_inv k ->
  start_addr m <= address < start_addr m + 4096 * smallest_block m ->
  nthZ (block_index m) p = Some e -> e <> 0xFF ->
  wp (az_free address) (fun r k' => r = TRUE /\ kmem_inv k' /\ freed k k' e p) k.
Proof.
  intros Hk Ha He Hne. subst m p. set (m := g_free_memory k) in *. set (p := page_of m address) in *.
  eapply wp_az_free_run; [done..|]. fold m p. intros m2 u Hb2 Hf2 Hu.
  destruct Hk as [Hp Hst]. fold m in Hp. destruct (release_sum m p e (pi_buddy _ Hp) He Hne) as [Hin Hsum].
  destruct (frame_fields _ _ Hf2) as (Hn & Hml & Hbi & Hus & Hsa & Hea & _).
  simpl in Hn, Hml, Hbi, Hus, Hsa, Hea.
  pose proof (pi_end _ Hp). pose proof (pi_start _ Hp). pose proof (pi_used _ Hp).
  split; [done|]. split; [split; [constructor|by apply stat_ok_set_mem]|constructor]; simpl;
    try done.
  - by eapply buddy_inv_fields, Hb2.
  - intros q e'. rewrite Hbi, nthZ_updZ. case_decide; [intros [= <-]; done|apply (pi_small _ Hp)].
  - rewrite Hus, Hbi. lia.
  - lia.
  - rewrite Hn, Hsa, Hea. lia.
  - by rewrite Hus.
  - exists (bitmaps m2). split; [apply Hf2|]. destruct Hf2 as [-> _]. simpl.
    fold m. by rewrite <- (pi_spl _ Hp).
Qed.
