(* ===== verification/PoolInit.v ===== *)
(** * Setting the pool up ([free_mem_init], [bitmap_size])

    [free_mem_init] reserves pages for the metadata, then marks free, at each
    level with an odd number of blocks, the last block (the trash block).  The
    file shows that the metadata fits in the pages reserved for it and that the
    trash blocks tile the pool, for a free area of 4 MiB up to 4 TiB. *)

From S2P Require Import Prelude.
From S2P Require Import Utility.
From S2P Require Import Lock.
From S2P Require Import Stat.
From S2P Require Import Memory.
From S2P Require Import MemoryBits.
From S2P Require Import Tiling.
From S2P Require Import Buddy.
From S2P Require Import PageAlloc.

(** ** The shift loops *)

Lemma shiftr_positive n j : 0 <= j -> (0 <? Z.shiftr n j) = (2 ^ j <=? n).
Proof.
  intros Hj. rewrite shiftr_pow2 by done. pose proof (pow2_pos j Hj).
  destruct (Z.leb_spec (2 ^ j) n); [apply Z.ltb_lt, Z.div_str_pos; lia|].
  apply Z.ltb_ge. destruct (decide (0 <= n)); [rewrite Z.div_small; lia|].
  apply Z.lt_le_incl, Z.div_lt_upper_bound; lia.
Qed.

(** The loop runs once per binary digit of [blocks]. *)
Lemma shift_loop_rule (I : Z -> Z -> Prop) fuel i blocks body acc :
  0 <= i -> blocks < 2 ^ (i + Z.of_nat fuel) -> I i acc ->
  (forall j a, i <= j -> 2 ^ j <= blocks -> I j a -> I (j + 1) (body j a)) ->
  exists L a, shift_loop fuel i blocks body acc = Ok (L, a) /\ I L a /\ i <= L /\
    blocks < 2 ^ L /\ (L = i \/ 2 ^ (L - 1) <= blocks).
Proof.
  revert i acc. induction fuel as [|fuel IH]; intros i acc Hi Hlt HI Hbody;
    cbn [shift_loop]; rewrite shiftr_positive by done;
    destruct (Z.leb_spec (2 ^ i) blocks) as [Hle|Hgt].
  - replace (i + Z.of_nat 0) with i in Hlt by lia. lia.
  - exists i, acc. split_and!; [done|done|lia|done|by left].
  - replace (i + Z.of_nat (S fuel)) with (i + 1 + Z.of_nat fuel) in Hlt by lia.
    destruct (IH (i + 1) (body i acc)) as (L & a & -> & HL & HiL & Hb & Hd);
      [lia|done|by apply Hbody|intros; apply Hbody; [lia|done|done]|].
    exists L, a. split_and!; [done|done|lia|done|].
    right. destruct Hd as [->|]; [by replace (i + 1 - 1) with i by lia|done].
  - exists i, acc. split_and!; [done|done|lia|done|by left].
Qed.

(** Bytes of the first [L] bitmaps. *)
Fixpoint bitmap_bytes (n : Z) (L : nat) : Z :=
  match L with
  | O => 0
  | S L' => bitmap_bytes n L' + (n / 2 ^ Z.of_nat L' + 7) / 8
  end.

(** Two levels up there are at most half as many blocks, so all bitmaps together
    take about a quarter of a byte per page. *)
Lemma bitmap_bytes_bound n L : 0 <= n ->
  0 <= bitmap_bytes n L /\
  8 * bitmap_bytes n L + 2 * (n / 2 ^ Z.of_nat L) <= 2 * n + 7 * Z.of_nat L.
Proof.
  intros Hn. induction L as [|L IH]; cbn [bitmap_bytes].
  - change (2 ^ Z.of_nat 0) with 1. rewrite Z.div_1_r. lia.
  - replace (Z.of_nat (S L)) with (Z.of_nat L + 1) by lia.
    rewrite div_pow2_succ by lia. pose proof (pow2_pos (Z.of_nat L) ltac:(lia)).
    pose proof (Z.div_pos n (2 ^ Z.of_nat L) Hn ltac:(lia)).
    set (x := n / 2 ^ Z.of_nat L) in *. zdm.
Qed.

Lemma bitmap_bytes_mono n n' (L L' : nat) : 0 <= n <= n' -> (L <= L')%nat ->
  bitmap_bytes n L <= bitmap_bytes n' L'.
Proof.
  intros Hn HL. trans (bitmap_bytes n' L).
  - clear HL. induction L as [|L IH]; cbn [bitmap_bytes]; [done|].
    pose proof (Z.div_le_mono n n' (2 ^ Z.of_nat L)
      (pow2_pos (Z.of_nat L) ltac:(lia)) ltac:(lia)). zdm.
  - induction HL as [|L' _ IH]; [done|]. cbn [bitmap_bytes].
    pose proof (Z.div_pos n' (2 ^ Z.of_nat L') ltac:(lia)
      (pow2_pos (Z.of_nat L') ltac:(lia))). zdm.
Qed.

(** [L] is the number of levels of a pool of [n] pages. *)
Definition levels_of (n L : Z) : Prop := 1 <= L /\ 2 ^ (L - 1) <= n < 2 ^ L.

Lemma levels_of_unique n L L' : levels_of n L -> levels_of n L' -> L = L'.
Proof.
  intros (H1 & H2 & H3) (H1' & H2' & H3').
  destruct (Z.lt_trichotomy L L') as [Hlt|[|Hlt]]; [|done|].
  - pose proof (pow2_mono L (L' - 1)). lia.
  - pose proof (pow2_mono L' (L - 1)). lia.
Qed.

Lemma levels_of_mono n n' L L' : n <= n' -> levels_of n L -> levels_of n' L' -> L <= L'.
Proof.
  intros Hn (H1 & H2 & H3) (H1' & H2' & H3'). destruct (Z.le_gt_cases L L'); [done|].
  pose proof (pow2_mono L' (L - 1)). lia.
Qed.

Lemma shift_loop_levels (I : Z -> Z -> Prop) fuel n body acc :
  1 <= n < 2 ^ Z.of_nat fuel -> I 0 acc ->
  (forall j a, 0 <= j -> 2 ^ j <= n -> I j a -> I (j + 1) (body j a)) ->
  exists L a, shift_loop fuel 0 n body acc = Ok (L, a) /\ I L a /\ levels_of n L.
Proof.
  intros Hn HI Hbody.
  destruct (shift_loop_rule I fuel 0 n body acc) as (L & a & Hrun & HL & H0 & Hlt & Hd);
    [done|rewrite Z.add_0_l; lia|done|done|].
  exists L, a. split_and!; [done|done|].
  destruct Hd as [->|Hd]; [change (2 ^ 0) with 1 in Hlt; lia|].
  split; [|lia]. destruct (decide (L = 0)) as [->|]; [|lia]. change (2 ^ 0) with 1 in Hlt. lia.
Qed.

(** [bitmap_size] counts one byte per page, a BITMAP per level and the bitmaps,
    in pages and rounded up. *)
Lemma bitmap_size_spec size P : 0 <= size -> P = size / 4096 -> 1 <= P <= 2 ^ 30 ->
  exists L, levels_of P L /\
    bitmap_size size = Ok ((P + (16 * L + bitmap_bytes P (Z.to_nat L)) + 4095) / 4096).
Proof.
  intros Hs HP Hr. unfold bitmap_size. change PAGE_MIN_SIZE with 4096. rewrite <- HP.
  rewrite s64_small by lia.
  assert (forall j, 0 <= j -> 2 ^ j <= P -> j <= 30) as H30.
  { intros j Hj Hle. destruct (Z.le_gt_cases j 30); [done|]. pose proof (pow2_mono 31 j). lia. }
  destruct (shift_loop_levels (fun i acc => acc = 16 * i + bitmap_bytes P (Z.to_nat i)) 64 P
      (fun i acc => u32 (u32 (acc + BITMAP_SIZE) + Z.quot (Z.shiftr P i + 7) 8)) 0)
    as (L & a & -> & -> & HL); [lia|done| |].
  - intros j a Hj Hle ->. specialize (H30 j Hj Hle).
    replace (Z.to_nat (j + 1)) with (S (Z.to_nat j)) by lia. cbn [bitmap_bytes].
    rewrite Z2Nat.id, shiftr_pow2 by done.
    destruct (bitmap_bytes_bound P (Z.to_nat j) ltac:(lia)) as [Hb0 Hb].
    rewrite Z2Nat.id in Hb by done. pose proof (pow2_pos j Hj).
    pose proof (Z.div_pos P (2 ^ j) ltac:(lia) ltac:(lia)).
    unfold BITMAP_SIZE. rewrite Z.quot_div_nonneg by lia.
    assert (P / 2 ^ j <= P) by (apply Z.div_le_upper_bound; nia).
    rewrite (u32_small (16 * j + _ + 16)) by lia. rewrite u32_small; zdm.
  - exists L. split; [done|]. destruct HL as (HL & HL' & _).
    specialize (H30 (L - 1) ltac:(lia) HL').
    destruct (bitmap_bytes_bound P (Z.to_nat L) ltac:(lia)) as [Hb0 Hb].
    pose proof (Z.div_pos P (2 ^ Z.of_nat (Z.to_nat L)) ltac:(lia)
      (pow2_pos (Z.of_nat (Z.to_nat L)) ltac:(lia))).
    set (S := 16 * L + bitmap_bytes P (Z.to_nat L)) in *.
    rewrite (u32_small P), (u32_small (P + S)), u32_small by lia.
    replace (P + S + 4096 - 1) with (P + S + 4095) by lia.
    rewrite s32_small; [done|]. zdm.
Qed.

(** ** One level *)

Lemma init_bytes_len bc : 0 <= bc -> lenZ (init_bytes bc) = (bc + 7) / 8.
Proof.
  intros Hb. unfold init_bytes. rewrite lenZ_app, lenZ_replicate.
  rewrite Z.quot_div_nonneg, Z.rem_mod_nonneg by lia.
  destruct (Z.eqb_spec (bc mod 8) 0); cbn [negb]; [unfold lenZ; cbn; zdm|].
  destruct (Z.rem (bc mod 8) 2 =? 1); unfold lenZ; cbn; zdm.
Qed.

Lemma nthZ_singleton {A} (x : A) : nthZ [x] 0 = Some x.
Proof. done. Qed.

(** The only bit set is the last one of an odd number of blocks. *)
Lemma init_bytes_bit bc o : 0 <= bc ->
  bit_of (init_bytes bc) o = bool_decide (bc mod 2 = 1 /\ o = bc - 1).
Proof.
  intros Hb. unfold bit_of, init_bytes. rewrite Z.quot_div_nonneg, !Z.rem_mod_nonneg by zdm.
  destruct (decide (o / 8 < bc / 8)) as [Hlt|Hge].
  { rewrite nthZ_app_l by (rewrite lenZ_replicate; zdm).
    rewrite (bool_decide_eq_false_2 _) by zdm.
    destruct (nthZ (replicate _ 0) (o / 8)) as [b|] eqn:E; [|done].
    rewrite nthZ_replicate in E by (apply nthZ_Some_range in E; rewrite lenZ_replicate in E; lia).
    injection E as <-. apply Z.bits_0. }
  rewrite nthZ_app_r by (rewrite lenZ_replicate; zdm). rewrite lenZ_replicate, Z2Nat.id by zdm.
  destruct (Z.eqb_spec (bc mod 8) 0) as [|Hm]; cbn [negb];
    [rewrite bool_decide_eq_false_2 by zdm; unfold nthZ; by case (0 <=? _)|].
  destruct (decide (o / 8 = bc / 8)) as [He|Hne].
  2: { symmetry. rewrite bool_decide_eq_false_2 by zdm. destruct (bc mod 8 mod 2 =? 1);
       unfold nthZ; rewrite (proj2 (Z.leb_le 0 _)) by lia;
       (destruct (Z.to_nat (o / 8 - bc / 8)) eqn:E; [lia|done]). }
  rewrite He, Z.sub_diag. destruct (Z.eqb_spec (bc mod 8 mod 2) 1) as [H1|H1];
    rewrite nthZ_singleton.
  - rewrite Z.lor_0_l. change MM_TRUE with 1. rewrite u8_testbit by (apply Z.mod_pos_bound; lia).
    rewrite Z.shiftl_spec, testbit_one by (apply Z.mod_pos_bound; lia).
    apply bool_decide_ext. zdm.
  - rewrite Z.bits_0. symmetry. apply bool_decide_eq_false_2. zdm.
Qed.

Lemma init_bytes_ok bc : bytes_ok (init_bytes bc).
Proof.
  unfold init_bytes. intros i b. destruct (decide (i < lenZ (replicate (Z.to_nat (Z.quot bc 8)) 0x00))).
  - rewrite nthZ_app_l by done. intros E. rewrite nthZ_replicate in E; [injection E as <-; lia|].
    apply nthZ_Some_range in E. by rewrite lenZ_replicate in E.
  - rewrite nthZ_app_r by lia.
    set (j := i - _). clearbody j. destruct (negb _); [|by unfold nthZ; case (0 <=? j)].
    unfold nthZ. destruct (0 <=? j); [|done].
    destruct (Z.to_nat j) as [|[]]; destruct (_ =? 1); cbn; intros [= <-]; try apply u8_bound; lia.
Qed.

Lemma init_count_spec bc : 0 <= bc ->
  init_count bc = count_bits (bit_of (init_bytes bc)) (Z.to_nat bc).
Proof.
  intros Hb. unfold init_count. rewrite Z.rem_mod_nonneg, Z.rem_mod_nonneg by zdm.
  assert (negb (bc mod 8 =? 0) && (bc mod 8 mod 2 =? 1) = (bc mod 2 =? 1)) as ->.
  { destruct (Z.eqb_spec (bc mod 8) 0), (Z.eqb_spec (bc mod 8 mod 2) 1),
      (Z.eqb_spec (bc mod 2) 1); cbn; try done; zdm. }
  rewrite (count_bits_ext _ (fun o => bool_decide (bc mod 2 = 1 /\ o = bc - 1)))
    by (intros; by apply init_bytes_bit).
  destruct (Z.eqb_spec (bc mod 2) 1) as [H1|H1].
  - rewrite (count_bits_upd (fun _ => false) _ _ (bc - 1)); [|zdm|].
    + rewrite count_bits_all_clear by done. rewrite bool_decide_eq_true_2 by done. done.
    + intros i Hi. apply bool_decide_eq_false_2. tauto.
  - rewrite count_bits_all_clear; [done|]. intros i Hi. apply bool_decide_eq_false_2. tauto.
Qed.

Lemma init_level_ok ptr bc : 0 <= bc < 2 ^ 31 ->
  level_ok bc (mkBITMAP ptr (init_bytes bc) (init_count bc)).
Proof.
  intros Hb. constructor; cbn [bitmap bitmap_count].
  - done.
  - apply init_bytes_len. lia.
  - apply init_bytes_ok.
  - intros o Ho. rewrite init_bytes_bit by lia. apply bool_decide_eq_false_2. lia.
  - apply init_count_spec. lia.
Qed.

(** ** All levels *)

Lemma init_bitmaps_len n j sb cur : lenZ (init_bitmaps n j sb cur) = Z.of_nat n.
Proof.
  revert j cur. induction n as [|n IH]; intros j cur; [done|]. cbn [init_bitmaps].
  specialize (IH (j + 1) (cur + lenZ (init_bytes (Z.shiftr sb j)))). unfold lenZ in *. cbn. lia.
Qed.

(** Level [l] holds the bitmap of [sb / 2 ^ l] blocks, right after those before. *)
Lemma init_bitmaps_nth n j sb cur l : 0 <= sb -> 0 <= j -> 0 <= l < Z.of_nat n ->
  nthZ (init_bitmaps n j sb cur) l =
  Some (mkBITMAP (cur + (bitmap_bytes sb (Z.to_nat (j + l)) - bitmap_bytes sb (Z.to_nat j)))
          (init_bytes (sb / 2 ^ (j + l))) (init_count (sb / 2 ^ (j + l)))).
Proof.
  intros Hsb. revert j cur l. induction n as [|n IH]; intros j cur l Hj Hl; [lia|].
  cbn [init_bitmaps]. rewrite shiftr_pow2 by done.
  destruct (decide (l = 0)) as [->|].
  - replace (j + 0) with j by lia. rewrite Z.sub_diag, Z.add_0_r. done.
  - replace l with (l - 1 + 1) at 1 by lia. rewrite nthZ_cons by lia.
    rewrite IH by lia. replace (j + 1 + (l - 1)) with (j + l) by lia. do 2 f_equal.
    rewrite init_bytes_len by (apply Z.div_pos; [done|by apply pow2_pos]).
    replace (Z.to_nat (j + 1)) with (S (Z.to_nat j)) by lia. cbn [bitmap_bytes].
    rewrite Z2Nat.id by done. lia.
Qed.

(** ** The trash blocks tile the pool *)

(** The pages below the trash blocks of levels under [l]. *)
Definition low_end (n l : Z) : Z := n / 2 ^ l * 2 ^ l.

Lemma low_end_succ n l : 0 <= l ->
  low_end n (l + 1) = low_end n l - (n / 2 ^ l) mod 2 * 2 ^ l.
Proof.
  intros Hl. unfold low_end. rewrite div_pow2_succ, pow2_succ by done.
  pose proof (Z.div_mod (n / 2 ^ l) 2 ltac:(lia)). nia.
Qed.

Lemma low_end_step n l : 0 <= l -> low_end n (l + 1) <= low_end n l.
Proof.
  intros Hl. rewrite low_end_succ by done. pose proof (pow2_pos l Hl).
  pose proof (Z.mod_pos_bound (n / 2 ^ l) 2 ltac:(lia)). nia.
Qed.

Lemma low_end_anti n l l' : 0 <= l <= l' -> low_end n l' <= low_end n l.
Proof.
  intros Hl. replace l' with (l + Z.of_nat (Z.to_nat (l' - l))) by lia.
  induction (Z.to_nat (l' - l)) as [|d IH]; [by replace (l + Z.of_nat 0) with l by lia|].
  replace (l + Z.of_nat (S d)) with (l + Z.of_nat d + 1) by lia.
  pose proof (low_end_step n (l + Z.of_nat d)). lia.
Qed.

(** Block [n / 2 ^ l - 1] of a level with an odd number of blocks. *)
Definition trash (n : Z) (b : block) : Prop :=
  tag b = Free /\ 0 <= level b /\ (n / 2 ^ level b) mod 2 = 1 /\ offset b = n / 2 ^ level b - 1.

Lemma trash_covers n b p : trash n b ->
  covers b p <-> low_end n (level b + 1) <= p < low_end n (level b).
Proof.
  intros (_ & Hl & Hodd & Ho). unfold covers, first_page, end_page.
  rewrite low_end_succ, Hodd, Ho by done. unfold low_end. lia.
Qed.

Lemma trash_tiling n L : 0 <= n < 2 ^ L -> 0 <= L -> Tiling n (trash n).
Proof.
  intros Hn HL. constructor.
  - intros b Hb. pose proof Hb as (_ & Hl & Hodd & Ho). pose proof (pow2_pos _ Hl).
    split_and!; [done| |].
    + assert (0 <= n / 2 ^ level b) by (apply Z.div_pos; lia). rewrite Ho.
      destruct (decide (n / 2 ^ level b = 0)) as [E|]; [by rewrite E in Hodd|lia].
    + unfold end_page. rewrite Ho. pose proof (Z.mul_div_le n (2 ^ level b)). lia.
  - intros p Hp. assert (exists l, 0 <= l /\ low_end n (l + 1) <= p < low_end n l) as (l & Hl & Hpl).
    { assert (forall d : nat, low_end n (Z.of_nat d) <= p ->
                exists l, 0 <= l /\ low_end n (l + 1) <= p < low_end n l) as Hd.
      { intros d. induction d as [|d IH]; intros Hle.
        - unfold low_end in Hle. change (2 ^ Z.of_nat 0) with 1 in Hle. rewrite Z.div_1_r in Hle. lia.
        - destruct (Z.le_gt_cases (low_end n (Z.of_nat d)) p); [auto|].
          exists (Z.of_nat d). replace (Z.of_nat d + 1) with (Z.of_nat (S d)) by lia. lia. }
      apply (Hd (Z.to_nat L)). unfold low_end. rewrite Z2Nat.id, Z.div_small by done. lia. }
    pose proof (Z.mod_pos_bound (n / 2 ^ l) 2 ltac:(lia)).
    assert (trash n (Block Free l (n / 2 ^ l - 1))) as Ht.
    { split_and!; [done|done| |done]. cbn. rewrite low_end_succ in Hpl by done. nia. }
    exists (Block Free l (n / 2 ^ l - 1)). split; [done|]. by apply (trash_covers n).
  - intros b c p Hb Hc Hbp Hcp. pose proof Hb as (Htb & Hlb & _ & Hob).
    pose proof Hc as (Htc & Hlc & _ & Hoc).
    apply (trash_covers n) in Hbp; [|done]. apply (trash_covers n) in Hcp; [|done].
    assert (level b = level c) as He.
    { destruct (Z.lt_trichotomy (level b) (level c)) as [Hlt|[|Hlt]]; [|done|].
      - pose proof (low_end_anti n (level b + 1) (level c)). lia.
      - pose proof (low_end_anti n (level c + 1) (level b)). lia. }
    destruct b, c; cbn in *. congruence.
Qed.

(** A pool as [free_mem_init] leaves it. *)
Record fresh (m : MM) : Prop := {
  fresh_blocks : 1 <= smallest_block m < 2 ^ 31;
  fresh_levels : levels_of (smallest_block m) (max_level m);
  fresh_index : block_index m = replicate (Z.to_nat (smallest_block m)) 0xFF;
  fresh_bitmaps : exists cur,
    bitmaps m = init_bitmaps (Z.to_nat (max_level m)) 0 (smallest_block m) cur
}.

Lemma fresh_shape m : fresh m -> shape m.
Proof.
  intros [Hn (H1 & H2 & H3) Hi (cur & Hb)]. constructor.
  - done.
  - done.
  - done.
  - rewrite Hb, init_bitmaps_len. lia.
  - intros l bm Hl. pose proof (nthZ_Some_range _ _ _ Hl) as Hr.
    rewrite Hb in Hl, Hr. rewrite init_bitmaps_len in Hr.
    rewrite init_bitmaps_nth in Hl by lia. injection Hl as <-. rewrite Z.add_0_l.
    pose proof (pow2_pos l ltac:(lia)). apply init_level_ok.
    split; [apply Z.div_pos; lia|]. apply Z.div_lt_upper_bound; nia.
  - rewrite Hi, lenZ_replicate. lia.
Qed.

Lemma fresh_bit m l o : fresh m -> 0 <= l < max_level m ->
  free_bit m l o = bool_decide ((smallest_block m / 2 ^ l) mod 2 = 1 /\
                                o = smallest_block m / 2 ^ l - 1).
Proof.
  intros [Hn (H1 & H2 & H3) Hi (cur & Hb)] Hl. unfold free_bit.
  rewrite Hb, init_bitmaps_nth by lia. cbn [bitmap]. rewrite Z.add_0_l.
  apply init_bytes_bit. apply Z.div_pos; [lia|apply pow2_pos; lia].
Qed.

Lemma fresh_entry m p e : fresh m -> nthZ (block_index m) p = Some e -> e = 0xFF.
Proof.
  intros [_ _ -> _] Hp. pose proof (nthZ_Some_range _ _ _ Hp) as Hr.
  rewrite lenZ_replicate in Hr. rewrite nthZ_replicate in Hp by done. by injection Hp.
Qed.

Lemma fresh_buddy_inv m : fresh m -> buddy_inv m None.
Proof.
  intros Hf. pose proof (fresh_shape m Hf) as Hs. pose proof (fresh_blocks _ Hf).
  pose proof (fresh_levels _ Hf) as (H1 & H2 & H3).
  constructor; [done| | |].
  - eapply Tiling_proper; [|apply (trash_tiling _ (max_level m)); lia].
    intros [[] l o]; unfold blocks_of, trash; cbn; (split; [|intros (Ht & Hl & Hodd & Ho)]); try done.
    + intros Hb. destruct (free_bit_range _ _ _ Hs Hb) as [Hl _].
      rewrite fresh_bit in Hb by done. apply bool_decide_eq_true in Hb. split_and!; [done|lia|tauto|tauto].
    + rewrite fresh_bit; [by apply bool_decide_eq_true|done|]. split; [done|].
      destruct (Z.lt_ge_cases l (max_level m)); [done|].
      pose proof (pow2_mono (max_level m) l). rewrite Z.div_small in Hodd by lia. done.
    + intros (Hl & _ & He). apply fresh_entry in He; [|done].
      destruct (level_not_none m l Hs); [lia|done].
  - intros p e He. left. by eapply fresh_entry.
  - intros l o Ha Hb. destruct (free_bit_range _ _ _ Hs Ha) as [Hl _].
    rewrite fresh_bit in Ha, Hb by done. apply bool_decide_eq_true in Ha, Hb. lia.
Qed.

(** ** The whole initialisation *)

(** The metadata lies between the start of the free area and the pool: the
    block index, the BITMAP array, then the bitmaps one after the other. *)
Record metadata_laid_out (m : MM) : Prop := {
  ml_index : block_index_at m + lenZ (block_index m) = bitmaps_at m;
  ml_bitmaps : forall l bm, nthZ (bitmaps m) l = Some bm ->
    bitmaps_at m + BITMAP_SIZE * max_level m <= bitmap_at bm /\
    bitmap_at bm + lenZ (bitmap bm) <= start_addr m;
  ml_apart : forall l l' bm bm', l < l' ->
    nthZ (bitmaps m) l = Some bm -> nthZ (bitmaps m) l' = Some bm' ->
    bitmap_at bm + lenZ (bitmap bm) <= bitmap_at bm'
}.

Definition free_area (g_memory_start g_memory_end : Z) : Z :=
  g_memory_end - g_memory_start - CONFIG_KERNEL_SIZE.

Lemma round_up_512 x : Z.land x (Z.lnot (512 - 1)) = x / 512 * 512.
Proof.
  change (512 - 1) with (Z.ones 9). rewrite <- Z.ldiff_land, Z.ldiff_ones_r by lia.
  rewrite shiftl_pow2, shiftr_pow2 by lia. done.
Qed.

Lemma bitmap_bytes_step n (l : nat) : 0 <= n ->
  bitmap_bytes n l + lenZ (init_bytes (n / 2 ^ Z.of_nat l)) = bitmap_bytes n (S l).
Proof.
  intros Hn. rewrite init_bytes_len; [done|]. apply Z.div_pos; [done|apply pow2_pos; lia].
Qed.

Lemma init_layout m cur : 0 <= smallest_block m -> 0 <= max_level m ->
  bitmaps m = init_bitmaps (Z.to_nat (max_level m)) 0 (smallest_block m) cur ->
  block_index_at m + lenZ (block_index m) = bitmaps_at m ->
  cur = bitmaps_at m + BITMAP_SIZE * max_level m ->
  cur + bitmap_bytes (smallest_block m) (Z.to_nat (max_level m)) <= start_addr m ->
  metadata_laid_out m.
Proof.
  intros Hn Hml Hb Hi Hcur Hfit.
  assert (forall l bm, nthZ (bitmaps m) l = Some bm -> 0 <= l < max_level m /\
    bitmap_at bm = cur + bitmap_bytes (smallest_block m) (Z.to_nat l) /\
    bitmap_at bm + lenZ (bitmap bm) =
      cur + bitmap_bytes (smallest_block m) (S (Z.to_nat l))) as Hat.
  { intros l bm Hl. pose proof (nthZ_Some_range _ _ _ Hl) as Hr.
    rewrite Hb in Hl, Hr. rewrite init_bitmaps_len in Hr.
    rewrite init_bitmaps_nth in Hl by lia. injection Hl as <-. cbn [bitmap_at bitmap].
    rewrite Z.add_0_l. change (bitmap_bytes (smallest_block m) (Z.to_nat 0)) with 0.
    split_and!; [lia|lia|lia|]. rewrite <- bitmap_bytes_step, Z2Nat.id by lia. lia. }
  constructor; [done| |].
  - intros l bm Hl. destruct (Hat l bm Hl) as (Hr & Ha & He). rewrite He, Ha, Hcur.
    pose proof (bitmap_bytes_bound (smallest_block m) (Z.to_nat l) Hn) as [H0 _].
    pose proof (bitmap_bytes_mono (smallest_block m) (smallest_block m)
      (S (Z.to_nat l)) (Z.to_nat (max_level m))). lia.
  - intros l l' bm bm' Hlt Hl Hl'. destruct (Hat l bm Hl) as (Hr & _ & ->).
    destruct (Hat l' bm' Hl') as (Hr' & -> & _).
    pose proof (bitmap_bytes_mono (smallest_block m) (smallest_block m)
      (S (Z.to_nat l)) (Z.to_nat l')). lia.
Qed.

(** The pages reserved for the metadata: enough for the bitmaps of a pool with
    fewer pages, and far from all of them. *)
Lemma reserved_pages P L n : 1024 <= P <= 2 ^ 30 -> levels_of P L ->
  let B := ((P + (16 * L + bitmap_bytes P (Z.to_nat L)) + 4095) / 4096 + 511) / 512 * 512 in
  0 <= B < 2 ^ 19 /\ 1 <= P - B /\ 4096 * B <= 2 * P + 2 ^ 22 /\
  (0 <= n <= P -> forall l, levels_of n l ->
   n + 16 * l + bitmap_bytes n (Z.to_nat l) <= 4096 * B).
Proof.
  intros HP HL B. pose proof HL as (HL1 & HL2 & HL3).
  assert (L <= 31). { destruct (Z.le_gt_cases L 31); [done|]. pose proof (pow2_mono 31 (L - 1)). lia. }
  destruct (bitmap_bytes_bound P (Z.to_nat L) ltac:(lia)) as [Hb0 Hb].
  pose proof (Z.div_pos P (2 ^ Z.of_nat (Z.to_nat L)) ltac:(lia)
    (pow2_pos (Z.of_nat (Z.to_nat L)) ltac:(lia))).
  set (X := P + (16 * L + bitmap_bytes P (Z.to_nat L))) in B.
  assert (X <= 4096 * B /\ 0 <= B /\ 4096 * B <= X + 4095 + 4096 * 511) as (? & ? & ?)
    by (subst B; zdm).
  split_and!; [lia|lia|lia|lia|]. intros Hn l Hl.
  pose proof (levels_of_mono _ _ _ _ (proj2 Hn) Hl HL). destruct Hl as (? & _).
  pose proof (bitmap_bytes_mono n P (Z.to_nat l) (Z.to_nat L)). lia.
Qed.

Lemma mm_layout_spec base F : 0 < base -> base + F < 2 ^ 64 -> 2 ^ 22 <= F <= 2 ^ 42 ->
  exists m, mm_layout base (base + F) = Ok m /\ pool_inv m /\ fresh m /\ metadata_laid_out m /\
    block_index_at m = base /\ end_addr m = base + F /\
    (base <= start_addr m /\ start_addr m = base + 4096 * (F / 4096 - smallest_block m)) /\
    4096 * (F / 4096 - smallest_block m) <= 2 * (F / 4096) + 2 ^ 22.
Proof.
  intros Hbase Hend Hf. unfold mm_layout.
  replace (base + F - base) with F by lia. rewrite (u64_small F) by lia.
  set (P := F / 4096). assert (1024 <= P <= 2 ^ 30) as HP by (subst P; zdm).
  destruct (bitmap_size_spec F P) as (L & HL & ->); [lia|done|lia|].
  destruct (reserved_pages P L 0 HP HL) as (HB & HPB & HBP & _).
  set (B0 := (P + (16 * L + bitmap_bytes P (Z.to_nat L)) + 4095) / 4096) in *.
  assert (0 <= B0 < 2 ^ 19) as HB0.
  { pose proof (bitmap_bytes_bound P (Z.to_nat L) ltac:(lia)). destruct HL. subst B0. zdm. }
  rewrite (s32_small (B0 + (512 - 1))) by lia. rewrite round_up_512.
  change (B0 + (512 - 1)) with (B0 + 511). set (B := (B0 + 511) / 512 * 512) in *.
  change PAGE_MIN_SIZE with 4096. fold P. rewrite (u64_small (P - B)), (s32_small (P - B)) by lia.
  destruct (shift_loop_levels (fun _ _ => True) 32 (P - B) (fun _ acc => acc) 0)
    as (ml & a & -> & _ & Hml); [lia|done|done|].
  destruct (reserved_pages P L (P - B) HP HL) as (_ & _ & _ & Hmeta). specialize (Hmeta ltac:(lia) ml Hml).
  fold B0 B in Hmeta. rewrite (s32_small (B * 4096)) by lia.
  assert (4096 * P <= F) by (subst P; zdm).
  rewrite (u64_small (base + B * 4096)), (u64_small (base + (P - B))) by lia.
  eexists. split; [reflexivity|]. destruct Hml as (Hml1 & Hml2).
  match goal with |- pool_inv ?mm /\ _ => set (m := mm) end.
  assert (fresh m) as Hfresh by (constructor; simpl; [lia|done|done|by eexists]).
  split_and!; [|done| |done|done|simpl; lia|simpl; lia|simpl; fold P; lia].
  - constructor; simpl; [by apply fresh_buddy_inv| |by rewrite index_sum_replicate|lia|lia|done].
    intros p x Hx. by apply (fresh_entry m) in Hx.
  - eapply init_layout; [simpl; lia|simpl; lia|reflexivity|simpl; rewrite lenZ_replicate; lia|done|].
    simpl. unfold BITMAP_SIZE. lia.
Qed.

(** The base of the kernel's free area, 1 GiB into its window. *)
Definition pool_base : Z := CONFIG_PAGE_OFFSET + CONFIG_KERNEL_SIZE.

Lemma mm_init_spec s e : 0 <= s -> e < 2 ^ 63 -> 2 ^ 22 <= free_area s e <= 2 ^ 42 ->
  exists m, mm_init s e = Ok m /\ pool_inv m /\ fresh m /\ metadata_laid_out m /\
    block_index_at m = pool_base /\ end_addr m = pool_base + free_area s e /\
    (pool_base <= start_addr m /\
     start_addr m = pool_base + 4096 * (free_area s e / 4096 - smallest_block m)) /\
    4096 * (free_area s e / 4096 - smallest_block m) <= 2 * (free_area s e / 4096) + 2 ^ 22.
Proof.
  intros Hs He Hf. assert (pool_base = 0xFFFF800100000000) as Hbase by done.
  destruct (mm_layout_spec pool_base (free_area s e)) as (m & Hrun & H); [lia..|].
  exists m. split; [|done]. unfold mm_init, va, free_area in *.
  change CONFIG_PAGE_OFFSET with 0xFFFF8000C0000000 in *.
  change CONFIG_KERNEL_SIZE with 0x40000000 in *. rewrite <- Hrun.
  rewrite (u64_small (s + 0x40000000)) by lia. f_equal; rewrite u64_small; lia.
Qed.
