(* ===== verification/Allocator.v ===== *)
(** * The allocator as its callers see it

    The theorems about [az_alloc] and [az_free]: what one call does, what a
    sequence of calls does, and the interface the allocator's clients are
    verified against, with the kernel's allocator as an instance. *)

From S2P Require Import Prelude.
From S2P Require Import Utility.
From S2P Require Import Lock.
From S2P Require Import Stat.
From S2P Require Import Memory.
From S2P Require Import MemoryBits.
From S2P Require Import Tiling.
From S2P Require Import Buddy.
From S2P Require Import PageAlloc.
From S2P Require Import PoolInit.

(** ** A small pool to evaluate on *)

(** Five pages at 0x10000, fresh: page 4 is free on its own, pages 0-3 as one. *)
Definition small_pool : MM := {|
  max_level := 3; smallest_block := 5; used_size := 0;
  start_addr := 0x10000; end_addr := 0x15000;
  block_index_at := 0x8000; block_index := replicate 5 0xFF;
  bitmaps_at := 0x8005; bitmaps := init_bitmaps 3 0 5 0x8035; mm_spl := FALSE |}.

Definition small_kmem : kmem := {|
  g_free_memory := small_pool; g_alloc_count := 0; g_free_count := 0;
  heap_end := HEAP_START; heap_lock := FALSE;
  stat_area := mkSTAT [] [mkUnikernel 0 [] 0] 0 FALSE; ram := fun _ => 0xAA |}.

Lemma small_pool_inv : pool_inv small_pool.
Proof.
  assert (fresh small_pool) as Hf.
  { constructor; [done|split; cbn; lia|done|]. by exists 0x8035. }
  constructor; try done; [by apply fresh_buddy_inv|].
  intros p e He Hne. by apply fresh_entry in He.
Qed.

Lemma small_kmem_inv : kmem_inv small_kmem.
Proof. split; [apply small_pool_inv|]. by split. Qed.

(** ** One call *)

(** C28: every request of up to 1 GiB returns, with the invariant kept.  Either
    the result is 0 and nothing has changed, or it is the address of a block of
    the smallest sufficient power-of-two number of pages: inside the pool,
    aligned within it, disjoint from every allocated block, recorded in
    [block_index] and [used_size], filled with zeros; no other byte of memory,
    counter or entry changes. *)
Theorem az_alloc_correct k size : kmem_inv k -> 0 <= size <= 2 ^ 30 ->
  exists r k', az_alloc size k = Ok (r, k') /\ kmem_inv k' /\
    ((r = 0 /\ k' = k) \/
     (r <> 0 /\ exists l p, level_for size l /\ allocated k k' l p r)).
Proof.
  intros Hk Hs. destruct (proj1 (wp_Ok _ _ _) (wp_az_alloc k size Hk (proj2 Hs)))
    as (r & k' & Hrun & Hk' & Hcase).
  exists r, k'. split_and!; [done|done|]. destruct Hcase as [(-> & -> & _)|(l & p & Hl & _ & Hal)]; [by left|].
  right. split; [|by exists l, p]. rewrite (al_addr _ _ _ _ _ Hal).
  pose proof (pi_start _ (proj1 Hk)). pose proof (al_range _ _ _ _ _ Hal). lia.
Qed.

Lemma az_alloc_correct_witness :
  exists r k', az_alloc 5000 small_kmem = Ok (r, k') /\ kmem_inv k' /\
    ((r = 0 /\ k' = small_kmem) \/
     (r <> 0 /\ exists l p, level_for 5000 l /\ allocated small_kmem k' l p r)).
Proof. apply (az_alloc_correct small_kmem 5000); [apply small_kmem_inv|lia]. Defined.

(** C29: the allocator never gives up early.  A request of up to 1 GiB fails only
    if the pool has no aligned, wholly unallocated range of the pages it needs;
    neither fragmentation of the free lists nor the [end_addr] test adds a
    refusal. *)
Theorem az_alloc_fails_iff_no_room k size l :
  kmem_inv k -> 0 <= size <= 2 ^ 30 -> level_for size l ->
  exists r k', az_alloc size k = Ok (r, k') /\ (r = 0 <-> ~ room (g_free_memory k) l).
Proof.
  intros Hk Hs Hl. destruct (proj1 (wp_Ok _ _ _) (wp_az_alloc k size Hk (proj2 Hs)))
    as (r & k' & Hrun & _ & Hcase).
  exists r, k'. split; [done|].
  destruct Hcase as [(-> & _ & Hno)|(l' & p & Hl' & Hroom & Hal)]; [split; auto|].
  rewrite (level_for_unique _ _ _ Hl Hl'). split; [|done]. rewrite (al_addr _ _ _ _ _ Hal).
  pose proof (pi_start _ (proj1 Hk)). pose proof (al_range _ _ _ _ _ Hal). lia.
Qed.

Lemma az_alloc_fails_iff_no_room_witness :
  exists r k', az_alloc 8192 small_kmem = Ok (r, k') /\ (r = 0 <-> ~ room small_pool 1).
Proof.
  apply (az_alloc_fails_iff_no_room small_kmem 8192 1); [apply small_kmem_inv|lia|].
  split_and!; [lia|lia|]. intros i Hi. assert (i = 0) as -> by lia. lia.
Defined.

(** Releasing an address in the first page of an allocated block succeeds:
    the call returns TRUE, the entry is cleared, [used_size] drops by the size of
    the block, the pages are free again (merged with free buddies as far as
    possible) and no byte of memory is written. *)
Theorem az_free_correct k address e :
  let m := g_free_memory k in
  kmem_inv k ->
  start_addr m <= address < start_addr m + 4096 * smallest_block m ->
  nthZ (block_index m) (page_of m address) = Some e -> e <> 0xFF ->
  exists k', az_free address k = Ok (TRUE, k') /\ kmem_inv k' /\
    freed k k' e (page_of m address).
Proof.
  intros m Hk Ha He Hne.
  destruct (proj1 (wp_Ok _ _ _) (wp_az_free k address e Hk Ha He Hne))
    as (r & k' & Hrun & -> & Hk' & Hf). eauto.
Qed.

(** The small pool with pages 0 and 1 allocated as one block. *)
Definition small_used : kmem :=
  small_kmem <| g_free_memory := {|
    max_level := 3; smallest_block := 5; used_size := 8192;
    start_addr := 0x10000; end_addr := 0x15000;
    block_index_at := 0x8000; block_index := [1; 0xFF; 0xFF; 0xFF; 0xFF];
    bitmaps_at := 0x8005;
    bitmaps := [mkBITMAP 0x8035 [16] 1; mkBITMAP 0x8036 [2] 1; mkBITMAP 0x8037 [0] 0];
    mm_spl := FALSE |} |> <| g_alloc_count := 1 |>.

Lemma small_used_inv : kmem_inv small_used.
Proof.
  destruct (proj1 (wp_Ok _ _ _) (wp_az_alloc small_kmem 5000 small_kmem_inv ltac:(lia)))
    as (r & k' & Hrun & [Hk' _] & _).
  split; [|by split].
  assert (match az_alloc 5000 small_kmem with
          | Ok (_, k') => g_free_memory k'
          | Fault _ => small_pool
          end = g_free_memory small_used) as E by (vm_compute; reflexivity).
  rewrite Hrun in E. by rewrite <- E.
Qed.

Lemma az_free_correct_witness :
  exists k', az_free 0x10000 small_used = Ok (TRUE, k') /\ kmem_inv k' /\
    freed small_used k' 1 0.
Proof.
  apply (az_free_correct small_used 0x10000 1);
    [apply small_used_inv|cbn; lia|reflexivity|lia].
Defined.

(** ** Two calls *)

Lemma page_of_start m p : page_of m (start_addr m + 4096 * p) = p.
Proof.
  unfold page_of. replace (start_addr m + 4096 * p - start_addr m) with (p * 4096) by lia.
  apply Z.div_mul. lia.
Qed.

(** The entry of the page a block is allocated at was free before. *)
Lemma allocated_entry k k' l p r : kmem_inv k -> allocated k k' l p r -> 0 <= l ->
  nthZ (block_index (g_free_memory k)) p = Some 0xFF.
Proof.
  intros [Hp _] Hal Hl. pose proof (pi_buddy _ Hp) as Hb. pose proof (pow2_pos l Hl).
  destruct (al_range _ _ _ _ _ Hal) as [Hp0 Hpn].
  destruct (nthZ_in_range (block_index (g_free_memory k)) p) as [e He].
  { rewrite (sh_index _ (bi_shape _ _ Hb)). lia. }
  destruct (decide (e = 0xFF)) as [->|Hne]; [done|exfalso].
  destruct (entry_block _ _ _ _ Hb He Hne) as (_ & Her & _). pose proof (pow2_pos e ltac:(lia)).
  destruct (al_unused _ _ _ _ _ Hal p e He Hne); lia.
Qed.

(** A block just allocated, as [az_free] finds it. *)
Lemma allocated_found k k' l p r : kmem_inv k -> allocated k k' l p r -> 0 <= l ->
  start_addr (g_free_memory k') = start_addr (g_free_memory k) /\
  page_of (g_free_memory k') r = p /\
  nthZ (block_index (g_free_memory k')) p = Some l /\
  start_addr (g_free_memory k') <= r <
    start_addr (g_free_memory k') + 4096 * smallest_block (g_free_memory k').
Proof.
  intros Hk Hal Hl. pose proof (allocated_entry _ _ _ _ _ Hk Hal Hl) as He.
  pose proof (nthZ_Some_range _ _ _ He). destruct (al_frame _ _ _ _ _ Hal) as (bms & _ & E).
  assert (start_addr (g_free_memory k') = start_addr (g_free_memory k)) as Hsa by by rewrite E.
  assert (smallest_block (g_free_memory k') = smallest_block (g_free_memory k)) as Hsb by by rewrite E.
  pose proof (pow2_pos l Hl). destruct (al_range _ _ _ _ _ Hal).
  rewrite (al_addr _ _ _ _ _ Hal), <- Hsa. split_and!; [done|apply page_of_start| |lia|lia].
  rewrite (al_index _ _ _ _ _ Hal). by apply nthZ_updZ_eq.
Qed.

(** Releasing a block right after allocating it brings the whole pool back
    to the state before, bit for bit: index, bitmaps, counts and size in use. *)
Theorem alloc_free_roundtrip k size : kmem_inv k -> 0 <= size <= 2 ^ 30 ->
  exists r k1, az_alloc size k = Ok (r, k1) /\
    (r <> 0 -> exists k2, az_free r k1 = Ok (TRUE, k2) /\ g_free_memory k2 = g_free_memory k).
Proof.
  intros Hk Hs. destruct (proj1 (wp_Ok _ _ _) (wp_az_alloc k size Hk (proj2 Hs)))
    as (r & k1 & Hrun & Hk1 & Hcase).
  exists r, k1. split; [done|]. intros Hr. destruct Hcase as [(? & _)|(l & p & Hl & _ & Hal)]; [done|].
  pose proof (proj1 Hl) as Hl0. destruct (allocated_found _ _ _ _ _ Hk Hal Hl0) as (_ & Hp & He & Ha).
  rewrite <- Hp in He. pose proof (pi_small _ (proj1 Hk1)) as Hsm.
  assert (l <> 0xFF) as Hne.
  { intros ->. destruct (al_range _ _ _ _ _ Hal) as [? Hb].
    pose proof (sh_blocks _ (bi_shape _ _ (pi_buddy _ (proj1 Hk)))).
    pose proof (pow2_mono 31 0xFF ltac:(lia)). lia. }
  destruct (proj1 (wp_Ok _ _ _) (wp_az_free k1 r l Hk1 Ha He Hne))
    as (? & k2 & Hrun2 & -> & Hk2 & Hfr).
  exists k2. split; [done|]. rewrite Hp in Hfr.
  destruct (al_frame _ _ _ _ _ Hal) as (bms1 & Hat1 & E1).
  destruct (fr_frame _ _ _ _ Hfr) as (bms2 & Hat2 & E2).
  apply pool_canonical; [apply Hk|apply Hk2|].
  assert (block_index (g_free_memory k2) = block_index (g_free_memory k)) as Hbi.
  { rewrite (fr_index _ _ _ _ Hfr), (al_index _ _ _ _ _ Hal), updZ_updZ.
    apply updZ_same. by eapply allocated_entry. }
  assert (used_size (g_free_memory k2) = used_size (g_free_memory k)) as Hus.
  { rewrite (fr_used _ _ _ _ Hfr), (al_used _ _ _ _ _ Hal). lia. }
  rewrite Hbi, Hus in E2. split.
  - rewrite E2, E1. simpl. by destruct (g_free_memory k).
  - rewrite E2. simpl. rewrite Hat2, E1. simpl. done.
Qed.

Lemma alloc_free_roundtrip_witness :
  exists r k1, az_alloc 5000 small_kmem = Ok (r, k1) /\
    (r <> 0 -> exists k2, az_free r k1 = Ok (TRUE, k2) /\ g_free_memory k2 = small_pool).
Proof. apply (alloc_free_roundtrip small_kmem 5000); [apply small_kmem_inv|lia]. Defined.

(** A second release of the same block is refused and changes nothing. *)
Theorem double_free_refused k address e :
  let m := g_free_memory k in
  kmem_inv k ->
  start_addr m <= address < start_addr m + 4096 * smallest_block m ->
  nthZ (block_index m) (page_of m address) = Some e -> e <> 0xFF ->
  exists k', az_free address k = Ok (TRUE, k') /\ az_free address k' = Ok (FALSE, k').
Proof.
  intros m Hk Ha He Hne.
  destruct (proj1 (wp_Ok _ _ _) (wp_az_free k address e Hk Ha He Hne))
    as (r & k' & Hrun & -> & Hk' & Hfr).
  exists k'. split; [done|]. destruct (fr_frame _ _ _ _ Hfr) as (bms & _ & E).
  assert (start_addr (g_free_memory k') = start_addr m) as Hsa by by rewrite E.
  assert (smallest_block (g_free_memory k') = smallest_block m) as Hsb by by rewrite E.
  assert (wp (az_free address) (fun r k2 => r = FALSE /\ k2 = k') k') as (? & ? & -> & -> & ->)%wp_Ok;
    [|done].
  apply wp_az_free_none; [done|by rewrite Hsa, Hsb|].
  rewrite (fr_index _ _ _ _ Hfr). unfold page_of. rewrite Hsa. fold m. fold (page_of m address).
  apply nthZ_updZ_eq. by apply nthZ_Some_range in He.
Qed.

Lemma double_free_refused_witness :
  exists k', az_free 0x10000 small_used = Ok (TRUE, k') /\ az_free 0x10000 k' = Ok (FALSE, k').
Proof.
  apply (double_free_refused small_used 0x10000 1);
    [apply small_used_inv|cbn; lia|reflexivity|lia].
Defined.

(** ** Sequences of calls

    The abstract allocator: a finite map from the addresses of the live blocks
    to their levels.  It may place a block anywhere it fits; it refuses a
    request only when there is no place. *)

Inductive request : Set :=
| Alloc (size : Z)
| Release (address : Z).

Section abstract.
Context (base n : Z).

(** Pages [p, p + 2 ^ l) are free of live blocks. *)
Definition clear_of (live : gmap Z Z) (p l : Z) : Prop :=
  forall q e, live !! (base + 4096 * q) = Some e -> q + 2 ^ e <= p \/ p + 2 ^ l <= q.

Definition place (live : gmap Z Z) (p l : Z) : Prop :=
  0 <= p /\ p mod 2 ^ l = 0 /\ p + 2 ^ l <= n /\ clear_of live p l.

Inductive spec_step : gmap Z Z -> request -> Z -> gmap Z Z -> Prop :=
| spec_alloc live size l p : level_for size l -> place live p l ->
    spec_step live (Alloc size) (base + 4096 * p) (<[base + 4096 * p := l]> live)
| spec_full live size : (forall l p, level_for size l -> ~ place live p l) ->
    spec_step live (Alloc size) 0 live
| spec_release live a l : live !! a = Some l -> spec_step live (Release a) TRUE (delete a live)
| spec_refuse live a : live !! a = None -> spec_step live (Release a) FALSE live.

Inductive spec_run : gmap Z Z -> list request -> list Z -> gmap Z Z -> Prop :=
| spec_nil live : spec_run live [] [] live
| spec_cons live1 live2 live3 q r qs rs : spec_step live1 q r live2 ->
    spec_run live2 qs rs live3 -> spec_run live1 (q :: qs) (r :: rs) live3.

(** Requests of up to 1 GiB; releases of page addresses of the pool (others
    make [az_free] read outside [block_index]). *)
Definition admissible (q : request) : Prop :=
  match q with
  | Alloc size => 0 <= size <= 2 ^ 30
  | Release a => exists p, a = base + 4096 * p /\ 0 <= p < n
  end.
End abstract.

Definition run_request (q : request) : M kmem Z :=
  match q with
  | Alloc size => az_alloc size
  | Release a => az_free a
  end.

Fixpoint run_requests (qs : list request) : M kmem (list Z) :=
  match qs with
  | [] => ret []
  | q :: qs' =>
      let! r := run_request q in
      let! rs := run_requests qs' in
      ret (r :: rs)
  end.

(** The live blocks of the abstract allocator are the entries of [block_index]. *)
Definition represents (k : kmem) (live : gmap Z Z) : Prop :=
  forall a l, live !! a = Some l <->
  exists p, a = start_addr (g_free_memory k) + 4096 * p /\
    nthZ (block_index (g_free_memory k)) p = Some l /\ l <> 0xFF.

Lemma represents_entry k live q e : represents k live ->
  live !! (start_addr (g_free_memory k) + 4096 * q) = Some e <->
  nthZ (block_index (g_free_memory k)) q = Some e /\ e <> 0xFF.
Proof.
  intros Hrep. rewrite (Hrep _ e). split.
  - intros (p & Hp & He). by replace q with p by lia.
  - intros He. by exists q.
Qed.

(** A place of the abstract allocator is a place of the pool. *)
Lemma room_place k live l : represents k live -> 0 <= l ->
  room (g_free_memory k) l <->
  exists p, place (start_addr (g_free_memory k)) (smallest_block (g_free_memory k)) live p l.
Proof.
  intros Hrep Hl. pose proof (pow2_pos l Hl). split.
  - intros (o & Ho & Hn & Hu). exists (o * 2 ^ l). split_and!; [nia|apply Z.mod_mul; lia|lia|].
    intros q e Hq. apply (represents_entry _ _ q e Hrep) in Hq as [Hq Hne]. by apply Hu.
  - intros (p & Hp & Hm & Hn & Hc). exists (p / 2 ^ l).
    assert (p / 2 ^ l * 2 ^ l = p) as Hd by (pose proof (Z.div_mod p (2 ^ l)); lia).
    split_and!; [apply Z.div_pos; lia|lia|]. rewrite Hd. intros q e Hq Hne. apply Hc.
    by apply represents_entry.
Qed.

(** [block_index] after a write, seen from the abstract side. *)
Lemma represents_update k k' live p e :
  represents k live -> start_addr (g_free_memory k') = start_addr (g_free_memory k) ->
  block_index (g_free_memory k') = updZ (block_index (g_free_memory k)) p e ->
  0 <= p < lenZ (block_index (g_free_memory k)) ->
  represents k' (if decide (e = 0xFF)
                 then delete (start_addr (g_free_memory k) + 4096 * p) live
                 else <[start_addr (g_free_memory k) + 4096 * p := e]> live).
Proof.
  intros Hrep Hsa Hbi Hp a l. set (base := start_addr (g_free_memory k)) in *.
  destruct (decide (a = base + 4096 * p)) as [->|Hne].
  - transitivity (e = l /\ l <> 0xFF).
    + case_decide; [rewrite lookup_delete_eq|rewrite lookup_insert_eq]; naive_solver.
    + rewrite Hsa, Hbi. split.
      * intros [-> ?]. exists p. rewrite nthZ_updZ_eq by done. done.
      * intros (q & Hq & He & ?). replace q with p in He by lia.
        rewrite nthZ_updZ_eq in He by done. by injection He.
  - transitivity (live !! a = Some l).
    { case_decide; [rewrite lookup_delete_ne|rewrite lookup_insert_ne]; done. }
    rewrite (Hrep a l). fold base. rewrite Hsa, Hbi. split; intros (q & Hq & He & ?); exists q;
      (split; [done|]); [rewrite nthZ_updZ_ne|rewrite nthZ_updZ_ne in He]; naive_solver.
Qed.

Lemma allocated_level k k' l p r : kmem_inv k -> allocated k k' l p r -> l <> 0xFF.
Proof.
  intros Hk Hal ->. destruct (al_range _ _ _ _ _ Hal) as [? Hb].
  pose proof (sh_blocks _ (bi_shape _ _ (pi_buddy _ (proj1 Hk)))).
  pose proof (pow2_mono 31 0xFF ltac:(lia)). lia.
Qed.

(** What a step leaves as it was: where the pool is and how large. *)
Definition same_pool (k k' : kmem) : Prop :=
  start_addr (g_free_memory k') = start_addr (g_free_memory k) /\
  smallest_block (g_free_memory k') = smallest_block (g_free_memory k).

Definition related (base n : Z) (k : kmem) (live : gmap Z Z) : Prop :=
  kmem_inv k /\ represents k live /\
  start_addr (g_free_memory k) = base /\ smallest_block (g_free_memory k) = n.

Lemma alloc_refines base n k live size : related base n k live -> 0 <= size <= 2 ^ 30 ->
  wp (az_alloc size) (fun r k' => exists live',
    related base n k' live' /\ spec_step base n live (Alloc size) r live') k.
Proof.
  intros (Hk & Hrep & <- & <-) Hs. eapply wp_mono; [apply wp_az_alloc; [done|lia]|].
  intros r k' [Hk' [(-> & -> & Hno)|(l & p & Hl & _ & Hal)]].
  - exists live. split; [done|]. constructor. intros l p Hl Hplace. apply (Hno l Hl).
    eapply room_place; [done|apply Hl|by exists p].
  - pose proof (proj1 Hl) as Hl0. pose proof (allocated_level _ _ _ _ _ Hk Hal) as Hne.
    pose proof (allocated_entry _ _ _ _ _ Hk Hal Hl0) as He.
    destruct (al_frame _ _ _ _ _ Hal) as (bms & _ & E).
    assert (same_pool k k') as [Hsa Hsb] by by split; rewrite E.
    exists (<[start_addr (g_free_memory k) + 4096 * p := l]> live). split.
    + refine (conj Hk' (conj _ (conj Hsa Hsb))).
      pose proof (represents_update k k' live p l Hrep Hsa (al_index _ _ _ _ _ Hal)
        (nthZ_Some_range _ _ _ He)) as Hrep'. rewrite decide_False in Hrep' by done. exact Hrep'.
    + rewrite (al_addr _ _ _ _ _ Hal). constructor; [done|].
      destruct (al_range _ _ _ _ _ Hal). split_and!; [lia|apply Hal|lia|].
      intros q e Hq. apply (represents_entry _ _ q e Hrep) in Hq as [Hq Hne'].
      by apply (al_unused _ _ _ _ _ Hal).
Qed.

Lemma release_refines base n k live p : related base n k live -> 0 <= p < n ->
  wp (az_free (base + 4096 * p)) (fun r k' => exists live',
    related base n k' live' /\ spec_step base n live (Release (base + 4096 * p)) r live') k.
Proof.
  intros (Hk & Hrep & <- & <-) Hp. set (m := g_free_memory k) in *.
  pose proof (bi_shape _ _ (pi_buddy _ (proj1 Hk))) as Hs. fold m in Hs.
  destruct (nthZ_in_range (block_index m) p) as [e He]; [by rewrite (sh_index _ Hs)|].
  pose proof (page_of_start m p) as Hpg. rewrite <- Hpg in He.
  destruct (decide (e = 0xFF)) as [->|Hne].
  - eapply wp_mono; [apply wp_az_free_none; [done|fold m; lia|done]|].
    intros r k' [-> ->]. exists live. split; [done|]. constructor.
    destruct (live !! (start_addr m + 4096 * p)) as [l|] eqn:El; [|done].
    apply (represents_entry _ _ p l Hrep) in El as [El Hl]. fold m in El. congruence.
  - eapply wp_mono; [apply (wp_az_free k _ e); [done|fold m; lia|done|done]|].
    fold m. rewrite Hpg. intros r k' (-> & Hk' & Hfr). rewrite Hpg in He.
    destruct (fr_frame _ _ _ _ Hfr) as (bms & _ & E).
    assert (same_pool k k') as [Hsa Hsb] by by split; rewrite E.
    exists (delete (start_addr m + 4096 * p) live). split.
    + refine (conj Hk' (conj _ (conj Hsa Hsb))).
      pose proof (represents_update k k' live p 0xFF Hrep Hsa (fr_index _ _ _ _ Hfr)
        (nthZ_Some_range _ _ _ He)) as Hrep'. rewrite decide_True in Hrep' by done. exact Hrep'.
    + apply (spec_release _ _ _ _ e). by apply (represents_entry k live p e Hrep).
Qed.
(** C4: the allocator refines the abstract one.  From related states, every
    sequence of admissible requests runs to its end without a fault, the results
    are results the abstract allocator may give, and the final states are
    related again. *)
Theorem requests_refine_spec qs k live base n :
  related base n k live -> Forall (admissible base n) qs ->
  exists rs k' live', run_requests qs k = Ok (rs, k') /\
    spec_run base n live qs rs live' /\ related base n k' live'.
Proof.
  revert k live. induction qs as [|q qs IH]; intros k live Hrel Hadm; cbn [run_requests].
  - exists [], k, live. split_and!; [done|constructor|done].
  - inversion Hadm as [|? ? Hq Hqs]; subst.
    assert (wp (run_request q) (fun r k1 => exists live1,
      related base n k1 live1 /\ spec_step base n live q r live1) k)
      as (r & k1 & Hrun & live1 & Hrel1 & Hstep)%wp_Ok.
    { destruct q as [size|a]; cbn in *; [by apply alloc_refines|].
      destruct Hq as (p & -> & Hp). by apply release_refines. }
    destruct (IH k1 live1 Hrel1 Hqs) as (rs & k' & live' & Hrun' & Hspec & Hrel').
    exists (r :: rs), k', live'. unfold bind. rewrite Hrun, Hrun'.
    split_and!; [done|by econstructor|done].
Qed.

Lemma small_related : related 0x10000 5 small_kmem ∅.
Proof.
  refine (conj small_kmem_inv (conj _ (conj eq_refl eq_refl))). intros a l. rewrite lookup_empty.
  split; [done|]. intros (p & _ & He & Hne).
  pose proof (nthZ_Some_range _ _ _ He) as Hr. change (lenZ (replicate 5 0xFF)) with 5 in Hr.
  change (nthZ (replicate 5 0xFF) p = Some l) in He. rewrite nthZ_replicate in He; [congruence|done].
Qed.

Lemma requests_refine_spec_witness :
  let qs := [Alloc 5000; Alloc 4096; Release 0x10000; Release 0x10000; Alloc 16384] in
  exists rs k' live', run_requests qs small_kmem = Ok (rs, k') /\
    spec_run 0x10000 5 ∅ qs rs live' /\ related 0x10000 5 k' live'.
Proof.
  intros qs. apply requests_refine_spec; [apply small_related|].
  repeat constructor; cbn; try lia; exists 0; lia.
Defined.

(** The blocks handed out never share a byte.  Two live blocks lie, each
    aligned to its own size, inside the pool and apart from each other. *)
Theorem live_blocks_apart k p q e f :
  let m := g_free_memory k in
  kmem_inv k ->
  nthZ (block_index m) p = Some e -> e <> 0xFF ->
  nthZ (block_index m) q = Some f -> f <> 0xFF -> p <> q ->
  p mod 2 ^ e = 0 /\ 0 <= p /\ p + 2 ^ e <= smallest_block m /\
  (p + 2 ^ e <= q \/ q + 2 ^ f <= p).
Proof.
  intros m [Hp _] Hpe He Hqf Hf Hpq. pose proof (pi_buddy _ Hp) as Hb. fold m in Hb.
  destruct (buddy_entries_apart _ _ Hb p e Hpe He) as (_ & Hend & Hnext).
  destruct (buddy_entries_apart _ _ Hb q f Hqf Hf) as (_ & _ & Hnext').
  pose proof (nthZ_Some_range _ _ _ Hpe).
  split_and!; [|lia|lia|].
  - destruct (bi_entries _ _ Hb p e Hpe) as [|[_ Hm]]; done.
  - destruct (Z.lt_trichotomy p q) as [|[|]]; [left; eauto|done|right; eauto].
Qed.

(** The small pool with pages 0-1 and page 4 allocated. *)
Definition small_two : kmem :=
  small_used <| g_free_memory := {|
    max_level := 3; smallest_block := 5; used_size := 12288;
    start_addr := 0x10000; end_addr := 0x15000;
    block_index_at := 0x8000; block_index := [1; 0xFF; 0xFF; 0xFF; 0];
    bitmaps_at := 0x8005;
    bitmaps := [mkBITMAP 0x8035 [0] 0; mkBITMAP 0x8036 [2] 1; mkBITMAP 0x8037 [0] 0];
    mm_spl := FALSE |} |> <| g_alloc_count := 2 |>.

Lemma small_two_inv : kmem_inv small_two.
Proof.
  destruct (proj1 (wp_Ok _ _ _) (wp_az_alloc small_used 1 small_used_inv ltac:(lia)))
    as (r & k' & Hrun & [Hk' _] & _).
  split; [|by split].
  assert (match az_alloc 1 small_used with
          | Ok (_, k') => g_free_memory k'
          | Fault _ => small_pool
          end = g_free_memory small_two) as E by (vm_compute; reflexivity).
  rewrite Hrun in E. by rewrite <- E.
Qed.

Lemma live_blocks_apart_witness :
  0 mod 2 ^ 1 = 0 /\ 0 <= 0 /\ 0 + 2 ^ 1 <= 5 /\ (0 + 2 ^ 1 <= 4 \/ 4 + 2 ^ 0 <= 0).
Proof.
  apply (live_blocks_apart small_two 0 4 1 0);
    [apply small_two_inv|reflexivity|lia|reflexivity|lia|lia].
Defined.

(** [free_mem_init] sets the allocator up.  For a free area of 4 MiB to
    4 TiB it returns with the invariant established, every page of the pool
    free, no page allocated, the pool ending where the memory ends, and all the
    metadata laid out below the pool without overlap. *)
Theorem free_mem_init_correct s e k :
  0 <= s -> e < 2 ^ 63 -> 2 ^ 22 <= free_area s e <= 2 ^ 42 -> stat_ok (stat_area k) ->
  exists k', free_mem_init s e k = Ok (tt, k') /\ kmem_inv k' /\
    metadata_laid_out (g_free_memory k') /\
    used_size (g_free_memory k') = 0 /\
    (forall p x, nthZ (block_index (g_free_memory k')) p = Some x -> x = 0xFF) /\
    end_addr (g_free_memory k') = pool_base + free_area s e /\
    heap_end k' = HEAP_START.
Proof.
  intros Hs He Hf Hst.
  destruct (mm_init_spec s e Hs He Hf) as (m & Hrun & Hinv & Hfresh & Hmeta & _ & Hend & _).
  unfold free_mem_init. rewrite Hrun. eexists. split; [reflexivity|]. simpl.
  assert (index_sum (block_index m) = 0) as Hz.
  { rewrite (fresh_index _ Hfresh). apply index_sum_replicate. }
  split; [by split|]. split_and!; [done| | |done|done].
  - rewrite (pi_used _ Hinv). lia.
  - intros p x Hx. by eapply fresh_entry.
Qed.

Lemma free_mem_init_correct_witness :
  exists k', free_mem_init 0 0x48000000 small_kmem = Ok (tt, k') /\ kmem_inv k' /\
    metadata_laid_out (g_free_memory k') /\
    used_size (g_free_memory k') = 0 /\
    (forall p x, nthZ (block_index (g_free_memory k')) p = Some x -> x = 0xFF) /\
    end_addr (g_free_memory k') = pool_base + free_area 0 0x48000000 /\
    heap_end k' = HEAP_START.
Proof.
  apply (free_mem_init_correct 0 0x48000000 small_kmem);
    [lia|lia|vm_compute; split; congruence|by split].
Defined.

(** The size computed for a request above 1 GiB, when there is a level 19. *)
Lemma overflowed_size m size : 20 <= max_level m -> 2 ^ 30 < size <= 2 ^ 64 - 2 ^ 31 ->
  align_buddy_block m size = 2 ^ 64 - 2 ^ 31.
Proof.
  intros Hml Hs.
  assert (forall d i, 0 <= i -> i + Z.of_nat d = 19 ->
    align_loop (d + Z.to_nat (max_level m - 19)) i size = 2 ^ 64 - 2 ^ 31) as H.
  { intros d. induction d as [|d IH]; intros i Hi Hd.
    - assert (i = 19) as -> by lia. cbn [Nat.add].
      destruct (Z.to_nat (max_level m - 19)) eqn:E; [lia|]. cbn [align_loop].
      change (page_shift 19) with (2 ^ 64 - 2 ^ 31). by rewrite (proj2 (Z.leb_le _ _)) by lia.
    - cbn [Nat.add align_loop]. rewrite page_shift_small by lia.
      pose proof (level_bytes i ltac:(lia)).
      rewrite (proj2 (Z.leb_gt _ _)) by lia. apply IH; lia. }
  unfold align_buddy_block.
  replace (Z.to_nat (max_level m)) with (19 + Z.to_nat (max_level m - 19))%nat by lia.
  by apply H.
Qed.

(** The second half of [az_alloc] for that size and the block at the start. *)
Lemma wp_overflowed_hand_out k x : stat_ok (stat_area k) ->
  block_list_index (g_free_memory k) (2 ^ 64 - 2 ^ 31) = 19 ->
  nthZ (block_index (g_free_memory k)) 0 = Some x -> 0 <= start_addr (g_free_memory k) < 2 ^ 64 ->
  wp (hand_out (2 ^ 64 - 2 ^ 31) 0) (fun r k' => r = start_addr (g_free_memory k) /\ ram k' = ram k /\
    nthZ (block_index (g_free_memory k')) 0 = Some 19 /\
    used_size (g_free_memory k') = u64 (used_size (g_free_memory k) - 2 ^ 31)) k.
Proof.
  intros Hst Hidx Hx Hsa. unfold hand_out. apply wp_bind, wp_gets. rewrite Hidx, Z.mul_0_r.
  change (s32 (u64 0 / PAGE_MIN_SIZE)) with 0. change (u64 0 + start_addr (g_free_memory k)) with (start_addr (g_free_memory k)).
  apply wp_bind, (wp_the _ _ x); [done|]. apply wp_bind, wp_modify, wp_bind, wp_modify, wp_bind, wp_modify.
  apply wp_bind, wp_zoom, wp_set_mem_info; [done|]. intros u _. apply wp_bind, wp_mm_unlock, wp_ret.
  rewrite u64_small by done. split_and!; [done|done| |].
  - apply (nthZ_updZ_eq (block_index (g_free_memory k)) 0 19). by eapply nthZ_Some_range.
  - cbn [used_size g_free_memory set_field]. unfold u64. zdm.
Qed.

(** C39: above 1 GiB the size computed for a request overflows.  In a consistent
    pool of 2 to 4 GiB whose 2 GiB block at the start is free, every request of
    2 ^ 30 + 1 to 2 ^ 64 - 2 ^ 31 bytes succeeds, whatever the pool can hold: the
    size becomes 2 ^ 64 - 2 ^ 31 where 2 ^ 31 is meant, passes the check against the
    end of the pool by wrapping around, and the caller gets the 2 GiB block, not
    cleared, with [used_size] decreased by 2 ^ 31. *)
Theorem large_request_overflows k size :
  kmem_inv k -> max_level (g_free_memory k) = 20 -> free_bit (g_free_memory k) 19 0 = true ->
  2 ^ 31 <= start_addr (g_free_memory k) -> 2 ^ 30 < size <= 2 ^ 64 - 2 ^ 31 ->
  4096 * smallest_block (g_free_memory k) < 2 ^ 32 /\
  exists k', az_alloc size k = Ok (start_addr (g_free_memory k), k') /\ ram k' = ram k /\
    nthZ (block_index (g_free_memory k')) 0 = Some 19 /\
    used_size (g_free_memory k') = u64 (used_size (g_free_memory k) - 2 ^ 31).
Proof.
  intros [Hp Hst] Hml Hfree Hsa Hs. set (m := g_free_memory k) in *. pose proof (pi_buddy _ Hp) as Hb.
  pose proof (bi_shape _ _ Hb) as Hsh. pose proof (sh_top _ Hsh) as Htop. rewrite Hml in Htop.
  split; [lia|]. pose proof (overflowed_size m size ltac:(lia) Hs) as Hal.
  assert (block_list_index m (2 ^ 64 - 2 ^ 31) = 19) as Hidx
    by (unfold block_list_index; rewrite Hml; by vm_compute).
  pose proof (pages_bound _ _ Hb). pose proof (pi_end _ Hp) as Hend. pose proof (pi_used _ Hp) as Hus.
  assert (wp (az_alloc size) (fun r k' => r = start_addr m /\ ram k' = ram k /\
    nthZ (block_index (g_free_memory k')) 0 = Some 19 /\
    used_size (g_free_memory k') = u64 (used_size m - 2 ^ 31)) k) as (r & k' & Hrun & -> & ?)%wp_Ok; [|by exists k'].
  unfold az_alloc. apply wp_bind, wp_mm_lock; [apply Hp|]. wp_steps. fold m.
  set (k1 := k <| g_free_memory := m <| mm_spl := TRUE |> |>).
  change (align_buddy_block (g_free_memory k1) size) with (align_buddy_block m size). rewrite Hal.
  change (2 ^ 64 - 2 ^ 31 =? 0) with false. cbv iota.
  change (end_addr (g_free_memory k1)) with (end_addr m).
  change (start_addr (g_free_memory k1)) with (start_addr m).
  change (used_size (g_free_memory k1)) with (used_size m).
  replace (end_addr m <? _) with false.
  2:{ symmetry. apply Z.ltb_ge. rewrite (u64_small (start_addr m + used_size m)) by lia.
      replace (u64 _) with (start_addr m + used_size m - 2 ^ 31) by (unfold u64; zdm). lia. }
  apply wp_bind, wp_zoom. eapply wp_mono.
  { apply (wp_alloc_buddy_block 19); [by eapply buddy_inv_fields, Hb|exact Hidx|cbn; lia]. }
  intros o m1 [(_ & _ & Hno)|(Ho & Hh & Hf & _)]; [specialize (Hno 19 0 ltac:(lia)); unfold free_bit in *; simpl in Hno; congruence|].
  destruct (block_range _ _ (Block Hole 19 o) Hh eq_refl) as [_ Ho2]. cbn in Ho2.
  destruct (frame_fields _ _ Hf) as (Hn & Hml1 & Hbi & Hus1 & Hsa1 & _). cbn in Hn, Hml1, Hbi, Hus1, Hsa1.
  assert (o = 0) as ->.
  { rewrite Hn in Ho2. assert (smallest_block m / 2 ^ 19 < 2) by (apply Z.div_lt_upper_bound; lia). lia. }
  change (0 =? -1) with false. cbv iota.
  destruct (nthZ_in_range (block_index m1) 0) as [x Hx].
  { rewrite Hbi, (sh_index _ Hsh). lia. }
  eapply wp_mono; [apply (wp_overflowed_hand_out _ x); [exact Hst| |exact Hx|cbn; lia]|].
  - unfold block_list_index in *. cbn. by rewrite Hml1.
  - cbn. by rewrite Hsa1, Hus1.
Qed.

(** A kernel with 3 GiB of free memory, just initialised. *)
Lemma large_request_overflows_witness :
  exists k, kmem_inv k /\ max_level (g_free_memory k) = 20 /\ free_bit (g_free_memory k) 19 0 = true /\
    2 ^ 31 <= start_addr (g_free_memory k) /\
    4096 * smallest_block (g_free_memory k) < 2 ^ 32 /\
    exists k', az_alloc (2 ^ 40) k = Ok (start_addr (g_free_memory k), k') /\ ram k' = ram k /\
      nthZ (block_index (g_free_memory k')) 0 = Some 19 /\
      used_size (g_free_memory k') = u64 (used_size (g_free_memory k) - 2 ^ 31).
Proof.
  assert (free_area 0 0x100000000 = 0xC0000000) as Hfa by (by vm_compute).
  destruct (mm_init_spec 0 0x100000000 ltac:(lia) ltac:(lia) ltac:(rewrite Hfa; lia))
    as (m & _ & Hp & Hf & _ & _ & _ & (Hsa & Hsa2) & Hres).
  rewrite Hfa in Hsa2, Hres. change (0xC0000000 / 4096) with 786432 in *.
  assert (2 ^ 19 <= smallest_block m < 2 ^ 20) as Hn by lia.
  assert (max_level m = 20) as Hml.
  { apply (levels_of_unique (smallest_block m)); [apply (fresh_levels _ Hf)|split; lia]. }
  assert (free_bit m 19 0 = true) as Hfree.
  { rewrite (fresh_bit m 19 0 Hf) by lia. apply bool_decide_eq_true.
    assert (smallest_block m / 2 ^ 19 = 1) as -> by (symmetry; apply (Z.div_unique _ _ _ (smallest_block m - 2 ^ 19)); lia).
    done. }
  assert (2 ^ 31 <= start_addr m) as Hs31 by (transitivity pool_base; [by vm_compute|done]).
  set (k := small_kmem <| g_free_memory := m |>).
  assert (kmem_inv k) as Hk by (split; [exact Hp|by split]).
  refine (ex_intro _ k (conj Hk (conj Hml (conj Hfree (conj Hs31 _))))).
  exact (large_request_overflows k (2 ^ 40) Hk Hml Hfree Hs31 ltac:(lia)).
Defined.

(** The search that skips 64 bits at a time finds what a scan bit by bit
    finds: the lowest free block of the level, or -1 if there is none.  It reads
    no byte outside the bitmap and changes nothing. *)
Theorem find_free_block_least l m : pool_inv m -> 0 <= l < max_level m ->
  exists o, find_free_block l m = Ok (o, m) /\
    ((o = -1 /\ forall i, free_bit m l i = false) \/
     (free_bit m l o = true /\ forall i, i < o -> free_bit m l i = false)).
Proof.
  intros Hp Hl. pose proof (bi_shape _ _ (pi_buddy _ Hp)) as Hs.
  exists (first_free (Z.to_nat (level_blocks m l)) 0 (free_bit m l)).
  split; [by apply find_free_block_first|].
  pose proof (first_free_spec (Z.to_nat (level_blocks m l)) 0 (free_bit m l) ltac:(lia)) as Hsp.
  set (o := first_free _ _ _) in *.
  assert (forall i, free_bit m l i = true -> 0 <= i < level_blocks m l) as Hr
    by (intros i Hi; by destruct (free_bit_range _ _ _ Hs Hi)).
  assert (forall i, (0 <= i < level_blocks m l -> free_bit m l i = false) ->
            free_bit m l i = false) as Hout.
  { intros i Hi. destruct (free_bit m l i) eqn:E; [|done]. apply Hi. by apply Hr. }
  destruct Hsp as [[E Hno]|(Ho & Hf & Hb)]; [left|right].
  - split; [done|]. intros i. apply Hout. intros Hi. apply Hno. lia.
  - split; [done|]. intros i Hi. apply Hout. intros Hi'. apply Hb. lia.
Qed.

Lemma find_free_block_least_witness :
  exists o, find_free_block 2 small_pool = Ok (o, small_pool) /\
    ((o = -1 /\ forall i, free_bit small_pool 2 i = false) \/
     (free_bit small_pool 2 o = true /\ forall i, i < o -> free_bit small_pool 2 i = false)).
Proof. apply (find_free_block_least 2 small_pool); [apply small_pool_inv|cbn; lia]. Defined.

(** ** The program break *)

(** The break is not checked against the end of the heap before it moves.
    An increment that takes it to or past the limit succeeds, and from then on
    every [sys_sbrk] returns -ENOMEM and every [sys_brk] -1, with nothing
    changed: the heap cannot be shrunk back. *)
Theorem break_overrun_sticks k incr :
  heap_lock k = FALSE -> HEAP_START <= heap_end k < HEAP_START + HEAP_SIZE ->
  HEAP_START + HEAP_SIZE <= heap_end k + incr < 2 ^ 64 ->
  exists k', sys_sbrk incr k = Ok (heap_end k, k') /\ heap_end k' = heap_end k + incr /\
    forall d, sys_sbrk d k' = Ok (- ENOMEM, k') /\ sys_brk d k' = Ok (-1, k').
Proof.
  intros Hl Hh Hi.
  assert (heap_in_range (heap_end k) = true) as Hin.
  { unfold heap_in_range. apply andb_true_intro. split; [apply Z.leb_le|apply Z.ltb_lt]; lia. }
  exists (k <| heap_end := heap_end k + incr |>).
  assert (heap_in_range (heap_end k + incr) = false) as Hout.
  { unfold heap_in_range. apply andb_false_intro2, Z.ltb_ge. lia. }
  destruct k as [m ac fc he hl st rm]; simpl in *. subst hl. split_and!.
  - unfold sys_sbrk, zoom, bind, gets. simpl. rewrite Hin. simpl.
    unfold HEAP_START, HEAP_SIZE in *. rewrite s64_small, u64_small by lia. done.
  - done.
  - intros d. unfold sys_sbrk, sys_brk, zoom, bind, gets. simpl. rewrite Hout. done.
Qed.

Lemma break_overrun_sticks_witness :
  exists k', sys_sbrk HEAP_SIZE small_kmem = Ok (HEAP_START, k') /\
    heap_end k' = HEAP_START + HEAP_SIZE /\
    forall d, sys_sbrk d k' = Ok (- ENOMEM, k') /\ sys_brk d k' = Ok (-1, k').
Proof.
  apply (break_overrun_sticks small_kmem HEAP_SIZE);
    [reflexivity|vm_compute; split; congruence|vm_compute; split; congruence].
Defined.

(** ** The interface to the clients *)

(** What a client of a page allocator may rely on: [pa_block s a bytes] says
    that [a] is a live block of [bytes] bytes. *)
Class PageAllocator (St : Type) (alloc free : Z -> M St Z) := {
  pa_inv : St -> Prop;
  pa_block : St -> Z -> Z -> Prop;
  pa_block_pos : forall s a b, pa_inv s -> pa_block s a b -> 0 < a /\ 0 < b;
  pa_alloc_spec : forall s size, pa_inv s -> 0 <= size <= 2 ^ 30 ->
    wp (alloc size) (fun r s' => pa_inv s' /\
      ((r = 0 /\ s' = s) \/
       (r <> 0 /\ exists bytes, size <= bytes /\
         (forall a b, pa_block s a b -> r + bytes <= a \/ a + b <= r) /\
         forall a b, pa_block s' a b <-> pa_block s a b \/ (a = r /\ b = bytes)))) s;
  pa_free_spec : forall s a b, pa_inv s -> pa_block s a b ->
    wp (free a) (fun r s' => r = TRUE /\ pa_inv s' /\
      forall a' b', pa_block s' a' b' <-> pa_block s a' b' /\ a' <> a) s
}.

(** A live block of the kernel's pool. *)
Definition kernel_block (k : kmem) (a bytes : Z) : Prop :=
  exists p e, a = start_addr (g_free_memory k) + 4096 * p /\ bytes = 4096 * 2 ^ e /\
    nthZ (block_index (g_free_memory k)) p = Some e /\ e <> 0xFF.

Lemma kernel_block_updated k k' p e :
  start_addr (g_free_memory k') = start_addr (g_free_memory k) ->
  block_index (g_free_memory k') = updZ (block_index (g_free_memory k)) p e ->
  0 <= p < lenZ (block_index (g_free_memory k)) ->
  forall a b, kernel_block k' a b <->
    (kernel_block k a b /\ a <> start_addr (g_free_memory k) + 4096 * p) \/
    (a = start_addr (g_free_memory k) + 4096 * p /\ b = 4096 * 2 ^ e /\ e <> 0xFF).
Proof.
  intros Hsa Hbi Hp a b. unfold kernel_block. rewrite Hsa, Hbi. split.
  - intros (q & f & -> & -> & Hq & Hf). rewrite nthZ_updZ in Hq. case_decide as Hd.
    + right. destruct Hd as [-> _]. injection Hq as ->. done.
    + left. split; [by exists q, f|]. intros He. apply Hd. split; [lia|done].
  - intros [[(q & f & -> & -> & Hq & Hf) Hne]|(-> & -> & He)].
    + exists q, f. rewrite nthZ_updZ_ne by naive_solver. done.
    + exists p, e. by rewrite nthZ_updZ_eq.
Qed.

#[export] Program Instance kernel_allocator : PageAllocator kmem az_alloc az_free := {
  pa_inv := kmem_inv;
  pa_block := kernel_block
}.
Next Obligation.
  intros k a b Hk (p & e & -> & -> & Hp & Hne). pose proof (nthZ_Some_range _ _ _ Hp).
  destruct (entry_block _ _ _ _ (pi_buddy _ (proj1 Hk)) Hp Hne) as (_ & He & _).
  pose proof (pi_start _ (proj1 Hk)). pose proof (pow2_pos e). lia.
Qed.
Next Obligation.
  intros k size Hk Hs. eapply wp_mono; [apply wp_az_alloc; [done|lia]|].
  intros r k' [Hk' [(-> & -> & _)|(l & p & Hl & _ & Hal)]]; (split; [done|]); [by left|right].
  pose proof (allocated_entry _ _ _ _ _ Hk Hal (proj1 Hl)) as He.
  pose proof (nthZ_Some_range _ _ _ He) as Hr.
  destruct (allocated_found _ _ _ _ _ Hk Hal (proj1 Hl)) as (Hsa & _ & _ & Ha).
  pose proof (pi_start _ (proj1 Hk)). split; [lia|].
  exists (4096 * 2 ^ l). split_and!; [apply Hl| |].
  - intros a b (q & e & -> & -> & Hq & Hne).
    pose proof (al_unused _ _ _ _ _ Hal q e Hq Hne). rewrite (al_addr _ _ _ _ _ Hal). lia.
  - intros a b. rewrite (kernel_block_updated k k' p l Hsa (al_index _ _ _ _ _ Hal) Hr).
    rewrite (al_addr _ _ _ _ _ Hal). pose proof (allocated_level _ _ _ _ _ Hk Hal).
    split; [tauto|]. intros [Hb|]; [left|tauto]. split; [done|]. intros ->.
    destruct Hb as (q & e & Hq & _ & Hbi & Hne). replace q with p in Hbi by lia. congruence.
Qed.
Next Obligation.
  intros k a b Hk (p & e & -> & -> & Hp & Hne).
  pose proof (nthZ_Some_range _ _ _ Hp) as Hr.
  pose proof (sh_index _ (bi_shape _ _ (pi_buddy _ (proj1 Hk)))) as Hlen.
  pose proof (page_of_start (g_free_memory k) p) as Hpg.
  eapply wp_mono; [apply (wp_az_free k _ e); [done|lia|by rewrite Hpg|done]|].
  rewrite Hpg. intros r k' (-> & Hk' & Hfr). split; [done|]. split; [exact Hk'|].
  destruct (fr_frame _ _ _ _ Hfr) as (bms & _ & E).
  assert (start_addr (g_free_memory k') = start_addr (g_free_memory k)) as Hsa by by rewrite E.
  intros a b. rewrite (kernel_block_updated k k' p 0xFF Hsa (fr_index _ _ _ _ Hfr) Hr). tauto.
Qed.
