(* ===== verification/ShmPool.v ===== *)
(** * The shared-memory pool ([kernel/shm/shm_mm.c])

    The shared-memory segments come from a second buddy pool, in the IPC area of
    the memory all unikernels share.  Its code repeats [memory.c] on the structure
    [*g_shm_free_mem_mgt], without the counters and the statistics.  The functions
    are translated from [shm_mm.c] itself, loops included, and proved to compute
    what those of [memory.c] compute. *)

From S2P Require Import Prelude.
From S2P Require Import Utility.
From S2P Require Import Lock.
From S2P Require Import Stat.
From S2P Require Import Memory.
From S2P Require Import MemoryBits.
From S2P Require Import Tiling.
From S2P Require Import Buddy.
From S2P Require Import PageAlloc.
From S2P Require Import PoolInit.
From S2P Require Import Allocator.

Definition CONFIG_SHARED_MEMORY : Z := 0xFFFF800000000000.

(** APP_START_OFFSET + APP_SIZE *)
Definition IPC_START_OFFSET : Z := Z.shiftl 2 20 + Z.shiftl 510 20.

Definition IPC_SIZE : Z := Z.shiftl 512 20.

Definition CONFIG_SHM_SHARED_MEMORY : Z := CONFIG_SHARED_MEMORY + IPC_START_OFFSET.

Definition CONFIG_ARCH_SHM_MAXREGIONS : Z := 1024.

(** sizeof (struct shm_info_s): two paddings, a lock, the flag, the MM of 56
    bytes, and the regions of 88 bytes each. *)
Definition SHM_INFO_SIZE : Z := 8 + 8 + 8 + 8 + 56 + CONFIG_ARCH_SHM_MAXREGIONS * 88.

(** The pool's bookkeeping and the memory it manages. *)
Record shm_pool := mkPool {
  shm_free_mem_mgt : MM;
  shm_ram : memory
}.

#[export] Instance eta_shm_pool : Eta shm_pool := fun s =>
  mkPool (shm_free_mem_mgt s) (shm_ram s).

(** ** The functions on the bookkeeping *)

Definition shm_bitmap_size (free_mem_size : Z) : outcome Z :=
  let smallest_block_size := s64 (free_mem_size / PAGE_MIN_SIZE) in
  let block_index := u32 smallest_block_size in
  (fix loop (fuel : nat) (i bitmap_size : Z) {struct fuel} : outcome Z :=
     if 0 <? Z.shiftr smallest_block_size i then
       match fuel with
       | O => Fault NoFuel
       | S fuel' =>
           let bitmap_size := u32 (bitmap_size + BITMAP_SIZE) in
           let bitmap_size :=
             u32 (bitmap_size + Z.quot (Z.shiftr smallest_block_size i + 7) 8) in
           loop fuel' (i + 1) bitmap_size
       end
     else
       Ok (s32 (u32 (u32 (block_index + bitmap_size) + PAGE_MIN_SIZE - 1) / PAGE_MIN_SIZE)))
  64%nat 0 0.

Definition shm_align_buddy_block (m : MM) (size : Z) : Z :=
  (fix loop (n : nat) (i : Z) : Z :=
     match n with
     | O => 0
     | S n' => if size <=? page_shift i then page_shift i else loop n' (i + 1)
     end)
  (Z.to_nat (max_level m)) 0.

Definition shm_block_list_index (m : MM) (aligned_size : Z) : Z :=
  (fix loop (n : nat) (i : Z) : Z :=
     match n with
     | O => -1
     | S n' => if aligned_size <=? page_shift i then i else loop n' (i + 1)
     end)
  (Z.to_nat (max_level m)) 0.

(** Bit [offset] of the bitmap of a level: [flag] in the two cases of the code. *)
Definition shm_set_bitmap_flag (block_list_index offset flag : Z) : M MM unit :=
  let! m := get in
  let! bm := the OutOfBounds (nthZ (bitmaps m) block_list_index) in
  let! byte := the OutOfBounds (nthZ (bitmap bm) (Z.quot offset 8)) in
  let bit := Z.shiftl 0x01 (Z.rem offset 8) in
  let '(byte', count') :=
    if flag =? MM_TRUE then
      (u8 (Z.lor byte bit),
       if Z.land byte bit =? 0 then u64 (bitmap_count bm + 1) else bitmap_count bm)
    else
      (u8 (Z.land byte (Z.lnot bit)),
       if negb (Z.land byte bit =? 0) then u64 (bitmap_count bm - 1) else bitmap_count bm) in
  put (m <| bitmaps := updZ (bitmaps m) block_list_index
         (mkBITMAP (bitmap_at bm) (updZ (bitmap bm) (Z.quot offset 8) byte') count') |>).

Definition shm_get_bitmap_flag (block_list_index offset : Z) : M MM Z :=
  let! m := get in
  let! bm := the OutOfBounds (nthZ (bitmaps m) block_list_index) in
  let! byte := the OutOfBounds (nthZ (bitmap bm) (Z.quot offset 8)) in
  if negb (Z.land byte (Z.shiftl 0x01 (Z.rem offset 8)) =? 0x00) then ret MM_TRUE else ret MM_FALSE.

(** The scan by QWORDs, and by bits where one is not zero or fewer than 64 are left. *)
Definition shm_find_free_block (block_list_index : Z) : M MM Z :=
  let! m := get in
  let! bm := the OutOfBounds (nthZ (bitmaps m) block_list_index) in
  if bitmap_count bm =? 0 then ret (-1)
  else
    let max_count := Z.shiftr (smallest_block m) block_list_index in
    (fix loop (fuel : nat) (i : Z) {struct fuel} : M MM Z :=
       if i <? max_count then
         match fuel with
         | O => fail NoFuel
         | S fuel' =>
             let! skip :=
               (if 0 <? Z.quot (max_count - i) 64 then
                  let! bitmap64 := the OutOfBounds (read_le 8 (bitmap bm) (Z.quot i 8)) in
                  ret (bitmap64 =? 0)
                else ret false) in
             if skip then loop fuel' (i + 64)
             else
               let! byte := the OutOfBounds (nthZ (bitmap bm) (Z.quot i 8)) in
               if negb (Z.land byte (Z.shiftl MM_TRUE (Z.rem i 8)) =? 0) then ret i
               else loop fuel' (i + 1)
         end
       else ret (-1))
    (Z.to_nat max_count) 0.

(** The search from level [bl_index] up, and the splits on the way back. *)
Definition shm_alloc_buddy_block (aligned_size : Z) : M MM Z :=
  let! bl_index := gets (fun m => shm_block_list_index m aligned_size) in
  if bl_index =? -1 then ret (-1)
  else
    let! ml := gets max_level in
    let! '(i, free_offset) :=
      (fix search (n : nat) (i : Z) : M MM (Z * Z) :=
         match n with
         | O => ret (i, -1)
         | S n' =>
             let! free_offset := shm_find_free_block i in
             if negb (free_offset =? -1) then ret (i, free_offset) else search n' (i + 1)
         end)
      (Z.to_nat (ml - bl_index)) bl_index in
    if free_offset =? -1 then ret (-1)
    else
      shm_set_bitmap_flag i free_offset MM_FALSE ;;
      (fix split (n : nat) (i free_offset : Z) : M MM Z :=
         match n with
         | O => ret free_offset
         | S n' =>
             shm_set_bitmap_flag i (s32 (free_offset * 2)) MM_FALSE ;;
             shm_set_bitmap_flag i (s32 (free_offset * 2 + 1)) MM_TRUE ;;
             split n' (i - 1) (s32 (free_offset * 2))
         end)
      (Z.to_nat (i - bl_index)) (i - 1) free_offset.

(** The merge with free buddies, from level [block_list_index] up. *)
Definition shm_free_buddy_block (block_list_index block_offset : Z) : M MM bool :=
  let! ml := gets max_level in
  (fix merge (n : nat) (i block_offset : Z) : M MM unit :=
     match n with
     | O => ret tt
     | S n' =>
         shm_set_bitmap_flag i block_offset MM_TRUE ;;
         let buddy_block_offset :=
           if Z.rem block_offset 2 =? 0 then s32 (block_offset + 1) else s32 (block_offset - 1) in
         let! flag := shm_get_bitmap_flag i buddy_block_offset in
         if flag =? MM_FALSE then ret tt
         else
           shm_set_bitmap_flag i buddy_block_offset MM_FALSE ;;
           shm_set_bitmap_flag i block_offset MM_FALSE ;;
           merge n' (i + 1) (Z.quot block_offset 2)
     end)
  (Z.to_nat (ml - block_list_index)) block_list_index block_offset ;;
  ret true.

(** ** The pool *)

(** [for (i=0; (smallest_block>>i) > 0; i++)] *)
Fixpoint shm_levels (fuel : nat) (smallest_block i : Z) {struct fuel} : outcome Z :=
  if 0 <? Z.shiftr smallest_block i then
    match fuel with
    | O => Fault NoFuel
    | S fuel' => shm_levels fuel' smallest_block (i + 1)
    end
  else Ok i.

(** The bookkeeping for the addresses [shm_free_mem_start, shm_free_mem_end). *)
Definition shm_layout (shm_free_mem_start shm_free_mem_end : Z) : outcome MM :=
  let shm_free_mem_size := u64 (shm_free_mem_end - shm_free_mem_start) in
  match shm_bitmap_size shm_free_mem_size with
  | Fault f => Fault f
  | Ok bitmap =>
  let bitmap := Z.land (s32 (bitmap + (512 - 1))) (Z.lnot (512 - 1)) in
  let smallest_block := s32 (u64 (shm_free_mem_size / PAGE_MIN_SIZE - bitmap)) in
  match shm_levels 32 smallest_block 0 with
  | Fault f => Fault f
  | Ok max_level =>
  let bitmaps_at := u64 (shm_free_mem_start + smallest_block) in
  let bitmaps :=
    (fix init (n : nat) (j cur_bitmap : Z) : list BITMAP :=
       match n with
       | O => []
       | S n' =>
           let block_count := Z.shiftr smallest_block j in
           let whole := replicate (Z.to_nat (Z.quot block_count 8)) 0x00 in
           let i := Z.rem block_count 8 in
           let '(last, bitmap_count) :=
             if negb (i =? 0) then
               if Z.rem i 2 =? 1 then ([u8 (Z.lor 0x00 (Z.shiftl MM_TRUE (i - 1)))], 1)
               else ([0x00], 0)
             else ([], 0) in
           mkBITMAP cur_bitmap (whole ++ last) bitmap_count
             :: init n' (j + 1) (cur_bitmap + lenZ (whole ++ last))
       end)
    (Z.to_nat max_level) 0 (bitmaps_at + BITMAP_SIZE * max_level) in
  Ok (mkMM max_level smallest_block 0
       (u64 (shm_free_mem_start + s32 (bitmap * PAGE_MIN_SIZE))) shm_free_mem_end
       shm_free_mem_start (replicate (Z.to_nat smallest_block) 0xFF) bitmaps_at bitmaps FALSE)
  end end.

Definition shm_free_mem_init : M shm_pool unit := fun s =>
  let shm_info_s_page_count :=
    Z.quot SHM_INFO_SIZE PAGE_MIN_SIZE +
    (if 0 <? Z.rem SHM_INFO_SIZE PAGE_MIN_SIZE then 1 else 0) in
  let shm_free_mem_start :=
    u64 (CONFIG_SHM_SHARED_MEMORY + shm_info_s_page_count * PAGE_MIN_SIZE) in
  let shm_free_mem_end := u64 (CONFIG_SHM_SHARED_MEMORY + IPC_SIZE) in
  match shm_layout shm_free_mem_start shm_free_mem_end with
  | Ok m => Ok (tt, s <| shm_free_mem_mgt := m |>)
  | Fault f => Fault f
  end.

Definition shm_lock : M shm_pool unit := zoom shm_free_mem_mgt (zoom mm_spl spinlock_lock).

Definition shm_unlock : M shm_pool unit := zoom shm_free_mem_mgt (zoom mm_spl spinlock_unlock).

Definition shm_alloc (size : Z) : M shm_pool Z :=
  shm_lock ;;
  let! m := gets shm_free_mem_mgt in
  let aligned_size := shm_align_buddy_block m size in
  if aligned_size =? 0 then shm_unlock ;; ret 0
  else if end_addr m <? u64 (u64 (start_addr m + used_size m) + aligned_size) then
    shm_unlock ;; ret 0
  else
    let! bl_offset := zoom shm_free_mem_mgt (shm_alloc_buddy_block aligned_size) in
    if bl_offset =? -1 then shm_unlock ;; ret 0
    else
      let! m := gets shm_free_mem_mgt in
      let bl_index := shm_block_list_index m aligned_size in
      let rel_address := u64 (aligned_size * bl_offset) in
      let array_offset := s32 (rel_address / PAGE_MIN_SIZE) in
      let! _ := the OutOfBounds (nthZ (block_index m) array_offset) in
      modify (fun s => s <| shm_free_mem_mgt :=
        m <| block_index := updZ (block_index m) array_offset (u8 bl_index) |>
          <| used_size := u64 (used_size m + aligned_size) |> |>) ;;
      let ret_addr := u64 (rel_address + start_addr m) in
      modify (fun s => s <| shm_ram := lk_memset (shm_ram s) ret_addr 0 (s32 aligned_size) |>) ;;
      shm_unlock ;;
      ret ret_addr.

Definition shm_free (address : Z) : M shm_pool Z :=
  shm_lock ;;
  if address =? 0 then shm_unlock ;; ret FALSE
  else
    let! m := gets shm_free_mem_mgt in
    let rel_address := u64 (address - start_addr m) in
    let array_offset := s32 (rel_address / PAGE_MIN_SIZE) in
    let! entry := the OutOfBounds (nthZ (block_index m) array_offset) in
    if entry =? 0xFF then shm_unlock ;; ret FALSE
    else
      modify (fun s => s <| shm_free_mem_mgt :=
        m <| block_index := updZ (block_index m) array_offset 0xFF |> |>) ;;
      let block_size := page_shift entry in
      if block_size =? 0 then ret FALSE
      else
        let bitmap_offset := s32 (rel_address / block_size) in
        let! done := zoom shm_free_mem_mgt (shm_free_buddy_block entry bitmap_offset) in
        if done then
          modify (fun s => s <| shm_free_mem_mgt := shm_free_mem_mgt s
             <| used_size := u64 (used_size (shm_free_mem_mgt s) - block_size) |> |>) ;;
          shm_unlock ;;
          ret TRUE
        else shm_unlock ;; ret FALSE.

Fixpoint buddy_size_loop (n : nat) (i size : Z) : Z :=
  match n with
  | O => 0
  | S n' => if size <? page_shift i then page_shift i else buddy_size_loop n' (i + 1) size
  end.

(** The size of the block behind a segment of [size] bytes, as [shm_extend]
    computes it. *)
Definition shm_get_buddy_block_size (size : Z) : Z := buddy_size_loop 32 0 size.

(** ** The functions compute what those of [memory.c] compute *)

Lemma shm_bitmap_size_eq n : shm_bitmap_size n = bitmap_size n.
Proof.
  lazy beta zeta delta [shm_bitmap_size bitmap_size].
  match goal with |- ?loop 64%nat 0 0 = ?r => match r with context [shift_loop 64 0 ?blocks ?body 0] =>
    assert (forall fuel i acc, loop fuel i acc = match shift_loop fuel i blocks body acc with
      | Ok (_, sz) => Ok (s32 (u32 (u32 (u32 blocks + sz) + PAGE_MIN_SIZE - 1) / PAGE_MIN_SIZE))
      | Fault f => Fault f
      end) as H; [|apply H] end end.
  induction fuel as [|fuel IH]; intros i acc; cbn [shift_loop]; destruct (0 <? _); [done|done|apply IH|done].
Qed.

Lemma shm_align_eq m size : shm_align_buddy_block m size = align_buddy_block m size.
Proof.
  unfold shm_align_buddy_block, align_buddy_block.
  match goal with |- ?loop _ 0 = _ => assert (forall n i, loop n i = align_loop n i size) as H; [|apply H] end.
  induction n as [|n IH]; intros i; [done|]. cbn [align_loop]. by rewrite <- IH.
Qed.

Lemma shm_index_eq m size : shm_block_list_index m size = block_list_index m size.
Proof.
  unfold shm_block_list_index, block_list_index.
  match goal with |- ?loop _ 0 = _ => assert (forall n i, loop n i = index_loop n i size) as H; [|apply H] end.
  induction n as [|n IH]; intros i; [done|]. cbn [index_loop]. by rewrite <- IH.
Qed.

Lemma shm_set_flag_eq i o f m : shm_set_bitmap_flag i o f m = set_bitmap_flag i o f m.
Proof.
  unfold shm_set_bitmap_flag, set_bitmap_flag, bind, get, the. destruct (nthZ (bitmaps m) i) as [bm|]; [|done].
  cbn. destruct (nthZ (bitmap bm) _); [|done]. cbn. by destruct (f =? MM_TRUE).
Qed.

Lemma shm_get_flag_eq i o m : shm_get_bitmap_flag i o m = get_bitmap_flag i o m.
Proof.
  unfold shm_get_bitmap_flag, get_bitmap_flag, bind, get, the. destruct (nthZ (bitmaps m) i) as [bm|]; [|done].
  cbn. destruct (nthZ (bitmap bm) _); [|done]. cbn. by destruct (_ =? 0).
Qed.

Lemma shm_find_eq i m : shm_find_free_block i m = find_free_block i m.
Proof.
  unfold shm_find_free_block, find_free_block. unfold bind at 1, get at 1. unfold bind at 1, the at 1.
  destruct (nthZ (bitmaps m) i) as [bm|]; [|done]. cbn [ret].
  destruct (bitmap_count bm =? 0); [done|]. cbv zeta. generalize (Z.shiftr (smallest_block m) i). intros mc.
  match goal with |- ?loop (Z.to_nat mc) 0 m = _ =>
    assert (forall fuel j, loop fuel j m = match find_free_loop fuel j mc (bitmap bm) with
      | Ok r => Ok (r, m) | Fault f => Fault f end) as H; [|apply H] end.
  induction fuel as [|fuel IH]; intros j; lazy beta iota zeta delta [find_free_loop]; fold find_free_loop;
    destruct (j <? mc); try done.
  unfold bind, the. destruct (0 <? Z.quot (mc - j) 64); [destruct (read_le 8 _ _) as [q|]; [|done]; cbn [ret];
    destruct (q =? 0); [apply IH|]|cbn [ret]].
  all: destruct (nthZ (bitmap bm) (Z.quot j 8)) as [b|]; [|done]; cbn [ret];
    destruct (negb _); [done|apply IH].
Qed.

Lemma bind_ext {St A B} (m m' : M St A) (f f' : A -> M St B) s :
  m s = m' s -> (forall a s', f a s' = f' a s') -> bind m f s = bind m' f' s.
Proof. intros E Hf. unfold bind. rewrite E. by destruct (m' s) as [[a s']|]. Qed.

Lemma shm_alloc_block_eq a m : shm_alloc_buddy_block a m = alloc_buddy_block a m.
Proof.
  unfold shm_alloc_buddy_block, alloc_buddy_block. apply bind_ext.
  { unfold gets. by rewrite shm_index_eq. }
  intros l m1. destruct (l =? -1); [done|]. apply bind_ext; [done|]. intros ml m2. apply bind_ext.
  - match goal with |- ?search _ _ _ = _ =>
      assert (forall n i m, search n i m = find_level n i m) as H; [|apply H] end.
    induction n as [|n IH]; intros i m3; [done|]. cbn [find_level]. apply bind_ext; [apply shm_find_eq|].
    intros o m4. destruct (negb _); [done|apply IH].
  - intros [i o] m3. destruct (o =? -1); [done|]. apply bind_ext; [apply shm_set_flag_eq|]. intros _ m4.
    match goal with |- ?split _ _ _ _ = _ =>
      assert (forall n i o m, split n i o m = split_loop n i o m) as H; [|apply H] end.
    induction n as [|n IH]; intros i' o' m5; [done|]. cbn [split_loop].
    apply bind_ext; [apply shm_set_flag_eq|]. intros _ m6. apply bind_ext; [apply shm_set_flag_eq|].
    intros _ m7. apply IH.
Qed.

Lemma shm_free_block_eq l o m : shm_free_buddy_block l o m = free_buddy_block l o m.
Proof.
  unfold shm_free_buddy_block, free_buddy_block. apply bind_ext; [done|]. intros ml m1.
  apply bind_ext; [|done].
  match goal with |- ?merge _ _ _ _ = _ =>
    assert (forall n i o m, merge n i o m = free_loop n i o m) as H; [|apply H] end.
  induction n as [|n IH]; intros i o' m2; [done|]. cbn [free_loop].
  apply bind_ext; [apply shm_set_flag_eq|]. intros _ m3. apply bind_ext; [apply shm_get_flag_eq|].
  intros fl m4. destruct (fl =? MM_FALSE); [done|]. apply bind_ext; [apply shm_set_flag_eq|]. intros _ m5.
  apply bind_ext; [apply shm_set_flag_eq|]. intros _ m6. apply IH.
Qed.

Lemma shm_levels_eq fuel blocks i : shm_levels fuel blocks i =
  match shift_loop fuel i blocks (fun _ acc => acc) 0 with
  | Ok (ml, _) => Ok ml
  | Fault f => Fault f
  end.
Proof.
  revert i. induction fuel as [|fuel IH]; intros i; cbn [shm_levels shift_loop];
    destruct (0 <? _); [done|done|apply IH|done].
Qed.

Lemma shm_layout_eq lo hi : shm_layout lo hi = mm_layout lo hi.
Proof.
  lazy beta zeta delta [shm_layout mm_layout]. rewrite shm_bitmap_size_eq.
  destruct (bitmap_size _) as [b|]; [|done]. rewrite shm_levels_eq.
  destruct (shift_loop _ _ _ _ _) as [[ml ?]|]; [|done]. f_equal. f_equal.
  match goal with |- ?init _ 0 _ = init_bitmaps _ _ ?blocks _ =>
    assert (forall n j cur, init n j cur = init_bitmaps n j blocks cur) as H; [|apply H] end.
  induction n as [|n IH]; intros j cur; [done|]. cbn [init_bitmaps]. rewrite <- IH. unfold init_bytes, init_count.
  destruct (negb _); [|done]. by destruct (Z.rem (Z.rem _ _) 2 =? 1).
Qed.

(** ** The pool is the kernel's allocator on another structure *)

(** A kernel state with the pool in it, and a statistics entry to write to. *)
Definition as_kmem (s : shm_pool) : kmem :=
  mkKmem (shm_free_mem_mgt s) 0 0 HEAP_START FALSE
    (mkSTAT [] [mkUnikernel 0 [] 0] 0 FALSE) (shm_ram s).

(** The part of a kernel state a pool consists of. *)
Definition of_kmem {A} (o : outcome (A * kmem)) : outcome (A * shm_pool) :=
  match o with
  | Ok (a, k) => Ok (a, mkPool (g_free_memory k) (ram k))
  | Fault f => Fault f
  end.

Lemma shm_alloc_kernel s size : shm_alloc size s = of_kmem (az_alloc size (as_kmem s)).
Proof.
  destruct s as [m rm].
  unfold shm_alloc, az_alloc, hand_out, shm_lock, mm_lock, zoom, bind, gets. simpl.
  destruct (spinlock_lock (mm_spl m)) as [[[] l]|f]; [|done]. simpl.
  rewrite shm_align_eq. destruct (align_buddy_block _ size =? 0); [done|].
  destruct (end_addr m <? _); [done|].
  rewrite shm_alloc_block_eq. destruct (alloc_buddy_block _ _) as [[o m1]|f]; [|done]. simpl.
  destruct (o =? -1); [done|]. unfold the.
  cbn [shm_free_mem_mgt g_free_memory]. rewrite shm_index_eq.
  by match goal with |- context [nthZ (block_index m1) ?i] => destruct (nthZ (block_index m1) i) end.
Qed.

Lemma shm_free_kernel s address : shm_free address s = of_kmem (az_free address (as_kmem s)).
Proof.
  destruct s as [m rm]. unfold shm_free, az_free, shm_lock, mm_lock, zoom, bind, gets. simpl.
  destruct (spinlock_lock (mm_spl m)) as [[[] l]|f]; [|done]. simpl.
  destruct (address =? 0); [done|]. unfold the. simpl.
  match goal with |- context [nthZ (block_index m) ?i] =>
    destruct (nthZ (block_index m) i) as [e|]; [|done] end.
  simpl. destruct (e =? 0xFF); [done|]. simpl.
  destruct (page_shift _ =? 0); [done|]. rewrite shm_free_block_eq.
  destruct (free_buddy_block _ _ _) as [[[] m1]|f]; done.
Qed.

(** C30: the copy of the allocator in [shm_mm.c] computes what [memory.c] computes.
    Every function on the bookkeeping gives the same result, the same structure or
    the same fault as its original from any state, the initial layout included; and
    [shm_alloc] and [shm_free] are [az_alloc] and [az_free] on the shared pool, but
    for the counters and the statistics, which the copy leaves out. *)
Theorem shm_pool_is_kernel_pool s :
  (forall size, shm_alloc size s = of_kmem (az_alloc size (as_kmem s))) /\
  (forall address, shm_free address s = of_kmem (az_free address (as_kmem s))) /\
  (forall lo hi, shm_layout lo hi = mm_layout lo hi) /\
  (forall m size, shm_align_buddy_block m size = align_buddy_block m size /\
     shm_block_list_index m size = block_list_index m size) /\
  (forall m size, shm_alloc_buddy_block size m = alloc_buddy_block size m) /\
  (forall m l o, shm_free_buddy_block l o m = free_buddy_block l o m).
Proof.
  split_and!; [apply shm_alloc_kernel|apply shm_free_kernel|apply shm_layout_eq| |
    intros; apply shm_alloc_block_eq|intros; apply shm_free_block_eq].
  intros m size. split; [apply shm_align_eq|apply shm_index_eq].
Qed.

Lemma as_kmem_inv s : pool_inv (shm_free_mem_mgt s) -> kmem_inv (as_kmem s).
Proof. intros Hp. split; [exact Hp|by split]. Qed.

Lemma wp_of_kmem {A} (c : M shm_pool A) (c' : M kmem A) (Q : A -> shm_pool -> Prop) s :
  c s = of_kmem (c' (as_kmem s)) ->
  wp c' (fun a k => Q a (mkPool (g_free_memory k) (ram k))) (as_kmem s) -> wp c Q s.
Proof. unfold wp. intros ->. by destruct (c' (as_kmem s)) as [[a k]|f]. Qed.

#[export] Program Instance shared_allocator : PageAllocator shm_pool shm_alloc shm_free := {
  pa_inv s := pool_inv (shm_free_mem_mgt s);
  pa_block s := kernel_block (as_kmem s)
}.
Next Obligation.
  intros s a b Hp Hb.
  apply (@pa_block_pos _ _ _ kernel_allocator (as_kmem s) a b (as_kmem_inv s Hp) Hb).
Qed.
Next Obligation.
  intros s size Hp Hs. eapply wp_of_kmem; [apply shm_alloc_kernel|].
  eapply wp_mono; [apply (@pa_alloc_spec _ _ _ kernel_allocator (as_kmem s) size (as_kmem_inv s Hp) Hs)|].
  intros r k' [Hk' [(-> & ->)|(Hr & bytes & Hb & Hd & Hnew)]]; (split; [apply Hk'|]).
  - left. by destruct s.
  - right. split; [done|]. by exists bytes.
Qed.
Next Obligation.
  intros s a b Hp Hb. eapply wp_of_kmem; [apply shm_free_kernel|].
  eapply wp_mono; [apply (@pa_free_spec _ _ _ kernel_allocator (as_kmem s) a b (as_kmem_inv s Hp) Hb)|].
  intros r k' (-> & Hk' & Hblk). split; [done|]. split; [apply Hk'|done].
Qed.

(** The range of the pool: the table takes 23 pages. *)
Lemma shm_free_mem_init_layout s : shm_free_mem_init s =
  match mm_layout 0xFFFF800020017000 (0xFFFF800020017000 + (0x20000000 - 0x17000)) with
  | Ok m => Ok (tt, s <| shm_free_mem_mgt := m |>)
  | Fault f => Fault f
  end.
Proof.
  unfold shm_free_mem_init. cbv zeta. rewrite shm_layout_eq.
  match goal with |- match mm_layout ?a ?b with _ => _ end = _ =>
    replace a with 0xFFFF800020017000 by (by vm_compute);
    replace b with (0xFFFF800020017000 + (0x20000000 - 0x17000)) by (by vm_compute)
  end. done.
Qed.

(** The initial pool: 512 MiB minus the table of segments. *)
Lemma shm_free_mem_init_spec s :
  exists m, shm_free_mem_init s = Ok (tt, s <| shm_free_mem_mgt := m |>) /\ pool_inv m /\
    forall a b, ~ kernel_block (as_kmem (s <| shm_free_mem_mgt := m |>)) a b.
Proof.
  destruct (mm_layout_spec 0xFFFF800020017000 (0x20000000 - 0x17000))
    as (m & Hrun & Hp & Hfresh & _); [lia..|].
  exists m. split_and!; [|done|].
  - by rewrite shm_free_mem_init_layout, Hrun.
  - clear Hrun. intros a b (p & e & _ & _ & He & Hne). by apply (fresh_entry m) in He.
Qed.
