(* ===== verification/Shm.v ===== *)
(** * System V shared memory ([kernel/shm/shmget.c], [shmat.c], [shmdt.c],
    [shmctl.c], [shm_initialize.c], [shm.h])

    A table of 1024 segments, each with a key, a block of the shared pool and a
    count of attachments.  The functions are written over any page allocator, so
    the theorems about the table rest on the allocator's interface alone. *)

From S2P Require Import Prelude.
From S2P Require Import Utility.
From S2P Require Import Lock.
From S2P Require Import Stat.
From S2P Require Import Memory.
From S2P Require Import MemoryBits.
From S2P Require Import Tiling.
From S2P Require Import Buddy.
From S2P Require Import PageAlloc.
From S2P Require Import PoolInit.
From S2P Require Import Allocator.
From S2P Require Import ShmPool.

(** ** Constants ([shm.h], [sys/ipc.h]) *)

Definition SRFLAG_AVAILABLE : Z := 0.

Definition SRFLAG_INUSE : Z := Z.shiftl 1 0.

Definition SRFLAG_UNLINKED : Z := Z.shiftl 1 1.

Definition IPC_MODE : Z := 0x01ff.

Definition IPC_CREAT : Z := Z.shiftl 1 10.

Definition IPC_PRIVATE : Z := 0.

Definition IPC_RMID : Z := 0.

Definition IPC_SET : Z := 1.

Definition IPC_STAT : Z := 2.

Definition ENOSPC : Z := 28.

Definition EINVAL : Z := 22.

(** ** Data *)

(** The three times of [struct shmid_ds] are never written. *)
Record shmid_ds := mkDs {
  shm_mode : Z;
  shm_segsz : Z;
  shm_lpid : Z;
  shm_cpid : Z;
  shm_nattch : Z
}.

#[export] Instance eta_shmid_ds : Eta shmid_ds := fun d =>
  mkDs (shm_mode d) (shm_segsz d) (shm_lpid d) (shm_cpid d) (shm_nattch d).

Record shm_region_s := mkRegion {
  sr_ds : shmid_ds;
  sr_flags : Z;
  sr_key : Z;
  sr_lock : Z;
  sr_data : Z
}.

#[export] Instance eta_shm_region_s : Eta shm_region_s := fun r =>
  mkRegion (sr_ds r) (sr_flags r) (sr_key r) (sr_lock r) (sr_data r).

(** A region after [lk_memset(region, 0, sizeof(struct shm_region_s))]. *)
Definition zero_region : shm_region_s := mkRegion (mkDs 0 0 0 0 0) 0 0 0 0.

Record shm_info_s {St : Type} := mkInfo {
  si_lock : Z;
  shm_init_flag : Z;
  si_pool : St;
  si_region : list shm_region_s
}.
Arguments shm_info_s St : clear implicits.

#[export] Instance eta_shm_info_s {St} : Eta (shm_info_s St) := fun s =>
  mkInfo _ (si_lock s) (shm_init_flag s) (si_pool s) (si_region s).

(** ** Operations *)

Section regions.
(** The allocator of the pool; [pool_reset] clears its bookkeeping, [pool_init]
    sets it up, [clear] zeroes memory.  [pid] is the calling thread's id. *)
Context {St : Type} (alloc free : Z -> M St Z) (clear : Z -> Z -> M St unit).
Context (pool_reset pool_init : M St unit) (pid : Z).

Notation info := (shm_info_s St).

Definition get_region (shmid : Z) : M info shm_region_s :=
  let! s := get in the OutOfBounds (nthZ (si_region s) shmid).

Definition put_region (shmid : Z) (r : shm_region_s) : M info unit :=
  modify (fun s => s <| si_region := updZ (si_region s) shmid r |>).

(** [spinlock_lock(&region->sr_lock)], [spinlock_unlock(&region->sr_lock)] *)
Definition lock_region (shmid : Z) : M info unit :=
  let! r := get_region shmid in
  match spinlock_lock (sr_lock r) with
  | Ok (_, l) => put_region shmid (r <| sr_lock := l |>)
  | Fault f => fail f
  end.

Definition unlock_region (shmid : Z) : M info unit :=
  let! r := get_region shmid in
  put_region shmid (r <| sr_lock := FALSE |>).

Definition shm_initialize : M info unit :=
  modify (fun s => s <| si_region :=
    replicate (Z.to_nat CONFIG_ARCH_SHM_MAXREGIONS) zero_region |>) ;;
  zoom si_pool pool_reset.

(** [for (i = 0; i < MAXREGIONS; i++)] with its return at the first match. *)
Fixpoint scan_regions (p : shm_region_s -> bool) (i : Z) (rs : list shm_region_s) : Z :=
  match rs with
  | [] => -1
  | r :: rs' => if p r then i else scan_regions p (i + 1) rs'
  end.

Definition shm_find (key : Z) : M info Z :=
  gets (fun s => scan_regions (fun r => sr_key r =? key) 0 (si_region s)).

Definition shm_reserve (key shmflg : Z) : M info Z :=
  let! i := gets (fun s => scan_regions (fun r => sr_flags r =? SRFLAG_AVAILABLE) 0
                             (si_region s)) in
  if i =? -1 then ret (- ENOSPC)
  else
    let! r := get_region i in
    put_region i (r <| sr_key := key |> <| sr_flags := SRFLAG_INUSE |>
                    <| sr_lock := FALSE |>
                    <| sr_ds := sr_ds r <| shm_mode := Z.land shmflg IPC_MODE |> |>) ;;
    ret i.

Definition shm_extend (shmid size : Z) : M info Z :=
  let! r := get_region shmid in
  if shm_segsz (sr_ds r) <? size then
    let allocated_block_size := shm_get_buddy_block_size (shm_segsz (sr_ds r)) in
    if allocated_block_size <? size then ret (- ENOMEM)
    else
      zoom si_pool (clear (sr_data r + shm_segsz (sr_ds r)) (s32 (size - shm_segsz (sr_ds r)))) ;;
      put_region shmid (r <| sr_ds := sr_ds r <| shm_segsz := size |> |>) ;;
      ret 1
  else ret 1.

Definition shm_destroy (shmid : Z) : M info unit :=
  let! r := get_region shmid in
  when (negb (sr_data r =? 0)) (zoom si_pool (free (sr_data r)) ;; ret tt) ;;
  put_region shmid zero_region.

Definition shm_create (key size shmflg : Z) : M info Z :=
  let! ret1 := shm_reserve key shmflg in
  if ret1 <? 0 then ret ret1
  else
    let shmid := ret1 in
    let! data := zoom si_pool (alloc size) in
    let! r := get_region shmid in
    put_region shmid (r <| sr_data := data |>) ;;
    if data =? 0 then shm_destroy shmid ;; ret (- ENOMEM)
    else
      let! r := get_region shmid in
      put_region shmid (r <| sr_ds := sr_ds r <| shm_segsz := size |> <| shm_cpid := pid |> |>) ;;
      ret shmid.

(** The part of [shmget] between taking and releasing [si_lock]: the segment, or
    a negative number. *)
Definition shmget_locked (key size shmflg : Z) : M info Z :=
  let! found := shm_find key in
  if found <? 0 then
    if negb (Z.land shmflg IPC_CREAT =? 0) then shm_create key size shmflg else ret (-1)
  else
    let shmid := found in
    let! r := get_region shmid in
    let! extended :=
      (if shm_segsz (sr_ds r) <? size then
         if negb (Z.land shmflg IPC_CREAT =? 0) then shm_extend shmid size else ret (- EINVAL)
       else ret 0) in
    if extended <? 0 then ret extended
    else
      let! r := get_region shmid in
      put_region shmid (r <| sr_flags := SRFLAG_INUSE |>) ;;
      ret shmid.

Definition shmget (key size shmflg : Z) : M info Z :=
  if key =? IPC_PRIVATE then ret (-1)
  else
    zoom si_lock spinlock_lock ;;
    let! flag := gets shm_init_flag in
    when (flag =? 0)
      (shm_initialize ;; zoom si_pool pool_init ;;
       modify (fun s => s <| shm_init_flag := 1 |>)) ;;
    let! shmid := shmget_locked key size shmflg in
    zoom si_lock spinlock_unlock ;;
    ret (if shmid <? 0 then -1 else shmid).

(** The address of the segment, 0 on error. *)
Definition shmat (shmid : Z) : M info Z :=
  if (shmid <? 0) || (CONFIG_ARCH_SHM_MAXREGIONS <=? shmid) then ret 0
  else
    let! r := get_region shmid in
    if Z.land (sr_flags r) SRFLAG_INUSE =? 0 then ret 0
    else
      lock_region shmid ;;
      let! r := get_region shmid in
      let vaddr := sr_data r in
      if vaddr =? 0 then unlock_region shmid ;; ret 0
      else
        put_region shmid (r <| sr_ds := sr_ds r <| shm_nattch := u16 (shm_nattch (sr_ds r) + 1) |>
                                               <| shm_lpid := pid |> |>) ;;
        unlock_region shmid ;;
        ret vaddr.

Definition shmdt (shmaddr : Z) : M info Z :=
  let! shmid := gets (fun s => scan_regions (fun r => shmaddr =? sr_data r) 0 (si_region s)) in
  if shmid =? -1 then ret (-1)
  else
    let! r := get_region shmid in
    if Z.land (sr_flags r) SRFLAG_INUSE =? 0 then ret (-1)
    else
      lock_region shmid ;;
      let! r := get_region shmid in
      if shm_nattch (sr_ds r) <=? 0 then unlock_region shmid ;; ret (-1)
      else
        let last := shm_nattch (sr_ds r) <=? 1 in
        let nattch := if last then 0 else shm_nattch (sr_ds r) - 1 in
        put_region shmid (r <| sr_ds := sr_ds r <| shm_nattch := nattch |> |>) ;;
        if last && negb (Z.land (sr_flags r) SRFLAG_UNLINKED =? 0) then
          shm_destroy shmid ;; ret 0
        else
          let! r := get_region shmid in
          put_region shmid (r <| sr_ds := sr_ds r <| shm_lpid := pid |> |>) ;;
          unlock_region shmid ;;
          ret 0.

(** [buf] is the structure the caller passes, [None] for NULL; the second
    component of the result is its content afterwards. *)
Definition shmctl (shmid cmd : Z) (buf : option shmid_ds) : M info (Z * option shmid_ds) :=
  if (shmid <? 0) || (CONFIG_ARCH_SHM_MAXREGIONS <=? shmid) then ret (-1, buf)
  else
    let! r := get_region shmid in
    if Z.land (sr_flags r) SRFLAG_INUSE =? 0 then ret (-1, buf)
    else
      lock_region shmid ;;
      let! r := get_region shmid in
      let finish (out : option shmid_ds) : M info (Z * option shmid_ds) :=
        let! r := get_region shmid in
        put_region shmid (r <| sr_ds := sr_ds r <| shm_lpid := pid |> |>) ;;
        unlock_region shmid ;;
        ret (0, out) in
      if cmd =? IPC_STAT then
        match buf with
        | None => unlock_region shmid ;; ret (-1, buf)
        | Some _ => finish (Some (sr_ds r))
        end
      else if cmd =? IPC_SET then
        match buf with
        | None => fail NullPointer
        | Some b =>
            put_region shmid (r <| sr_ds := sr_ds r <| shm_mode := shm_mode b |> |>) ;;
            finish buf
        end
      else if cmd =? IPC_RMID then
        if 0 <? shm_nattch (sr_ds r) then
          put_region shmid (r <| sr_flags := u8 (Z.lor (sr_flags r) SRFLAG_UNLINKED) |>) ;;
          finish buf
        else shm_destroy shmid ;; ret (0, buf)
      else unlock_region shmid ;; ret (-1, buf).
End regions.

(** ** The table's invariant *)

(** A segment in use: marked so, keyed, unlocked, with a live block. *)
Record used_region (live : Z -> Prop) (r : shm_region_s) : Prop := {
  ur_flags : sr_flags r = SRFLAG_INUSE \/ sr_flags r = Z.lor SRFLAG_INUSE SRFLAG_UNLINKED;
  ur_key : sr_key r <> 0;
  ur_lock : sr_lock r = FALSE;
  ur_data : sr_data r <> 0 /\ live (sr_data r);
  ur_nattch : 0 <= shm_nattch (sr_ds r) < 2 ^ 16
}.

Section invariant.
Context {St : Type} {alloc free : Z -> M St Z} {PA : PageAllocator St alloc free}.
Context (lk : Z).

Notation info := (shm_info_s St).

Definition live_block (st : St) (a : Z) : Prop := exists b, pa_block st a b.

(** The segments in use have different keys and blocks, the others are all zero,
    and every live block of the pool belongs to a segment; the table's lock is
    [lk]. *)
Record shm_ok (s : info) : Prop := {
  so_pool : pa_inv (si_pool s);
  so_len : lenZ (si_region s) = CONFIG_ARCH_SHM_MAXREGIONS;
  so_lock : si_lock s = lk;
  so_flag : shm_init_flag s <> 0;
  so_region : forall i r, nthZ (si_region s) i = Some r ->
    r = zero_region \/ used_region (live_block (si_pool s)) r;
  so_apart : forall i j r r', i <> j ->
    nthZ (si_region s) i = Some r -> nthZ (si_region s) j = Some r' -> r <> zero_region ->
    sr_key r <> sr_key r' /\ sr_data r <> sr_data r';
  so_owned : forall a, live_block (si_pool s) a ->
    exists i r, nthZ (si_region s) i = Some r /\ sr_data r = a
}.

Lemma zero_unused live : ~ used_region live zero_region.
Proof. intros H. by destruct (ur_flags _ _ H). Qed.

Lemma used_nonzero live r : used_region live r -> r <> zero_region.
Proof. intros H ->. by apply zero_unused in H. Qed.

(** A segment changes without changing hands. *)
Lemma shm_ok_update s i r r' :
  shm_ok s -> nthZ (si_region s) i = Some r -> used_region (live_block (si_pool s)) r' ->
  sr_key r' = sr_key r -> sr_data r' = sr_data r ->
  shm_ok (s <| si_region := updZ (si_region s) i r' |>).
Proof.
  intros H Hi Hr' Hk Hd. pose proof (nthZ_Some_range _ _ _ Hi) as Hrange.
  assert (r <> zero_region) as Hnz.
  { intros ->. apply (ur_key _ _ Hr'). by rewrite Hk. }
  constructor; simpl; try apply H.
  - rewrite lenZ_updZ. apply H.
  - intros j x. rewrite nthZ_updZ. case_decide; [intros [= <-]; by right|apply H].
  - intros j1 j2 x x' Hne. rewrite !nthZ_updZ. case_decide as H1; case_decide as H2.
    + lia.
    + intros [= <-] Hx' _. rewrite Hk, Hd. destruct H1 as [<- _].
      by apply (so_apart s H i j2).
    + intros Hx [= <-] Hxz. rewrite Hk, Hd. destruct H2 as [<- _].
      by apply (so_apart s H j1 i).
    + by apply (so_apart s H).
  - intros a (j & x & Hj & Hx)%(so_owned s H). destruct (decide (i = j)) as [<-|Hne].
    + exists i, r'. rewrite nthZ_updZ_eq by done. split; [done|]. congruence.
    + exists j, x. by rewrite nthZ_updZ_ne.
Qed.

(** A segment goes away with its block. *)
Lemma shm_ok_destroy s i r st' :
  shm_ok s -> nthZ (si_region s) i = Some r -> r <> zero_region -> pa_inv st' ->
  (forall a b, pa_block st' a b <-> pa_block (si_pool s) a b /\ a <> sr_data r) ->
  shm_ok (s <| si_pool := st' |> <| si_region := updZ (si_region s) i zero_region |>).
Proof.
  intros H Hi Hnz Hst' Hblk. pose proof (nthZ_Some_range _ _ _ Hi) as Hrange.
  assert (forall a, live_block st' a <-> live_block (si_pool s) a /\ a <> sr_data r) as Hlive
    by (unfold live_block; naive_solver).
  constructor; simpl; try apply H; [done| | | |].
  - rewrite lenZ_updZ. apply H.
  - intros j x. rewrite nthZ_updZ. case_decide as Hd; [intros [= <-]; by left|].
    intros Hx. destruct (so_region s H j x Hx) as [|Hu]; [by left|right].
    destruct Hu as [? ? ? [? ?] ?]. constructor; try done. split; [done|]. apply Hlive.
    split; [done|]. assert (j <> i) as Hji by (intros ->; by destruct Hd).
    by destruct (so_apart s H i j r x) as [_ ?].
  - intros j1 j2 x x' Hne. rewrite !nthZ_updZ. case_decide as H1; case_decide as H2.
    + intros [= <-]. done.
    + intros [= <-]. done.
    + intros Hx [= <-] Hxz. destruct (so_region s H j1 x Hx) as [|Hu]; [done|].
      split; [apply (ur_key _ _ Hu)|apply (ur_data _ _ Hu)].
    + by apply (so_apart s H).
  - intros a [Ha Hne]%Hlive. destruct (so_owned s H a Ha) as (j & x & Hj & Hx).
    exists j, x. rewrite nthZ_updZ_ne; [done|]. intros ->. congruence.
Qed.

(** A segment comes into being with a new block. *)
Lemma shm_ok_create s i r' st' bytes :
  shm_ok s -> nthZ (si_region s) i = Some zero_region -> pa_inv st' ->
  (forall a b, pa_block st' a b <-> pa_block (si_pool s) a b \/ (a = sr_data r' /\ b = bytes)) ->
  ~ live_block (si_pool s) (sr_data r') ->
  used_region (live_block st') r' ->
  (forall j x, nthZ (si_region s) j = Some x -> sr_key x <> sr_key r') ->
  shm_ok (s <| si_pool := st' |> <| si_region := updZ (si_region s) i r' |>).
Proof.
  intros H Hi Hst' Hblk Hnew Hr' Hkey. pose proof (nthZ_Some_range _ _ _ Hi) as Hrange.
  assert (forall a, live_block st' a <-> live_block (si_pool s) a \/ a = sr_data r') as Hlive
    by (unfold live_block; naive_solver).
  assert (forall j x, nthZ (si_region s) j = Some x -> sr_data x <> sr_data r') as Hdata.
  { intros j x Hj. destruct (so_region s H j x Hj) as [->|Hu].
    - intros E. apply (ur_data _ _ Hr'). by rewrite <- E.
    - intros E. apply Hnew. rewrite <- E. apply (ur_data _ _ Hu). }
  constructor; simpl; try apply H; [done| | | |].
  - rewrite lenZ_updZ. apply H.
  - intros j x. rewrite nthZ_updZ. case_decide as Hd; [intros [= <-]; by right|].
    intros Hx. destruct (so_region s H j x Hx) as [|Hu]; [by left|right].
    destruct Hu as [? ? ? [? ?] ?]. constructor; try done. split; [done|]. apply Hlive. by left.
  - intros j1 j2 x x' Hne. rewrite !nthZ_updZ. case_decide as H1; case_decide as H2.
    + lia.
    + intros [= <-] Hx' _. split; apply not_eq_sym; eauto.
    + intros Hx [= <-] _. split; eauto.
    + by apply (so_apart s H).
  - intros a [Ha| ->]%Hlive.
    + destruct (so_owned s H a Ha) as (j & x & Hj & Hx). exists j, x.
      rewrite nthZ_updZ_ne; [done|]. intros ->. rewrite Hi in Hj. injection Hj as <-.
      simpl in Hx. subst a. destruct Ha as [b Hb].
      pose proof (pa_block_pos _ _ _ (so_pool s H) Hb). lia.
    + exists i, r'. by rewrite nthZ_updZ_eq.
Qed.
End invariant.
Arguments so_pool {_ _ _ _ _} s _.
Arguments so_len {_ _ _ _ _} s _.
Arguments so_region {_ _ _ _ _} s _.
Arguments so_apart {_ _ _ _ _} s _.
Arguments so_owned {_ _ _ _ _} s _.
Arguments shm_ok_update {_ _ _ _ _} s.
Arguments shm_ok_destroy {_ _ _ _ _} s.
Arguments shm_ok_create {_ _ _ _ _} s.

(** ** Runs of the calls *)

Section runs.
Context {St : Type} {alloc free : Z -> M St Z} {PA : PageAllocator St alloc free}.
Context (clear : Z -> Z -> M St unit) (pool_reset pool_init : M St unit) (pid lk : Z).

Notation info := (shm_info_s St).
Notation shm_ok := (shm_ok lk).
Implicit Types s : info.

(** The state with region [i] equal to [r]. *)
Definition with_region s (i : Z) (r : shm_region_s) : info :=
  s <| si_region := updZ (si_region s) i r |>.

Definition has_region s (i : Z) (r : shm_region_s) : Prop := nthZ (si_region s) i = Some r.

Lemma with_region_twice s i r r' : with_region (with_region s i r) i r' = with_region s i r'.
Proof. unfold with_region. simpl. by rewrite updZ_updZ. Qed.

Lemma with_region_same s i r : has_region s i r -> with_region s i r = s.
Proof. intros H. unfold with_region. rewrite updZ_same by done. by destruct s. Qed.

Lemma has_with_region s i r0 r : has_region s i r0 -> has_region (with_region s i r) i r.
Proof. intros H%nthZ_Some_range. by apply nthZ_updZ_eq. Qed.

Lemma wp_get_region s i r (Q : shm_region_s -> info -> Prop) :
  has_region s i r -> Q r s -> wp (get_region i) Q s.
Proof. intros H HQ. unfold get_region. wp_steps. by eapply wp_the. Qed.

Lemma wp_put_region s i r (Q : unit -> info -> Prop) :
  Q tt (with_region s i r) -> wp (put_region i r) Q s.
Proof. done. Qed.

Lemma wp_lock_region s i r (Q : unit -> info -> Prop) :
  has_region s i r -> sr_lock r = FALSE ->
  Q tt (with_region s i (r <| sr_lock := TRUE |>)) -> wp (lock_region i) Q s.
Proof.
  intros H Hl HQ. unfold lock_region. apply wp_bind. eapply wp_get_region; [done|].
  by rewrite Hl.
Qed.

Lemma wp_unlock_region s i r (Q : unit -> info -> Prop) :
  has_region s i r -> Q tt (with_region s i (r <| sr_lock := FALSE |>)) ->
  wp (unlock_region i) Q s.
Proof.
  intros H HQ. unfold unlock_region. apply wp_bind. eapply wp_get_region; [done|].
  by apply wp_put_region.
Qed.

Lemma scan_regions_spec (p : shm_region_s -> bool) i rs :
  (scan_regions p i rs = -1 /\ forall j r, nthZ rs j = Some r -> p r = false) \/
  (exists j r, scan_regions p i rs = i + j /\ nthZ rs j = Some r /\ p r = true /\
     forall j' r', j' < j -> nthZ rs j' = Some r' -> p r' = false).
Proof.
  revert i. induction rs as [|r rs IH]; intros i; cbn [scan_regions].
  - left. split; [done|]. intros j r Hj. apply nthZ_Some_range in Hj. unfold lenZ in Hj.
    cbn in Hj. lia.
  - destruct (p r) eqn:E.
    { right. exists 0, r. split_and!; [lia|done|done|]. intros j' r' Hlt Hj'.
      apply nthZ_Some_range in Hj'. lia. }
    assert (forall j x, nthZ (r :: rs) j = Some x -> (j = 0 /\ x = r) \/ nthZ rs (j - 1) = Some x)
      as Hcons.
    { intros j x Hj. pose proof (nthZ_Some_range _ _ _ Hj).
      destruct (decide (j = 0)) as [->|]; [left; by injection Hj|right].
      replace j with (j - 1 + 1) in Hj by lia. by rewrite nthZ_cons in Hj by lia. }
    destruct (IH (i + 1)) as [[-> Hno]|(j & x & -> & Hj & Hx & Hbefore)].
    + left. split; [done|]. intros j x [[_ ->]|Hj]%Hcons; eauto.
    + right. exists (j + 1), x. pose proof (nthZ_Some_range _ _ _ Hj).
      split_and!; [lia|by rewrite nthZ_cons by lia|done|].
      intros j' r' Hlt [[_ ->]|Hj']%Hcons; [done|]. apply (Hbefore (j' - 1)); [lia|done].
Qed.

Lemma used_inuse live r : used_region live r -> (Z.land (sr_flags r) SRFLAG_INUSE =? 0) = false.
Proof. intros H. by destruct (ur_flags _ _ H) as [-> | ->]. Qed.

(** ** shmat *)

(** The segment after an attachment. *)
Definition attached (r : shm_region_s) : shm_region_s :=
  r <| sr_ds := sr_ds r <| shm_nattch := u16 (shm_nattch (sr_ds r) + 1) |> <| shm_lpid := pid |> |>.

Lemma wp_shmat s i r (Q : Z -> info -> Prop) : shm_ok s -> has_region s i r ->
  used_region (live_block (si_pool s)) r ->
  Q (sr_data r) (with_region s i (attached r)) -> wp (shmat pid i) Q s.
Proof.
  intros H Hi Hu HQ. unfold shmat. pose proof (nthZ_Some_range _ _ _ Hi) as Hr.
  rewrite (so_len s H) in Hr. rewrite (proj2 (Z.ltb_ge i 0)), (proj2 (Z.leb_gt _ i)) by lia.
  cbn [orb]. apply wp_bind. eapply wp_get_region; [done|]. rewrite (used_inuse _ _ Hu).
  apply wp_bind. eapply wp_lock_region; [done|apply Hu|].
  apply wp_bind. eapply wp_get_region; [by eapply has_with_region|]. simpl.
  destruct (Z.eqb_spec (sr_data r) 0) as [E|_]; [by destruct (ur_data _ _ Hu)|].
  apply wp_bind, wp_put_region. rewrite with_region_twice.
  apply wp_bind. eapply wp_unlock_region; [by eapply has_with_region|].
  rewrite with_region_twice. apply wp_ret. simpl.
  unfold attached in HQ. simpl in HQ. by rewrite (ur_lock _ _ Hu) in HQ.
Qed.

Lemma wp_shmat_bad s i : lenZ (si_region s) = CONFIG_ARCH_SHM_MAXREGIONS ->
  (forall r, has_region s i r -> r = zero_region) ->
  wp (shmat pid i) (fun a s' => a = 0 /\ s' = s) s.
Proof.
  intros Hlen Hz. unfold shmat.
  destruct (Z.ltb_spec i 0) as [|Hi]; [done|]. destruct (Z.leb_spec CONFIG_ARCH_SHM_MAXREGIONS i); [done|].
  cbn [orb]. destruct (nthZ_in_range (si_region s) i) as [r Hr]; [lia|].
  apply wp_bind. eapply wp_get_region; [done|]. by rewrite (Hz r Hr).
Qed.

Lemma attached_used s r : used_region (live_block (si_pool s)) r ->
  used_region (live_block (si_pool s)) (attached r).
Proof.
  intros [? ? ? ? ?]. constructor; try done. simpl. unfold u16. apply Z.mod_pos_bound. lia.
Qed.

Lemma shmat_keeps s i : shm_ok s -> wp (shmat pid i) (fun _ s' => shm_ok s') s.
Proof.
  intros H. destruct (nthZ (si_region s) i) as [r|] eqn:Hi.
  2: { eapply wp_mono; [apply wp_shmat_bad; [apply H|]|].
       - intros r Hr. unfold has_region in Hr. congruence.
       - by intros a s' [_ ->]. }
  destruct (so_region s H i r Hi) as [->|Hu].
  - eapply wp_mono; [apply wp_shmat_bad; [apply H|]|by intros a s' [_ ->]].
    intros r Hr. unfold has_region in Hr. congruence.
  - eapply wp_shmat; [done|done|done|]. eapply shm_ok_update; [done|done|by apply attached_used|done|done].
Qed.

(** ** shm_destroy, shmdt *)

Lemma wp_shm_destroy s i r b (Q : unit -> info -> Prop) :
  has_region s i r -> pa_inv (si_pool s) -> pa_block (si_pool s) (sr_data r) b ->
  (forall st', pa_inv st' ->
     (forall a b, pa_block st' a b <-> pa_block (si_pool s) a b /\ a <> sr_data r) ->
     Q tt (with_region (s <| si_pool := st' |>) i zero_region)) ->
  wp (shm_destroy free i) Q s.
Proof.
  intros Hi Hp Hb HQ. unfold shm_destroy. apply wp_bind. eapply wp_get_region; [done|].
  pose proof (pa_block_pos _ _ _ Hp Hb). destruct (Z.eqb_spec (sr_data r) 0); [lia|].
  cbn [negb when]. apply wp_bind, wp_bind, wp_zoom.
  eapply wp_mono; [apply (pa_free_spec _ _ _ Hp Hb)|]. intros x st' (_ & Hst' & Hblk).
  apply wp_ret, wp_put_region. by apply HQ.
Qed.

(** The segment after a detachment that leaves it in place. *)
Definition detached (r : shm_region_s) : shm_region_s :=
  r <| sr_ds := sr_ds r <| shm_nattch := shm_nattch (sr_ds r) - 1 |> <| shm_lpid := pid |> |>.

Definition unlinked (r : shm_region_s) : bool := negb (Z.land (sr_flags r) SRFLAG_UNLINKED =? 0).

Lemma shmdt_scan s i r : shm_ok s -> has_region s i r -> r <> zero_region ->
  scan_regions (fun x => sr_data r =? sr_data x) 0 (si_region s) = i.
Proof.
  intros H Hi Hnz.
  destruct (scan_regions_spec (fun x => sr_data r =? sr_data x) 0 (si_region s))
    as [[_ Hno]|(j & x & -> & Hj & Hx & _)].
  - specialize (Hno i r Hi). cbn in Hno. apply Z.eqb_neq in Hno. done.
  - destruct (decide (i = j)) as [->|Hne]; [done|]. apply Z.eqb_eq in Hx.
    by destruct (so_apart s H i j r x Hne Hi Hj Hnz).
Qed.

(** Every way a detachment from a segment in use ends. *)
Lemma wp_shmdt s i r (Q : Z -> info -> Prop) : shm_ok s -> has_region s i r ->
  used_region (live_block (si_pool s)) r ->
  (shm_nattch (sr_ds r) = 0 -> Q (-1) s) ->
  (shm_nattch (sr_ds r) = 1 -> unlinked r = true -> forall st', pa_inv st' ->
     (forall a b, pa_block st' a b <-> pa_block (si_pool s) a b /\ a <> sr_data r) ->
     Q 0 (with_region (s <| si_pool := st' |>) i zero_region)) ->
  (0 < shm_nattch (sr_ds r) -> shm_nattch (sr_ds r) <> 1 \/ unlinked r = false ->
     Q 0 (with_region s i (detached r))) ->
  wp (shmdt free pid (sr_data r)) Q s.
Proof.
  intros H Hi Hu Hq0 Hq1 Hq2. pose proof (used_nonzero _ _ Hu) as Hnz. unfold shmdt. wp_steps.
  rewrite (shmdt_scan s i r H Hi Hnz). pose proof (nthZ_Some_range _ _ _ Hi).
  destruct (Z.eqb_spec i (-1)); [lia|]. apply wp_bind. eapply wp_get_region; [done|].
  rewrite (used_inuse _ _ Hu). pose proof (ur_nattch _ _ Hu) as Hn. pose proof (ur_lock _ _ Hu) as Hl.
  apply wp_bind. eapply wp_lock_region; [done|done|].
  apply wp_bind. eapply wp_get_region; [by eapply has_with_region|]. simpl.
  destruct (Z.leb_spec (shm_nattch (sr_ds r)) 0).
  { apply wp_bind. eapply wp_unlock_region; [by eapply has_with_region|].
    rewrite with_region_twice. apply wp_ret. simpl. rewrite with_region_same; [apply Hq0; lia|].
    rewrite <- Hl. by destruct r. }
  apply wp_bind, wp_put_region. rewrite with_region_twice. fold (unlinked r).
  destruct (Z.leb_spec (shm_nattch (sr_ds r)) 1), (unlinked r) eqn:E; cbn [andb].
  { destruct (ur_data _ _ Hu) as [_ [b Hb]].
    apply wp_bind. eapply wp_shm_destroy; [by eapply has_with_region|apply H|exact Hb|].
    intros st' Hst' Hblk. apply wp_ret. specialize (Hq1 ltac:(lia) eq_refl st' Hst' Hblk).
    unfold with_region in *. simpl in *. by rewrite updZ_updZ. }
  all: apply wp_bind; (eapply wp_get_region; [by eapply has_with_region|]);
    apply wp_bind, wp_put_region; rewrite with_region_twice;
    apply wp_bind; (eapply wp_unlock_region; [by eapply has_with_region|]);
    rewrite with_region_twice; apply wp_ret.
  all: unfold detached in Hq2; simpl in *; rewrite Hl in Hq2.
  - replace 0 with (shm_nattch (sr_ds r) - 1) at 2 by lia. apply Hq2; [lia|by right].
  - apply Hq2; [lia|left; lia].
  - apply Hq2; [lia|left; lia].
Qed.

Lemma detached_used s r : used_region (live_block (si_pool s)) r -> 0 < shm_nattch (sr_ds r) ->
  used_region (live_block (si_pool s)) (detached r).
Proof. intros [? ? ? ? ?] Hn. constructor; try done. simpl. lia. Qed.

Lemma wp_shmdt_bad s a : (forall i r, has_region s i r -> r = zero_region) ->
  wp (shmdt free pid a) (fun x s' => x = -1 /\ s' = s) s.
Proof.
  intros Hz. unfold shmdt. wp_steps.
  destruct (scan_regions_spec (fun x => a =? sr_data x) 0 (si_region s))
    as [[-> _]|(i & r & -> & Hi & _)]; [done|].
  pose proof (nthZ_Some_range _ _ _ Hi). destruct (Z.eqb_spec (0 + i) (-1)); [lia|].
  apply wp_bind. eapply wp_get_region; [done|]. by rewrite (Hz i r Hi).
Qed.

Lemma shmdt_keeps s a : shm_ok s -> wp (shmdt free pid a) (fun _ s' => shm_ok s') s.
Proof.
  intros H.
  destruct (scan_regions_spec (fun x => a =? sr_data x) 0 (si_region s))
    as [[Hs _]|(i & r & Hs & Hi & Ha%Z.eqb_eq & _)].
  { unfold shmdt. wp_steps. by rewrite Hs. }
  subst a. destruct (so_region s H i r Hi) as [->|Hu].
  - unfold shmdt. wp_steps. cbn [sr_data zero_region] in *. rewrite Hs.
    pose proof (nthZ_Some_range _ _ _ Hi). destruct (Z.eqb_spec (0 + i) (-1)); [lia|].
    apply wp_bind. by eapply wp_get_region.
  - pose proof (used_nonzero _ _ Hu). eapply wp_shmdt; [done|done|done|done| |].
    + intros _ _ st' Hst' Hblk. by eapply (shm_ok_destroy s i r).
    + intros Hn _. eapply shm_ok_update; [done|done|by apply detached_used|done|done].
Qed.

(** ** shmctl *)

Lemma wp_shmctl_bad s i cmd buf : lenZ (si_region s) = CONFIG_ARCH_SHM_MAXREGIONS ->
  (forall r, has_region s i r -> r = zero_region) ->
  wp (shmctl free pid i cmd buf) (fun a s' => a = (-1, buf) /\ s' = s) s.
Proof.
  intros Hlen Hz. unfold shmctl. destruct (Z.ltb_spec i 0) as [|Hi]; [done|].
  destruct (Z.leb_spec CONFIG_ARCH_SHM_MAXREGIONS i); [done|].
  cbn [orb]. destruct (nthZ_in_range (si_region s) i) as [r Hr]; [lia|].
  apply wp_bind. eapply wp_get_region; [done|]. by rewrite (Hz r Hr).
Qed.

(** The segment after IPC_STAT, IPC_SET and a deferred IPC_RMID. *)
Definition controlled (r : shm_region_s) (mode flags : Z) : shm_region_s :=
  r <| sr_ds := sr_ds r <| shm_mode := mode |> <| shm_lpid := pid |> |> <| sr_flags := flags |>.

(** Every way a request on a segment in use ends. *)
Lemma wp_shmctl s i r cmd buf (Q : Z * option shmid_ds -> info -> Prop) :
  shm_ok s -> has_region s i r -> used_region (live_block (si_pool s)) r ->
  (cmd = IPC_SET -> buf <> None) ->
  ((cmd = IPC_STAT /\ buf = None) \/ (cmd <> IPC_STAT /\ cmd <> IPC_SET /\ cmd <> IPC_RMID) ->
     Q (-1, buf) s) ->
  (cmd = IPC_STAT -> buf <> None ->
     Q (0, Some (sr_ds r)) (with_region s i (controlled r (shm_mode (sr_ds r)) (sr_flags r)))) ->
  (forall b, cmd = IPC_SET -> buf = Some b ->
     Q (0, buf) (with_region s i (controlled r (shm_mode b) (sr_flags r)))) ->
  (cmd = IPC_RMID -> 0 < shm_nattch (sr_ds r) ->
     Q (0, buf) (with_region s i (controlled r (shm_mode (sr_ds r))
       (Z.lor SRFLAG_INUSE SRFLAG_UNLINKED)))) ->
  (cmd = IPC_RMID -> shm_nattch (sr_ds r) = 0 -> forall st', pa_inv st' ->
     (forall a b, pa_block st' a b <-> pa_block (si_pool s) a b /\ a <> sr_data r) ->
     Q (0, buf) (with_region (s <| si_pool := st' |>) i zero_region)) ->
  wp (shmctl free pid i cmd buf) Q s.
Proof.
  intros H Hi Hu Hset Hbad Hstat Hmode Hdefer Hnow. unfold shmctl.
  pose proof (nthZ_Some_range _ _ _ Hi) as Hr. rewrite (so_len s H) in Hr.
  rewrite (proj2 (Z.ltb_ge i 0)), (proj2 (Z.leb_gt _ i)) by lia. cbn [orb].
  pose proof (ur_lock _ _ Hu) as Hl. pose proof (ur_nattch _ _ Hu) as Hn.
  apply wp_bind. eapply wp_get_region; [done|]. rewrite (used_inuse _ _ Hu).
  apply wp_bind. eapply wp_lock_region; [done|done|].
  apply wp_bind. eapply wp_get_region; [by eapply has_with_region|].
  assert (forall r1 r2 out, r2 = r1 <| sr_ds := sr_ds r1 <| shm_lpid := pid |> |> <| sr_lock := FALSE |> ->
    Q (0, out) (with_region s i r2) ->
    wp (let! r := get_region i in
        put_region i (r <| sr_ds := sr_ds r <| shm_lpid := pid |> |>) ;;
        unlock_region i ;; ret (0, out)) Q (with_region s i r1)) as Hfin.
  { intros r1 r2 out -> HQ. apply wp_bind. eapply wp_get_region; [by eapply has_with_region|].
    apply wp_bind, wp_put_region. rewrite with_region_twice.
    apply wp_bind. eapply wp_unlock_region; [by eapply has_with_region|].
    rewrite with_region_twice. apply wp_ret. exact HQ. }
  assert (forall out, Q (-1, out) s -> wp (unlock_region i ;; ret (-1, out)) Q
            (with_region s i (r <| sr_lock := TRUE |>))) as Herr.
  { intros out HQ. apply wp_bind. eapply wp_unlock_region; [by eapply has_with_region|].
    rewrite with_region_twice. apply wp_ret. rewrite with_region_same; [done|].
    simpl. rewrite <- Hl. by destruct r. }
  destruct (Z.eqb_spec cmd IPC_STAT) as [->|Hn1].
  { destruct buf as [b|]; [|apply Herr, Hbad; by left].
    eapply Hfin; [|by apply Hstat]. unfold controlled. simpl. by rewrite Hl. }
  destruct (Z.eqb_spec cmd IPC_SET) as [->|Hn2].
  { destruct buf as [b|]; [|by destruct Hset]. apply wp_bind, wp_put_region.
    rewrite with_region_twice. eapply Hfin; [|by apply (Hmode b)].
    unfold controlled. simpl. by rewrite Hl. }
  destruct (Z.eqb_spec cmd IPC_RMID) as [->|Hn3]; [|apply Herr, Hbad; by right].
  simpl. destruct (Z.ltb_spec 0 (shm_nattch (sr_ds r))).
  - apply wp_bind, wp_put_region. rewrite with_region_twice.
    eapply Hfin; [|by apply Hdefer]. unfold controlled. simpl. rewrite Hl.
    by destruct (ur_flags _ _ Hu) as [-> | ->].
  - destruct (ur_data _ _ Hu) as [_ [b Hb]].
    apply wp_bind. eapply wp_shm_destroy; [by eapply has_with_region|apply H|exact Hb|].
    intros st' Hst' Hblk. apply wp_ret. specialize (Hnow eq_refl ltac:(lia) st' Hst' Hblk).
    unfold with_region in *. simpl in *. by rewrite updZ_updZ.
Qed.

Lemma shmctl_keeps s i cmd buf : shm_ok s -> (cmd = IPC_SET -> buf <> None) ->
  wp (shmctl free pid i cmd buf) (fun _ s' => shm_ok s') s.
Proof.
  intros H Hset. destruct (nthZ (si_region s) i) as [r|] eqn:Hi.
  2: { eapply wp_mono; [apply wp_shmctl_bad; [apply H|]|by intros a s' [_ ->]].
       intros r Hr. unfold has_region in Hr. congruence. }
  destruct (so_region s H i r Hi) as [->|Hu].
  { eapply wp_mono; [apply wp_shmctl_bad; [apply H|]|by intros a s' [_ ->]].
    intros r Hr. unfold has_region in Hr. congruence. }
  assert (forall mode flags, flags = sr_flags r \/ flags = Z.lor SRFLAG_INUSE SRFLAG_UNLINKED ->
    shm_ok (with_region s i (controlled r mode flags))) as Hupd.
  { intros mode flags Hf. eapply shm_ok_update; [done|done| |done|done].
    destruct Hu as [Hfl ? ? ? ?]. constructor; try done. simpl. destruct Hf as [-> | ->]; auto. }
  pose proof (used_nonzero _ _ Hu).
  eapply wp_shmctl; eauto. intros _ _ st' Hst' Hblk. by eapply (shm_ok_destroy s i r).
Qed.

(** ** shmget *)

Definition no_key s (key : Z) : Prop := forall j x, has_region s j x -> sr_key x <> key.

(** A new segment. *)
Definition new_region (key size shmflg data : Z) : shm_region_s :=
  mkRegion (mkDs (Z.land shmflg IPC_MODE) size 0 pid 0) SRFLAG_INUSE key FALSE data.

Lemma find_hit s i r key : shm_ok s -> has_region s i r -> sr_key r = key -> key <> 0 ->
  scan_regions (fun x => sr_key x =? key) 0 (si_region s) = i.
Proof.
  intros H Hi <- Hk. assert (r <> zero_region) as Hnz by (by intros ->).
  destruct (scan_regions_spec (fun x => sr_key x =? sr_key r) 0 (si_region s))
    as [[_ Hno]|(j & x & -> & Hj & Hx & _)].
  - specialize (Hno i r Hi). cbn in Hno. apply Z.eqb_neq in Hno. done.
  - destruct (decide (i = j)) as [->|Hne]; [done|]. apply Z.eqb_eq in Hx.
    by destruct (so_apart s H i j r x Hne Hi Hj Hnz).
Qed.

Lemma find_miss s key : no_key s key ->
  scan_regions (fun x => sr_key x =? key) 0 (si_region s) = -1.
Proof.
  intros Hno. destruct (scan_regions_spec (fun x => sr_key x =? key) 0 (si_region s))
    as [[-> _]|(j & x & _ & Hj & Hx & _)]; [done|].
  apply Z.eqb_eq in Hx. by destruct (Hno j x Hj).
Qed.

(** Every way the creation of a segment ends: no entry free, no memory, or a new
    segment in an entry that was free, over a new block. *)
Lemma wp_shm_create s key size shmflg (Q : Z -> info -> Prop) :
  shm_ok s -> 0 <= size <= 2 ^ 30 -> Q (- ENOSPC) s -> Q (- ENOMEM) s ->
  (forall i data st' bytes, has_region s i zero_region -> pa_inv st' -> data <> 0 ->
     size <= bytes -> ~ live_block (si_pool s) data ->
     (forall a b, pa_block st' a b <-> pa_block (si_pool s) a b \/ (a = data /\ b = bytes)) ->
     Q i (with_region (s <| si_pool := st' |>) i (new_region key size shmflg data))) ->
  wp (shm_create alloc free pid key size shmflg) Q s.
Proof.
  intros H Hs Hq1 Hq2 Hq3. unfold shm_create, shm_reserve. apply wp_bind. wp_steps.
  destruct (scan_regions_spec (fun r => sr_flags r =? SRFLAG_AVAILABLE) 0 (si_region s))
    as [[-> _]|(i & r & -> & Hi & Hr%Z.eqb_eq & _)]; [done|].
  pose proof (nthZ_Some_range _ _ _ Hi) as Hrange. rewrite Z.add_0_l.
  assert (r = zero_region) as ->.
  { destruct (so_region s H i r Hi) as [|Hu]; [done|].
    destruct (ur_flags _ _ Hu) as [E|E]; rewrite E in Hr; done. }
  destruct (Z.eqb_spec i (-1)); [lia|]. apply wp_bind. eapply wp_get_region; [done|].
  apply wp_bind, wp_put_region, wp_ret. rewrite (proj2 (Z.ltb_ge i 0)) by lia.
  apply wp_bind, wp_zoom. eapply wp_mono; [apply (pa_alloc_spec _ _ (so_pool s H) Hs)|].
  intros data st' [Hst' Hcase]. apply wp_bind.
  eapply wp_get_region; [by eapply (has_with_region s)|]. apply wp_bind, wp_put_region.
  simpl. destruct Hcase as [[-> ->]|(Hd & bytes & Hb & Hapart & Hblk)].
  - cbn [Z.eqb]. apply wp_bind. unfold shm_destroy. apply wp_bind.
    eapply wp_get_region; [by eapply has_with_region, (has_with_region s)|].
    cbn [sr_data Z.eqb negb when]. apply wp_bind, wp_ret, wp_put_region, wp_ret.
    pose proof (with_region_same s i zero_region Hi) as E. unfold with_region in *. simpl in *.
    rewrite !updZ_updZ. destruct s. by rewrite E.
  - destruct (Z.eqb_spec data 0) as [|_]; [done|].
    apply wp_bind. eapply wp_get_region; [by eapply has_with_region, (has_with_region s)|].
    apply wp_bind, wp_put_region, wp_ret.
    assert (~ live_block (si_pool s) data) as Hnew.
    { intros [b Hb']. pose proof (pa_block_pos _ _ _ (so_pool s H) Hb').
      pose proof (pa_block_pos st' data bytes Hst' (proj2 (Hblk _ _) (or_intror (conj eq_refl eq_refl)))).
      destruct (Hapart _ _ Hb'); lia. }
    specialize (Hq3 i data st' bytes Hi Hst' Hd Hb Hnew Hblk).
    unfold with_region in *. simpl in *. by rewrite !updZ_updZ.
Qed.

(** What [shm_extend] relies on: clearing memory leaves the allocator alone. *)
Hypothesis clear_spec : forall a n st, pa_inv st ->
  wp (clear a n) (fun _ st' => pa_inv st' /\ forall a b, pa_block st' a b <-> pa_block st a b) st.

(** The allocator's set-up leaves it in order, with no block live. *)
Hypothesis reset_spec : forall st, wp pool_reset (fun _ _ => True) st.
Hypothesis init_spec : forall st,
  wp pool_init (fun _ st' => pa_inv st' /\ forall a b, ~ pa_block st' a b) st.

(** The allocator's state may change as long as the blocks stay. *)
Lemma shm_ok_pool s st' : shm_ok s -> pa_inv st' ->
  (forall a b, pa_block st' a b <-> pa_block (si_pool s) a b) -> shm_ok (s <| si_pool := st' |>).
Proof.
  intros H Hst' Hblk.
  assert (forall a, live_block st' a <-> live_block (si_pool s) a) as Hlive
    by (unfold live_block; naive_solver).
  constructor; simpl; try apply H; [done| |].
  - intros i r Hi. destruct (so_region s H i r Hi) as [|[? ? ? [? ?] ?]]; [by left|right].
    constructor; try done. split; [done|]. by apply Hlive.
  - intros a Ha%Hlive. by apply (so_owned s H).
Qed.

Lemma shm_extend_keeps s i r size : shm_ok s -> has_region s i r -> r <> zero_region ->
  wp (shm_extend clear i size) (fun _ s' => shm_ok s' /\
    exists r', has_region s' i r' /\ r' <> zero_region) s.
Proof.
  intros H Hi Hnz. unfold shm_extend. apply wp_bind. eapply wp_get_region; [done|].
  assert (shm_ok s /\ exists r', has_region s i r' /\ r' <> zero_region) as Hsame by eauto.
  destruct (_ <? size); [|by apply wp_ret]. destruct (_ <? size); [by apply wp_ret|].
  apply wp_bind, wp_zoom. eapply wp_mono; [apply clear_spec, (so_pool s H)|].
  intros x st' [Hst' Hblk]. apply wp_bind, wp_put_region, wp_ret.
  pose proof (shm_ok_pool s st' H Hst' Hblk) as H'.
  destruct (so_region s H i r Hi) as [|Hu]; [done|].
  destruct (so_region _ H' i r Hi) as [|Hu']; [done|].
  assert (used_region (live_block st') (r <| sr_ds := sr_ds r <| shm_segsz := size |> |>)) as Hur
    by (destruct Hu'; by constructor).
  split; [by eapply (shm_ok_update (s <| si_pool := st' |>) i r)|].
  eexists. split; [by eapply (has_with_region (s <| si_pool := st' |>))|].
  by eapply used_nonzero.
Qed.

Lemma relink_keeps s i r : shm_ok s -> has_region s i r -> r <> zero_region ->
  shm_ok (with_region s i (r <| sr_flags := SRFLAG_INUSE |>)).
Proof.
  intros H Hi Hnz. destruct (so_region s H i r Hi) as [|Hu]; [done|].
  eapply shm_ok_update; [done|done| |done|done]. destruct Hu. constructor; try done. by left.
Qed.

Lemma shmget_locked_keeps s key size shmflg : shm_ok s -> key <> 0 -> 0 <= size <= 2 ^ 30 ->
  wp (shmget_locked alloc free clear pid key size shmflg) (fun _ s' => shm_ok s') s.
Proof.
  intros H Hk Hs. unfold shmget_locked, shm_find. wp_steps.
  destruct (scan_regions_spec (fun x => sr_key x =? key) 0 (si_region s))
    as [[-> Hno]|(i & r & -> & Hi & Hr & _)].
  - cbn [Z.ltb Z.compare]. destruct (negb _); [|by apply wp_ret].
    apply wp_shm_create; [done|done|done|done|]. intros i data st' bytes Hi Hst' Hd Hb Hnew Hblk.
    eapply (shm_ok_create s i _ st' bytes); [done|done|done|done|done| |].
    + constructor; cbn; [by left|done|done| |lia]. split; [done|].
      exists bytes. apply Hblk. by right.
    + intros j x Hx. specialize (Hno j x Hx). by apply Z.eqb_neq in Hno.
  - pose proof (nthZ_Some_range _ _ _ Hi). rewrite (proj2 (Z.ltb_ge (0 + i) 0)), Z.add_0_l by lia.
    apply Z.eqb_eq in Hr. assert (r <> zero_region) as Hnz by (intros ->; by apply Hk).
    apply wp_bind. eapply wp_get_region; [done|]. apply wp_bind.
    eapply (wp_mono _ (fun _ s' => shm_ok s' /\ exists r', has_region s' i r' /\ r' <> zero_region)).
    { destruct (_ <? size); [destruct (negb _)|]; [by eapply shm_extend_keeps|apply wp_ret; eauto..]. }
    intros e s' (H' & r' & Hi' & Hnz'). destruct (e <? 0); [by apply wp_ret|].
    apply wp_bind. eapply wp_get_region; [done|]. apply wp_bind, wp_put_region, wp_ret.
    by apply relink_keeps.
Qed.
End runs.

(** ** shmget as a whole *)

Section shmget_keeps.
Context {St : Type} {alloc free : Z -> M St Z} {PA : PageAllocator St alloc free}.
Context (clear : Z -> Z -> M St unit) (pool_reset pool_init : M St unit) (pid : Z).
Hypothesis clear_spec : forall a n st, pa_inv st ->
  wp (clear a n) (fun _ st' => pa_inv st' /\ forall a b, pa_block st' a b <-> pa_block st a b) st.
Hypothesis reset_spec : forall st, wp pool_reset (fun _ _ => True) st.
Hypothesis init_spec : forall st,
  wp pool_init (fun _ st' => pa_inv st' /\ forall a b, ~ pa_block st' a b) st.

Lemma shm_ok_relock (lk lk' : Z) (s : shm_info_s St) :
  shm_ok lk s -> shm_ok lk' (s <| si_lock := lk' |>).
Proof. intros []. by constructor. Qed.

(** The table right after its first initialisation. *)
Lemma shm_ok_initial (st : St) lk : pa_inv st -> (forall a b, ~ pa_block st a b) ->
  shm_ok lk (mkInfo _ lk 1 st (replicate (Z.to_nat CONFIG_ARCH_SHM_MAXREGIONS) zero_region)).
Proof.
  intros Hst Hno.
  assert (forall i r, nthZ (replicate (Z.to_nat CONFIG_ARCH_SHM_MAXREGIONS) zero_region) i = Some r ->
    r = zero_region) as Hz.
  { intros i r Hi. pose proof (nthZ_Some_range _ _ _ Hi) as Hr. rewrite lenZ_replicate in Hr.
    rewrite nthZ_replicate in Hi by done. by injection Hi. }
  constructor; cbn [si_pool si_region si_lock shm_init_flag].
  - done.
  - by rewrite lenZ_replicate.
  - done.
  - done.
  - intros i r Hi. left. by eapply Hz.
  - intros i j r r' _ Hi _ Hnz. by apply Hz in Hi.
  - intros a [b Hb]. by destruct (Hno a b).
Qed.

(** [shmget] keeps the table in order, or puts it in order on first use. *)
Lemma shmget_keeps s key size shmflg :
  si_lock s = FALSE -> (shm_init_flag s <> 0 -> shm_ok FALSE s) -> key <> 0 ->
  0 <= size <= 2 ^ 30 ->
  wp (shmget alloc free clear pool_reset pool_init pid key size shmflg)
     (fun _ s' => shm_ok FALSE s') s.
Proof.
  intros Hl Hok Hk Hs. unfold shmget. destruct (Z.eqb_spec key IPC_PRIVATE); [done|].
  apply wp_bind, wp_zoom, wp_spinlock_lock; [done|]. wp_steps. simpl.
  assert (forall s', shm_ok TRUE s' ->
    wp (let! shmid := shmget_locked alloc free clear pid key size shmflg in
        zoom si_lock spinlock_unlock ;; ret (if shmid <? 0 then -1 else shmid))
       (fun _ s'' => shm_ok FALSE s'') s') as Hrest.
  { intros s' Hs'. apply wp_bind.
    eapply wp_mono; [apply (shmget_locked_keeps clear pid TRUE clear_spec s'); done|].
    intros r s2 Hs2. apply wp_bind, wp_zoom, wp_spinlock_unlock, wp_ret.
    by apply (shm_ok_relock TRUE). }
  apply wp_when.
  - intros Hf%Z.eqb_eq. apply wp_bind. unfold shm_initialize. wp_steps. apply wp_zoom.
    eapply wp_mono; [apply reset_spec|]. intros ? st1 _. apply wp_bind, wp_zoom.
    eapply wp_mono; [apply init_spec|]. intros ? st2 [Hst2 Hno].
    apply wp_modify, Hrest. simpl. by apply shm_ok_initial.
  - intros Hf%Z.eqb_neq. apply Hrest, (shm_ok_relock FALSE). by apply Hok.
Qed.
End shmget_keeps.

(** ** The table over the shared pool *)

(** [lk_memset(&g_shminfo->shm_free_mem_mgt, 0, sizeof(MM))] *)
Definition shm_reset : M shm_pool unit :=
  modify (fun s => s <| shm_free_mem_mgt := mkMM 0 0 0 0 0 0 [] 0 [] 0 |>).

Definition shm_clear (address size : Z) : M shm_pool unit :=
  modify (fun s => s <| shm_ram := lk_memset (shm_ram s) address 0 size |>).

Inductive shm_call : Set :=
| Get (key size shmflg : Z)
| At (shmid : Z)
| Dt (shmaddr : Z)
| Ctl (shmid cmd : Z) (buf : option shmid_ds).

(** The result of a call, as the system call returns it. *)
Definition run_call (pid : Z) (c : shm_call) : M (shm_info_s shm_pool) Z :=
  match c with
  | Get key size shmflg =>
      shmget shm_alloc shm_free shm_clear shm_reset shm_free_mem_init pid key size shmflg
  | At shmid => shmat pid shmid
  | Dt shmaddr => shmdt shm_free pid shmaddr
  | Ctl shmid cmd buf => let! '(r, _) := shmctl shm_free pid shmid cmd buf in ret r
  end.

(** Segments of up to 1 GiB; IPC_SET with a buffer (NULL is followed). *)
Definition call_ok (c : shm_call) : Prop :=
  match c with
  | Get _ size _ => 0 <= size <= 2 ^ 30
  | Ctl _ cmd buf => cmd = IPC_SET -> buf <> None
  | _ => True
  end.

(** The table: never used, or in order. *)
Definition shm_state_ok (s : shm_info_s shm_pool) : Prop :=
  (shm_init_flag s = 0 /\ si_lock s = FALSE /\
   si_region s = replicate (Z.to_nat CONFIG_ARCH_SHM_MAXREGIONS) zero_region) \/
  shm_ok FALSE s.

(** The calls, each made by some thread. *)
Fixpoint run_calls (cs : list (Z * shm_call)) : M (shm_info_s shm_pool) (list Z) :=
  match cs with
  | [] => ret []
  | (pid, c) :: cs' =>
      let! r := run_call pid c in
      let! rs := run_calls cs' in
      ret (r :: rs)
  end.

Lemma wp_shm_clear a n st : pa_inv st -> wp (shm_clear a n)
  (fun _ st' => pa_inv st' /\ forall a b, pa_block st' a b <-> pa_block st a b) st.
Proof. done. Qed.

Lemma wp_shm_free_mem_init st :
  wp shm_free_mem_init (fun _ st' => pa_inv st' /\ forall a b, ~ pa_block st' a b) st.
Proof.
  destruct (shm_free_mem_init_spec st) as (m & Hrun & Hm & Hno).
  eapply (proj2 (wp_Ok _ _ _)).
  eexists _, _.
  split; [exact Hrun|].
  split; [exact Hm|].
  exact Hno.
Qed.

(** A table that was never used has nothing but zero regions. *)
Lemma unused_table (s : shm_info_s shm_pool) :
  si_region s = replicate (Z.to_nat CONFIG_ARCH_SHM_MAXREGIONS) zero_region ->
  lenZ (si_region s) = CONFIG_ARCH_SHM_MAXREGIONS /\
  forall i r, has_region s i r -> r = zero_region.
Proof.
  intros Hr. unfold has_region. rewrite Hr, lenZ_replicate. split; [done|]. intros i r Hi.
  pose proof (nthZ_Some_range _ _ _ Hi) as Hrange. rewrite lenZ_replicate in Hrange.
  rewrite nthZ_replicate in Hi by done. by injection Hi.
Qed.

Lemma run_call_keeps pid c s : shm_state_ok s -> call_ok c ->
  wp (run_call pid c) (fun _ s' => shm_state_ok s') s.
Proof.
  intros Hs Hc. destruct c as [key size shmflg|i|a|i cmd buf]; cbn [run_call call_ok] in *.
  - destruct (decide (key = IPC_PRIVATE)) as [->|Hk]; [done|].
    eapply wp_mono; [apply shmget_keeps; [apply wp_shm_clear|done|apply wp_shm_free_mem_init|..]|].
    + destruct Hs as [(_ & ? & _)|H]; [done|apply H].
    + intros Hf. by destruct Hs as [(? & _)|H].
    + done.
    + done.
    + intros r s' H'. by right.
  - destruct Hs as [Hz|H]; [pose proof (unused_table s (proj2 (proj2 Hz))) as [Hlen Hall]|];
      (eapply wp_mono; [first [by apply shmat_keeps|by apply wp_shmat_bad; eauto]|]).
    + intros x s' [_ ->]. by left.
    + intros x s' ?. by right.
  - destruct Hs as [Hz|H]; [pose proof (unused_table s (proj2 (proj2 Hz))) as [Hlen Hall]|];
      (eapply wp_mono; [first [by apply shmdt_keeps|by apply wp_shmdt_bad]|]).
    + intros x s' [_ ->]. by left.
    + intros x s' ?. by right.
  - apply wp_bind.
    destruct Hs as [Hz|H]; [pose proof (unused_table s (proj2 (proj2 Hz))) as [Hlen Hall]|];
      (eapply wp_mono; [first [by apply shmctl_keeps|by apply wp_shmctl_bad; eauto]|]).
    + intros x s' [-> ->]. apply wp_ret. by left.
    + intros [x y] s' ?. apply wp_ret. by right.
Qed.

(** C7: whatever calls the threads make, in whatever order, every one of them
    returns, and the table stays in order: segments in use have different keys
    and different blocks, unused entries are zero, every live block of the pool
    belongs to exactly one segment, so none leaks and none is shared, and all the
    locks are free again. *)
Theorem shm_calls_keep_table cs s :
  shm_state_ok s -> Forall (fun pc => call_ok (snd pc)) cs ->
  exists rs s', run_calls cs s = Ok (rs, s') /\ shm_state_ok s'.
Proof.
  revert s. induction cs as [|[pid c] cs IH]; intros s Hs Hcs; cbn [run_calls].
  - by exists [], s.
  - inversion Hcs as [|? ? Hc Hcs']; subst. cbn in Hc.
    pose proof (run_call_keeps pid c s Hs Hc) as (r & s1 & Hr & Hs1)%wp_Ok.
    destruct (IH s1 Hs1 Hcs') as (rs & s' & Hrs & Hs').
    exists (r :: rs), s'. unfold bind. by rewrite Hr, Hrs.
Qed.

(** A table over the small pool of five pages. *)
Definition small_table : shm_info_s shm_pool :=
  mkInfo _ FALSE 1 (mkPool small_pool (fun _ => 0xAA))
    (replicate (Z.to_nat CONFIG_ARCH_SHM_MAXREGIONS) zero_region).

Lemma small_pool_empty rm a b : ~ kernel_block (as_kmem (mkPool small_pool rm)) a b.
Proof.
  intros (p & e & _ & _ & He & Hne). cbn in He.
  change (nthZ (replicate 5 0xFF) p = Some e) in He.
  pose proof (nthZ_Some_range _ _ _ He) as Hr. rewrite lenZ_replicate in Hr.
  rewrite nthZ_replicate in He by done. congruence.
Qed.

Lemma small_table_ok : shm_ok FALSE small_table.
Proof. apply shm_ok_initial; [apply small_pool_inv|apply small_pool_empty]. Qed.

Lemma shm_calls_keep_table_witness :
  let cs := [(7, Get 1 4096 IPC_CREAT); (7, At 0); (8, Get 1 100 0); (8, Ctl 0 IPC_RMID None);
             (7, Dt 0x14000)] in
  exists rs s', run_calls cs small_table = Ok (rs, s') /\ shm_state_ok s'.
Proof.
  intros cs. apply shm_calls_keep_table; [right; apply small_table_ok|].
  repeat constructor; cbn; lia || done.
Defined.

(** C32: attaching to a segment gives its address and counts the attachment;
    detaching at that address takes the count back and leaves the segment, the
    other segments and the pool as they were, but for the record of the last
    caller. *)
Theorem attach_detach_roundtrip s i r pid pid' :
  shm_ok FALSE s -> has_region s i r -> used_region (live_block (si_pool s)) r ->
  shm_nattch (sr_ds r) < 2 ^ 16 - 1 -> 0 < shm_nattch (sr_ds r) \/ unlinked r = false ->
  exists s1, shmat pid i s = Ok (sr_data r, s1) /\
    shmdt shm_free pid' (sr_data r) s1 =
      Ok (0, with_region s i (r <| sr_ds := sr_ds r <| shm_lpid := pid' |> |>)).
Proof.
  intros H Hi Hu Hn Hun. pose proof (ur_nattch _ _ Hu) as Hn0.
  assert (wp (shmat pid i) (fun a s1 => a = sr_data r /\ s1 = with_region s i (attached pid r)) s)
    as (a & s1 & Hat & -> & ->)%wp_Ok by by eapply wp_shmat.
  eexists. split; [exact Hat|].
  assert (used_region (live_block (si_pool s)) (attached pid r)) as Hu1 by by apply attached_used.
  assert (shm_ok FALSE (with_region s i (attached pid r))) as H1 by by eapply shm_ok_update.
  set (s' := with_region s i (r <| sr_ds := sr_ds r <| shm_lpid := pid' |> |>)).
  assert (wp (shmdt shm_free pid' (sr_data (attached pid r))) (fun x s2 => x = 0 /\ s2 = s')
            (with_region s i (attached pid r))) as (x & s2 & Hdt & -> & ->)%wp_Ok; [|exact Hdt].
  assert (shm_nattch (sr_ds (attached pid r)) = shm_nattch (sr_ds r) + 1) as Hatt
    by (simpl; apply u16_small; lia).
  eapply wp_shmdt; [done|by eapply has_with_region|done|lia| |].
  - intros Hone Hunl. rewrite Hatt in Hone. destruct Hun as [|Hun]; [lia|].
    change (unlinked r = true) in Hunl. congruence.
  - intros _ _. split; [done|]. rewrite with_region_twice. unfold s', detached. f_equal.
    simpl. f_equal. f_equal. rewrite u16_small; lia.
Qed.

(** The small table with a segment of key 5, one page at the end of the pool,
    attached [n] times. *)
Definition small_segment (n : Z) : shm_region_s :=
  mkRegion (mkDs 0 4096 0 7 n) SRFLAG_INUSE 5 FALSE 0x14000.

Definition small_shared (n : Z) : shm_info_s shm_pool :=
  mkInfo _ FALSE 1
    (mkPool (small_pool <| used_size := 4096 |> <| block_index := [0xFF; 0xFF; 0xFF; 0xFF; 0] |>
       <| bitmaps := [mkBITMAP 0x8035 [0] 0; mkBITMAP 0x8036 [0] 0; mkBITMAP 0x8037 [1] 1] |>)
       (fun _ => 0xAA))
    (updZ (replicate (Z.to_nat CONFIG_ARCH_SHM_MAXREGIONS) zero_region) 0 (small_segment n)).

Lemma small_shared_pool n : pool_inv (shm_free_mem_mgt (si_pool (small_shared n))).
Proof.
  destruct (proj1 (wp_Ok _ _ _) (wp_az_alloc small_kmem 4096 small_kmem_inv ltac:(lia)))
    as (r & k' & Hrun & [Hk' _] & _).
  assert (match az_alloc 4096 small_kmem with
          | Ok (_, k') => g_free_memory k'
          | Fault _ => small_pool
          end = shm_free_mem_mgt (si_pool (small_shared n))) as E by (vm_compute; reflexivity).
  rewrite Hrun in E. by rewrite <- E.
Qed.

Lemma small_shared_block n a b :
  pa_block (si_pool (small_shared n)) a b <-> a = 0x14000 /\ b = 4096.
Proof.
  split.
  - intros (p & e & -> & -> & He & Hne). change (nthZ [0xFF; 0xFF; 0xFF; 0xFF; 0] p = Some e) in He.
    pose proof (nthZ_Some_range _ _ _ He) as Hr. change (lenZ _) with 5 in Hr.
    assert (p = 0 \/ p = 1 \/ p = 2 \/ p = 3 \/ p = 4) as Hp by lia.
    repeat destruct Hp as [->|Hp]; try subst p; cbv in He; injection He as <-; done.
  - intros [-> ->]. exists 4, 0. done.
Qed.

Lemma small_segment_used n : 0 <= n < 2 ^ 16 ->
  used_region (live_block (si_pool (small_shared n))) (small_segment n).
Proof.
  intros Hn. constructor; cbn [small_segment sr_flags sr_key sr_lock sr_data sr_ds shm_nattch];
    [by left|done|done| |done].
  split; [done|]. exists 4096. by apply small_shared_block.
Qed.

Lemma small_shared_ok n : 0 <= n < 2 ^ 16 -> shm_ok FALSE (small_shared n).
Proof.
  intros Hn.
  apply (shm_ok_create small_table 0 (small_segment n) (si_pool (small_shared n)) 4096).
  - apply small_table_ok.
  - done.
  - apply small_shared_pool.
  - intros a b. rewrite small_shared_block. split; [by right|].
    intros [Hb|?]; [|done]. by apply small_pool_empty in Hb.
  - intros [b Hb]. by apply small_pool_empty in Hb.
  - by apply small_segment_used.
  - intros j x Hx. apply (unused_table small_table eq_refl) in Hx. by subst x.
Qed.

Lemma attach_detach_roundtrip_witness :
  exists s1, shmat 7 0 (small_shared 0) = Ok (0x14000, s1) /\
    shmdt shm_free 8 0x14000 s1 =
      Ok (0, with_region (small_shared 0) 0
               (small_segment 0 <| sr_ds := mkDs 0 4096 8 7 0 |>)).
Proof.
  apply (attach_detach_roundtrip (small_shared 0) 0 (small_segment 0) 7 8);
    [by apply small_shared_ok|done|by apply small_segment_used|cbn; lia|by right].
Defined.

(** ** Removal of an attached segment *)

(** Processes [pids], one after the other, detach from the segment at [a]. *)
Fixpoint detaches (pids : list Z) (a : Z) : M (shm_info_s shm_pool) (list Z) :=
  match pids with
  | [] => ret []
  | pid :: pids =>
      let! x := shmdt shm_free pid a in
      let! xs := detaches pids a in
      ret (x :: xs)
  end.

(** Segment [i] of [s] is the one of [s0], marked for removal, with [n]
    attachments; nothing else has changed. *)
Record marked_for_removal (s0 : shm_info_s shm_pool) (i n : Z) (r : shm_region_s)
    (s : shm_info_s shm_pool) : Prop := {
  mr_ok : shm_ok FALSE s;
  mr_region : exists r', has_region s i r' /\ used_region (live_block (si_pool s)) r' /\
    sr_data r' = sr_data r /\ sr_key r' = sr_key r /\ unlinked r' = true /\
    shm_nattch (sr_ds r') = n;
  mr_pool : si_pool s = si_pool s0;
  mr_others j : j <> i -> nthZ (si_region s) j = nthZ (si_region s0) j
}.

(** Segment [i] of [s0] is gone, with its block and nothing else. *)
Record removed (s0 : shm_info_s shm_pool) (i : Z) (r : shm_region_s)
    (s : shm_info_s shm_pool) : Prop := {
  rm_ok : shm_ok FALSE s;
  rm_region : has_region s i zero_region;
  rm_blocks a b : pa_block (si_pool s) a b <-> pa_block (si_pool s0) a b /\ a <> sr_data r;
  rm_others j : j <> i -> nthZ (si_region s) j = nthZ (si_region s0) j
}.

Lemma marked_detach s0 i n r s pid : marked_for_removal s0 i n r s -> 0 < n ->
  wp (shmdt shm_free pid (sr_data r)) (fun x s' => x = 0 /\
    if n =? 1 then removed s0 i r s' else marked_for_removal s0 i (n - 1) r s') s.
Proof.
  intros [H (r' & Hi & Hu & Hd & Hk & Hun & <-) Hp Ho] Hn. rewrite <- Hd.
  eapply wp_shmdt; [exact H|exact Hi|exact Hu|lia|..].
  - intros E _ st' Hst' Hblk. rewrite E, Z.eqb_refl. split; [done|]. split.
    + eapply (shm_ok_destroy s i r'); [done|done|by eapply used_nonzero|done|done].
    + by eapply (has_with_region (s <| si_pool := st' |>)).
    + rewrite <- Hp, <- Hd. exact Hblk.
    + intros j Hj. simpl. rewrite nthZ_updZ_ne by done. by apply Ho.
  - intros _ [Hne|Hf]; [|congruence]. rewrite (proj2 (Z.eqb_neq _ 1) Hne). split; [done|]. split.
    + eapply shm_ok_update; [done|done|by apply detached_used|done|done].
    + exists (detached pid r'). split_and!; [by eapply has_with_region|by apply detached_used|done..].
    + done.
    + intros j Hj. simpl. rewrite nthZ_updZ_ne by done. by apply Ho.
Qed.

Lemma lenZ_cons_pids (pid : Z) pids : lenZ (pid :: pids) = 1 + lenZ pids /\ 0 <= lenZ pids.
Proof. unfold lenZ. cbn [length]. lia. Qed.

Lemma marked_detaches s0 i r pids : forall n s, marked_for_removal s0 i n r s -> 0 < n ->
  lenZ pids <= n ->
  wp (detaches pids (sr_data r)) (fun xs s' => xs = replicate (length pids) 0 /\
    if lenZ pids =? n then removed s0 i r s' else marked_for_removal s0 i (n - lenZ pids) r s') s.
Proof.
  induction pids as [|pid pids IH]; intros n s H Hn Hl; cbn [detaches].
  { apply wp_ret. split; [done|]. change (lenZ []) with 0. rewrite (proj2 (Z.eqb_neq 0 n)) by lia.
    by rewrite Z.sub_0_r. }
  destruct (lenZ_cons_pids pid pids) as [E Hl0]. rewrite E in *. apply wp_bind.
  eapply wp_mono; [by apply (marked_detach _ _ _ _ _ pid H)|]. intros x s1 [-> H1].
  destruct (Z.eqb_spec n 1) as [->|Hne].
  - destruct pids as [|q pids]; [|destruct (lenZ_cons_pids q pids); lia].
    apply wp_bind, wp_ret, wp_ret. done.
  - apply wp_bind. eapply wp_mono; [apply (IH (n - 1) s1); [done|lia|lia]|].
    intros xs s2 [-> H2]. apply wp_ret. split; [done|].
    destruct (Z.eqb_spec (lenZ pids) (n - 1)), (Z.eqb_spec (1 + lenZ pids) n); try lia; [done|].
    by replace (n - (1 + lenZ pids)) with (n - 1 - lenZ pids) by lia.
Qed.

(** C31: removing an attached segment waits for the last detachment, whatever the
    number of attachments.  [IPC_RMID] marks the segment and touches nothing else;
    every detachment but the last leaves it marked, its data in place and the pool
    as it was; the last one destroys it: its entry is zero again, its block, and no
    other, is back in the pool, and the other segments are untouched. *)
Theorem removal_waits_for_last_detach s i r pid buf :
  shm_ok FALSE s -> has_region s i r -> used_region (live_block (si_pool s)) r ->
  0 < shm_nattch (sr_ds r) ->
  exists s1, shmctl shm_free pid i IPC_RMID buf s = Ok ((0, buf), s1) /\
    marked_for_removal s i (shm_nattch (sr_ds r)) r s1 /\
    forall pids, lenZ pids <= shm_nattch (sr_ds r) ->
      exists s2, detaches pids (sr_data r) s1 = Ok (replicate (length pids) 0, s2) /\
        if lenZ pids =? shm_nattch (sr_ds r) then removed s i r s2
        else marked_for_removal s i (shm_nattch (sr_ds r) - lenZ pids) r s2.
Proof.
  intros H Hi Hu Hn.
  set (r1 := controlled pid r (shm_mode (sr_ds r)) (Z.lor SRFLAG_INUSE SRFLAG_UNLINKED)).
  assert (wp (shmctl shm_free pid i IPC_RMID buf)
            (fun x s1 => x = (0, buf) /\ s1 = with_region s i r1) s) as (x & s1 & Hctl & -> & ->)%wp_Ok.
  { eapply wp_shmctl; [exact H|exact Hi|exact Hu|done|..]; try done.
    - intros [[? _]|(_ & _ & ?)]; done.
    - lia. }
  assert (used_region (live_block (si_pool s)) r1) as Hu1.
  { destruct Hu. constructor; try done. by right. }
  assert (marked_for_removal s i (shm_nattch (sr_ds r)) r (with_region s i r1)) as Hm.
  { split; [by eapply shm_ok_update| |done|intros j Hj; simpl; by rewrite nthZ_updZ_ne].
    exists r1. split_and!; [by eapply has_with_region|done..]. }
  eexists. split_and!; [exact Hctl|exact Hm|]. intros pids Hl.
  destruct (proj1 (wp_Ok _ _ _) (marked_detaches s i r pids _ _ Hm Hn Hl)) as (xs & s2 & Hrun & -> & ?).
  by exists s2.
Qed.

(** A segment with three attachments. *)
Lemma removal_waits_for_last_detach_witness :
  exists s1, shmctl shm_free 7 0 IPC_RMID None (small_shared 3) = Ok ((0, None), s1) /\
    marked_for_removal (small_shared 3) 0 3 (small_segment 3) s1 /\
    forall pids, lenZ pids <= 3 ->
      exists s2, detaches pids 0x14000 s1 = Ok (replicate (length pids) 0, s2) /\
        if lenZ pids =? 3 then removed (small_shared 3) 0 (small_segment 3) s2
        else marked_for_removal (small_shared 3) 0 (3 - lenZ pids) (small_segment 3) s2.
Proof.
  apply (removal_waits_for_last_detach (small_shared 3) 0 (small_segment 3) 7 None);
    [by apply small_shared_ok|done|by apply small_segment_used|done].
Defined.

(** ** Growing a segment *)

Lemma kernel_block_unique k a b b' : kernel_block k a b -> kernel_block k a b' -> b = b'.
Proof.
  intros (p & e & -> & -> & He & _) (p' & e' & Ha & -> & He' & _).
  assert (p' = p) as -> by lia. congruence.
Qed.

Lemma buddy_size_exact l : 0 <= l <= 17 ->
  shm_get_buddy_block_size (4096 * 2 ^ l) = 4096 * 2 ^ (l + 1).
Proof.
  intros Hl. unfold shm_get_buddy_block_size.
  assert (forall d i n, 0 <= i -> i + Z.of_nat d = l + 1 ->
    buddy_size_loop (d + S n) i (4096 * 2 ^ l) = 4096 * 2 ^ (l + 1)) as H.
  { intros d. induction d as [|d IH]; intros i n Hi Hd; cbn [Nat.add buddy_size_loop];
      rewrite page_shift_small by lia.
    - assert (i = l + 1) as -> by lia. rewrite (proj2 (Z.ltb_lt _ _)); [done|].
      rewrite pow2_succ by lia. pose proof (pow2_pos l). lia.
    - pose proof (pow2_mono i l ltac:(lia)). rewrite (proj2 (Z.ltb_ge _ _)) by lia.
      apply IH; lia. }
  replace 32%nat with (Z.to_nat (l + 1) + S (Z.to_nat (30 - l)))%nat by lia. apply H; lia.
Qed.

(** C40: a segment that fills its block can be grown to twice its size without
    getting any memory: [shm_get_buddy_block_size] takes the block to be twice as
    large as it is, so [shmget] succeeds and allocates nothing.  The segment is
    then larger than its block, which is still the only one it has, and the bytes
    from the end of the block to the new end of the segment, whoever owns them, are
    cleared. *)
Theorem grow_overruns_block s i r l size pid :
  shm_ok FALSE s -> has_region s i r -> used_region (live_block (si_pool s)) r ->
  0 <= l <= 17 -> shm_segsz (sr_ds r) = 4096 * 2 ^ l ->
  pa_block (si_pool s) (sr_data r) (4096 * 2 ^ l) ->
  4096 * 2 ^ l < size <= 4096 * 2 ^ (l + 1) ->
  exists s', run_call pid (Get (sr_key r) size IPC_CREAT) s = Ok (i, s') /\
    (exists r', has_region s' i r' /\ sr_data r' = sr_data r /\ shm_segsz (sr_ds r') = size /\
      forall b, pa_block (si_pool s') (sr_data r') b -> b < size) /\
    shm_free_mem_mgt (si_pool s') = shm_free_mem_mgt (si_pool s) /\
    forall a, shm_ram (si_pool s') a =
      if decide (sr_data r + 4096 * 2 ^ l <= a < sr_data r + size) then 0
      else shm_ram (si_pool s) a.
Proof.
  intros H Hi Hu Hl Hseg Hblk Hsize. pose proof (ur_key _ _ Hu) as Hk.
  pose proof (level_bytes (l + 1) ltac:(lia)) as Hlb. pose proof (pow2_pos l ltac:(lia)).
  pose proof (nthZ_Some_range _ _ _ Hi) as Hrange.
  pose proof (so_lock _ _ H) as Hlock. pose proof (so_flag _ _ H) as Hflag.
  assert ((4096 * 2 ^ l <? size) = true) as Hlt by (apply Z.ltb_lt; lia).
  assert ((4096 * 2 ^ (l + 1) <? size) = false) as Hge by (apply Z.ltb_ge; lia).
  set (st' := si_pool s <| shm_ram := lk_memset (shm_ram (si_pool s))
    (sr_data r + 4096 * 2 ^ l) 0 (size - 4096 * 2 ^ l) |>).
  set (r' := r <| sr_ds := sr_ds r <| shm_segsz := size |> |> <| sr_flags := SRFLAG_INUSE |>).
  assert (wp (run_call pid (Get (sr_key r) size IPC_CREAT))
            (fun x t => x = i /\ t = with_region (s <| si_pool := st' |>) i r') s)
    as (x & t & Hrun & -> & ->)%wp_Ok.
  - cbn [run_call]. unfold shmget. destruct (Z.eqb_spec (sr_key r) IPC_PRIVATE); [contradiction|].
    apply wp_bind, wp_zoom, wp_spinlock_lock; [done|]. wp_steps. simpl.
    destruct (Z.eqb_spec (shm_init_flag s) 0); [contradiction|]. cbn [when]. wp_steps.
    unfold shmget_locked, shm_find. wp_steps. simpl. rewrite (find_hit FALSE s i r _ H Hi eq_refl Hk).
    rewrite (proj2 (Z.ltb_ge i 0)) by lia. apply wp_bind. eapply wp_get_region; [done|].
    rewrite Hseg, Hlt.
    apply wp_bind. change (negb (Z.land IPC_CREAT IPC_CREAT =? 0)) with true. cbn iota.
    unfold shm_extend. apply wp_bind.
    eapply wp_get_region; [done|].
    rewrite Hseg, Hlt.
    rewrite (buddy_size_exact l Hl), Hge.
    apply wp_bind, wp_zoom, wp_modify, wp_bind, wp_put_region, wp_ret. cbn [Z.ltb Z.compare].
    apply wp_bind. eapply wp_get_region; [apply nthZ_updZ_eq; exact Hrange|].
    apply wp_bind, wp_put_region, wp_ret, wp_bind, wp_zoom, wp_spinlock_unlock, wp_ret.
    rewrite (proj2 (Z.ltb_ge i 0)), s32_small by lia. split; [done|].
    unfold with_region, st', r'. simpl. rewrite updZ_updZ, Hlock. done.
  - eexists. split; [exact Hrun|]. split_and!; [|done|].
    { exists r'. split_and!; [by eapply (has_with_region (s <| si_pool := st' |>))|done|done|].
      intros b Hb. rewrite (kernel_block_unique _ _ _ _ Hb Hblk). lia. }
    intros a. simpl. rewrite lk_memset_lookup by lia. repeat case_decide; try done; lia.
Qed.

Lemma grow_overruns_block_witness :
  exists s', run_call 7 (Get 5 8192 IPC_CREAT) (small_shared 1) = Ok (0, s') /\
    (exists r', has_region s' 0 r' /\ sr_data r' = 0x14000 /\ shm_segsz (sr_ds r') = 8192 /\
      forall b, pa_block (si_pool s') (sr_data r') b -> b < 8192) /\
    shm_free_mem_mgt (si_pool s') = shm_free_mem_mgt (si_pool (small_shared 1)) /\
    forall a, shm_ram (si_pool s') a =
      if decide (0x14000 + 4096 * 2 ^ 0 <= a < 0x14000 + 8192) then 0 else 0xAA.
Proof.
  apply (grow_overruns_block (small_shared 1) 0 (small_segment 1) 0 8192 7);
    [by apply small_shared_ok|done|by apply small_segment_used|lia|done| |cbn; lia].
  by apply small_shared_block.
Defined.

(** A key that has a segment large enough: it is found, and marked in use. *)
Lemma wp_shmget_found s i r size flags pid (Q : Z -> shm_info_s shm_pool -> Prop) :
  shm_ok FALSE s -> has_region s i r -> sr_key r <> 0 -> size <= shm_segsz (sr_ds r) ->
  Q i (with_region s i (r <| sr_flags := SRFLAG_INUSE |>)) ->
  wp (run_call pid (Get (sr_key r) size flags)) Q s.
Proof.
  intros H Hi Hk Hsize HQ. pose proof (nthZ_Some_range _ _ _ Hi) as Hrange.
  pose proof (so_lock _ _ H) as Hlock. pose proof (so_flag _ _ H) as Hflag.
  cbn [run_call]. unfold shmget. destruct (Z.eqb_spec (sr_key r) IPC_PRIVATE); [contradiction|].
  apply wp_bind, wp_zoom, wp_spinlock_lock; [done|]. wp_steps. simpl.
  destruct (Z.eqb_spec (shm_init_flag s) 0); [contradiction|]. cbn [when]. wp_steps.
  unfold shmget_locked, shm_find. wp_steps. simpl. rewrite (find_hit FALSE s i r _ H Hi eq_refl Hk).
  rewrite (proj2 (Z.ltb_ge i 0)) by lia. apply wp_bind. eapply wp_get_region; [done|].
  rewrite (proj2 (Z.ltb_ge _ size)) by lia. apply wp_bind, wp_ret. cbn [Z.ltb Z.compare].
  apply wp_bind. eapply wp_get_region; [done|].
  apply wp_bind, wp_put_region, wp_ret, wp_bind, wp_zoom, wp_spinlock_unlock, wp_ret.
  rewrite (proj2 (Z.ltb_ge i 0)) by lia. unfold with_region in *. simpl in *. by rewrite Hlock in HQ.
Qed.

(** Asking twice for a key gives one segment.  When a creation succeeds, the
    key had no segment before; the new one has the size asked for, over a block
    at least that large; and from then on the same key with no larger size finds
    it again, whoever asks, and allocates nothing. *)
Theorem shmget_create_then_find s key size flags pid :
  shm_ok FALSE s -> key <> 0 -> 0 <= size <= 2 ^ 30 -> no_key s key ->
  Z.land flags IPC_CREAT <> 0 ->
  exists i s', run_call pid (Get key size flags) s = Ok (i, s') /\
    ((i = -1 /\ s' = s) \/
     (exists r bytes, has_region s' i r /\ sr_key r = key /\ shm_segsz (sr_ds r) = size /\
        pa_block (si_pool s') (sr_data r) bytes /\ size <= bytes /\
        ~ live_block (si_pool s) (sr_data r) /\
        forall pid' size' flags', size' <= size ->
          run_call pid' (Get key size' flags') s' = Ok (i, s'))).
Proof.
  intros H Hk Hsize Hno Hcreat. pose proof (so_lock _ _ H) as Hlock. pose proof (so_flag _ _ H) as Hflag.
  assert (wp (run_call pid (Get key size flags)) (fun i s' => (i = -1 /\ s' = s) \/
    exists data st' bytes, 0 <= i /\ has_region s i zero_region /\ pa_inv st' /\ data <> 0 /\
      size <= bytes /\ ~ live_block (si_pool s) data /\
      (forall a b, pa_block st' a b <-> pa_block (si_pool s) a b \/ (a = data /\ b = bytes)) /\
      s' = with_region (s <| si_pool := st' |>) i (new_region pid key size flags data)) s)
    as (i & s' & Hrun & Hcase)%wp_Ok.
  { cbn [run_call]. unfold shmget. destruct (Z.eqb_spec key IPC_PRIVATE); [done|].
    apply wp_bind, wp_zoom, wp_spinlock_lock; [done|]. wp_steps. simpl.
    destruct (Z.eqb_spec (shm_init_flag s) 0); [contradiction|]. cbn [when]. wp_steps.
    unfold shmget_locked, shm_find. wp_steps. simpl. rewrite (find_miss s key Hno).
    cbn [Z.ltb Z.compare]. rewrite (proj2 (Z.eqb_neq _ _) Hcreat). cbn [negb].
    eapply (wp_shm_create pid TRUE); [by apply (shm_ok_relock FALSE)|done|..].
    1,2: apply wp_bind, wp_zoom, wp_spinlock_unlock, wp_ret; left; split; [done|];
      simpl; rewrite <- Hlock; by destruct s.
    intros i data st' bytes Hi Hst' Hd Hb Hnew Hblk. pose proof (nthZ_Some_range _ _ _ Hi).
    apply wp_bind, wp_zoom, wp_spinlock_unlock, wp_ret. rewrite (proj2 (Z.ltb_ge i 0)) by lia.
    right. exists data, st', bytes. split_and!; [lia|done|done|done|done|done|done|].
    unfold with_region. simpl. by rewrite Hlock. }
  exists i, s'. split; [done|]. destruct Hcase as [?|(data & st' & bytes & Hi0 & Hi & Hst' & Hd & Hb & Hnew & Hblk & ->)];
    [by left|right].
  set (r := new_region pid key size flags data).
  assert (has_region (with_region (s <| si_pool := st' |>) i r) i r) as Hir
    by by eapply (has_with_region (s <| si_pool := st' |>)).
  exists r, bytes. split_and!; [done|done|done|apply Hblk; by right|done|done|].
  intros pid' size' flags' Hs'. set (s1 := with_region _ i r).
  assert (shm_ok FALSE s1) as H1.
  { eapply (shm_ok_create s i r st' bytes); [done|done|done|done|done| |exact Hno].
    constructor; cbn; [by left|done|done| |lia]. split; [done|]. exists bytes. apply Hblk. by right. }
  assert (wp (run_call pid' (Get (sr_key r) size' flags')) (fun x t => x = i /\ t = s1) s1)
    as (x & t & Hrun' & -> & ->)%wp_Ok; [|exact Hrun'].
  apply (wp_shmget_found s1 i r); [done|done|done|done|]. split; [done|].
  apply with_region_same. done.
Qed.

Lemma shmget_create_then_find_witness :
  exists i s', run_call 7 (Get 9 4096 IPC_CREAT) small_table = Ok (i, s') /\
    ((i = -1 /\ s' = small_table) \/
     (exists r bytes, has_region s' i r /\ sr_key r = 9 /\ shm_segsz (sr_ds r) = 4096 /\
        pa_block (si_pool s') (sr_data r) bytes /\ 4096 <= bytes /\
        ~ live_block (si_pool small_table) (sr_data r) /\
        forall pid' size' flags', size' <= 4096 ->
          run_call pid' (Get 9 size' flags') s' = Ok (i, s'))).
Proof.
  apply (shmget_create_then_find small_table 9 4096 IPC_CREAT 7);
    [apply small_table_ok|done|lia| |done].
  intros j x Hx. apply (unused_table small_table eq_refl) in Hx. by subst x.
Defined.
