(* ===== verification/DlList.v ===== *)
(** * Doubly-linked lists ([kernel/list.h])

    A circular list threaded through a heap of nodes, with a head that is a node
    too.  Each operation of [list.h] is a heap transformer that faults on a
    pointer to no node; [is_list h l xs] says that the list with head [l] holds
    the nodes [xs], in order.  The theorems say that the operations are the
    operations on sequences, and leave the lists they do not touch alone. *)

From S2P Require Import Prelude.

Record node := mkNode { next : Z; prev : Z }.

Notation heap := (gmap Z node).

(** [p->next], [p->prev] and the assignments to them. *)
Definition get_next (p : Z) : M heap Z := fun h =>
  match h !! p with Some n => Ok (next n, h) | None => Fault NullPointer end.

Definition get_prev (p : Z) : M heap Z := fun h =>
  match h !! p with Some n => Ok (prev n, h) | None => Fault NullPointer end.

Definition set_next (p q : Z) : M heap unit := fun h =>
  match h !! p with
  | Some n => Ok (tt, <[p := mkNode q (prev n)]> h)
  | None => Fault NullPointer
  end.

Definition set_prev (p q : Z) : M heap unit := fun h =>
  match h !! p with
  | Some n => Ok (tt, <[p := mkNode (next n) q]> h)
  | None => Fault NullPointer
  end.

(** ** The operations *)

Definition dl_list_init (lst : Z) : M heap unit :=
  set_next lst lst ;; set_prev lst lst.

Definition dl_list_add (item lst : Z) : M heap unit :=
  let! n := get_next lst in
  set_next item n ;;
  set_prev item lst ;;
  let! n := get_next lst in
  set_prev n item ;;
  set_next lst item.

Definition dl_list_add_tail (item lst : Z) : M heap unit :=
  let! p := get_prev lst in dl_list_add item p.

Definition dl_list_del (item : Z) : M heap unit :=
  let! n := get_next item in
  let! p := get_prev item in
  set_prev n p ;;
  let! p := get_prev item in
  let! n := get_next item in
  set_next p n ;;
  set_next item 0 ;;
  set_prev item 0.

Definition dl_list_del_init (item : Z) : M heap unit :=
  let! n := get_next item in
  let! p := get_prev item in
  set_prev n p ;;
  let! p := get_prev item in
  let! n := get_next item in
  set_next p n ;;
  set_next item item ;;
  set_prev item item.

Definition dl_list_empty (lst : Z) : M heap bool :=
  let! n := get_next lst in ret (n =? lst).

Definition dl_list_append (item lst : Z) : M heap unit :=
  let! e := dl_list_empty item in
  if e then ret tt
  else
    let! ip := get_prev item in
    set_next ip lst ;;
    let! lp := get_prev lst in
    let! inx := get_next item in
    set_next lp inx ;;
    let! inx := get_next item in
    let! lp := get_prev lst in
    set_prev inx lp ;;
    let! ip := get_prev item in
    set_prev lst ip.

(** [for (item = list->next; item != list; item = item->next) count++], with the
    nodes passed instead of their number; [fuel] bounds the rounds. *)
Fixpoint walk (fuel : nat) (item lst : Z) : M heap (list Z) :=
  if item =? lst then ret []
  else
    match fuel with
    | O => fail NoFuel
    | S fuel' =>
        let! n := get_next item in
        let! rest := walk fuel' n lst in
        ret (item :: rest)
    end.

Definition dl_list_len (fuel : nat) (lst : Z) : M heap Z :=
  let! n := get_next lst in
  let! items := walk fuel n lst in
  ret (lenZ items).

(** ** Lists in a heap *)

Definition nx (h : heap) (p : Z) : option Z := next <$> h !! p.

Definition pv (h : heap) (p : Z) : option Z := prev <$> h !! p.

(** [b] comes right after [a]. *)
Definition edge (h : heap) (a b : Z) : Prop := nx h a = Some b /\ pv h b = Some a.

(** From [a] through [xs] to [b]. *)
Fixpoint path (h : heap) (a : Z) (xs : list Z) (b : Z) : Prop :=
  match xs with
  | [] => edge h a b
  | x :: xs' => edge h a x /\ path h x xs' b
  end.

Definition is_list (h : heap) (l : Z) (xs : list Z) : Prop :=
  NoDup (l :: xs) /\ path h l xs l.

(** ** What the operations do to the pointers *)

(** A pointer function with one value changed. *)
Definition upd (f : Z -> option Z) (p q : Z) : Z -> option Z :=
  fun x => if decide (x = p) then Some q else f x.

(** A node exists. *)
Definition node_at (h : heap) (p : Z) : Prop := is_Some (h !! p).

Section pointers.
Implicit Types (h : heap) (p q : Z).

Lemma wp_get_next h p q (Q : Z -> heap -> Prop) : nx h p = Some q -> Q q h -> wp (get_next p) Q h.
Proof. unfold nx, wp, get_next. destruct (h !! p); [by intros [= ->]|done]. Qed.

Lemma wp_get_prev h p q (Q : Z -> heap -> Prop) : pv h p = Some q -> Q q h -> wp (get_prev p) Q h.
Proof. unfold pv, wp, get_prev. destruct (h !! p); [by intros [= ->]|done]. Qed.

Lemma wp_set_next h p q (Q : unit -> heap -> Prop) : node_at h p ->
  (forall h', (forall x, nx h' x = upd (nx h) p q x) -> (forall x, pv h' x = pv h x) -> Q tt h') ->
  wp (set_next p q) Q h.
Proof.
  intros [n Hn] HQ. unfold wp, set_next. rewrite Hn. apply HQ; intros x; unfold nx, pv, upd.
  - case_decide; [subst; by rewrite lookup_insert_eq|by rewrite lookup_insert_ne].
  - destruct (decide (x = p)) as [->|]; [by rewrite lookup_insert_eq, Hn|by rewrite lookup_insert_ne].
Qed.

Lemma wp_set_prev h p q (Q : unit -> heap -> Prop) : node_at h p ->
  (forall h', (forall x, nx h' x = nx h x) -> (forall x, pv h' x = upd (pv h) p q x) -> Q tt h') ->
  wp (set_prev p q) Q h.
Proof.
  intros [n Hn] HQ. unfold wp, set_prev. rewrite Hn. apply HQ; intros x; unfold nx, pv, upd.
  - destruct (decide (x = p)) as [->|]; [by rewrite lookup_insert_eq, Hn|by rewrite lookup_insert_ne].
  - case_decide; [subst; by rewrite lookup_insert_eq|by rewrite lookup_insert_ne].
Qed.

Lemma node_nx h p : node_at h p <-> is_Some (nx h p).
Proof. unfold node_at, nx. by rewrite fmap_is_Some. Qed.

Lemma node_pv h p : node_at h p <-> is_Some (pv h p).
Proof. unfold node_at, pv. by rewrite fmap_is_Some. Qed.

Lemma node_upd_nx h h' p q x :
  (forall x, nx h' x = upd (nx h) p q x) -> node_at h x -> node_at h' x.
Proof. intros E. rewrite !node_nx, E. unfold upd. case_decide; [eauto|done]. Qed.

Lemma node_upd_pv h h' p q x :
  (forall x, pv h' x = upd (pv h) p q x) -> node_at h x -> node_at h' x.
Proof. intros E. rewrite !node_pv, E. unfold upd. case_decide; [eauto|done]. Qed.
End pointers.

(** Reads a pointer through a chain of updates. *)
Ltac pointers :=
  unfold upd in *;
  repeat match goal with
         | H : forall x, nx ?h x = _ |- context [nx ?h _] => rewrite H
         | H : forall x, pv ?h x = _ |- context [pv ?h _] => rewrite H
         end;
  repeat case_decide; subst; try done.

(** ** What each operation writes *)

Section effects.
Implicit Types (h : heap) (Q : unit -> heap -> Prop).

Lemma wp_dl_list_init h l Q : node_at h l ->
  (forall h', (forall x, nx h' x = upd (nx h) l l x) ->
              (forall x, pv h' x = upd (pv h) l l x) -> Q tt h') ->
  wp (dl_list_init l) Q h.
Proof.
  intros Hl HQ. apply wp_bind, wp_set_next; [done|]. intros h1 N1 P1.
  apply wp_set_prev; [by eapply node_upd_nx|]. intros h2 N2 P2. apply HQ; intros x.
  - pointers.
  - pointers.
Qed.

Lemma wp_dl_list_add h item a n Q :
  node_at h item -> item <> a -> nx h a = Some n -> node_at h n ->
  (forall h', (forall x, nx h' x = upd (upd (nx h) item n) a item x) ->
              (forall x, pv h' x = upd (upd (pv h) item a) n item x) -> Q tt h') ->
  wp (dl_list_add item a) Q h.
Proof.
  intros Hi Hne Ha Hn HQ. apply wp_bind. eapply wp_get_next; [done|].
  apply wp_bind, wp_set_next; [done|]. intros h1 N1 P1.
  apply wp_bind, wp_set_prev; [by eapply node_upd_nx|]. intros h2 N2 P2.
  apply wp_bind. eapply (wp_get_next h2 a n).
  { rewrite N2, N1. unfold upd. by rewrite decide_False. }
  apply wp_bind, wp_set_prev; [by eapply node_upd_pv, node_upd_nx|]. intros h3 N3 P3.
  apply wp_set_next.
  { eapply node_upd_pv, node_upd_pv, node_upd_nx; try done. apply node_nx. by rewrite Ha. }
  intros h4 N4 P4. apply HQ; intros x.
  - pointers.
  - pointers.
Qed.

(** Removal of [item] between [p] and [n]; its own pointers become [q]. *)
Lemma wp_unlink h item p n q Q :
  nx h item = Some n -> pv h item = Some p -> node_at h n -> node_at h p ->
  (forall h', (forall x, nx h' x = upd (upd (nx h) p n) item q x) ->
              (forall x, pv h' x = upd (upd (pv h) n p) item q x) -> Q tt h') ->
  wp (let! n := get_next item in
      let! p := get_prev item in
      set_prev n p ;;
      let! p := get_prev item in
      let! n := get_next item in
      set_next p n ;;
      set_next item q ;;
      set_prev item q) Q h.
Proof.
  intros Hin Hip Hn Hp HQ. apply wp_bind. eapply wp_get_next; [done|].
  apply wp_bind. eapply wp_get_prev; [done|].
  apply wp_bind, wp_set_prev; [done|]. intros h1 N1 P1.
  apply wp_bind. eapply (wp_get_prev h1 item p).
  { rewrite P1. unfold upd. by case_decide. }
  apply wp_bind. eapply (wp_get_next h1 item n); [by rewrite N1|].
  assert (node_at h item) as Hi by (apply node_nx; by rewrite Hin).
  apply wp_bind, wp_set_next; [by eapply node_upd_pv|]. intros h2 N2 P2.
  apply wp_bind, wp_set_next; [by eapply node_upd_nx, node_upd_pv|]. intros h3 N3 P3.
  apply wp_set_prev; [by eapply node_upd_nx, node_upd_nx, node_upd_pv|]. intros h4 N4 P4.
  apply HQ; intros x.
  - pointers.
  - pointers.
Qed.
End effects.

(** ** Paths *)

Section paths.
Implicit Types (h : heap) (xs ys : list Z).

Lemma path_app h a xs y ys b : path h a (xs ++ y :: ys) b <-> path h a xs y /\ path h y ys b.
Proof.
  revert a. induction xs as [|x xs IH]; intros a; cbn; [done|]. rewrite IH. tauto.
Qed.

(** A path depends on the forward pointers of all but its last node and the
    backward pointers of all but its first. *)
Lemma path_frame h h' a xs b : path h a xs b ->
  (forall x, x = a \/ x ∈ xs -> nx h' x = nx h x) ->
  (forall x, x = b \/ x ∈ xs -> pv h' x = pv h x) -> path h' a xs b.
Proof.
  revert a. induction xs as [|x xs IH]; cbn; intros a [Hn Hp] HN HP.
  - split; [rewrite HN; auto|rewrite HP; auto].
  - split; [split; [rewrite HN; auto|rewrite HP; [auto|right; set_solver]]|].
    + destruct Hn as [Hn Hx]. done.
    + destruct Hn as [Hn Hx]. done.
    + apply IH; [done|..]; intros y Hy; [apply HN|apply HP]; set_solver.
Qed.
End paths.

(** Only the pointers of nodes in [T] differ between [h] and [h'], and no node is
    lost. *)
Definition touches (T : list Z) (h h' : heap) : Prop :=
  (forall x, x ∉ T -> nx h' x = nx h x /\ pv h' x = pv h x) /\
  (forall x, node_at h x -> node_at h' x).

(** A list none of whose nodes is touched is still there. *)
Lemma is_list_untouched T h h' l xs : touches T h h' ->
  is_list h l xs -> (forall x, x ∈ l :: xs -> x ∉ T) -> is_list h' l xs.
Proof.
  intros HT [Hnd Hp] Hout. split; [done|].
  apply (path_frame h); [done|..]; intros x Hx; apply HT, Hout; set_solver.
Qed.

Lemma upd_Some f p q x : is_Some (f x) -> is_Some (upd f p q x).
Proof. unfold upd. case_decide; [eauto|done]. Qed.

Section lists.
Implicit Types (h : heap) (xs ys : list Z).

Lemma path_node h a xs b x : path h a xs b -> x = a \/ x ∈ xs \/ x = b -> node_at h x.
Proof.
  revert a. induction xs as [|y xs IH]; cbn; intros a Hp Hx.
  - destruct Hp as [Hn Hv]. destruct Hx as [->|[Hx| ->]]; [apply node_nx; by rewrite Hn|set_solver|].
    apply node_pv. by rewrite Hv.
  - destruct Hp as [[Hn Hv] Hp]. destruct Hx as [->|[Hx| ->]]; [apply node_nx; by rewrite Hn| |eauto].
    apply elem_of_cons in Hx as [->|Hx]; eapply IH; eauto.
Qed.

Lemma is_list_node h l xs x : is_list h l xs -> x ∈ l :: xs -> node_at h x.
Proof.
  intros [_ Hp] [->|Hx]%elem_of_cons; eapply path_node; eauto.
Qed.

(** The node after the head, and the one before it. *)
Lemma is_list_next h l xs : is_list h l xs -> nx h l = Some (hd l xs).
Proof. intros [_ Hp]. destruct xs; cbn in *; apply Hp. Qed.

Lemma last_default (z x y : Z) xs : List.last (z :: xs) x = List.last (z :: xs) y.
Proof. revert z. induction xs as [|w xs IH]; intros z; [done|]. apply IH. Qed.

Lemma last_cons xs (x y : Z) : List.last (x :: xs) y = List.last xs x.
Proof. destruct xs as [|z xs]; [done|]. exact (last_default z y x xs). Qed.

Lemma path_prev h a xs b : path h a xs b -> pv h b = Some (List.last xs a).
Proof.
  revert a. induction xs as [|x xs IH]; intros a; cbn; [by intros [_ ?]|].
  intros [_ Hp]. by rewrite (IH x Hp), <- (last_cons xs x a).
Qed.

Lemma is_list_prev h l xs : is_list h l xs -> pv h l = Some (List.last xs l).
Proof. intros [_ Hp]. by eapply path_prev. Qed.

(** A node put in after [a]. *)
Lemma path_insert h h' a xs b item : path h a xs b ->
  NoDup (a :: xs) -> b ∉ xs -> item ∉ b :: a :: xs ->
  (forall x, nx h' x = upd (upd (nx h) item (hd b xs)) a item x) ->
  (forall x, pv h' x = upd (upd (pv h) item a) (hd b xs) item x) ->
  path h' a (item :: xs) b.
Proof.
  rewrite NoDup_cons, !not_elem_of_cons. intros Hp [Ha Hnd] Hb (Hib & Hia & Hix) N P.
  assert (edge h' a item) as He.
  { split; [rewrite N; unfold upd; by rewrite decide_True|].
    rewrite P. unfold upd. destruct xs; cbn in *; repeat case_decide; set_solver. }
  destruct xs as [|x xs]; cbn in *.
  - split; [done|]. split; pointers.
  - destruct Hp as [[Hn Hv] Hp]. split; [done|]. split; [split; pointers; set_solver|].
    apply NoDup_cons in Hnd as [Hx Hnd].
    apply (path_frame h); [done|..]; intros y Hy; [rewrite N|rewrite P]; unfold upd;
      repeat case_decide; set_solver.
Qed.
End lists.

(** ** The operations on sequences *)

Lemma upd_ne f p q x : x <> p -> upd f p q x = f x.
Proof. intros. unfold upd. by rewrite decide_False. Qed.

(** The pointers of a node that is none of the nodes written. *)
Ltac untouched :=
  match goal with
  | H : forall x, nx ?h x = _ |- nx ?h _ = _ => rewrite H
  | H : forall x, pv ?h x = _ |- pv ?h _ = _ => rewrite H
  end; rewrite !upd_ne by set_solver; done.

Section sequences.
Implicit Types (h : heap) (xs ys : list Z).

Lemma wp_add h l xs item : is_list h l xs -> node_at h item -> item ∉ l :: xs ->
  wp (dl_list_add item l)
     (fun _ h' => is_list h' l (item :: xs) /\ touches (item :: l :: xs) h h') h.
Proof.
  intros Hl Hi Hout. pose proof Hl as [Hnd Hp]. pose proof (is_list_next _ _ _ Hl) as Hn.
  assert (hd l xs ∈ l :: xs) as Hhd by (destruct xs; cbn; set_solver).
  eapply wp_dl_list_add; [done|set_solver|done|by eapply is_list_node|].
  intros h' N P. split; [split|].
  - apply NoDup_cons in Hnd as [? ?]. rewrite !NoDup_cons, !not_elem_of_cons in *. set_solver.
  - apply NoDup_cons in Hnd as Hnd'. eapply path_insert; [done|done|tauto|set_solver|done|done].
  - split; [intros x Hx; split; untouched|]. intros x. rewrite !node_nx, N.
    intros. by apply upd_Some, upd_Some.
Qed.

(** The last node of a list that is not empty, split off. *)
Lemma last_split xs (l : Z) : xs = [] /\ List.last xs l = l \/
  exists ys a, xs = ys ++ [a] /\ List.last xs l = a.
Proof.
  destruct xs as [|x xs] using rev_ind; [by left|right].
  exists xs, x. split; [done|]. apply last_last.
Qed.

Lemma wp_add_tail h l xs item : is_list h l xs -> node_at h item -> item ∉ l :: xs ->
  wp (dl_list_add_tail item l)
     (fun _ h' => is_list h' l (xs ++ [item]) /\ touches (item :: l :: xs) h h') h.
Proof.
  intros Hl Hi Hout. unfold dl_list_add_tail.
  apply wp_bind. eapply wp_get_prev; [by apply is_list_prev|].
  destruct (last_split xs l) as [[-> ->]|(ys & a & -> & ->)]; [by apply wp_add|].
  pose proof Hl as [Hnd Hp]. apply path_app in Hp as [Hp1 Hp2].
  assert (nx h a = Some l) as Ha by apply Hp2.
  eapply wp_dl_list_add; [done|set_solver|done|eapply is_list_node; [done|set_solver]|].
  assert (a ∉ l :: ys /\ NoDup (l :: ys)) as [Ha' [Hl' _]%NoDup_cons].
  { rewrite app_comm_cons, NoDup_app in Hnd. set_solver. }
  intros h' N P. split; [split|].
  - rewrite app_comm_cons. apply NoDup_app.
    split_and!; [done|set_solver|apply NoDup_singleton].
  - replace ((ys ++ [a]) ++ [item]) with (ys ++ a :: [item]) by by rewrite <- app_assoc.
    apply path_app. split.
    + apply (path_frame h); [done|..]; intros x Hx; untouched.
    + eapply (path_insert h h' a [] l item Hp2); cbn; [|set_solver..| |]; try done.
      apply NoDup_singleton.
  - split; [intros x Hx; split; untouched|]. intros x. rewrite !node_nx, N.
    intros. by apply upd_Some, upd_Some.
Qed.

Lemma last_in xs (l : Z) : List.last xs l ∈ l :: xs.
Proof. destruct (last_split xs l) as [[-> ->]|(ys & a & -> & ->)]; set_solver. Qed.

Lemma hd_in xs (l : Z) : hd l xs ∈ l :: xs.
Proof. destruct xs; cbn; set_solver. Qed.

(** A path whose last edge is turned to another node. *)
Lemma path_redirect h h' a xs b y : path h a xs b -> NoDup (a :: xs) ->
  edge h' (List.last xs a) y ->
  (forall x, x ∈ a :: xs -> x <> List.last xs a -> nx h' x = nx h x) ->
  (forall x, x ∈ xs -> pv h' x = pv h x) -> path h' a xs y.
Proof.
  destruct (last_split xs a) as [[-> ->]|(zs & c & -> & ->)]; [done|].
  rewrite app_comm_cons, NoDup_app. intros Hp (_ & Hc & _) He N P.
  apply path_app in Hp as [Hp _]. apply path_app. split; [|done].
  apply (path_frame h); [done|..]; intros x Hx; [apply N|apply P]; set_solver.
Qed.

(** A node taken out from between its neighbours. *)
Lemma path_remove h h' l xs item ys q : is_list h l (xs ++ item :: ys) ->
  (forall x, nx h' x = upd (upd (nx h) (List.last xs l) (hd l ys)) item q x) ->
  (forall x, pv h' x = upd (upd (pv h) (hd l ys) (List.last xs l)) item q x) ->
  is_list h' l (xs ++ ys).
Proof.
  intros [Hnd Hp] N P. apply path_app in Hp as [Hp1 Hp2].
  assert (NoDup (l :: xs ++ ys) /\ item ∉ l :: xs ++ ys) as [Hnd' Hitem].
  { rewrite app_comm_cons, <- Permutation_middle, NoDup_cons in Hnd. tauto. }
  split; [done|]. rewrite app_comm_cons, NoDup_app in Hnd'. destruct Hnd' as (Hx & Hxy & Hy).
  pose proof Hx as [Hl _]%NoDup_cons. pose proof (last_in xs l) as Hlast.
  set (p := List.last xs l) in *. set (n := hd l ys) in *.
  assert (n = l \/ n ∈ ys) as Hn by (subst n; destruct ys; [by left|right; constructor]).
  assert (p <> item /\ n <> item) as [Hpi Hni].
  { split; intros ->; apply Hitem; [|destruct Hn as [->|?]]; set_solver. }
  assert (forall x, x ∈ l :: xs ++ ys -> x <> item) as Hi by (by intros x Hxx ->).
  assert (forall x, x ∈ xs -> x <> n) as Hxn.
  { intros x Hxx ->. destruct Hn as [Hn|Hn]; [congruence|]. apply (Hxy n); [by right|done]. }
  assert (path h' l xs n) as Hleft.
  { apply (path_redirect h _ _ _ item); [done|done|fold p|fold p|].
    - split; [rewrite N|rewrite P]; rewrite (upd_ne _ item) by done; unfold upd;
        by rewrite decide_True.
    - intros x Hxx Hne. rewrite N, !upd_ne; [done|done|]. apply Hi. set_solver.
    - intros x Hxx. rewrite P, !upd_ne; [done|by apply Hxn|]. apply Hi. set_solver. }
  destruct ys as [|y ys]; [by rewrite app_nil_r|]. apply path_app. split; [done|].
  destruct Hp2 as [_ Hp2]. apply NoDup_cons in Hy as [Hy _].
  apply (path_frame h); [done|..]; intros x Hxx.
  - rewrite N, !upd_ne; [done| |apply Hi; set_solver]. intros ->. apply (Hxy p); [done|].
    clear -Hxx. set_solver.
  - rewrite P, !upd_ne; [done| |apply Hi; set_solver].
    intros E. cbn in n, E. subst n x. destruct Hxx as [->|?]; [|done].
    apply (Hxy l); by left.
Qed.

(** The neighbours of a node of a list. *)
Lemma is_list_around h l xs item ys : is_list h l (xs ++ item :: ys) ->
  nx h item = Some (hd l ys) /\ pv h item = Some (List.last xs l).
Proof.
  intros [_ Hp]. apply path_app in Hp as [Hp1 Hp2]. split; [|by eapply path_prev].
  destruct ys; cbn in *; apply Hp2.
Qed.

Lemma wp_unlink_list h l xs item ys q : is_list h l (xs ++ item :: ys) ->
  wp (let! n := get_next item in
      let! p := get_prev item in
      set_prev n p ;;
      let! p := get_prev item in
      let! n := get_next item in
      set_next p n ;;
      set_next item q ;;
      set_prev item q)
     (fun _ h' => is_list h' l (xs ++ ys) /\ nx h' item = Some q /\ pv h' item = Some q /\
                  touches (l :: xs ++ item :: ys) h h') h.
Proof.
  intros Hl. destruct (is_list_around _ _ _ _ _ Hl) as [Hn Hp].
  pose proof (last_in xs l). pose proof (hd_in ys l).
  eapply wp_unlink; [done|done|eapply is_list_node; [done|set_solver]..|].
  intros h' N P. split_and!; [by eapply path_remove|..].
  - rewrite N. unfold upd. by rewrite decide_True.
  - rewrite P. unfold upd. by rewrite decide_True.
  - split; [intros x Hx; split; untouched|]. intros x. rewrite !node_nx, N.
    intros. by apply upd_Some, upd_Some.
Qed.

Lemma wp_walk h l a xs n : path h a xs l -> l ∉ xs -> (length xs <= n)%nat ->
  wp (walk n (hd l xs) l) (fun r h' => r = xs /\ h' = h) h.
Proof.
  revert a n. induction xs as [|x xs IH]; intros a n Hp Hl Hn; cbn [hd].
  - destruct n; cbn [walk]; by rewrite Z.eqb_refl.
  - destruct n as [|n]; cbn in Hn; [lia|]. cbn [walk].
    rewrite (proj2 (Z.eqb_neq x l)) by set_solver. destruct Hp as [_ Hp].
    apply wp_bind. eapply (wp_get_next _ _ (hd l xs)); [destruct xs; cbn in *; apply Hp|].
    apply wp_bind. eapply wp_mono; [apply (IH x n); [done|set_solver|lia]|].
    by intros ? ? [-> ->].
Qed.

Lemma wp_len h l xs n : is_list h l xs -> (length xs <= n)%nat ->
  wp (dl_list_len n l) (fun r h' => r = lenZ xs /\ h' = h) h.
Proof.
  intros Hl Hn. apply wp_bind. eapply wp_get_next; [by apply is_list_next|].
  apply wp_bind. destruct Hl as [Hnd Hp]. apply NoDup_cons in Hnd as [? _].
  eapply wp_mono; [by eapply wp_walk|]. by intros ? ? [-> ->].
Qed.

Lemma wp_empty h l xs : is_list h l xs ->
  wp (dl_list_empty l) (fun r h' => r = bool_decide (xs = []) /\ h' = h) h.
Proof.
  intros Hl. apply wp_bind. eapply wp_get_next; [by apply is_list_next|].
  apply wp_ret. split; [|done]. destruct Hl as [Hnd _]. destruct xs as [|x xs]; cbn.
  - apply Z.eqb_refl.
  - apply Z.eqb_neq. apply NoDup_cons in Hnd. set_solver.
Qed.

(** What the append of a list that is not empty writes: [e] and [y] are the last
    and first nodes of the list of [m], [p] the last of the list of [l]. *)
Lemma wp_dl_list_append h l p m y e (Q : unit -> heap -> Prop) :
  nx h m = Some y -> pv h m = Some e -> pv h l = Some p ->
  node_at h y -> node_at h e -> node_at h p -> y <> m -> e <> m -> p <> m ->
  (forall h', (forall x, nx h' x = upd (upd (nx h) e l) p y x) ->
              (forall x, pv h' x = upd (upd (pv h) y p) l e x) -> Q tt h') ->
  wp (dl_list_append m l) Q h.
Proof.
  intros Mn Mp Lp Hy He Hp ? ? ? HQ.
  assert (node_at h l) by (apply node_pv; by rewrite Lp).
  apply wp_bind, wp_bind. eapply wp_get_next; [done|]. apply wp_ret.
  rewrite (proj2 (Z.eqb_neq y m)) by done.
  apply wp_bind. eapply wp_get_prev; [done|].
  apply wp_bind, wp_set_next; [done|]. intros h1 N1 P1.
  apply wp_bind. eapply (wp_get_prev h1 l p); [by rewrite P1|].
  apply wp_bind. eapply (wp_get_next h1 m y); [by rewrite N1, upd_ne by done|].
  apply wp_bind, wp_set_next; [by eapply node_upd_nx|]. intros h2 N2 P2.
  apply wp_bind. eapply (wp_get_next h2 m y); [by rewrite N2, upd_ne, N1, upd_ne by done|].
  apply wp_bind. eapply (wp_get_prev h2 l p); [by rewrite P2, P1|].
  apply wp_bind, wp_set_prev; [by eapply node_upd_nx, node_upd_nx|]. intros h3 N3 P3.
  apply wp_bind. eapply (wp_get_prev h3 m e); [by rewrite P3, upd_ne, P2, P1 by done|].
  apply wp_set_prev; [by eapply node_upd_pv, node_upd_nx, node_upd_nx|]. intros h4 N4 P4.
  apply HQ; intros x.
  - pointers.
  - pointers.
Qed.

(** The nodes of one list move to the end of another. *)
Lemma wp_append h l xs m ys : is_list h l xs -> is_list h m ys ->
  (forall x, x ∈ l :: xs -> x ∉ m :: ys) ->
  wp (dl_list_append m l)
     (fun _ h' => is_list h' l (xs ++ ys) /\ touches (l :: xs ++ ys) h h') h.
Proof.
  intros Hl Hm Hdis. destruct ys as [|y ys].
  { apply wp_bind. eapply wp_mono; [by apply wp_empty|]. cbn. intros ? ? [-> ->].
    apply wp_ret. by rewrite app_nil_r. }
  pose proof (is_list_prev _ _ _ Hl) as Lp. pose proof (last_in xs l) as Hp.
  set (p := List.last xs l) in *.
  assert (List.last (y :: ys) m ∈ y :: ys) as He.
  { rewrite last_cons. apply last_in. }
  pose proof Hm as [Mnd [_ Mpath]]. pose proof Hl as [Lnd Lpath].
  pose proof Lnd as [Hl1 Hxs]%NoDup_cons. pose proof Mnd as [Hm1 Hys]%NoDup_cons.
  pose proof Hys as [Hy1 _]%NoDup_cons.
  assert (p <> m) by (intros ->; by apply (Hdis m); [|apply elem_of_cons; left]).
  assert (forall x, x ∈ y :: ys -> x <> m) by (by intros x Hx ->).
  eapply wp_dl_list_append; [by apply is_list_next|by apply is_list_prev|done|
    apply (is_list_node _ _ _ _ Hm); right; constructor|
    apply (is_list_node _ _ _ _ Hm); by right|by apply (is_list_node _ _ _ _ Hl)|
    auto using list_elem_of_here..|auto|done|].
  assert (List.last ys y = List.last (y :: ys) m) as Ee by (by rewrite last_cons).
  set (e := List.last (y :: ys) m) in *. cbn [hd]. intros h' N P.
  assert (forall x, x ∈ l :: xs -> x ∉ y :: ys) as Hd by (intros x ? ?; by eapply Hdis, elem_of_cons; [|right]).
  assert (forall x, x ∈ l :: xs -> x <> y /\ x <> e) as Hd1.
  { intros x Hx. split; intros ->; eapply Hd; [done|by left|done|done]. }
  assert (forall x, x ∈ y :: ys -> x <> l /\ x <> p) as Hd2.
  { intros x Hx. split; intros ->; eapply Hd; [by left|done..]. }
  split; [split|].
  - rewrite app_comm_cons. by apply NoDup_app.
  - apply path_app. split.
    + apply (path_redirect h _ _ _ l); [done|done|fold p|fold p|].
      * split; [rewrite N|rewrite P, upd_ne by (apply Hd2; left)]; unfold upd;
          by rewrite decide_True.
      * intros x Hx Hne. rewrite N, !upd_ne; [done|by apply Hd1|done].
      * intros x Hx. rewrite P, !upd_ne; [done|apply Hd1; by right|congruence].
    + apply (path_redirect h _ _ _ m); [done|done|rewrite Ee..|].
      * split; [rewrite N, upd_ne by (by apply Hd2)|rewrite P]; unfold upd;
          by rewrite decide_True.
      * intros x Hx Hne. rewrite N, !upd_ne; [done|done|by apply Hd2].
      * intros x Hx. rewrite P, !upd_ne; [done|congruence|apply Hd2; by right].
  - split.
    + intros x Hx. rewrite app_comm_cons in Hx. apply not_elem_of_app in Hx as [Hx1 Hx2].
      rewrite N, P, !upd_ne; [done|..]; intros ->; [by apply Hx2; left|apply Hx1; by left|done|done].
    + intros x. rewrite !node_nx, N. intros. by apply upd_Some, upd_Some.
Qed.
End sequences.

(** ** A set of lists

    The abstract state maps each head to the sequence of its nodes.  A call of
    [list.h] on such a state is a step of [lstep]; [D] is the set of allocated
    nodes.  [del_init] and [del] leave the node they unlink in no list, and
    [append] empties the list it takes the nodes of without resetting its head:
    that head is no list afterwards. *)

Inductive call :=
| Init (l : Z)
| Add (item l : Z)
| AddTail (item l : Z)
| Del (item : Z)
| DelInit (item : Z)
| Append (m l : Z)
| IsEmpty (l : Z)
| Len (l : Z).

(** The calls as the code makes them; the walk of [dl_list_len] is bounded by the
    number of nodes there are. *)
Definition do_call (c : call) : M heap Z :=
  match c with
  | Init l => dl_list_init l ;; ret 0
  | Add i l => dl_list_add i l ;; ret 0
  | AddTail i l => dl_list_add_tail i l ;; ret 0
  | Del i => dl_list_del i ;; ret 0
  | DelInit i => dl_list_del_init i ;; ret 0
  | Append m l => dl_list_append m l ;; ret 0
  | IsEmpty l => let! b := dl_list_empty l in ret (Z.b2z b)
  | Len l => let! h := get in dl_list_len (size h) l
  end.

Fixpoint do_calls (cs : list call) : M heap (list Z) :=
  match cs with
  | [] => ret []
  | c :: cs' => let! r := do_call c in let! rs := do_calls cs' in ret (r :: rs)
  end.

Notation lists := (gmap Z (list Z)).

(** A node that no list but possibly that of [l] contains. *)
Definition mine (S : lists) (l x : Z) : Prop :=
  forall l' xs, S !! l' = Some xs -> x ∈ l' :: xs -> l' = l.

Definition unlinked (S : lists) (x : Z) : Prop :=
  forall l xs, S !! l = Some xs -> x ∉ l :: xs.

Inductive lstep (D : gset Z) (S : lists) : call -> Z -> lists -> Prop :=
| step_init l : l ∈ D -> unlinked S l -> lstep D S (Init l) 0 (<[l := []]> S)
| step_add i l xs : i ∈ D -> unlinked S i -> S !! l = Some xs ->
    lstep D S (Add i l) 0 (<[l := i :: xs]> S)
| step_add_tail i l xs : i ∈ D -> unlinked S i -> S !! l = Some xs ->
    lstep D S (AddTail i l) 0 (<[l := xs ++ [i]]> S)
| step_del i l xs ys : S !! l = Some (xs ++ i :: ys) ->
    lstep D S (Del i) 0 (<[l := xs ++ ys]> S)
| step_del_init i l xs ys : S !! l = Some (xs ++ i :: ys) ->
    lstep D S (DelInit i) 0 (<[l := xs ++ ys]> S)
| step_append m l xs ys : m <> l -> S !! l = Some xs -> S !! m = Some ys ->
    lstep D S (Append m l) 0 (<[l := xs ++ ys]> (delete m S))
| step_empty l xs : S !! l = Some xs ->
    lstep D S (IsEmpty l) (Z.b2z (bool_decide (xs = []))) S
| step_len l xs : S !! l = Some xs -> lstep D S (Len l) (lenZ xs) S.

Inductive lsteps (D : gset Z) : lists -> list call -> list Z -> lists -> Prop :=
| lsteps_nil S : lsteps D S [] [] S
| lsteps_cons S c r S1 cs rs S2 :
    lstep D S c r S1 -> lsteps D S1 cs rs S2 -> lsteps D S (c :: cs) (r :: rs) S2.

(** The heap holds these lists, on separate nodes. *)
Record holds (D : gset Z) (h : heap) (S : lists) : Prop := {
  holds_nodes x : x ∈ D -> node_at h x;
  holds_list l xs : S !! l = Some xs -> is_list h l xs;
  holds_sep l xs x : S !! l = Some xs -> x ∈ l :: xs -> mine S l x }.

Section refinement.
Context (D : gset Z).
Implicit Types (h : heap) (S : lists).

Lemma unlinked_mine S l x : unlinked S x -> mine S l x.
Proof. intros Hu l' xs Hl Hx. by destruct (Hu l' xs). Qed.

(** One list changes, on its own nodes and nodes of no list. *)
Lemma holds_update h h' S l xs' T : holds D h S -> touches T h h' ->
  (forall x, x ∈ T -> mine S l x) -> (forall x, x ∈ l :: xs' -> mine S l x) ->
  is_list h' l xs' -> holds D h' (<[l := xs']> S).
Proof.
  intros [Hn Hl Hs] HT HTm Hm Hl'. split.
  - intros x Hx. by apply HT, Hn.
  - intros k ys. destruct (decide (k = l)) as [->|Hk].
    { rewrite lookup_insert_eq. by intros [= <-]. }
    rewrite lookup_insert_ne by done. intros Hys.
    eapply is_list_untouched; [done|by apply Hl|]. intros x Hx Hxt. apply Hk.
    by eapply (HTm x Hxt).
  - intros k ys x Hk Hx k' ys' Hk' Hx'.
    destruct (decide (k = l)) as [->|Hkl], (decide (k' = l)) as [->|Hkl']; [done|..];
      rewrite ?lookup_insert_eq, ?lookup_insert_ne in Hk by done;
      rewrite ?lookup_insert_eq, ?lookup_insert_ne in Hk' by done; simplify_eq.
    + by eapply Hm.
    + symmetry. by eapply Hm.
    + by eapply Hs.
Qed.

(** A list forgotten; its nodes are then any other list's to take. *)
Lemma holds_delete h S m : holds D h S -> holds D h (delete m S).
Proof.
  intros [Hn Hl Hs]. split; [done|..].
  - intros l xs [_ ?]%lookup_delete_Some. by apply Hl.
  - intros l xs x [_ Hx]%lookup_delete_Some Hin l' xs' [_ Hx']%lookup_delete_Some Hin'.
    by eapply Hs.
Qed.

Lemma mine_delete S m x l : mine S m x -> mine (delete m S) l x.
Proof.
  intros Hm l' xs [Hne Hl]%lookup_delete_Some Hx. by destruct Hne; symmetry; eapply Hm.
Qed.

Lemma list_le_nodes h l xs : is_list h l xs -> (length xs <= size h)%nat.
Proof.
  intros Hl. pose proof Hl as [Hnd _]. apply NoDup_cons in Hnd as [_ Hnd].
  rewrite <- (size_list_to_set (C := gset Z) xs Hnd), <- (size_dom (D := gset Z)).
  apply subseteq_size. intros x Hx%elem_of_list_to_set. apply elem_of_dom.
  eapply is_list_node; [done|by right].
Qed.

(** The nodes a call on list [l] touches, when it moves none but [i] in. *)
Lemma mine_with S h l xs i : holds D h S -> S !! l = Some xs -> unlinked S i ->
  forall x, x ∈ i :: l :: xs -> mine S l x.
Proof.
  intros Hh Hl Hi x [->|Hx]%elem_of_cons; [by apply unlinked_mine|].
  by eapply (holds_sep _ _ _ Hh).
Qed.

Lemma wp_then {A} (m : M heap A) (r : Z) Q h :
  wp m (fun _ h' => Q r h') h -> wp (m ;; ret r) Q h.
Proof. intros H. apply wp_bind. eapply wp_mono; [exact H|]. done. Qed.

Lemma wp_removal h S i l xs ys q : holds D h S -> S !! l = Some (xs ++ i :: ys) ->
  wp (let! n := get_next i in
      let! p := get_prev i in
      set_prev n p ;;
      let! p := get_prev i in
      let! n := get_next i in
      set_next p n ;;
      set_next i q ;;
      set_prev i q) (fun _ h' => holds D h' (<[l := xs ++ ys]> S)) h.
Proof.
  intros Hh Hl. eapply wp_mono; [by apply wp_unlink_list, (holds_list _ _ _ Hh)|].
  intros _ h' (Hl' & _ & _ & Ht). eapply holds_update; [done|done|..|done].
  - intros x Hx. by eapply (holds_sep _ _ _ Hh).
  - intros x Hx. eapply (holds_sep _ _ _ Hh); [done|].
    apply elem_of_cons in Hx as [->|[Hx|Hx]%elem_of_app]; [by left|right..];
      apply elem_of_app; [by left|right; by right].
Qed.

(** Every step of the abstract lists is a call that returns with that result. *)
Lemma wp_do_call h S c r S' : holds D h S -> lstep D S c r S' ->
  wp (do_call c) (fun r' h' => r' = r /\ holds D h' S') h.
Proof.
  intros Hh Hstep. destruct Hstep as [l Hd Hu|i l xs Hd Hu Hl|i l xs Hd Hu Hl|i l xs ys Hl|
    i l xs ys Hl|m l xs ys Hne Hl Hm|l xs Hl|l xs Hl]; cbn [do_call].
  - apply wp_then, wp_dl_list_init; [by apply (holds_nodes _ _ _ Hh)|].
    intros h' N P. split; [done|].
    assert (is_list h' l []) as Hl'.
    { split; [apply NoDup_singleton|]. split; [rewrite N|rewrite P]; unfold upd;
        by rewrite decide_True. }
    assert (touches [l] h h') as Ht.
    { split; [intros x Hx; rewrite N, P, !upd_ne; set_solver|]. intros x.
      rewrite !node_nx, N. apply upd_Some. }
    eapply holds_update; [done|done|..|done];
      intros x ->%list_elem_of_singleton; by apply unlinked_mine.
  - apply wp_then. pose proof (mine_with _ _ _ _ _ Hh Hl Hu) as Hmine. eapply wp_mono.
    { apply wp_add; [by apply (holds_list _ _ _ Hh)|by apply (holds_nodes _ _ _ Hh)|by apply Hu]. }
    intros _ h' [Hl' Ht]. split; [done|]. eapply holds_update; [done|done|done| |done].
    intros x Hx. apply Hmine. set_solver.
  - apply wp_then. pose proof (mine_with _ _ _ _ _ Hh Hl Hu) as Hmine. eapply wp_mono.
    { apply wp_add_tail; [by apply (holds_list _ _ _ Hh)|by apply (holds_nodes _ _ _ Hh)|by apply Hu]. }
    intros _ h' [Hl' Ht]. split; [done|]. eapply holds_update; [done|done|done| |done].
    intros x Hx. apply Hmine. set_solver.
  - apply wp_then. eapply wp_mono; [by apply wp_removal|]. done.
  - apply wp_then. eapply wp_mono; [by apply wp_removal|]. done.
  - apply wp_then. eapply wp_mono.
    { apply wp_append; [by apply (holds_list _ _ _ Hh)..|].
      intros x Hx Hx'. apply Hne. by eapply (holds_sep _ _ _ Hh l xs x). }
    intros _ h' [Hl' Ht]. split; [done|].
    assert (forall x, x ∈ l :: xs ++ ys -> mine (delete m S) l x) as Hmine.
    { rewrite app_comm_cons. intros x [Hx|Hx]%elem_of_app.
      - intros l' zs [_ ?]%lookup_delete_Some. by eapply (holds_sep _ _ _ Hh).
      - apply mine_delete. eapply (holds_sep _ _ _ Hh); [done|by right]. }
    by eapply holds_update; [by apply holds_delete|..].
  - apply wp_bind. eapply wp_mono; [by apply wp_empty, (holds_list _ _ _ Hh)|].
    by intros ? ? [-> ->].
  - apply wp_bind, wp_get. pose proof (holds_list _ _ _ Hh _ _ Hl) as Hil.
    eapply wp_mono; [apply (wp_len _ _ _ _ Hil); by eapply list_le_nodes|].
    by intros ? ? [-> ->].
Qed.
End refinement.

(** C16: any sequence of calls on doubly-linked lists that the abstract lists allow
    (a node added is in no list, a node removed is in one, a list appended is
    another one) runs without a fault on a heap that holds those lists: each call
    returns the result the sequences give, and the heap holds the resulting
    lists, so that no call disturbs a list it is not made on.  The walk of
    [dl_list_len] ends. *)
Theorem list_calls_refine_sequences (D : gset Z) cs h S rs S' :
  holds D h S -> lsteps D S cs rs S' ->
  wp (do_calls cs) (fun rs' h' => rs' = rs /\ holds D h' S') h.
Proof.
  intros Hh Hsteps. revert h Hh. induction Hsteps as [S|S c r S1 cs rs S2 Hc _ IH]; intros h Hh.
  - by apply wp_ret.
  - cbn [do_calls]. apply wp_bind. eapply wp_mono; [by eapply wp_do_call|].
    intros ? h1 [-> Hh1]. apply wp_bind. eapply wp_mono; [by apply IH|].
    by intros ? h2 [-> Hh2].
Qed.

(** A search of all lists for a node. *)
Lemma unlinked_check (S : lists) x :
  bool_decide (Forall (fun p => x ∉ p.1 :: p.2) (map_to_list S)) = true -> unlinked S x.
Proof.
  intros Hf l xs Hl. apply bool_decide_eq_true_1 in Hf. rewrite list.Forall_forall in Hf.
  apply (Hf (l, xs)). by apply elem_of_map_to_list.
Qed.

(** Two lists are made, filled and spliced. *)
Lemma list_calls_refine_sequences_witness :
  wp (do_calls [Init 1; Init 2; AddTail 11 1; AddTail 12 1; Add 10 1; AddTail 21 2;
                DelInit 11; AddTail 11 2; Append 2 1; Len 1])
     (fun rs h => rs = [0; 0; 0; 0; 0; 0; 0; 0; 0; 4] /\
                  holds {[1; 2; 10; 11; 12; 21]} h (<[1 := [10; 12; 21; 11]]> ∅))
     (gset_to_gmap (mkNode 0 0) {[1; 2; 10; 11; 12; 21]}).
Proof.
  apply (list_calls_refine_sequences _ _ _ ∅).
  - split; [|done..]. intros x Hx. exists (mkNode 0 0). by apply lookup_gset_to_gmap_Some.
  - eapply lsteps_cons; [apply step_init; [set_solver|by apply unlinked_check]|].
    eapply lsteps_cons; [apply step_init; [set_solver|by apply unlinked_check]|].
    eapply lsteps_cons; [eapply step_add_tail; [set_solver|apply unlinked_check; by vm_compute|done]|].
    eapply lsteps_cons; [eapply step_add_tail; [set_solver|apply unlinked_check; by vm_compute|done]|].
    eapply lsteps_cons; [eapply step_add; [set_solver|apply unlinked_check; by vm_compute|done]|].
    eapply lsteps_cons; [eapply step_add_tail; [set_solver|apply unlinked_check; by vm_compute|done]|].
    eapply lsteps_cons; [apply (step_del_init _ _ 11 1 [10] [12]); done|].
    eapply lsteps_cons; [eapply step_add_tail; [set_solver|apply unlinked_check; by vm_compute|done]|].
    eapply lsteps_cons; [eapply (step_append _ _ 2 1); done|].
    eapply lsteps_cons; [apply (step_len _ _ 1 [10; 12; 21; 11]); by vm_compute|].
    match goal with |- lsteps _ ?S _ _ ?S' => assert (S = S') as -> by (by vm_compute) end.
    apply lsteps_nil.
Defined.
