(* ===== verification/Atomic.v ===== *)
(** * Atomic counters and the interrupt flag ([kernel/atomic.h], [kernel/irq.h])

    An [atomic_t] is an [int], an [atomic64_t] a [QWORD].  Each locked
    instruction is one transformation of the word; the value is what the function
    returns. *)

From S2P Require Import Prelude.

(** ** [atomic_t] *)

Definition atomic_get : M Z Z := get.

Definition atomic_read : M Z Z := get.

Definition atomic_set (v : Z) : M Z unit := put (s32 v).

Definition atomic_inc : M Z unit := modify (fun c => s32 (c + 1)).

Definition atomic_inc_return : M Z Z := modify (fun c => s32 (c + 1)) ;; get.

Definition atomic_dec : M Z unit := modify (fun c => s32 (c - 1)).

(** [decl; sete]: whether the counter has reached zero. *)
Definition atomic_dec_and_test : M Z bool :=
  modify (fun c => s32 (c - 1)) ;;
  let! c := get in ret (c =? 0).

Definition atomic_and (v : Z) : M Z unit := modify (fun c => s32 (Z.land v c)).

Definition atomic_or (v : Z) : M Z unit := modify (fun c => s32 (Z.lor v c)).

Definition atomic_xor (v : Z) : M Z unit := modify (fun c => s32 (Z.lxor v c)).

(** ** [atomic64_t] *)

(** [xchgq]: the old content. *)
Definition atomic64_test_and_set (v : Z) : M Z Z :=
  let! c := get in put (u64 v) ;; ret c.

(** [lock; xaddq]: the old content. *)
Definition xaddq (i : Z) : M Z Z :=
  let! c := get in put (u64 (c + i)) ;; ret c.

Definition atomic64_add (i : Z) : M Z Z :=
  let! old := xaddq i in ret (u64 (i + old)).

Definition atomic64_sub (i : Z) : M Z Z := atomic64_add (u64 (- i)).

Definition atomic64_inc : M Z Z :=
  let! old := xaddq 1 in ret (u64 (old + 1)).

Definition atomic64_dec : M Z Z :=
  let! old := xaddq (u64 (-1)) in ret (u64 (old - 1)).

Definition atomic64_read : M Z Z := get.

Definition atomic64_set (v : Z) : M Z unit := atomic64_test_and_set v ;; ret tt.

(** ** The interrupt flag

    The state is the flags register; bit 9 enables interrupts. *)

Definition IF_BIT : Z := Z.shiftl 1 9.

Definition is_irq_enabled : M Z Z :=
  let! flags := get in ret (if Z.land flags IF_BIT =? 0 then 0 else 1).

(** [cli] and [sti] *)
Definition disable_interrupt : M Z unit := modify (fun f => Z.land f (Z.lnot IF_BIT)).

Definition enable_interrupt : M Z unit := modify (fun f => Z.lor f IF_BIT).

Definition irq_nested_disable : M Z Z :=
  let! was_enabled := is_irq_enabled in
  disable_interrupt ;;
  ret was_enabled.

Definition irq_nested_enable (was_enabled : Z) : M Z unit :=
  when (negb (was_enabled =? 0)) enable_interrupt.

(** Whether the flags register enables interrupts. *)
Definition irq_on (flags : Z) : bool := Z.testbit flags 9.

Lemma irq_nested_disable_run f :
  irq_nested_disable f = Ok (Z.b2z (irq_on f), Z.land f (Z.lnot IF_BIT)).
Proof.
  unfold irq_nested_disable, is_irq_enabled, irq_on, bind, get, ret, disable_interrupt, modify.
  change IF_BIT with (Z.shiftl 1 9). rewrite land_bit_eq0 by lia. by destruct (Z.testbit f 9).
Qed.

Lemma irq_off f : irq_on (Z.land f (Z.lnot IF_BIT)) = false.
Proof. unfold irq_on, IF_BIT. rewrite testbit_clear by lia. done. Qed.

(** The flag after a disable and the enable that matches it is what it was. *)
Lemma irq_nested_enable_run f w :
  exists f', irq_nested_enable w f = Ok (tt, f') /\ irq_on f' = (irq_on f || negb (w =? 0)).
Proof.
  unfold irq_nested_enable, when. destruct (w =? 0); cbn [negb].
  - exists f. by rewrite orb_false_r.
  - exists (Z.lor f IF_BIT). split; [done|]. unfold irq_on, IF_BIT.
    rewrite testbit_set by lia. by rewrite orb_true_r.
Qed.
