(* ===== verification/Ticket.v ===== *)
(** * Ticket numbers

    The two ticket locks of the kernel ([sync.h], [offload/mutex.c]) hand out
    consecutive numbers of a counter that wraps around and admit the number that
    a second counter shows.  Whatever the width, the numbers held are those of a
    queue of threads, the oldest first, as long as there are fewer threads than
    numbers. *)

From S2P Require Import Prelude.

Section tickets.
(** The counters have [W] values. *)
Context (W : Z).

(** [line] is the queue, [now] the number admitted, [next] the next one handed
    out, [ticket i] the number thread [i] holds. *)
Definition tickets_ok (now next : Z) (ticket : Z -> option Z) (line : list Z) : Prop :=
  NoDup line /\ lenZ line <= W /\
  exists d, now = d mod W /\ next = (d + lenZ line) mod W /\
    forall i t, ticket i = Some t <-> exists k, nthZ line k = Some i /\ t = (d + k) mod W.

Definition set_ticket (ticket : Z -> option Z) (i : Z) (t : option Z) : Z -> option Z :=
  fun j => if decide (j = i) then t else ticket j.

Hypothesis W_pos : 0 < W.

Lemma tickets_empty now : 0 <= now < W -> tickets_ok now now (fun _ => None) [].
Proof.
  intros Hn. split; [constructor|]. split; [unfold lenZ; cbn; lia|]. exists now.
  rewrite Z.mod_small by lia. unfold lenZ. cbn. rewrite Z.add_0_r, Z.mod_small by lia.
  split_and!; [done..|]. intros i t. split; [done|]. intros (k & Hk & _).
  by apply nthZ_Some_range in Hk; unfold lenZ in Hk; cbn in Hk; lia.
Qed.

Section state.
Context {now next : Z} {ticket : Z -> option Z} {line : list Z}.
Hypothesis ok : tickets_ok now next ticket line.

Lemma ticket_in_line i : (exists t, ticket i = Some t) <-> i ∈ line.
Proof.
  destruct ok as (_ & _ & d & _ & _ & Ht). rewrite nthZ_elem_of. split.
  - intros [t (k & Hk & _)%Ht]. eauto.
  - intros [k Hk]. exists ((d + k) mod W). apply Ht. eauto.
Qed.

(** The number admitted is the one of the head of the queue. *)
Lemma ticket_served i t : ticket i = Some t -> (t = now <-> head line = Some i).
Proof.
  destruct ok as (Hnd & Hlen & d & -> & _ & Ht). intros (k & Hk & ->)%Ht.
  pose proof (nthZ_Some_range _ _ _ Hk) as Hr. split.
  - intros E. assert (k = 0) as ->.
    { pose proof (Z.div_mod (d + k) W ltac:(lia)) as A.
      pose proof (Z.div_mod d W ltac:(lia)) as B. rewrite E in A.
      assert (W * ((d + k) / W - d / W) = k) as C by (rewrite Z.mul_sub_distr_l; lia).
      destruct (Z.lt_trichotomy ((d + k) / W - d / W) 0) as [?|[?|?]]; nia. }
    unfold nthZ in Hk. cbn in Hk. by rewrite head_lookup.
  - intros Hh. assert (k = 0) as ->; [|by rewrite Z.add_0_r].
    rewrite head_lookup in Hh. unfold nthZ in Hk. destruct (Z.leb_spec 0 k); [|done].
    pose proof (NoDup_lookup _ _ _ _ Hnd Hk Hh). lia.
Qed.

Lemma ticket_arrive i : i ∉ line -> lenZ line < W ->
  tickets_ok now ((next + 1) mod W) (set_ticket ticket i (Some next)) (line ++ [i]).
Proof.
  intros Hi Hw. destruct ok as (Hnd & Hlen & d & -> & -> & Ht). split; [|split].
  - apply NoDup_app. split_and!; [done|set_solver|apply NoDup_singleton].
  - rewrite lenZ_app. unfold lenZ at 2. cbn. lia.
  - exists d. split; [done|]. split.
    + rewrite Z.add_mod_idemp_l by lia. rewrite lenZ_app. unfold lenZ at 3. cbn. f_equal. lia.
    + intros j t. unfold set_ticket. case_decide as Hj.
      * subst j. split.
        { intros [= <-]. exists (lenZ line). rewrite nthZ_app_r, Z.sub_diag by lia. done. }
        intros (k & Hk & ->). destruct (Z.lt_ge_cases k (lenZ line)) as [Hlt|Hge].
        { rewrite nthZ_app_l in Hk by done. destruct Hi. apply nthZ_elem_of. eauto. }
        apply nthZ_Some_range in Hk. rewrite lenZ_app in Hk. unfold lenZ in *. cbn in Hk.
        do 2 f_equal. lia.
      * rewrite Ht. split; intros (k & Hk & ->).
        { exists k. rewrite nthZ_app_l by (apply nthZ_Some_range in Hk; lia). done. }
        exists k. split; [|done]. destruct (Z.lt_ge_cases k (lenZ line)) as [Hlt|Hge].
        { by rewrite nthZ_app_l in Hk. }
        rewrite nthZ_app_r in Hk by done. pose proof (nthZ_Some_range _ _ _ Hk) as Hr.
        change (lenZ [i]) with 1 in Hr. replace (k - lenZ line) with 0 in Hk by lia.
        injection Hk as <-. by destruct Hj.
Qed.

Lemma ticket_leave i rest : line = i :: rest ->
  tickets_ok ((now + 1) mod W) next (set_ticket ticket i None) rest.
Proof.
  intros El. destruct ok as (Hnd & Hlen & d & -> & -> & Ht). rewrite El in *.
  apply NoDup_cons in Hnd as [Hi Hnd]. assert (lenZ (i :: rest) = lenZ rest + 1) as El'.
  { unfold lenZ. cbn [length]. lia. }
  split; [done|]. split; [lia|]. exists (d + 1). split; [|split].
  - by rewrite Z.add_mod_idemp_l by lia.
  - rewrite El'. f_equal. lia.
  - assert (forall k, 0 <= k -> nthZ (i :: rest) (k + 1) = nthZ rest k) as Hs.
    { intros k Hk. unfold nthZ. rewrite !(proj2 (Z.leb_le _ _)) by lia.
      by rewrite Z2Nat.inj_add, Nat.add_1_r by lia. }
    intros j t. unfold set_ticket. case_decide as Hj.
    + subst j. split; [done|]. intros (k & Hk & _). destruct Hi. apply nthZ_elem_of. eauto.
    + rewrite Ht. split; intros (k & Hk & ->).
      * pose proof (nthZ_Some_range _ _ _ Hk) as Hr. exists (k - 1).
        destruct (decide (k = 0)) as [->|]; [injection Hk as <-; by destruct Hj|].
        rewrite <- Hs by lia. split; [|f_equal; lia]. by replace (k - 1 + 1) with k by lia.
      * pose proof (nthZ_Some_range _ _ _ Hk) as Hr. exists (k + 1).
        rewrite Hs by lia. split; [done|f_equal; lia].
Qed.
End state.
End tickets.

Lemma tickets_range W now next ticket line : 0 < W ->
  tickets_ok W now next ticket line -> 0 <= now < W /\ 0 <= next < W.
Proof. intros ? (_ & _ & d & -> & -> & _). split; apply Z.mod_pos_bound; lia. Qed.

Lemma tickets_ext W now next f g line : (forall i, f i = g i) ->
  tickets_ok W now next f line -> tickets_ok W now next g line.
Proof.
  intros E (Hnd & Hlen & d & H1 & H2 & Ht). split_and!; [done..|]. exists d.
  split_and!; [done..|]. intros i t. by rewrite <- E.
Qed.

(** Distinct thread numbers below [n] are at most [n]. *)
Lemma short_line n line : NoDup line -> (forall i, i ∈ line -> 0 <= i < Z.of_nat n) ->
  lenZ line <= Z.of_nat n.
Proof.
  intros Hnd Hr. unfold lenZ. apply Nat2Z.inj_le.
  rewrite <- (length_map Z.to_nat). rewrite <- (length_seq n 0).
  apply NoDup_incl_length.
  - apply NoDup_ListNoDup. apply NoDup_fmap_2_strong; [|done]. intros x y Hx%Hr Hy%Hr. lia.
  - intros k Hk%list_elem_of_In%list_elem_of_fmap. destruct Hk as (x & -> & Hx%Hr).
    apply in_seq. lia.
Qed.
