(* ===== verification/Mutex.v ===== *)
(** * The ticket mutex of the offload channels ([kernel/offload/mutex.c])

    [request] counts the tickets handed out, [grant] the ones served, both in 32
    bits.  Threads interleave at the accesses to the shared counters: an atomic
    increment to take a ticket, a read of [grant] per round of the waiting loop,
    a read and a write of [grant] to release. *)

From S2P Require Import Prelude.
From S2P Require Import Utility.
From S2P Require Import Memory.
From S2P Require Import Ticket.

Record ticket_mutex_t := mkMutex { grant : Z; request : Z }.

#[export] Instance eta_mutex : Eta ticket_mutex_t := fun m => mkMutex (grant m) (request m).

(** ** The functions *)

(** [sizeof(ticket_mutex_t)]: a union of eight bytes, aligned to a cache line. *)
Definition MUTEX_SIZE : Z := 64.

(** [lock->u.s.request = 0; lock->u.s.grant = 0] in memory: [grant] comes first. *)
Definition write_mutex (p : Z) (m : ticket_mutex_t) : M kmem unit :=
  modify (fun k => k <| ram := store_bytes 4 (ram k) (p + 4) (request m) |>) ;;
  modify (fun k => k <| ram := store_bytes 4 (ram k) p (grant m) |>).

Definition read_mutex (k : kmem) (p : Z) : ticket_mutex_t :=
  mkMutex (load_bytes 4 (ram k) p) (load_bytes 4 (ram k) (p + 4)).

Definition mutex_create : M kmem Z :=
  let! lock := az_alloc MUTEX_SIZE in
  if lock =? 0 then ret 0
  else write_mutex lock (mkMutex 0 0) ;; ret lock.

Definition mutex_delete (lock : Z) : M kmem Z :=
  when (negb (lock =? 0)) (az_free lock ;; ret tt) ;;
  ret 0.

Definition mutex_init (lock : Z) : M kmem Z :=
  if lock =? 0 then ret (-1)
  else write_mutex lock (mkMutex 0 0) ;; ret 0.

(** [int t = __sync_fetch_and_add(&request, 1)] *)
Definition take_ticket (m : ticket_mutex_t) : Z * ticket_mutex_t :=
  (s32 (request m), m <| request := u32 (request m + 1) |>).

(** [while (lock->u.s.grant != t)]: the [int] is compared as unsigned. *)
Definition must_wait (t : Z) (m : ticket_mutex_t) : bool := negb (grant m =? u32 t).

(** Where a thread that uses the mutex is: outside, in the waiting loop of
    [mutex_lock] with its ticket, past it, or between the read and the write of
    [grant++] in [mutex_unlock]. *)
Inductive mutex_pc :=
| Outside
| Waiting (t : Z)
| Inside
| Releasing (g : Z).

(** ** Threads that lock and unlock

    [arrivals], [entries] and [exits] record in which order the threads took a
    ticket, left the waiting loop and released. *)
Record mutex_sys := mkSys {
  lock : ticket_mutex_t;
  pcs : list mutex_pc;
  arrivals : list Z;
  entries : list Z;
  exits : list Z
}.

#[export] Instance eta_mutex_sys : Eta mutex_sys := fun s =>
  mkSys (lock s) (pcs s) (arrivals s) (entries s) (exits s).

(** [mutex_lock], up to the loop *)
Definition mutex_lock (i : Z) (s : mutex_sys) : mutex_sys :=
  let '(t, m) := take_ticket (lock s) in
  s <| lock := m |> <| pcs := updZ (pcs s) i (Waiting t) |> <| arrivals := arrivals s ++ [i] |>.

(** one round of the loop; [mutex_pause_lock] differs by a [pause] *)
Definition mutex_lock_round (i t : Z) (s : mutex_sys) : mutex_sys :=
  if must_wait t (lock s) then s
  else s <| pcs := updZ (pcs s) i Inside |> <| entries := entries s ++ [i] |>.

(** [mutex_unlock]: [grant++] *)
Definition mutex_unlock (i : Z) (s : mutex_sys) : mutex_sys :=
  s <| pcs := updZ (pcs s) i (Releasing (grant (lock s))) |>.

Definition mutex_unlock_store (i g : Z) (s : mutex_sys) : mutex_sys :=
  s <| lock := lock s <| grant := u32 (g + 1) |> |> <| pcs := updZ (pcs s) i Outside |>
    <| exits := exits s ++ [i] |>.

(** Thread [i] takes its next step. *)
Definition mutex_step (i : Z) (s : mutex_sys) : mutex_sys :=
  match nthZ (pcs s) i with
  | None => s
  | Some Outside => mutex_lock i s
  | Some (Waiting t) => mutex_lock_round i t s
  | Some Inside => mutex_unlock i s
  | Some (Releasing g) => mutex_unlock_store i g s
  end.

Definition mutex_run (sched : list Z) (s : mutex_sys) : mutex_sys :=
  fold_left (fun s i => mutex_step i s) sched s.

(** [n] threads and a mutex from [mutex_init]. *)
Definition mutex_start (n : nat) : mutex_sys :=
  mkSys (mkMutex 0 0) (replicate n Outside) [] [] [].

(** ** The invariant *)

(** The number thread [i] holds: the one it waits with, or the one being served. *)
Definition held (s : mutex_sys) (i : Z) : option Z :=
  match nthZ (pcs s) i with
  | Some (Waiting t) => Some (u32 t)
  | Some Inside | Some (Releasing _) => Some (grant (lock s))
  | _ => None
  end.

Definition in_critical (s : mutex_sys) (i : Z) : Prop :=
  nthZ (pcs s) i = Some Inside \/ exists g, nthZ (pcs s) i = Some (Releasing g).

(** [line] is the queue of the threads with a ticket; [inside], if any, is its
    head. *)
Record mutex_inv (n : nat) (s : mutex_sys) (line : list Z) (inside : option Z) : Prop := {
  mi_len : lenZ (pcs s) = Z.of_nat n;
  mi_line i : i ∈ line -> 0 <= i < Z.of_nat n;
  mi_tickets : tickets_ok (2 ^ 32) (grant (lock s)) (request (lock s)) (held s) line;
  mi_release i g : nthZ (pcs s) i = Some (Releasing g) -> g = grant (lock s);
  mi_arrivals : arrivals s = exits s ++ line;
  mi_entries : entries s = exits s ++ option_list inside;
  mi_head i : inside = Some i -> head line = Some i;
  mi_inside i : in_critical s i <-> inside = Some i
}.

Lemma pow32 : 0 < 2 ^ 32.
Proof. lia. Qed.

Lemma u32_s32 z : 0 <= z < 2 ^ 32 -> u32 (s32 z) = z.
Proof. intros. unfold u32, s32. zdm. Qed.

Section invariant.
Context (n : nat) (few : Z.of_nat n <= 2 ^ 32).
Implicit Types s : mutex_sys.

Lemma line_room s line inside i : mutex_inv n s line inside -> i ∉ line ->
  0 <= i < Z.of_nat n -> lenZ line < 2 ^ 32.
Proof.
  intros H Hi Hr. destruct (mi_tickets _ _ _ _ H) as (Hnd & _).
  pose proof (short_line n (i :: line)) as Hs. unfold lenZ in *. cbn [length] in Hs.
  assert (Z.of_nat (S (length line)) <= Z.of_nat n); [|lia].
  apply Hs; [by constructor|]. intros j [->|Hj]%elem_of_cons; [done|]. by apply (mi_line _ _ _ _ H).
Qed.

Lemma mutex_inv_lock s line inside i :
  mutex_inv n s line inside -> nthZ (pcs s) i = Some Outside ->
  mutex_inv n (mutex_lock i s) (line ++ [i]) inside.
Proof.
  intros H Hpc. pose proof (nthZ_Some_range _ _ _ Hpc) as Hr.
  pose proof (mi_tickets _ _ _ _ H) as Ht.
  assert (i ∉ line) as Hi.
  { rewrite <- (ticket_in_line _ Ht). unfold held. rewrite Hpc. by intros [? ?]. }
  pose proof (line_room s line inside i H Hi) as Hroom. rewrite (mi_len _ _ _ _ H) in Hr.
  specialize (Hroom Hr). pose proof (tickets_range (2 ^ 32) _ _ _ _ pow32 Ht) as [_ Hq].
  assert (forall j, nthZ (pcs (mutex_lock i s)) j =
    if decide (j = i) then Some (Waiting (s32 (request (lock s)))) else nthZ (pcs s) j) as Hp.
  { intros j. cbn. case_decide; [subst; apply nthZ_updZ_eq; by rewrite (mi_len _ _ _ _ H)|].
    by apply nthZ_updZ_ne. }
  split.
  - cbn. rewrite lenZ_updZ. apply H.
  - intros j [Hj| ->%list_elem_of_singleton]%elem_of_app; [by apply (mi_line _ _ _ _ H)|done].
  - cbn [lock grant request mutex_lock take_ticket set_field].
    eapply tickets_ext; [|exact (ticket_arrive (2 ^ 32) pow32 Ht i Hi Hroom)].
    intros j. unfold held. rewrite Hp. unfold set_ticket. case_decide; [|done].
    by rewrite u32_s32.
  - intros j g. rewrite Hp. case_decide; [done|]. apply (mi_release _ _ _ _ H).
  - cbn. by rewrite (mi_arrivals _ _ _ _ H), app_assoc.
  - apply H.
  - intros j Hj. pose proof (mi_head _ _ _ _ H _ Hj). by destruct line.
  - intros j. rewrite <- (mi_inside _ _ _ _ H). unfold in_critical. rewrite Hp.
    case_decide; [|done]. subst j. rewrite Hpc. naive_solver.
Qed.

Lemma mutex_inv_round s line inside i t :
  mutex_inv n s line inside -> nthZ (pcs s) i = Some (Waiting t) -> must_wait t (lock s) = false ->
  inside = None /\ head line = Some i /\ mutex_inv n (mutex_lock_round i t s) line (Some i).
Proof.
  intros H Hpc Hw. pose proof (nthZ_Some_range _ _ _ Hpc) as Hr.
  pose proof (mi_tickets _ _ _ _ H) as Ht. unfold mutex_lock_round. rewrite Hw.
  apply negb_false_iff, Z.eqb_eq in Hw.
  assert (held s i = Some (u32 t)) as Hheld by (unfold held; by rewrite Hpc).
  assert (head line = Some i) as Hh by (by apply (ticket_served (2 ^ 32) pow32 Ht i (u32 t))).
  assert (inside = None) as ->.
  { destruct inside as [j|]; [|done]. pose proof (mi_head _ _ _ _ H j eq_refl) as Hj.
    rewrite Hh in Hj. injection Hj as <-. pose proof (mi_inside _ _ _ _ H i) as [_ Hc].
    destruct (Hc eq_refl) as [Hx|[g Hx]]; congruence. }
  split_and!; [done..|].
  assert (forall j, nthZ (updZ (pcs s) i Inside) j =
    if decide (j = i) then Some Inside else nthZ (pcs s) j) as Hp.
  { intros j. case_decide; [subst; by apply nthZ_updZ_eq|by apply nthZ_updZ_ne]. }
  split; cbn [pcs lock arrivals entries exits set_field].
  - rewrite lenZ_updZ. apply H.
  - apply H.
  - eapply tickets_ext; [|exact Ht]. intros j. unfold held. cbn. rewrite Hp.
    case_decide; [|done]. subst j. by rewrite Hpc, Hw.
  - intros j g. rewrite Hp. case_decide; [done|]. apply (mi_release _ _ _ _ H).
  - apply H.
  - rewrite (mi_entries _ _ _ _ H). cbn. by rewrite app_nil_r.
  - by intros j [= <-].
  - intros j. unfold in_critical. cbn. rewrite Hp. case_decide; [subst; naive_solver|].
    pose proof (mi_inside _ _ _ _ H j) as Hin. unfold in_critical in Hin. naive_solver.
Qed.

Lemma mutex_inv_unlock s line inside i :
  mutex_inv n s line inside -> nthZ (pcs s) i = Some Inside ->
  mutex_inv n (mutex_unlock i s) line inside.
Proof.
  intros H Hpc. pose proof (nthZ_Some_range _ _ _ Hpc) as Hr.
  assert (forall j, nthZ (updZ (pcs s) i (Releasing (grant (lock s)))) j =
    if decide (j = i) then Some (Releasing (grant (lock s))) else nthZ (pcs s) j) as Hp.
  { intros j. case_decide; [subst; by apply nthZ_updZ_eq|by apply nthZ_updZ_ne]. }
  split; cbn [pcs lock arrivals entries exits set_field mutex_unlock]; try apply H.
  - rewrite lenZ_updZ. apply H.
  - eapply tickets_ext; [|apply H]. intros j. unfold held. cbn. rewrite Hp.
    case_decide; [|done]. subst j. by rewrite Hpc.
  - intros j g. rewrite Hp. case_decide; [by intros [= <-]|]. apply (mi_release _ _ _ _ H).
  - intros j. rewrite <- (mi_inside _ _ _ _ H). unfold in_critical. cbn. rewrite Hp.
    case_decide; [|done]. subst j. rewrite Hpc. naive_solver.
Qed.

Lemma mutex_inv_store s line inside i g :
  mutex_inv n s line inside -> nthZ (pcs s) i = Some (Releasing g) ->
  exists rest, line = i :: rest /\ mutex_inv n (mutex_unlock_store i g s) rest None.
Proof.
  intros H Hpc. pose proof (nthZ_Some_range _ _ _ Hpc) as Hr.
  assert (inside = Some i) as -> by (apply (mi_inside _ _ _ _ H); right; eauto).
  pose proof (mi_head _ _ _ _ H i eq_refl) as Hh. destruct line as [|i' rest]; [done|].
  injection Hh as ->. exists rest. split; [done|].
  rewrite (mi_release _ _ _ _ H _ _ Hpc). pose proof (mi_tickets _ _ _ _ H) as Ht.
  assert (forall j, nthZ (updZ (pcs s) i Outside) j =
    if decide (j = i) then Some Outside else nthZ (pcs s) j) as Hp.
  { intros j. case_decide; [subst; by apply nthZ_updZ_eq|by apply nthZ_updZ_ne]. }
  assert (forall j, j <> i -> ~ in_critical s j) as Hout.
  { intros j Hj Hc%(mi_inside _ _ _ _ H). congruence. }
  split; cbn [pcs lock arrivals entries exits set_field mutex_unlock_store grant request].
  - rewrite lenZ_updZ. apply H.
  - intros j Hj. apply (mi_line _ _ _ _ H). by right.
  - eapply tickets_ext; [|exact (ticket_leave (2 ^ 32) pow32 Ht i rest eq_refl)].
    intros j. unfold held, set_ticket. cbn. rewrite Hp. case_decide as Hj; [done|].
    specialize (Hout j Hj). unfold in_critical in Hout.
    destruct (nthZ (pcs s) j) as [[]|]; naive_solver.
  - intros j g'. rewrite Hp. case_decide as Hj; [done|]. intros Hx.
    destruct (Hout j Hj). right. eauto.
  - rewrite (mi_arrivals _ _ _ _ H). by rewrite <- app_assoc.
  - rewrite (mi_entries _ _ _ _ H). cbn. by rewrite app_nil_r.
  - done.
  - intros j. unfold in_critical. cbn. rewrite Hp. case_decide as Hj; [naive_solver|].
    split; [|done]. intros Hc. by destruct (Hout j Hj).
Qed.

Lemma mutex_inv_step s line inside i : mutex_inv n s line inside ->
  exists line' inside', mutex_inv n (mutex_step i s) line' inside'.
Proof.
  intros H. unfold mutex_step. destruct (nthZ (pcs s) i) as [[|t| |g]|] eqn:Hpc; [..|by eauto].
  - eauto using mutex_inv_lock.
  - destruct (must_wait t (lock s)) eqn:Hw.
    + unfold mutex_lock_round. rewrite Hw. eauto.
    + apply (mutex_inv_round _ _ _ _ _ H Hpc) in Hw as (_ & _ & ?). eauto.
  - eauto using mutex_inv_unlock.
  - destruct (mutex_inv_store _ _ _ _ _ H Hpc) as (rest & _ & ?). eauto.
Qed.

Lemma mutex_inv_start : mutex_inv n (mutex_start n) [] None.
Proof.
  assert (forall i, nthZ (replicate n Outside) i = Some Outside \/
                    nthZ (replicate n Outside) i = None) as Hp.
  { intros i. destruct (nthZ (replicate n Outside) i) as [pc|] eqn:E; [left|by right].
    apply nthZ_Some_range in E as Hr. rewrite lenZ_replicate in Hr.
    by rewrite nthZ_replicate in E. }
  split; cbn; try done.
  - apply lenZ_replicate.
  - set_solver.
  - eapply tickets_ext; [|apply tickets_empty; lia]. intros i. unfold held. cbn.
    by destruct (Hp i) as [->| ->].
  - intros i g Hi. destruct (Hp i); congruence.
  - intros i. split; [|done]. intros [Hi|[g Hi]]; cbn in Hi; destruct (Hp i); congruence.
Qed.

Lemma mutex_inv_run sched s line inside : mutex_inv n s line inside ->
  exists line' inside', mutex_inv n (mutex_run sched s) line' inside'.
Proof.
  revert s line inside. induction sched as [|i sched IH]; intros s line inside H; [eauto|].
  destruct (mutex_inv_step s line inside i H) as (line' & inside' & H'). by eapply IH.
Qed.
End invariant.

(** ** What the mutex guarantees *)

(** C8: with at most [2^32] threads and any interleaving of their accesses, at
    most one thread is past [mutex_lock] and not yet through [mutex_unlock], and
    threads enter in the order in which they took their tickets: the entries are
    a prefix of the arrivals, the exits a prefix of the entries at most one
    shorter.  The counters may wrap around. *)
Theorem mutex_excludes_in_order n sched :
  Z.of_nat n <= 2 ^ 32 ->
  let s := mutex_run sched (mutex_start n) in
  entries s `prefix_of` arrivals s /\ exits s `prefix_of` entries s /\
  lenZ (entries s) <= lenZ (exits s) + 1 /\
  (forall i j, in_critical s i -> in_critical s j -> i = j).
Proof.
  intros Hn s. destruct (mutex_inv_run n Hn sched _ _ _ (mutex_inv_start n Hn)) as (line & inside & H).
  fold s in H. rewrite (mi_entries _ _ _ _ H), (mi_arrivals _ _ _ _ H). split_and!.
  - apply prefix_app. destruct inside as [i|]; [|apply prefix_nil].
    pose proof (mi_head _ _ _ _ H i eq_refl). destruct line; [done|]. simplify_eq/=.
    apply prefix_cons, prefix_nil.
  - by apply prefix_app_r.
  - rewrite lenZ_app. destruct inside; unfold lenZ; cbn; lia.
  - intros i j Hi%(mi_inside _ _ _ _ H) Hj%(mi_inside _ _ _ _ H). congruence.
Qed.

(** Three threads; the second waits for the first. *)
Lemma mutex_excludes_in_order_witness :
  Z.of_nat 3 <= 2 ^ 32 /\
  (let s := mutex_run [0; 1; 0; 1; 2; 0; 0; 2; 1] (mutex_start 3) in
   (arrivals s, entries s, exits s) = ([0; 1; 2], [0; 1], [0]) /\
   entries s `prefix_of` arrivals s).
Proof.
  split; [lia|]. split; [by vm_compute|].
  apply (mutex_excludes_in_order 3 [0; 1; 0; 1; 2; 0; 0; 2; 1]). lia.
Defined.

Lemma mutex_run_app a b s : mutex_run (a ++ b) s = mutex_run b (mutex_run a s).
Proof. apply fold_left_app. Qed.

(** A step of one thread does not move another. *)
Lemma other_pc s h i : h <> i -> nthZ (pcs (mutex_step h s)) i = nthZ (pcs s) i.
Proof.
  intros Hne. unfold mutex_step. destruct (nthZ (pcs s) h) as [[|t| |g]|]; [..|done]; cbn;
    try by apply nthZ_updZ_ne.
  unfold mutex_lock_round. destruct (must_wait t (lock s)); [done|]. by apply nthZ_updZ_ne.
Qed.

(** ** Bounded waiting *)

(** How many steps a thread of the queue still takes until it has left. *)
Definition stage (s : mutex_sys) (h : Z) : nat :=
  match nthZ (pcs s) h with
  | Some (Waiting _) => 3
  | Some Inside => 2
  | Some (Releasing _) => 1
  | _ => 0
  end.

(** A bound on the steps that heads of the queue take until the thread behind
    [ahead] is in. *)
Definition distance (s : mutex_sys) (ahead : list Z) : nat :=
  match ahead with
  | [] => 1
  | h :: rest => stage s h + 3 * length rest + 1
  end.

(** A stretch of an interleaving in which every thread takes a step. *)
Definition fair_round (n : nat) (round : list Z) : Prop :=
  forall j, 0 <= j < Z.of_nat n -> j ∈ round.

Lemma stage_le s h : (stage s h <= 3)%nat.
Proof. unfold stage. destruct (nthZ (pcs s) h) as [[]|]; lia. Qed.

Lemma distance_le s ahead : (distance s ahead <= 3 * length ahead + 1)%nat.
Proof. destruct ahead as [|h ahead]; cbn; [lia|]. pose proof (stage_le s h). lia. Qed.

Lemma distance_pos s ahead : (1 <= distance s ahead)%nat.
Proof. destruct ahead; cbn; lia. Qed.

Section waiting.
Context (n : nat) (few : Z.of_nat n <= 2 ^ 32) (i t : Z) (served : list Z).
Implicit Types (s : mutex_sys) (ahead behind line : list Z).

(** Thread [i] waits behind [ahead]; [served] are all threads that go before it. *)
Definition waits_behind s ahead : Prop :=
  exists behind inside, mutex_inv n s (ahead ++ i :: behind) inside /\
    nthZ (pcs s) i = Some (Waiting t) /\ served = exits s ++ ahead.

Definition got_in s : Prop := nthZ (pcs s) i = Some Inside /\ entries s = served ++ [i].

Lemma head_served s h line inside t' : mutex_inv n s (h :: line) inside ->
  nthZ (pcs s) h = Some (Waiting t') -> must_wait t' (lock s) = false.
Proof.
  intros H Hpc. unfold must_wait. apply negb_false_iff, Z.eqb_eq. symmetry.
  apply (ticket_served (2 ^ 32) pow32 (mi_tickets _ _ _ _ H) h); [|done].
  unfold held. by rewrite Hpc.
Qed.

(** A thread that is not at the head neither enters nor leaves. *)
Lemma not_head s line inside j : mutex_inv n s line inside -> head line <> Some j ->
  match nthZ (pcs s) j with
  | Some Outside => mutex_step j s = mutex_lock j s
  | Some Inside | Some (Releasing _) => False
  | _ => mutex_step j s = s
  end.
Proof.
  intros H Hj. unfold mutex_step. destruct (nthZ (pcs s) j) as [[|t'| |g]|] eqn:Hpc; [done|..|done].
  - destruct (must_wait t' (lock s)) eqn:Hw; [unfold mutex_lock_round; by rewrite Hw|].
    by destruct (mutex_inv_round n _ _ _ _ _ H Hpc Hw) as (_ & ? & _).
  - apply Hj, (mi_head _ _ _ _ H), (mi_inside _ _ _ _ H). by left.
  - apply Hj, (mi_head _ _ _ _ H), (mi_inside _ _ _ _ H). right. eauto.
Qed.

Lemma other_step s ahead j : waits_behind s ahead -> head (ahead ++ [i]) <> Some j ->
  waits_behind (mutex_step j s) ahead /\ distance (mutex_step j s) ahead = distance s ahead.
Proof.
  intros (behind & inside & H & Hpc & Hs) Hj.
  assert (head (ahead ++ i :: behind) <> Some j) as Hj' by (by destruct ahead).
  pose proof (not_head _ _ _ _ H Hj') as Hstep.
  assert (waits_behind s ahead) as Hself by (exists behind, inside; done).
  destruct (nthZ (pcs s) j) as [[|t'| |g]|] eqn:Hpj; try done; [|by rewrite Hstep..].
  assert (j <> i) by congruence. split.
  - exists (behind ++ [j]), inside. rewrite other_pc, Hstep by done. split_and!; [|done..].
    rewrite app_comm_cons, app_assoc. by apply mutex_inv_lock.
  - destruct ahead as [|h ahead]; [done|]. cbn in *. unfold stage. rewrite other_pc; [done|congruence].
Qed.

(** A step of the head brings [i] closer, or in when [i] is the head. *)
Lemma head_step s ahead h : waits_behind s ahead -> head (ahead ++ [i]) = Some h ->
  got_in (mutex_step h s) \/
  exists ahead', waits_behind (mutex_step h s) ahead' /\
    (distance (mutex_step h s) ahead' < distance s ahead)%nat.
Proof.
  intros (behind & inside & H & Hpc & Hs) Hh.
  destruct ahead as [|h' rest]; cbn in Hh; injection Hh as Hh; subst h.
  - left. pose proof (head_served _ _ _ _ _ H Hpc) as Hw.
    destruct (mutex_inv_round n _ _ _ _ _ H Hpc Hw) as (-> & _ & H').
    unfold mutex_step. rewrite Hpc. split.
    + unfold mutex_lock_round. rewrite Hw. cbn. apply nthZ_updZ_eq. by eapply nthZ_Some_range.
    + rewrite (mi_entries _ _ _ _ H'). unfold mutex_lock_round. rewrite Hw. cbn. by rewrite Hs, app_nil_r.
  - right. rename h' into h. assert (h <> i) as Hne.
    { intros ->. destruct (mi_tickets _ _ _ _ H) as (Hnd & _). cbn in Hnd.
      apply NoDup_cons in Hnd as [Hnd _]. apply Hnd, elem_of_app. right. by left. }
    destruct (ticket_in_line _ (mi_tickets _ _ _ _ H) h) as [_ Ht].
    destruct Ht as [t' Ht]; [by left|]. unfold held in Ht.
    assert (forall pc, nthZ (updZ (pcs s) h pc) h = Some pc) as Hupd.
    { intros pc. apply nthZ_updZ_eq. destruct (nthZ (pcs s) h) eqn:E; [|done].
      by eapply nthZ_Some_range. }
    assert (nthZ (pcs (mutex_step h s)) i = Some (Waiting t)) as Hpc' by (by rewrite other_pc).
    revert Hpc'. unfold distance at 2, stage, mutex_step.
    destruct (nthZ (pcs s) h) as [[|u| |g]|] eqn:Hph; try done; intros Hpc'.
    + pose proof (head_served _ _ _ _ _ H Hph) as Hw.
      destruct (mutex_inv_round n _ _ _ _ _ H Hph Hw) as (_ & _ & H').
      exists (h :: rest). split; [exists behind, (Some h); split_and!; [done..|]|].
      * unfold mutex_lock_round. by rewrite Hw.
      * cbn. unfold stage, mutex_lock_round. rewrite Hw. cbn. rewrite Hupd. lia.
    + exists (h :: rest). split; [exists behind, inside; split_and!; [by apply mutex_inv_unlock|done..]|].
      cbn. unfold stage. cbn. rewrite Hupd. lia.
    + destruct (mutex_inv_store n _ _ _ _ _ H Hph) as (r & [= <-] & H').
      exists rest. split; [exists behind, None; split_and!; [done..|]|].
      * cbn. by rewrite <- app_assoc.
      * pose proof (distance_le (mutex_unlock_store h g s) rest). lia.
Qed.

(** In any stretch of steps [i] gets in or comes no further away, and closer if
    the head of the queue takes a step in it. *)
Lemma stretch_closer round s ahead : waits_behind s ahead ->
  (exists a, a `prefix_of` round /\ got_in (mutex_run a s)) \/
  exists ahead', waits_behind (mutex_run round s) ahead' /\
    (distance (mutex_run round s) ahead' <= distance s ahead)%nat /\
    ((exists h, head (ahead ++ [i]) = Some h /\ h ∈ round) ->
     distance (mutex_run round s) ahead' < distance s ahead)%nat.
Proof.
  revert s ahead. induction round as [|j round IH]; intros s ahead Hw.
  { right. exists ahead. split_and!; [done..|]. by intros (h & _ & []%not_elem_of_nil). }
  change (mutex_run (j :: round) s) with (mutex_run round (mutex_step j s)).
  assert (forall a, a `prefix_of` round -> j :: a `prefix_of` j :: round) as Hcons
    by (intros; by apply prefix_cons).
  destruct (decide (head (ahead ++ [i]) = Some j)) as [Hj|Hj].
  - destruct (head_step s ahead j Hw Hj) as [Hin|(ahead1 & Hw1 & Hd1)].
    { left. exists [j]. split; [apply Hcons, prefix_nil|done]. }
    destruct (IH _ _ Hw1) as [(a & Ha & Hin)|(ahead2 & Hw2 & Hd2 & _)].
    + left. exists (j :: a). eauto.
    + right. exists ahead2. split_and!; [done|lia|intros; lia].
  - destruct (other_step s ahead j Hw Hj) as (Hw1 & Hd1).
    destruct (IH _ _ Hw1) as [(a & Ha & Hin)|(ahead2 & Hw2 & Hd2 & Hd3)].
    + left. exists (j :: a). eauto.
    + right. exists ahead2. rewrite <- Hd1. split_and!; [done..|].
      intros (h & Hh & [->|Hin]%elem_of_cons); [done|]. eauto.
Qed.

Lemma head_is_thread s ahead : waits_behind s ahead ->
  exists h, head (ahead ++ [i]) = Some h /\ 0 <= h < Z.of_nat n.
Proof.
  intros (behind & inside & H & _ & _). pose proof (mi_line _ _ _ _ H) as Hl.
  destruct ahead as [|h ahead]; cbn; eexists; (split; [done|]); apply Hl; by left.
Qed.

Lemma fair_rounds_get_in rounds s ahead : waits_behind s ahead ->
  Forall (fair_round n) rounds -> (distance s ahead <= length rounds)%nat ->
  exists a, a `prefix_of` concat rounds /\ got_in (mutex_run a s).
Proof.
  revert s ahead. induction rounds as [|round rounds IH]; intros s ahead Hw Hf Hd.
  { pose proof (distance_pos s ahead). cbn in Hd. lia. }
  apply Forall_cons in Hf as [Hr Hf].
  destruct (stretch_closer round s ahead Hw) as [(a & Ha & Hin)|(ahead1 & Hw1 & _ & Hd1)].
  - exists a. split; [|done]. cbn. by apply prefix_app_r.
  - destruct (head_is_thread s ahead Hw) as (h & Hh & Hn).
    destruct (IH _ _ Hw1 Hf) as (a & Ha & Hin).
    { cbn in Hd. assert (distance (mutex_run round s) ahead1 < distance s ahead)%nat; [eauto|lia]. }
    exists (round ++ a). rewrite mutex_run_app. split; [cbn; by apply prefix_app|done].
Qed.
End waiting.

(** C26: waiting is bounded under every fair schedule.  In every reachable state
    in which thread [i] waits, it stands in the queue of the threads that have a
    ticket and have not released, behind some threads [ahead] of which there are
    fewer than [n]; and however the threads go on, once every thread has taken a
    step in each of [3 * length ahead + 1] stretches of the schedule, [i] has been
    let in, after exactly the threads ahead of it. *)
Theorem mutex_waiter_gets_in n sched i t :
  Z.of_nat n <= 2 ^ 32 ->
  let s := mutex_run sched (mutex_start n) in
  nthZ (pcs s) i = Some (Waiting t) ->
  exists ahead behind, arrivals s = exits s ++ ahead ++ i :: behind /\
    (length ahead < n)%nat /\
    forall rounds, Forall (fair_round n) rounds -> (3 * length ahead + 1 <= length rounds)%nat ->
      exists a, a `prefix_of` concat rounds /\
        nthZ (pcs (mutex_run a s)) i = Some Inside /\
        entries (mutex_run a s) = exits s ++ ahead ++ [i].
Proof.
  intros Hn s Hpc. destruct (mutex_inv_run n Hn sched _ _ _ (mutex_inv_start n Hn)) as (line & inside & H).
  fold s in H. destruct (ticket_in_line _ (mi_tickets _ _ _ _ H) i) as [Hl _].
  destruct (list_elem_of_split line i) as (ahead & behind & ->).
  { apply Hl. exists (u32 t). unfold held. by rewrite Hpc. }
  exists ahead, behind. split_and!; [apply H|..].
  - pose proof (short_line n (ahead ++ i :: behind)) as Hs.
    destruct (mi_tickets _ _ _ _ H) as (Hnd & _). specialize (Hs Hnd (mi_line _ _ _ _ H)).
    rewrite lenZ_app in Hs. unfold lenZ in Hs. cbn in Hs. lia.
  - intros rounds Hf Hlen.
    assert (waits_behind n i t (exits s ++ ahead) s ahead) as Hw by (exists behind, inside; done).
    destruct (fair_rounds_get_in n Hn i t _ rounds s ahead Hw Hf) as (a & Ha & Hin & He).
    { pose proof (distance_le s ahead). lia. }
    exists a. by rewrite <- app_assoc in He.
Qed.

(** Three threads that have taken their tickets in the order 1, 0, 2; seven fair
    stretches, with the threads in any order, let the last one in. *)
Lemma mutex_waiter_gets_in_witness :
  Z.of_nat 3 <= 2 ^ 32 /\
  (let s := mutex_run [1; 0; 2; 1] (mutex_start 3) in
   nthZ (pcs s) 2 = Some (Waiting 2) /\
   exists ahead behind, arrivals s = exits s ++ ahead ++ 2 :: behind /\
    (length ahead < 3)%nat /\
    forall rounds, Forall (fair_round 3) rounds -> (3 * length ahead + 1 <= length rounds)%nat ->
      exists a, a `prefix_of` concat rounds /\
        nthZ (pcs (mutex_run a s)) 2 = Some Inside /\
        entries (mutex_run a s) = exits s ++ ahead ++ [2]).
Proof.
  split; [lia|]. split; [by vm_compute|].
  apply (mutex_waiter_gets_in 3 [1; 0; 2; 1] 2 2); [lia|by vm_compute].
Defined.
