(* ===== verification/IrqLock.v ===== *)
(** * The interrupt-saving ticket lock ([kernel/sync.h])

    A core that takes the lock disables its interrupts, draws a ticket and waits
    for its turn; a core that already owns the lock only counts.  Cores interleave
    at every access to the lock's fields.  [depth] and [saved] are history: how
    often the core holds the lock, and whether its interrupts were on before the
    outermost call. *)

From S2P Require Import Prelude.
From S2P Require Import Atomic.
From S2P Require Import Ticket.

(** ** The lock *)

Record spinlock_irqsave := mkIrqLock {
  queue : Z;
  dequeue : Z;
  lk_cid : Z;
  lk_cnt : Z;
  lk_flags : Z
}.

#[export] Instance eta_irqsave : Eta spinlock_irqsave := fun l =>
  mkIrqLock (queue l) (dequeue l) (lk_cid l) (lk_cnt l) (lk_flags l).

(** [(DWORD) -1]: no owner *)
Definition NOBODY : Z := u32 (-1).

Definition EINVAL : Z := 22.

(** The first two functions on a lock given by address, [None] for NULL. *)
Definition spinlock_irqsave_init (l : option spinlock_irqsave) : Z * option spinlock_irqsave :=
  match l with
  | None => (- EINVAL, None)
  | Some l => (0, Some (l <| queue := 0 |> <| dequeue := 1 |> <| lk_flags := 0 |>
                          <| lk_cid := NOBODY |> <| lk_cnt := 0 |>))
  end.

Definition spinlock_irqsave_destroy (l : option spinlock_irqsave) : Z * option spinlock_irqsave :=
  match l with
  | None => (- EINVAL, None)
  | Some l => (0, Some (l <| lk_flags := 0 |> <| lk_cid := NOBODY |> <| lk_cnt := 0 |>))
  end.

(** ** A core inside the two calls *)

(** Where a core is: in no call; in [spinlock_irqsave_lock], about to compare the
    owner, draw a ticket, read [dequeue], set [cid], [flags], [cnt]; or in the
    last unlock, about to read [flags], clear [cid], clear [flags], pass the lock
    on, restore the interrupt flag. *)
Inductive irq_pc :=
| Idle
| Check (flags : Z)
| Draw (flags : Z)
| Spin (flags ticket : Z)
| SetCid (flags : Z)
| SetFlags (flags : Z)
| SetCnt
| LoadFlags
| ClearCid (flags : Z)
| ClearFlags (flags : Z)
| Pass (flags : Z)
| Enable (flags : Z).

Record core := mkCore {
  pc : irq_pc;
  eflags : Z;
  depth : Z;
  saved : bool
}.

#[export] Instance eta_core : Eta core := fun c => mkCore (pc c) (eflags c) (depth c) (saved c).

Record irq_sys := mkIrqSys {
  ilock : spinlock_irqsave;
  cores : list core;
  arrived : list Z;
  entered : list Z;
  left : list Z
}.

#[export] Instance eta_irq_sys : Eta irq_sys := fun s =>
  mkIrqSys (ilock s) (cores s) (arrived s) (entered s) (left s).

Definition set_core (s : irq_sys) (c : Z) (k : core) : irq_sys :=
  s <| cores := updZ (cores s) c k |>.

(** [irq_nested_disable] on the core's flags register. *)
Definition cli (k : core) : Z * core :=
  match irq_nested_disable (eflags k) with
  | Ok (w, f) => (w, k <| eflags := f |>)
  | Fault _ => (0, k)
  end.

Definition sti_if (w : Z) (k : core) : core :=
  match irq_nested_enable w (eflags k) with
  | Ok (_, f) => k <| eflags := f |>
  | Fault _ => k
  end.

(** The next access of core [c] inside [spinlock_irqsave_lock]. *)
Definition spinlock_irqsave_lock (c : Z) (k : core) (s : irq_sys) : irq_sys :=
  let l := ilock s in
  match pc k with
  | Check flags =>
      if lk_cid l =? c then
        set_core (s <| ilock := l <| lk_cnt := u32 (lk_cnt l + 1) |> |>) c
          (k <| pc := Idle |> <| depth := depth k + 1 |>)
      else set_core s c (k <| pc := Draw flags |>)
  | Draw flags =>
      let ticket := u64 (queue l + 1) in
      set_core (s <| ilock := l <| queue := ticket |> |> <| arrived := arrived s ++ [c] |>) c
        (k <| pc := Spin flags ticket |>)
  | Spin flags ticket =>
      if negb (dequeue l =? ticket) then s
      else set_core (s <| entered := entered s ++ [c] |>) c (k <| pc := SetCid flags |>)
  | SetCid flags =>
      set_core (s <| ilock := l <| lk_cid := u32 c |> |>) c (k <| pc := SetFlags flags |>)
  | SetFlags flags =>
      set_core (s <| ilock := l <| lk_flags := u8 flags |> |>) c (k <| pc := SetCnt |>)
  | SetCnt =>
      set_core (s <| ilock := l <| lk_cnt := 1 |> |>) c (k <| pc := Idle |> <| depth := 1 |>)
  | _ => s
  end.

(** The next access of core [c] inside [spinlock_irqsave_unlock]. *)
Definition spinlock_irqsave_unlock (c : Z) (k : core) (s : irq_sys) : irq_sys :=
  let l := ilock s in
  match pc k with
  | LoadFlags => set_core s c (k <| pc := ClearCid (lk_flags l) |>)
  | ClearCid flags =>
      set_core (s <| ilock := l <| lk_cid := NOBODY |> |>) c (k <| pc := ClearFlags flags |>)
  | ClearFlags flags =>
      set_core (s <| ilock := l <| lk_flags := 0 |> |>) c (k <| pc := Pass flags |>)
  | Pass flags =>
      set_core (s <| ilock := l <| dequeue := u64 (dequeue l + 1) |> |> <| left := left s ++ [c] |>)
        c (k <| pc := Enable flags |>)
  | Enable flags => set_core s c (sti_if flags (k <| pc := Idle |>))
  | _ => s
  end.

(** An idle core calls lock, or, when it holds the lock, unlock. *)
Inductive request := Lock | Unlock.

Definition call_lock (c : Z) (k : core) (s : irq_sys) : irq_sys :=
  let on := irq_on (eflags k) in
  let '(flags, k') := cli k in
  set_core s c (k' <| pc := Check flags |>
                   <| saved := if depth k =? 0 then on else saved k |>).

(** [lock->cnt--; if (!lock->cnt)] *)
Definition call_unlock (c : Z) (k : core) (s : irq_sys) : irq_sys :=
  if depth k =? 0 then s
  else
    let l := ilock s <| lk_cnt := u32 (lk_cnt (ilock s) - 1) |> in
    set_core (s <| ilock := l |>) c
      (k <| depth := depth k - 1 |> <| pc := if lk_cnt l =? 0 then LoadFlags else Idle |>).

Definition irq_step (e : Z * request) (s : irq_sys) : irq_sys :=
  let '(c, r) := e in
  match nthZ (cores s) c with
  | None => s
  | Some k =>
      match pc k, r with
      | Idle, Lock => call_lock c k s
      | Idle, Unlock => call_unlock c k s
      | (LoadFlags | ClearCid _ | ClearFlags _ | Pass _ | Enable _), _ => spinlock_irqsave_unlock c k s
      | _, _ => spinlock_irqsave_lock c k s
      end
  end.

Definition irq_run (es : list (Z * request)) (s : irq_sys) : irq_sys :=
  fold_left (fun s e => irq_step e s) es s.

(** Cores with the given flags registers, and a lock from [SPINLOCK_IRQSAVE_INIT]. *)
Definition irq_start (flags : list Z) : irq_sys :=
  mkIrqSys (mkIrqLock 0 1 NOBODY 0 0)
    ((fun f => mkCore Idle f 0 (irq_on f)) <$> flags) [] [] [].

(** ** The invariant *)

Inductive role := Away | Queued (t : Z) | Owner.

Definition role_of (k : core) : role :=
  match pc k with
  | Idle | Check _ => if depth k =? 0 then Away else Owner
  | Draw _ | Enable _ => Away
  | Spin _ t => Queued t
  | _ => Owner
  end.

(** What a core may rely on, given the lock. *)
Definition core_ok (l : spinlock_irqsave) (bound c : Z) (k : core) : Prop :=
  let off := irq_on (eflags k) = false in
  let was f := f = Z.b2z (saved k) in
  let owned := lk_cid l = c /\ lk_cnt l = depth k /\ was (lk_flags l) in
  0 <= depth k <= bound /\
  match pc k with
  | Idle => if depth k =? 0 then irq_on (eflags k) = saved k else off /\ owned
  | Check f => off /\ (if depth k =? 0 then was f else owned)
  | Draw f | Spin f _ | Enable f => off /\ depth k = 0 /\ was f
  | SetCid f => off /\ depth k = 0 /\ was f
  | SetFlags f => off /\ depth k = 0 /\ was f /\ lk_cid l = c
  | SetCnt => off /\ depth k = 0 /\ lk_cid l = c /\ was (lk_flags l)
  | LoadFlags => off /\ depth k = 0 /\ lk_cid l = c /\ was (lk_flags l)
  | ClearCid f => off /\ depth k = 0 /\ lk_cid l = c /\ was f
  | ClearFlags f | Pass f => off /\ depth k = 0 /\ was f /\ lk_cid l = NOBODY
  end.

Definition held (s : irq_sys) (c : Z) : option Z :=
  match role_of <$> nthZ (cores s) c with
  | Some (Queued t) => Some t
  | Some Owner => Some (dequeue (ilock s))
  | _ => None
  end.

Record irq_inv (n : nat) (bound : Z) (s : irq_sys) (line : list Z) (owner : option Z) : Prop := {
  ii_len : lenZ (cores s) = Z.of_nat n;
  ii_line c : c ∈ line -> 0 <= c < Z.of_nat n;
  ii_tickets : tickets_ok (2 ^ 64) (dequeue (ilock s)) (u64 (queue (ilock s) + 1)) (held s) line;
  ii_core c k : nthZ (cores s) c = Some k -> core_ok (ilock s) bound c k;
  ii_owner c k : nthZ (cores s) c = Some k -> role_of k = Owner <-> owner = Some c;
  ii_head c : owner = Some c -> head line = Some c;
  ii_cid : lk_cid (ilock s) = NOBODY \/ owner = Some (lk_cid (ilock s));
  ii_arrived : arrived s = left s ++ line;
  ii_entered : entered s = left s ++ option_list owner
}.

Lemma cli_run k : exists f, cli k = (Z.b2z (irq_on (eflags k)), k <| eflags := f |>) /\
  irq_on f = false.
Proof. eexists. unfold cli. rewrite irq_nested_disable_run. split; [done|]. apply irq_off. Qed.

Lemma sti_if_run w k : exists f, sti_if w k = k <| eflags := f |> /\
  irq_on f = (irq_on (eflags k) || negb (w =? 0)).
Proof.
  unfold sti_if. destruct (irq_nested_enable_run (eflags k) w) as (f & -> & Hf). by exists f.
Qed.

(** A core that is not the owner relies on nothing in the lock. *)
Lemma core_ok_other l l' b c k : role_of k <> Owner -> core_ok l b c k -> core_ok l' b c k.
Proof.
  unfold role_of, core_ok. destruct (pc k); try done; destruct (depth k =? 0); try done.
Qed.

Lemma core_ok_bound l b b' c k : b <= b' -> core_ok l b c k -> core_ok l b' c k.
Proof. intros ? [? ?]. split; [lia|done]. Qed.

Lemma pow64 : 0 < 2 ^ 64.
Proof. lia. Qed.

Section invariant.
Context (n : nat) (few : Z.of_nat n <= 288).
Implicit Types (s : irq_sys) (k : core).

Lemma inv_bound b b' s line o : b <= b' -> irq_inv n b s line o -> irq_inv n b' s line o.
Proof.
  intros Hb H. split; try apply H. intros c k Hk. eapply core_ok_bound; [done|].
  by apply (ii_core _ _ _ _ _ H).
Qed.

(** The other cores' view after core [c] changes. *)
Lemma held_set s s' c k' :
  cores s' = updZ (cores s) c k' -> dequeue (ilock s') = dequeue (ilock s) -> 0 <= c < lenZ (cores s) ->
  forall j, held s' j = if decide (j = c) then
      match role_of k' with Queued t => Some t | Owner => Some (dequeue (ilock s)) | Away => None end
    else held s j.
Proof.
  intros Hc Hd Hr j. unfold held. rewrite Hc, Hd. case_decide.
  - subst j. rewrite nthZ_updZ_eq by done. cbn. by destruct (role_of k').
  - by rewrite nthZ_updZ_ne.
Qed.

(** Core [c] moves on without entering or leaving the queue; only the owner may
    change the lock's other fields. *)
Lemma inv_local b s line o c k k' l' :
  irq_inv n b s line o -> nthZ (cores s) c = Some k ->
  role_of k' = role_of k -> core_ok l' b c k' ->
  queue l' = queue (ilock s) -> dequeue l' = dequeue (ilock s) ->
  (role_of k = Owner \/ l' = ilock s) ->
  (lk_cid l' = NOBODY \/ o = Some (lk_cid l')) ->
  irq_inv n b (set_core (s <| ilock := l' |>) c k') line o.
Proof.
  intros H Hk Hrole Hok Hq Hd Hl Hcid. pose proof (nthZ_Some_range _ _ _ Hk) as Hr.
  assert (forall j kj, nthZ (updZ (cores s) c k') j = Some kj ->
    j = c /\ kj = k' \/ j <> c /\ nthZ (cores s) j = Some kj) as Hcases.
  { intros j kj. rewrite nthZ_updZ. case_decide as Hj; [intros [= <-]; left; by destruct Hj|].
    intros ?. right. split; [|done]. intros ->. tauto. }
  split; cbn [set_core cores ilock arrived entered left set_field]; try apply H.
  - rewrite lenZ_updZ. apply H.
  - rewrite Hq, Hd. eapply tickets_ext; [|apply H]. intros j. symmetry.
    erewrite (held_set s _ c k'); [|reflexivity|exact Hd|exact Hr]. case_decide; [|done]. subst j. unfold held.
    rewrite Hk. cbn. rewrite <- Hrole. by destruct (role_of k').
  - intros j kj [[-> ->]|[Hj Hkj]]%Hcases; [done|].
    destruct Hl as [Ho| ->]; [|by apply (ii_core _ _ _ _ _ H)].
    apply (core_ok_other (ilock s)); [|by apply (ii_core _ _ _ _ _ H)].
    intros Hown%(ii_owner _ _ _ _ _ H _ _ Hkj). apply (ii_owner _ _ _ _ _ H _ _ Hk) in Ho. congruence.
  - intros j kj [[-> ->]|[Hj Hkj]]%Hcases; [|by apply (ii_owner _ _ _ _ _ H)].
    rewrite Hrole. by apply (ii_owner _ _ _ _ _ H).
  - done.
Qed.

Lemma updated_cases (s : irq_sys) c k' j kj : nthZ (updZ (cores s) c k') j = Some kj ->
  j = c /\ kj = k' \/ j <> c /\ nthZ (cores s) j = Some kj.
Proof.
  rewrite nthZ_updZ. case_decide as Hj; [intros [= <-]; left; by destruct Hj|].
  intros Hn. right. split; [|done]. intros ->. apply nthZ_Some_range in Hn. tauto.
Qed.

(** A core draws a ticket. *)
Lemma inv_draw b s line o c k f :
  irq_inv n b s line o -> nthZ (cores s) c = Some k -> pc k = Draw f ->
  irq_inv n b (spinlock_irqsave_lock c k s) (line ++ [c]) o.
Proof.
  intros H Hk Hpc. pose proof (nthZ_Some_range _ _ _ Hk) as Hr.
  assert (role_of k = Away) as Haway by (unfold role_of; by rewrite Hpc).
  unfold spinlock_irqsave_lock. rewrite Hpc.
  assert (c ∉ line) as Hc.
  { rewrite <- (ticket_in_line _ (ii_tickets _ _ _ _ _ H)). unfold held. rewrite Hk. cbn.
    rewrite Haway. by intros [? ?]. }
  assert (lenZ line < 2 ^ 64) as Hroom.
  { pose proof (short_line n line) as Hs. destruct (ii_tickets _ _ _ _ _ H) as (Hnd & _).
    specialize (Hs Hnd (ii_line _ _ _ _ _ H)). lia. }
  split; cbn [set_core cores ilock arrived entered left set_field queue dequeue lk_cid].
  - rewrite lenZ_updZ. apply H.
  - rewrite (ii_len _ _ _ _ _ H) in Hr.
    intros j [Hj| ->%list_elem_of_singleton]%elem_of_app; [by apply (ii_line _ _ _ _ _ H)|done].
  - eapply tickets_ext; [|exact (ticket_arrive (2 ^ 64) pow64 (ii_tickets _ _ _ _ _ H) c Hc Hroom)].
    intros j. symmetry. erewrite (held_set s _ c); [|reflexivity|reflexivity|exact Hr].
    unfold set_ticket. by case_decide.
  - intros j kj [[-> ->]|[Hj Hkj]]%updated_cases.
    + pose proof (ii_core _ _ _ _ _ H _ _ Hk) as Hok. unfold core_ok in *. by rewrite Hpc in Hok.
    + pose proof (ii_core _ _ _ _ _ H _ _ Hkj) as Hok. done.
  - intros j kj [[-> ->]|[Hj Hkj]]%updated_cases; [|by apply (ii_owner _ _ _ _ _ H)].
    split; [done|]. intros Ho%(ii_owner _ _ _ _ _ H _ _ Hk). congruence.
  - intros j Hj. pose proof (ii_head _ _ _ _ _ H _ Hj). by destruct line.
  - apply H.
  - by rewrite (ii_arrived _ _ _ _ _ H), app_assoc.
  - apply H.
Qed.

(** Its turn comes. *)
Lemma inv_enter b s line o c k f t :
  irq_inv n b s line o -> nthZ (cores s) c = Some k -> pc k = Spin f t -> dequeue (ilock s) = t ->
  irq_inv n b (spinlock_irqsave_lock c k s) line (Some c).
Proof.
  intros H Hk Hpc Ht. pose proof (nthZ_Some_range _ _ _ Hk) as Hr.
  unfold spinlock_irqsave_lock. rewrite Hpc, (proj2 (Z.eqb_eq _ _) Ht). cbn [negb].
  assert (held s c = Some t) as Hheld by (unfold held; rewrite Hk; cbn; unfold role_of; by rewrite Hpc).
  pose proof (proj1 (ticket_served _ pow64 (ii_tickets _ _ _ _ _ H) c t Hheld) (eq_sym Ht)) as Hh.
  assert (o = None) as ->.
  { destruct o as [j|]; [|done]. pose proof (ii_head _ _ _ _ _ H j eq_refl) as Hj.
    rewrite Hh in Hj. injection Hj as <-. pose proof (ii_owner _ _ _ _ _ H _ _ Hk) as [_ Ho].
    specialize (Ho eq_refl). unfold role_of in Ho. by rewrite Hpc in Ho. }
  split; cbn [set_core cores ilock arrived entered left set_field]; try apply H.
  - rewrite lenZ_updZ. apply H.
  - eapply tickets_ext; [|apply H]. intros j. symmetry.
    erewrite (held_set s _ c); [|reflexivity|reflexivity|exact Hr]. case_decide; [|done].
    subst j. by rewrite Hheld, <- Ht.
  - intros j kj [[-> ->]|[Hj Hkj]]%updated_cases; [|by apply (ii_core _ _ _ _ _ H)].
    pose proof (ii_core _ _ _ _ _ H _ _ Hk) as Hok. unfold core_ok in *. by rewrite Hpc in Hok.
  - intros j kj [[-> ->]|[Hj Hkj]]%updated_cases; [done|].
    pose proof (ii_owner _ _ _ _ _ H _ _ Hkj). split; [naive_solver|congruence].
  - by intros j [= <-].
  - destruct (ii_cid _ _ _ _ _ H); [by left|done].
  - rewrite (ii_entered _ _ _ _ _ H). cbn. by rewrite app_nil_r.
Qed.

(** It passes the lock on. *)
Lemma inv_pass b s line o c k f :
  irq_inv n b s line o -> nthZ (cores s) c = Some k -> pc k = Pass f ->
  exists rest, irq_inv n b (spinlock_irqsave_unlock c k s) rest None.
Proof.
  intros H Hk Hpc. pose proof (nthZ_Some_range _ _ _ Hk) as Hr.
  assert (lk_cid (ilock s) = NOBODY) as Hcid.
  { pose proof (ii_core _ _ _ _ _ H _ _ Hk) as [_ Hok]. rewrite Hpc in Hok. apply Hok. }
  unfold spinlock_irqsave_unlock. rewrite Hpc.
  assert (o = Some c) as -> by (apply (ii_owner _ _ _ _ _ H _ _ Hk); unfold role_of; by rewrite Hpc).
  pose proof (ii_head _ _ _ _ _ H c eq_refl) as Hh. destruct line as [|c' rest]; [done|].
  injection Hh as ->. exists rest.
  assert (forall j kj, j <> c -> nthZ (cores s) j = Some kj -> role_of kj <> Owner) as Hothers.
  { intros j kj Hj Hkj Ho%(ii_owner _ _ _ _ _ H _ _ Hkj). congruence. }
  split; cbn [set_core cores ilock arrived entered left set_field queue dequeue lk_cid]; try apply H.
  - rewrite lenZ_updZ. apply H.
  - intros j Hj. apply (ii_line _ _ _ _ _ H). by right.
  - eapply tickets_ext; [|exact (ticket_leave (2 ^ 64) pow64 (ii_tickets _ _ _ _ _ H) c rest eq_refl)].
    intros j. unfold set_ticket, held. cbn. case_decide as Hj.
    + subst j. by rewrite nthZ_updZ_eq.
    + rewrite nthZ_updZ_ne by done. destruct (nthZ (cores s) j) as [kj|] eqn:Hkj; [|done].
      specialize (Hothers j kj Hj Hkj). cbn. by destruct (role_of kj).
  - intros j kj [[-> ->]|[Hj Hkj]]%updated_cases.
    + pose proof (ii_core _ _ _ _ _ H _ _ Hk) as [Hd Hok]. rewrite Hpc in Hok.
      unfold core_ok. cbn. tauto.
    + eapply core_ok_other; [by eapply Hothers|]. by apply (ii_core _ _ _ _ _ H).
  - intros j kj [[-> ->]|[Hj Hkj]]%updated_cases; [done|].
    split; [|done]. intros Ho. by destruct (Hothers j kj Hj Hkj).
  - done.
  - by left.
  - rewrite (ii_arrived _ _ _ _ _ H). by rewrite <- app_assoc.
  - rewrite (ii_entered _ _ _ _ _ H). cbn. by rewrite app_nil_r.
Qed.

Lemma same_lock s c k : set_core s c k = set_core (s <| ilock := ilock s |>) c k.
Proof. by destruct s. Qed.

(** [inv_local] with the lock unchanged. *)
Lemma inv_move b s line o c k k' :
  irq_inv n b s line o -> nthZ (cores s) c = Some k -> role_of k' = role_of k ->
  core_ok (ilock s) b c k' -> irq_inv n b (set_core s c k') line o.
Proof.
  intros H Hk Hrole Hok. rewrite same_lock. eapply inv_local; eauto. apply H.
Qed.

Lemma b2z_flag (x : bool) : u8 (Z.b2z x) = Z.b2z x /\ negb (Z.b2z x =? 0) = x.
Proof. by destruct x. Qed.

Lemma inv_call_lock b s line o c k :
  irq_inv n b s line o -> nthZ (cores s) c = Some k -> pc k = Idle ->
  irq_inv n b (call_lock c k s) line o.
Proof.
  intros H Hk Hpc. pose proof (ii_core _ _ _ _ _ H _ _ Hk) as [Hb Hok]. rewrite Hpc in Hok.
  unfold call_lock. destruct (cli_run k) as (f & -> & Hf).
  eapply inv_move; [done|done|unfold role_of; cbn; by rewrite Hpc|].
  unfold core_ok. cbn. split; [done|]. split; [done|]. destruct (depth k =? 0); [done|]. apply Hok.
Qed.

Lemma inv_call_unlock b s line o c k : b < 2 ^ 32 ->
  irq_inv n b s line o -> nthZ (cores s) c = Some k -> pc k = Idle ->
  irq_inv n b (call_unlock c k s) line o.
Proof.
  intros Hbound H Hk Hpc. pose proof (ii_core _ _ _ _ _ H _ _ Hk) as [Hb Hok]. rewrite Hpc in Hok.
  unfold call_unlock. destruct (Z.eqb_spec (depth k) 0) as [|Hd]; [done|].
  destruct Hok as (Hoff & Hcid & Hcnt & Hfl). cbn. rewrite Hcnt, u32_small by lia.
  assert (role_of k = Owner) as Hrole.
  { unfold role_of. rewrite Hpc. by rewrite (proj2 (Z.eqb_neq _ _) Hd). }
  eapply inv_local; [done|done|..|done|done|by left|].
  - rewrite Hrole. unfold role_of. cbn. destruct (depth k - 1 =? 0) eqn:E; [done|].
    by rewrite ?E.
  - unfold core_ok. cbn. split; [lia|]. destruct (Z.eqb_spec (depth k - 1) 0) as [E|E]; done.
  - cbn. right. rewrite Hcid. by apply (ii_owner _ _ _ _ _ H _ _ Hk).
Qed.

Lemma inv_lock_step b s line o c k : b + 1 < 2 ^ 32 ->
  irq_inv n b s line o -> nthZ (cores s) c = Some k ->
  exists line' o', irq_inv n (b + 1) (spinlock_irqsave_lock c k s) line' o'.
Proof.
  intros Hbound H0 Hk. pose proof (inv_bound b (b + 1) s line o ltac:(lia) H0) as H.
  pose proof (ii_core _ _ _ _ _ H0 _ _ Hk) as [Hb Hok].
  pose proof (nthZ_Some_range _ _ _ Hk) as Hr. rewrite (ii_len _ _ _ _ _ H) in Hr.
  assert (u32 c = c) as Huc by (apply u32_small; lia).
  assert (c <> NOBODY) as Hnob by (change NOBODY with (2 ^ 32 - 1); lia).
  pose proof (ii_owner _ _ _ _ _ H _ _ Hk) as Hown. unfold spinlock_irqsave_lock.
  destruct (pc k) as [|f|f|f t|f|f| | | | | |] eqn:Hpc; try by (exists line, o).
  - destruct (Z.eqb_spec (lk_cid (ilock s)) c) as [Hc|Hc].
    + assert (o = Some c) as -> by (destruct (ii_cid _ _ _ _ _ H); congruence).
      pose proof (proj2 Hown eq_refl) as Hrole. pose proof Hrole as Hrole'. unfold role_of in Hrole.
      rewrite Hpc in Hrole. destruct (Z.eqb_spec (depth k) 0) as [|Hd]; [done|].
      destruct Hok as (Hoff & _ & Hcnt & Hfl). rewrite Hcnt, u32_small by lia.
      exists line, (Some c). eapply inv_local; [done|done|..|done|done|by left|right; cbn; congruence].
      * rewrite Hrole'. unfold role_of. cbn. by rewrite (proj2 (Z.eqb_neq (depth k + 1) 0)) by lia.
      * unfold core_ok. cbn. split; [lia|]. by rewrite (proj2 (Z.eqb_neq (depth k + 1) 0)) by lia.
    + destruct Hok as [Hoff Hok]. destruct (Z.eqb_spec (depth k) 0) as [Hd|Hd]; [|tauto].
      exists line, o. eapply inv_move; [done|done|..].
      * unfold role_of. rewrite Hpc, Hd. done.
      * unfold core_ok. cbn. split; [lia|done].
  - pose proof (inv_draw (b + 1) s line o c k f H Hk Hpc) as Hn.
    unfold spinlock_irqsave_lock in Hn. rewrite Hpc in Hn. eauto.
  - destruct (Z.eqb_spec (dequeue (ilock s)) t) as [Ht|Ht]; cbn [negb]; [|eauto].
    pose proof (inv_enter (b + 1) s line o c k f t H Hk Hpc Ht) as Hn.
    unfold spinlock_irqsave_lock in Hn. rewrite Hpc, (proj2 (Z.eqb_eq _ _) Ht) in Hn. eauto.
  - assert (role_of k = Owner) as Hrole by (unfold role_of; by rewrite Hpc).
    apply Hown in Hrole as ->. exists line, (Some c).
    eapply inv_local; [done|done|..|done|done|left; by apply Hown|right; cbn; by rewrite Huc].
    + unfold role_of. by rewrite Hpc.
    + unfold core_ok. cbn. split; [lia|]. naive_solver.
  - assert (role_of k = Owner) as Hrole by (unfold role_of; by rewrite Hpc).
    destruct Hok as (? & ? & Hf & Hc). exists line, o. rewrite Hf, (proj1 (b2z_flag _)).
    eapply inv_local; [done|done|..|done|done|by left|cbn; rewrite Hc; right; by apply Hown].
    + unfold role_of. by rewrite Hpc.
    + unfold core_ok. cbn. split; [lia|done].
  - assert (role_of k = Owner) as Hrole by (unfold role_of; by rewrite Hpc).
    destruct Hok as (? & ? & Hc & Hf). exists line, o.
    eapply inv_local; [done|done|..|done|done|by left|cbn; rewrite Hc; right; by apply Hown].
    + unfold role_of. by rewrite Hpc.
    + unfold core_ok. cbn. split; [lia|done].
Qed.

Lemma inv_unlock_step b s line o c k :
  irq_inv n b s line o -> nthZ (cores s) c = Some k ->
  exists line' o', irq_inv n b (spinlock_irqsave_unlock c k s) line' o'.
Proof.
  intros H Hk. pose proof (ii_core _ _ _ _ _ H _ _ Hk) as [Hb Hok].
  pose proof (ii_owner _ _ _ _ _ H _ _ Hk) as Hown. unfold spinlock_irqsave_unlock.
  destruct (pc k) as [| | | | | | | |f|f|f|f] eqn:Hpc; try by (exists line, o).
  - exists line, o. eapply inv_move; [done|done|unfold role_of; by rewrite Hpc|].
    unfold core_ok. cbn. split; [lia|]. naive_solver.
  - exists line, o. eapply inv_local; [done|done|..|done|done| |by left].
    + unfold role_of. by rewrite Hpc.
    + unfold core_ok. cbn. split; [lia|]. naive_solver.
    + left. unfold role_of. by rewrite Hpc.
  - exists line, o. eapply inv_local; [done|done|..|done|done| |].
    + unfold role_of. by rewrite Hpc.
    + unfold core_ok. cbn. split; [lia|]. naive_solver.
    + left. unfold role_of. by rewrite Hpc.
    + left. cbn. naive_solver.
  - destruct (inv_pass b s line o c k f H Hk Hpc) as [rest Hn].
    unfold spinlock_irqsave_unlock in Hn. rewrite Hpc in Hn. eauto.
  - destruct Hok as (Hoff & Hd & Hf). exists line, o.
    destruct (sti_if_run f (k <| pc := Idle |>)) as (fl & -> & Hon).
    change (eflags (k <| pc := Idle |>)) with (eflags k) in Hon.
    eapply inv_move; [done|done|unfold role_of; cbn; by rewrite Hpc, Hd|].
    unfold core_ok. cbn [pc depth eflags saved set_field]. split; [lia|].
    rewrite Hd, Hon, Hoff, Hf. apply b2z_flag.
Qed.
End invariant.

Section runs.
Context (n : nat) (few : Z.of_nat n <= 288).

Lemma inv_step b e s line o : b + 1 < 2 ^ 32 -> irq_inv n b s line o ->
  exists line' o', irq_inv n (b + 1) (irq_step e s) line' o'.
Proof.
  intros Hb H. destruct e as [c r]. unfold irq_step.
  assert (irq_inv n (b + 1) s line o) as H1 by (eapply inv_bound; [|done]; lia).
  destruct (nthZ (cores s) c) as [k|] eqn:Hk; [|eauto].
  destruct (pc k) eqn:Hpc; try (by eapply inv_lock_step; eauto);
    try (by eapply inv_unlock_step; eauto).
  destruct r; exists line, o; [by eapply inv_call_lock|].
  eapply inv_call_unlock; [|done..]; lia.
Qed.

Lemma inv_run b es s line o : b + lenZ es < 2 ^ 32 -> irq_inv n b s line o ->
  exists line' o', irq_inv n (b + lenZ es) (irq_run es s) line' o'.
Proof.
  revert b s line o. induction es as [|e es IH]; intros b s line o Hb H.
  - unfold lenZ. cbn. rewrite Z.add_0_r. eauto.
  - assert (lenZ (e :: es) = 1 + lenZ es) as El by (unfold lenZ; cbn [length]; lia).
    assert (0 <= lenZ es) by (unfold lenZ; lia). rewrite El in *.
    destruct (inv_step b e s line o) as (l1 & o1 & H1); [lia|done|].
    destruct (IH (b + 1) _ _ _ ltac:(lia) H1) as (l2 & o2 & H2). exists l2, o2.
    by replace (b + (1 + lenZ es)) with (b + 1 + lenZ es) by lia.
Qed.
End runs.

Lemma inv_start flags : irq_inv (length flags) 0 (irq_start flags) [] None.
Proof.
  assert (forall c k, nthZ (cores (irq_start flags)) c = Some k ->
    exists f, k = mkCore Idle f 0 (irq_on f)) as Hk.
  { intros c k. cbn. rewrite nthZ_fmap. destruct (nthZ flags c) as [f|]; [|done].
    intros [= <-]. eauto. }
  split; try done.
  - cbn. unfold lenZ. by rewrite length_fmap.
  - set_solver.
  - eapply tickets_ext; [|exact (tickets_empty (2 ^ 64) pow64 1 ltac:(lia))].
    intros c. unfold held.
    destruct (nthZ _ c) as [k|] eqn:E; [|done]. by destruct (Hk _ _ E) as [f ->].
  - intros c k [f ->]%Hk. unfold core_ok. cbn. split; [lia|done].
  - intros c k [f ->]%Hk. done.
  - by left.
Qed.

(** Core [c] holds the lock: its outermost lock has returned and the matching
    unlock has not been called. *)
Definition holds_lock (s : irq_sys) (c : Z) : Prop :=
  exists k, nthZ (cores s) c = Some k /\ 0 < depth k.

(** C17: for up to 288 cores and any interleaving of fewer than [2^32] accesses, at
    most one core holds the lock; while it does its interrupts are off, the lock
    names it as the owner and counts its nested calls; cores get the lock in the
    order of their tickets, one at a time; and a core that is back from its last
    unlock has its interrupt flag as before the first lock. *)
Theorem irqsave_lock_safe flags es :
  Z.of_nat (length flags) <= 288 -> lenZ es < 2 ^ 32 ->
  let s := irq_run es (irq_start flags) in
  (forall c c', holds_lock s c -> holds_lock s c' -> c = c') /\
  (forall c k, nthZ (cores s) c = Some k -> pc k = Idle -> 0 < depth k ->
     irq_on (eflags k) = false /\ lk_cid (ilock s) = c /\ lk_cnt (ilock s) = depth k) /\
  (forall c k, nthZ (cores s) c = Some k -> pc k = Idle -> depth k = 0 ->
     irq_on (eflags k) = saved k) /\
  entered s `prefix_of` arrived s /\ left s `prefix_of` entered s /\
  lenZ (entered s) <= lenZ (left s) + 1.
Proof.
  intros Hn Hes s.
  destruct (inv_run (length flags) Hn 0 es _ _ _ ltac:(lia) (inv_start flags)) as (line & o & H).
  fold s in H.
  assert (forall c k, nthZ (cores s) c = Some k -> 0 < depth k -> o = Some c) as Hown.
  { intros c k Hk Hd. apply (ii_owner _ _ _ _ _ H _ _ Hk). pose proof (ii_core _ _ _ _ _ H _ _ Hk) as [_ Hok].
    unfold role_of. destruct (pc k); try done; try (exfalso; lia);
      by rewrite (proj2 (Z.eqb_neq _ _)) by lia. }
  split_and!.
  - intros c c' (k & Hk & Hd) (k' & Hk' & Hd').
    pose proof (Hown _ _ Hk Hd). pose proof (Hown _ _ Hk' Hd'). congruence.
  - intros c k Hk Hpc Hd. pose proof (ii_core _ _ _ _ _ H _ _ Hk) as [_ Hok]. rewrite Hpc in Hok.
    rewrite (proj2 (Z.eqb_neq _ _)) in Hok by lia. tauto.
  - intros c k Hk Hpc Hd. pose proof (ii_core _ _ _ _ _ H _ _ Hk) as [_ Hok]. by rewrite Hpc, Hd in Hok.
  - rewrite (ii_entered _ _ _ _ _ H), (ii_arrived _ _ _ _ _ H). apply prefix_app.
    destruct o as [c|]; [|apply prefix_nil]. pose proof (ii_head _ _ _ _ _ H c eq_refl).
    destruct line; [done|]. simplify_eq/=. apply prefix_cons, prefix_nil.
  - rewrite (ii_entered _ _ _ _ _ H). by apply prefix_app_r.
  - rewrite (ii_entered _ _ _ _ _ H), lenZ_app. destruct o; unfold lenZ; cbn; lia.
Qed.

(** Core 0 takes the lock twice, core 1 queues behind it. *)
Definition two_cores : list (Z * request) :=
  [(0, Lock); (0, Lock); (1, Lock); (0, Lock); (1, Lock); (0, Lock); (1, Lock); (0, Lock);
   (0, Lock); (0, Lock); (0, Lock); (0, Lock); (1, Lock)].

Lemma irqsave_lock_safe_witness :
  Z.of_nat (length [512; 0]) <= 288 /\ lenZ two_cores < 2 ^ 32 /\
  let s := irq_run two_cores (irq_start [512; 0]) in
  (depth <$> nthZ (cores s) 0) = Some 2 /\ arrived s = [0; 1] /\ entered s = [0] /\
  entered s `prefix_of` arrived s.
Proof.
  split; [cbn; lia|]. split; [by vm_compute|]. cbn zeta. split; [by vm_compute|].
  split; [by vm_compute|]. split; [by vm_compute|].
  apply (irqsave_lock_safe [512; 0] two_cores); [cbn; lia|by vm_compute].
Defined.
