(* ===== verification/LocalApic.v ===== *)
(** * The local APIC and its timer ([kernel/localapic.c], [localapic.h])

    The registers of a core's x2APIC are model-specific registers; the state is
    their content, as the code last wrote it or as the hardware left it, and the
    interrupt flag.  The two static tick counts are shared by the cores. *)

From S2P Require Import Prelude.
From S2P Require Import Atomic.

(** ** Registers ([localapic.h]) *)

Definition BASE_APIC_MSR : Z := 0x800.

Definition apic_register (offset : Z) : Z := BASE_APIC_MSR + Z.shiftr offset 4.

Definition APIC_REGISTER_APIC_ID : Z := apic_register 0x20.

Definition APIC_REGISTER_TASK_PRIORITY : Z := apic_register 0x80.

Definition APIC_REGISTER_EOI : Z := apic_register 0xB0.

Definition APIC_REGISTER_SVR : Z := apic_register 0xF0.

Definition APIC_REGISTER_ICR_LOWER : Z := apic_register 0x300.

Definition APIC_REGISTER_ICR_UPPER : Z := apic_register 0x310.

Definition APIC_REGISTER_TIMER : Z := apic_register 0x320.

Definition APIC_REGISTER_THERMAL_SENSOR : Z := apic_register 0x330.

Definition APIC_REGISTER_PERFORMANCE_MONITORING_COUNTER : Z := apic_register 0x340.

Definition APIC_REGISTER_LINT0 : Z := apic_register 0x350.

Definition APIC_REGISTER_LINT1 : Z := apic_register 0x360.

Definition APIC_REGISTER_ERROR : Z := apic_register 0x370.

Definition APIC_REGISTER_TIMER_INIT_CNT : Z := apic_register 0x380.

Definition APIC_REGISTER_TIMER_CURR_CNT : Z := apic_register 0x390.

Definition APIC_REGISTER_TIMER_DIV : Z := apic_register 0x3E0.

Definition APIC_INTERRUPT_MASK : Z := 0x10000.

Definition APIC_TIMER_MODE_PERIODIC : Z := 0x20000.

Definition APIC_TIMER_MODE_ONESHOT : Z := 0.

Definition APIC_DELIVERY_MODE_FIXED : Z := 0.

Definition APIC_DELIVERY_MODE_NMI : Z := 0x400.

Definition APIC_DELIVERY_STATUS_PENDING : Z := 0x1000.

Definition APIC_DESTINATION_MODE_PHYSICAL : Z := 0.

Definition APIC_LEVEL_ASSERT : Z := 0x4000.

Definition APIC_TRIGGER_MODE_EDGE : Z := 0.

Definition APIC_POLARITY_ACTIVE_HIGH : Z := 0.

(** ** State *)

Record lapic := mkLapic {
  msr : Z -> Z;
  flags_reg : Z;
  ticks_in_10ms : Z;
  ticks_in_1ms : Z
}.

#[export] Instance eta_lapic : Eta lapic := fun a =>
  mkLapic (msr a) (flags_reg a) (ticks_in_10ms a) (ticks_in_1ms a).

(** [rdmsr], [wrmsr]: the value goes through two 32-bit halves. *)
Definition x2apic_read (r : Z) : M lapic Z := gets (fun a => msr a r).

Definition x2apic_write (r v : Z) : M lapic unit :=
  let low := u32 v in
  let high := u32 (Z.shiftr v 32) in
  modify (fun a => a <| msr := fun x => if x =? r then Z.lor (Z.shiftl high 32) low else msr a x |>).

Definition x2apic_write32 (r high low : Z) : M lapic unit :=
  modify (fun a => a <| msr := fun x => if x =? r then Z.lor (Z.shiftl (u32 high) 32) (u32 low) else msr a x |>).

(** ** Operations *)

Definition enable_software_local_apic : M lapic unit :=
  let! value := x2apic_read APIC_REGISTER_SVR in
  x2apic_write APIC_REGISTER_SVR (Z.lor value 0x100).

Definition disable_software_local_apic : M lapic unit :=
  let! value := x2apic_read APIC_REGISTER_SVR in
  x2apic_write APIC_REGISTER_SVR (Z.land value 0xFEFF).

Definition lapic_send_eoi : M lapic unit := x2apic_write APIC_REGISTER_EOI 0.

Definition set_task_priority (priority : Z) : M lapic unit :=
  x2apic_write APIC_REGISTER_TASK_PRIORITY priority.

Definition mask_register (r : Z) : M lapic unit :=
  let! value := x2apic_read r in
  x2apic_write r (Z.lor value APIC_INTERRUPT_MASK).

Definition local_vector_table_init : M lapic unit :=
  mask_register APIC_REGISTER_TIMER ;;
  mask_register APIC_REGISTER_LINT0 ;;
  x2apic_write APIC_REGISTER_LINT1
    (Z.lor (Z.lor APIC_TRIGGER_MODE_EDGE APIC_POLARITY_ACTIVE_HIGH) APIC_DELIVERY_MODE_NMI) ;;
  mask_register APIC_REGISTER_ERROR ;;
  mask_register APIC_REGISTER_PERFORMANCE_MONITORING_COUNTER ;;
  mask_register APIC_REGISTER_THERMAL_SENSOR.

Definition lapic_get_ticks_in_1ms : M lapic Z :=
  let! t := gets ticks_in_1ms in
  when (t =? 0) (modify (fun a => a <| ticks_in_1ms := ticks_in_10ms a / 10 |>)) ;;
  gets ticks_in_1ms.

(** [wait] is the delay of ten milliseconds: the hardware counts down meanwhile. *)
Definition lapic_cal_ticks_in_10ms (wait : M lapic unit) : M lapic unit :=
  x2apic_write APIC_REGISTER_TIMER_DIV 0x3 ;;
  x2apic_write APIC_REGISTER_TIMER_INIT_CNT 0xFFFFFFFF ;;
  wait ;;
  let! curr_cnt := x2apic_read APIC_REGISTER_TIMER_CURR_CNT in
  let! value := x2apic_read APIC_REGISTER_TIMER in
  x2apic_write APIC_REGISTER_TIMER (Z.lor value APIC_INTERRUPT_MASK) ;;
  modify (fun a => a <| ticks_in_10ms := u64 (0xFFFFFFFF - curr_cnt) |>).

(** The count for [msec] milliseconds; the [int] is extended to a QWORD. *)
Definition timer_ticks (ticks_in_10ms msec : Z) : Z :=
  let ticks := u64 (ticks_in_10ms / 10 * u64 msec) in
  if 0xFFFFFFFF <? ticks then 0xFFFFFFFF else ticks.

Definition lapic_start_timer (msec : Z) : M lapic unit :=
  let! t := gets ticks_in_10ms in
  let ticks := timer_ticks t msec in
  x2apic_write APIC_REGISTER_TIMER_DIV 0x3 ;;
  x2apic_write APIC_REGISTER_TIMER (Z.lor 48 APIC_TIMER_MODE_PERIODIC) ;;
  x2apic_write APIC_REGISTER_TIMER_INIT_CNT ticks.

Definition lapic_start_timer_oneshot (msec : Z) : M lapic unit :=
  let! t := gets ticks_in_10ms in
  let ticks := timer_ticks t msec in
  x2apic_write APIC_REGISTER_TIMER_DIV 0x3 ;;
  x2apic_write APIC_REGISTER_TIMER (Z.lor 48 APIC_TIMER_MODE_ONESHOT) ;;
  x2apic_write APIC_REGISTER_TIMER_INIT_CNT ticks.

Definition lapic_stop_timer : M lapic unit := x2apic_write APIC_REGISTER_TIMER_INIT_CNT 0.

(** The two results: time slice and ticks.  The division is between a [long] and
    a QWORD, hence unsigned. *)
Definition lapic_consumed_time_slice : M lapic (Z * Z) :=
  let! init := x2apic_read APIC_REGISTER_TIMER_INIT_CNT in
  let! curr := x2apic_read APIC_REGISTER_TIMER_CURR_CNT in
  let time_tick := s64 (u32 (u32 init - u32 curr)) in
  let! t := lapic_get_ticks_in_1ms in
  if t =? 0 then fail DivideByZero
  else ret (s64 (u64 time_tick / t), time_tick).

Definition lapic_timer_interrupt_pending : M lapic Z :=
  let! status := x2apic_read APIC_REGISTER_TIMER in
  ret (s32 (Z.land (u32 status) APIC_DELIVERY_STATUS_PENDING)).

(** [dest_shorthand], [dest] and [irq] are bytes. *)
Definition lapic_send_ipi (g_cpu_start dest_shorthand dest irq : Z) : M lapic Z :=
  let! flags := zoom flags_reg irq_nested_disable in
  let tmp_dest := u32 (dest + g_cpu_start) in
  when (dest_shorthand =? 0)
    (x2apic_write APIC_REGISTER_ICR_UPPER (u32 (Z.shiftl tmp_dest 24))) ;;
  x2apic_write APIC_REGISTER_ICR_LOWER
    (u32 (Z.lor (Z.shiftl dest_shorthand 18)
       (Z.lor APIC_TRIGGER_MODE_EDGE
         (Z.lor APIC_LEVEL_ASSERT
           (Z.lor APIC_DESTINATION_MODE_PHYSICAL (Z.lor APIC_DELIVERY_MODE_FIXED irq)))))) ;;
  zoom flags_reg (irq_nested_enable flags) ;;
  ret 0.

(** ** The timer *)

(** The hardware has counted [e] ticks since the count was set. *)
Definition count_down (e : Z) : M lapic unit :=
  let! init := x2apic_read APIC_REGISTER_TIMER_INIT_CNT in
  x2apic_write APIC_REGISTER_TIMER_CURR_CNT (init - e).

Lemma msr_value v : 0 <= v < 2 ^ 64 -> Z.lor (Z.shiftl (u32 (Z.shiftr v 32)) 32) (u32 v) = v.
Proof.
  intros Hv. apply Z.bits_inj'. intros i Hi. rewrite Z.lor_spec, Z.shiftl_spec by lia.
  unfold u32. destruct (Z.lt_ge_cases i 32) as [Hlt|Hge].
  - rewrite (Z.testbit_neg_r _ (i - 32)), Z.mod_pow2_bits_low by lia. done.
  - rewrite (Z.mod_pow2_bits_high v 32 i), orb_false_r by lia.
    destruct (Z.lt_ge_cases (i - 32) 32).
    + rewrite Z.mod_pow2_bits_low, Z.shiftr_spec by lia. f_equal. lia.
    + rewrite Z.mod_pow2_bits_high by lia. symmetry. apply (lt_pow2_bits v 64); lia.
Qed.

Lemma wp_x2apic_write r v (Q : unit -> lapic -> Prop) a : 0 <= v < 2 ^ 64 ->
  Q tt (a <| msr := fun x => if x =? r then v else msr a x |>) -> wp (x2apic_write r v) Q a.
Proof. intros Hv HQ. unfold x2apic_write. apply wp_modify. by rewrite msr_value. Qed.

(** Arming the timer, in every case. *)
Lemma wp_start_oneshot a msec (Q : unit -> lapic -> Prop) :
  (forall m, m APIC_REGISTER_TIMER_INIT_CNT = timer_ticks (ticks_in_10ms a) msec ->
     m APIC_REGISTER_TIMER = 48 ->
     (forall r, r <> APIC_REGISTER_TIMER_DIV -> r <> APIC_REGISTER_TIMER ->
        r <> APIC_REGISTER_TIMER_INIT_CNT -> m r = msr a r) ->
     Q tt (a <| msr := m |>)) ->
  wp (lapic_start_timer_oneshot msec) Q a.
Proof.
  intros HQ. assert (0 <= timer_ticks (ticks_in_10ms a) msec < 2 ^ 64) as Ht.
  { unfold timer_ticks. pose proof (u64_bound (ticks_in_10ms a / 10 * u64 msec)).
    destruct (_ <? _); lia. }
  unfold lapic_start_timer_oneshot. wp_steps. apply wp_x2apic_write; [lia|].
  apply wp_bind, wp_x2apic_write; [by split; vm_compute|]. apply wp_x2apic_write; [done|].
  apply HQ; [done|done|]. intros r H1 H2 H3. cbn [msr set_field].
  by rewrite !(proj2 (Z.eqb_neq _ _)).
Qed.

Lemma wp_get_ticks a (Q : Z -> lapic -> Prop) :
  let t := ticks_in_10ms a / 10 in
  (ticks_in_1ms a = 0 \/ ticks_in_1ms a = t) ->
  Q t (a <| ticks_in_1ms := t |>) -> wp lapic_get_ticks_in_1ms Q a.
Proof.
  intros t Ht HQ. unfold lapic_get_ticks_in_1ms. apply wp_bind, wp_gets, wp_bind, wp_when.
  - intros _. apply wp_modify, wp_gets. done.
  - intros H%Z.eqb_neq. apply wp_gets. destruct Ht as [|Ht]; [done|]. rewrite Ht.
    by destruct a; cbn in *; subst.
Qed.

(** C34: a calibrated timer measures what it was armed for: after
    [lapic_start_timer_oneshot(msec)] and [e] ticks, [lapic_consumed_time_slice]
    reports [e] ticks and the whole milliseconds in them; when the count has run
    out that is [msec], unless the count did not fit into 32 bits. *)
Theorem timer_measures_slice a msec e :
  let t := ticks_in_10ms a / 10 in
  10 <= ticks_in_10ms a < 2 ^ 32 -> (ticks_in_1ms a = 0 \/ ticks_in_1ms a = t) ->
  0 <= msec < 2 ^ 31 -> t * msec < 2 ^ 32 -> 0 <= e <= t * msec ->
  wp (lapic_start_timer_oneshot msec ;; count_down e ;; lapic_consumed_time_slice)
     (fun r _ => r = (e / t, e) /\ (e = t * msec -> fst r = msec)) a.
Proof.
  intros t Ha Ht Hm Hfit He. assert (1 <= t < 2 ^ 32) as Htr by (subst t; zdm).
  assert (timer_ticks (ticks_in_10ms a) msec = t * msec) as Hticks.
  { unfold timer_ticks. fold t. rewrite (u64_small msec), u64_small by lia.
    by rewrite (proj2 (Z.ltb_ge _ _)) by lia. }
  apply wp_bind, wp_start_oneshot. intros m Hi _ _. rewrite Hticks in Hi.
  apply wp_bind. unfold count_down. apply wp_bind, wp_gets. cbn [msr set_field]. rewrite Hi.
  apply wp_x2apic_write; [lia|]. unfold lapic_consumed_time_slice.
  apply wp_bind, wp_gets, wp_bind, wp_gets, wp_bind. cbn [msr set_field]. change (APIC_REGISTER_TIMER_INIT_CNT =? APIC_REGISTER_TIMER_CURR_CNT) with false.
  cbn iota. rewrite Hi, Z.eqb_refl. apply wp_get_ticks; [done|]. cbn [ticks_in_10ms set_field]. fold t.
  destruct (Z.eqb_spec t 0); [lia|]. apply wp_ret.
  rewrite (u32_small (t * msec)), (u32_small (t * msec - e)), u32_small, (s64_small (t * msec - _)) by lia.
  replace (t * msec - (t * msec - e)) with e by lia.
  assert (0 <= e / t <= e) by (split; [apply Z.div_pos; lia|apply Z.div_le_upper_bound; nia]).
  rewrite u64_small, s64_small by lia. split; [done|]. intros ->. cbn.
  by rewrite Z.mul_comm, Z.div_mul by lia.
Qed.

(** A 100 MHz timer, ten milliseconds. *)
Lemma timer_measures_slice_witness :
  let a := mkLapic (fun _ => 0) 512 1000000 0 in
  wp (lapic_start_timer_oneshot 10 ;; count_down 1000000 ;; lapic_consumed_time_slice)
     (fun r _ => r = (1000000 / 100000, 1000000) /\ (1000000 = 100000 * 10 -> fst r = 10)) a.
Proof.
  intros a. apply (timer_measures_slice a 10 1000000);
    [split; by vm_compute|by left|lia|by vm_compute|split; by vm_compute].
Defined.
