(* ===== verification/ShellStorage.v ===== *)
(** * The shell storage area and the log ([kernel/shellstorage.c], [shellstorage.h])

    Shared memory through which the host reads the kernel's state: page faults,
    TCB addresses, timer ticks, and a log of lines of 64 bytes. *)

From S2P Require Import Prelude.
From S2P Require Import Lock.
From S2P Require Import Utility.

Definition MAX_PAGEFAULT_SIZE : Z := 1024.

Definition MAX_PROCESSOR_COUNT : Z := 288.

Definition CONFIG_NUM_THREAD : Z := 32767.

Definition MAX_LOG_COUNT : Z := 16383.

Definition LOG_LENGTH : Z := 64.

Record PF_INFO := mkPF {
  thread_id : Z;
  fault_addr : Z;
  error_code : Z;
  pf_rip : Z
}.

Record SHELL_STORAGE_AREA := mkSS {
  init_stat : Z;
  ss_timer : list Z;
  pf_count : Z;
  pf_info : list PF_INFO;
  thread_area : list Z
}.

#[export] Instance eta_SS : Eta SHELL_STORAGE_AREA := fun s =>
  mkSS (init_stat s) (ss_timer s) (pf_count s) (pf_info s) (thread_area s).

(** The log: its lock, the two counters, the lines. *)
Record log := mkLog {
  log_lock : Z;
  log_front : Z;
  log_rear : Z;
  log_buffer : memory
}.

#[export] Instance eta_log : Eta log := fun l =>
  mkLog (log_lock l) (log_front l) (log_rear l) (log_buffer l).

Record shell := mkShell { g_ss_area : SHELL_STORAGE_AREA; log_area : log }.

#[export] Instance eta_shell : Eta shell := fun s => mkShell (g_ss_area s) (log_area s).

Definition zero_area : SHELL_STORAGE_AREA :=
  mkSS 0 (replicate (Z.to_nat MAX_PROCESSOR_COUNT) 0) 0
    (replicate (Z.to_nat MAX_PAGEFAULT_SIZE) (mkPF 0 0 0 0))
    (replicate (Z.to_nat (MAX_PROCESSOR_COUNT + CONFIG_NUM_THREAD)) 0).

(** The line buffer starts one line after the counters; both are cleared
    by one [memset] of [MAX_LOG_COUNT + 1] lines. *)
Definition shell_storage_area_init : M shell unit :=
  modify (fun s => s <| log_area := mkLog FALSE 0 0
    (lk_memset (log_buffer (log_area s)) 0 0 (MAX_LOG_COUNT * LOG_LENGTH)) |>) ;;
  modify (fun s => s <| g_ss_area := zero_area |>).

(** The bytes of a C string, copied to address [a]; [msg] is in other memory. *)
Fixpoint write_bytes (m : memory) (a : Z) (msg : list Z) : memory :=
  match msg with
  | [] => m
  | b :: msg' => write_bytes (store8 m a b) (a + 1) msg'
  end.

Definition shell_enqueue (msg : list Z) : M log unit :=
  zoom log_lock spinlock_lock ;;
  let! l := get in
  if MAX_LOG_COUNT <=? log_rear l then zoom log_lock spinlock_unlock
  else
    modify (fun l => l <| log_buffer := write_bytes (log_buffer l) (log_rear l * 64) msg |>) ;;
    modify (fun l => l <| log_rear := u32 (log_rear l + 1) |>) ;;
    zoom log_lock spinlock_unlock.

(** The fields are packed: what is written past the last [info] entry falls on the
    first entries of [thread_area]. *)
Definition store_pagefault_info (tid fault_address err rip : Z) : M SHELL_STORAGE_AREA unit :=
  let! s := get in
  let pos := u32 (pf_count s) in
  if MAX_PAGEFAULT_SIZE <? pos then ret tt
  else
    (if pos =? MAX_PAGEFAULT_SIZE then
       modify (fun s => s <| thread_area :=
         updZ (updZ (updZ (updZ (thread_area s) 0 tid) 1 fault_address) 2 err) 3 rip |>)
     else modify (fun s => s <| pf_info := updZ (pf_info s) pos (mkPF tid fault_address err rip) |>)) ;;
    modify (fun s => s <| pf_count := u64 (pf_count s + 1) |>).

Definition store_tcb_info (tid tcb : Z) : M SHELL_STORAGE_AREA unit :=
  let! s := get in
  let! _ := the OutOfBounds (nthZ (thread_area s) tid) in
  put (s <| thread_area := updZ (thread_area s) tid tcb |>).

Definition store_timer_info (cid tick_count : Z) : M SHELL_STORAGE_AREA unit :=
  let! s := get in
  let! _ := the OutOfBounds (nthZ (ss_timer s) cid) in
  put (s <| ss_timer := updZ (ss_timer s) cid tick_count |>).

Definition store_init_stat (stat : Z) : M SHELL_STORAGE_AREA unit :=
  modify (fun s => s <| init_stat := u64 (Z.lor (init_stat s) stat) |>).

(** ** The log *)

Fixpoint enqueue_all (msgs : list (list Z)) : M log unit :=
  match msgs with
  | [] => ret tt
  | m :: msgs' => shell_enqueue m ;; enqueue_all msgs'
  end.

Definition msg_ok (m : list Z) : Prop := lenZ m <= LOG_LENGTH /\ Forall (fun b => 0 <= b < 2 ^ 8) m.

Lemma write_bytes_lookup m a msg x : Forall (fun b => 0 <= b < 2 ^ 8) msg ->
  write_bytes m a msg x =
  match nthZ msg (x - a) with Some b => b | None => m x end.
Proof.
  revert m a. induction msg as [|b msg IH]; intros m a Hb; cbn [write_bytes].
  { by rewrite (proj2 (nthZ_None _ _)) by (unfold lenZ; cbn; lia). }
  inversion_clear Hb as [|?? Hb0 Hb']. rewrite IH by done. unfold nthZ, store8.
  destruct (Z.leb_spec 0 (x - a)), (Z.leb_spec 0 (x - (a + 1))); try lia.
  - replace (Z.to_nat (x - a)) with (S (Z.to_nat (x - (a + 1)))) by lia. cbn.
    destruct (msg !! _); [done|]. by rewrite (proj2 (Z.eqb_neq _ _)) by lia.
  - assert (x = a) as -> by lia. by rewrite Z.sub_diag, Z.eqb_refl, u8_small.
  - by rewrite (proj2 (Z.eqb_neq _ _)) by lia.
Qed.

(** What the lines hold: line [k] starts with message [k]. *)
Definition lines_hold (buf : memory) (msgs : list (list Z)) : Prop :=
  forall k m j b, nthZ msgs k = Some m -> nthZ m j = Some b -> buf (k * LOG_LENGTH + j) = b.

Lemma wp_shell_enqueue l msgs m : msg_ok m -> log_lock l = FALSE ->
  log_rear l = lenZ msgs -> lenZ msgs < MAX_LOG_COUNT -> lines_hold (log_buffer l) msgs ->
  Forall msg_ok msgs ->
  wp (shell_enqueue m) (fun _ l' => log_lock l' = FALSE /\ log_rear l' = lenZ (msgs ++ [m]) /\
    lines_hold (log_buffer l') (msgs ++ [m])) l.
Proof.
  intros [Hm Hb] Hlk Hr Hn Hl Hall. unfold shell_enqueue.
  apply wp_bind, wp_zoom, wp_spinlock_lock; [done|]. apply wp_bind, wp_get.
  simpl. rewrite Hr, (proj2 (Z.leb_gt _ _)) by done.
  apply wp_bind, wp_modify, wp_bind, wp_modify, wp_zoom, wp_spinlock_unlock.
  simpl. rewrite lenZ_app. change (lenZ [m]) with 1.
  unfold MAX_LOG_COUNT in Hn. assert (0 <= lenZ msgs) by (unfold lenZ; lia).
  rewrite u32_small by lia. split_and!; [done|done|].
  intros k m' j b Hk Hj. rewrite write_bytes_lookup by done. pose proof (nthZ_Some_range _ _ _ Hj) as Hjr.
  pose proof (nthZ_Some_range _ _ _ Hk) as Hkr. rewrite lenZ_app in Hkr. change (lenZ [m]) with 1 in Hkr.
  unfold LOG_LENGTH in *. destruct (decide (k = lenZ msgs)) as [->|Hne].
  - rewrite nthZ_app_r, Z.sub_diag in Hk by lia. injection Hk as <-.
    replace (lenZ msgs * 64 + j - lenZ msgs * 64) with j by lia. by rewrite Hj.
  - rewrite nthZ_app_l in Hk by lia.
    assert (lenZ m' <= 64) as Hm'.
    { rewrite list.Forall_forall in Hall. apply Hall. apply nthZ_elem_of. eauto. }
    rewrite (proj2 (nthZ_None _ _)) by lia. by eapply Hl.
Qed.

(** Messages of at most 64 bytes that are logged one after the other, no more
    than the log has lines, are found in the lines in that order, each complete;
    [log_rear] counts them. *)
Theorem log_keeps_messages l msgs :
  log_lock l = FALSE -> log_rear l = 0 -> Forall msg_ok msgs -> lenZ msgs <= MAX_LOG_COUNT ->
  wp (enqueue_all msgs) (fun _ l' => log_rear l' = lenZ msgs /\ lines_hold (log_buffer l') msgs) l.
Proof.
  intros Hlk Hr Hall Hn.
  assert (forall prev l, log_lock l = FALSE -> log_rear l = lenZ prev -> Forall msg_ok prev ->
    lines_hold (log_buffer l) prev -> lenZ (prev ++ msgs) <= MAX_LOG_COUNT ->
    wp (enqueue_all msgs) (fun _ l' => log_rear l' = lenZ (prev ++ msgs) /\
      lines_hold (log_buffer l') (prev ++ msgs)) l) as Hgen.
  { clear -Hall. induction msgs as [|m msgs IH]; intros prev l Hlk Hr Hprev Hl Hn.
    - rewrite app_nil_r. by apply wp_ret.
    - inversion_clear Hall as [|?? Hm Hms]. cbn [enqueue_all]. apply wp_bind.
      rewrite lenZ_app in Hn. assert (lenZ (m :: msgs) = 1 + lenZ msgs) as El
        by (unfold lenZ; cbn [length]; lia). assert (0 <= lenZ msgs) by (unfold lenZ; lia).
      eapply wp_mono; [apply (wp_shell_enqueue l prev m); try done; lia|].
      intros _ l' (Hlk' & Hr' & Hl'). replace (prev ++ m :: msgs) with ((prev ++ [m]) ++ msgs)
        by by rewrite <- app_assoc.
      apply IH; [done|done|done|apply Forall_app; split; [done|by constructor]|done|].
      rewrite !lenZ_app. change (lenZ [m]) with 1. lia. }
  apply (Hgen [] l); [done|done|constructor| |done]. intros k m j b Hk.
  apply nthZ_Some_range in Hk. unfold lenZ in Hk. cbn in Hk. lia.
Qed.

Lemma log_keeps_messages_witness :
  wp (enqueue_all [[72; 105]; [111; 107]])
     (fun _ l' => log_rear l' = 2 /\ lines_hold (log_buffer l') [[72; 105]; [111; 107]])
     (mkLog FALSE 0 0 (fun _ => 0)).
Proof.
  apply (log_keeps_messages (mkLog FALSE 0 0 (fun _ => 0)) [[72; 105]; [111; 107]]);
    [done|done| |by vm_compute].
  repeat constructor; by vm_compute.
Defined.

(** ** Page faults *)

(** After exactly 1024 recorded page faults the next one is still recorded,
    one entry past the table: it replaces the TCB addresses of the idle threads of
    cores 0 to 3 that the host reads. *)
Theorem pagefault_overruns_table s tid addr err rip :
  pf_count s = MAX_PAGEFAULT_SIZE -> 4 <= lenZ (thread_area s) ->
  wp (store_pagefault_info tid addr err rip)
     (fun _ s' => pf_info s' = pf_info s /\ pf_count s' = MAX_PAGEFAULT_SIZE + 1 /\
        nthZ (thread_area s') 0 = Some tid /\ nthZ (thread_area s') 1 = Some addr /\
        nthZ (thread_area s') 2 = Some err /\ nthZ (thread_area s') 3 = Some rip) s.
Proof.
  intros Hc Hlen. unfold store_pagefault_info. apply wp_bind, wp_get. rewrite Hc.
  change (u32 MAX_PAGEFAULT_SIZE) with MAX_PAGEFAULT_SIZE. cbn [Z.ltb Z.eqb Z.compare].
  change (MAX_PAGEFAULT_SIZE <? MAX_PAGEFAULT_SIZE) with false.
  change (MAX_PAGEFAULT_SIZE =? MAX_PAGEFAULT_SIZE) with true. cbn iota.
  apply wp_bind, wp_modify, wp_modify. simpl.
  rewrite Hc. split_and!; [done|done|..];
    rewrite ?nthZ_updZ_ne by done; apply nthZ_updZ_eq; rewrite ?lenZ_updZ; lia.
Qed.

Lemma pagefault_overruns_table_witness :
  wp (store_pagefault_info 300 0xdead 2 0x1000)
     (fun _ s' => pf_info s' = [] /\ pf_count s' = MAX_PAGEFAULT_SIZE + 1 /\
        nthZ (thread_area s') 0 = Some 300 /\ nthZ (thread_area s') 1 = Some 0xdead /\
        nthZ (thread_area s') 2 = Some 2 /\ nthZ (thread_area s') 3 = Some 0x1000)
     (mkSS 0 [] 1024 [] [5; 6; 7; 8; 9]).
Proof.
  apply (pagefault_overruns_table (mkSS 0 [] 1024 [] [5; 6; 7; 8; 9])); [done|by vm_compute].
Defined.
