(* ===== verification/Thread.v ===== *)
(** * Threads ([kernel/thread.c], [kernel/thread.h])

    Thread control blocks, the lists they are kept on, and the scheduler.  A TCB
    is named by its id, which fixes its address: ids below 288 are the idle
    threads of the cores.  The circular lists are sequences of ids (their
    representation is the subject of [DlList]): unlinking a TCB takes it off the
    list it is on, and a traversal that may unlink the current element follows
    the elements the list had at its start.  Every function that uses per-core
    data takes the core it runs on. *)

From S2P Require Import Prelude.
From S2P Require Import Utility.
From S2P Require Import Lock.
From S2P Require Import Stat.
From S2P Require Import Memory.
From S2P Require Import Atomic.
From S2P Require Import LocalApic.
From S2P Require Import ShellStorage.

(** ** Constants ([thread.h], [memory_config.h]) *)

Definition RUNNABLE_MAX : Z := 2048.

Definition THREAD_INFINITE_TIME_QUANTUM : Z := 0.

Definition THREAD_DEFAULT_TIME_QUANTUM : Z := THREAD_INFINITE_TIME_QUANTUM.

Definition THREAD_DEFAULT_TIME_SLICE : Z := 10.

Definition THREAD_IDLE_THREAD_TIME_SLICE : Z := 10.

(** [(QWORD) ~0x0] *)
Definition THREAD_INIT_NAME : Z := u64 (-1).

Definition CONFIG_TCB_SIZE : Z := 0x1000.

Definition CONFIG_STACK_SIZE : Z := 0x10000.

Definition THREAD_FLAGS_IF : Z := 0x200.

Definition THREAD_FLAGS_IOPL : Z := 0x3000.

Definition THREAD_NUM_GP_REGISTER : Z := 14.

Definition GDT_KERNEL_CODE_SEGMENT : Z := 0x08.

Definition GDT_KERNEL_DATA_SEGMENT : Z := 0x10.

Inductive thread_state : Set :=
| NOTALLOC
| CREATED
| RUNNING
| READY
| BLOCKED
| EXITED.

#[export] Instance thread_state_eq_dec : EqDecision thread_state.
Proof. solve_decision. Defined.

(** The enumeration's values. *)
Definition state_value (s : thread_state) : Z :=
  match s with
  | NOTALLOC => 0 | CREATED => 1 | RUNNING => 2 | READY => 3 | BLOCKED => 4 | EXITED => 5
  end.

Definition THREAD_INTENTION_READY : Z := Z.shiftl 1 (state_value READY).

Definition THREAD_INTENTION_BLOCKED : Z := Z.shiftl 1 (state_value BLOCKED).

Definition THREAD_INTENTION_EXITED : Z := Z.shiftl 1 (state_value EXITED).

(** ** Core masks: eight DWORDs, a set bit excludes a core *)

Definition core_set : Type := list Z.

Definition CLEAR_CORE_MASK (m : core_set) (i : Z) : outcome core_set :=
  match nthZ m (i / 32) with
  | None => Fault OutOfBounds
  | Some w => Ok (updZ m (i / 32) (u32 (Z.land w (Z.lnot (Z.shiftl 1 (i mod 32))))))
  end.

Definition FILL_CORE_MASK : core_set := replicate 8 (u32 (-1)).

Definition INIT_CORE_MASK : core_set := replicate 8 0.

Definition ISSET_CORE_MASK (m : core_set) (i : Z) : outcome Z :=
  match nthZ m (i / 32) with
  | None => Fault OutOfBounds
  | Some w => Ok (Z.land w (Z.shiftl 1 (i mod 32)))
  end.

Definition ISONLY_CORE_MASK (m : core_set) (cid : Z) : Z := 0.

(** ** Data *)

(** The lists: three per core, two global. *)
Inductive lname : Set :=
| Runnable (c : Z)
| Blocked (c : Z)
| Local (c : Z)
| Global
| Migrating.

#[export] Instance lname_eq_dec : EqDecision lname.
Proof. solve_decision. Defined.

(** [held_elsewhere]: the lock word is set by another core, which will clear it. *)
Record thread_list := mkTL {
  tl_lock : Z;
  held_elsewhere : bool;
  tl_count : Z;
  tcb_list : list Z
}.

#[export] Instance eta_thread_list : Eta thread_list := fun l =>
  mkTL (tl_lock l) (held_elsewhere l) (tl_count l) (tcb_list l).

(** [flags] is never written and left out; [tcb_link] is the membership in a
    list; [id] is the key of the TCB.  There are no TCB locks ([NO_TCB_LOCK]). *)
Record TCB := mkTCB {
  stack : Z;
  user_stack : Z;
  stack_base : Z;
  gen : Z;
  running_core : Z;
  state : thread_state;
  intention : Z;
  name : Z;
  signal_flag : Z;
  signal_handler : Z;
  time_slice : Z;
  remaining_time_slice : Z;
  time_quantum : Z;
  remaining_time_quantum : Z;
  acc_ltc : Z;
  core_mask : core_set;
  sched_list : option lname;
  refc : Z
}.

#[export] Instance eta_TCB : Eta TCB := fun t =>
  mkTCB (stack t) (user_stack t) (stack_base t) (gen t) (running_core t) (state t) (intention t)
    (name t) (signal_flag t) (signal_handler t) (time_slice t) (remaining_time_slice t)
    (time_quantum t) (remaining_time_quantum t) (acc_ltc t) (core_mask t) (sched_list t) (refc t).

(** A queued signal: the address of its block, the destination and the number. *)
Record signal_t := mkSignal { sig_at : Z; sig_dest : Z; signum : Z }.

Record signal_list := mkSL {
  sl_lock : Z;
  sl_count : Z;
  sig_list : list signal_t
}.

#[export] Instance eta_signal_list : Eta signal_list := fun l =>
  mkSL (sl_lock l) (sl_count l) (sig_list l).

(** The kernel's thread data; the per-core registers; memory.  [suspended] are the
    threads whose saved context is a call of [schedule]; [handled] records the
    signal handlers called, with their argument. *)
Record kernel := mkKernel {
  tcbs : gmap Z TCB;
  lists : lname -> thread_list;
  running_thread : Z -> option Z;
  g_running_thread_list : Z -> option Z;
  g_exit_thread_cnt : Z;
  g_thread_cnt : Z;
  tdcnt : Z;
  trcnt : Z;
  tcb_base_addr : Z;
  elf_load_entry : Z;
  local_sig_list : Z -> signal_list;
  mem : kmem;
  msrs : Z -> Z -> Z;
  eflags : Z -> Z;
  lapic_ticks : Z * Z;
  storage : SHELL_STORAGE_AREA;
  suspended : gset Z;
  handled : list (Z * Z)
}.

#[export] Instance eta_kernel : Eta kernel := fun k =>
  mkKernel (tcbs k) (lists k) (running_thread k) (g_running_thread_list k) (g_exit_thread_cnt k)
    (g_thread_cnt k) (tdcnt k) (trcnt k) (tcb_base_addr k) (elf_load_entry k) (local_sig_list k) (mem k)
    (msrs k) (eflags k) (lapic_ticks k) (storage k) (suspended k) (handled k).

(** ** Access *)

Definition fupd {A B} `{EqDecision A} (f : A -> B) (a : A) (b : B) : A -> B :=
  fun x => if decide (x = a) then b else f x.

(** A TCB through a pointer that may be NULL. *)
Definition get_TCB (t : Z) : M kernel TCB :=
  let! k := get in the NullPointer (tcbs k !! t).

Definition put_TCB (t : Z) (b : TCB) : M kernel unit :=
  modify (fun k => k <| tcbs := <[t := b]> (tcbs k) |>).

Definition upd_TCB (t : Z) (f : TCB -> TCB) : M kernel unit :=
  let! b := get_TCB t in put_TCB t (f b).

(** An operation on one [atomic_t] of a TCB. *)
Definition on_TCB {A} (t : Z) (m : M TCB A) : M kernel A :=
  let! b := get_TCB t in
  match m b with
  | Ok (a, b') => put_TCB t b' ;; ret a
  | Fault f => fail f
  end.

Definition get_list (n : lname) : M kernel thread_list := gets (fun k => lists k n).

Definition upd_list (n : lname) (f : thread_list -> thread_list) : M kernel unit :=
  modify (fun k => k <| lists := fupd (lists k) n (f (lists k n)) |>).

Definition inc_count (n : lname) : M kernel unit :=
  upd_list n (fun l => l <| tl_count := u64 (tl_count l + 1) |>).

Definition dec_count (n : lname) : M kernel unit :=
  upd_list n (fun l => l <| tl_count := u64 (tl_count l - 1) |>).

(** [dl_list_del_init(&t->tcb_link)], [dl_list_del(&t->tcb_link)] *)
Definition unlink (t : Z) : M kernel unit :=
  modify (fun k => k <| lists := fun n =>
    lists k n <| tcb_list := filter (fun x => x <> t) (tcb_list (lists k n)) |> |>).

(** [dl_list_add_tail(&t->tcb_link, &n.tcb_list)] *)
Definition add_tail (n : lname) (t : Z) : M kernel unit :=
  upd_list n (fun l => l <| tcb_list := tcb_list l ++ [t] |>).

(** [spinlock_lock(&n.lock)]: a lock another core holds is waited for and obtained
    when that core releases it; one this core holds itself never is. *)
Definition lock_list (n : lname) : M kernel unit :=
  let! l := get_list n in
  if held_elsewhere l then upd_list n (fun l => l <| tl_lock := TRUE |> <| held_elsewhere := false |>)
  else
    match spinlock_lock (tl_lock l) with
    | Ok (_, w) => upd_list n (fun l => l <| tl_lock := w |>)
    | Fault f => fail f
    end.

Definition trylock_list (n : lname) : M kernel Z :=
  let! l := get_list n in
  match spinlock_trylock (tl_lock l) with
  | Ok (r, w) => upd_list n (fun l => l <| tl_lock := w |>) ;; ret r
  | Fault f => fail f
  end.

Definition unlock_list (n : lname) : M kernel unit :=
  upd_list n (fun l => l <| tl_lock := FALSE |>).

(** An operation on core [cpu]'s APIC. *)
Definition on_lapic {A} (cpu : Z) (m : M lapic A) : M kernel A :=
  let! k := get in
  match m (mkLapic (msrs k cpu) (eflags k cpu) (fst (lapic_ticks k)) (snd (lapic_ticks k))) with
  | Ok (a, l) =>
      modify (fun k => k <| msrs := fupd (msrs k) cpu (msr l) |>
                         <| eflags := fupd (eflags k) cpu (flags_reg l) |>
                         <| lapic_ticks := (ticks_in_10ms l, ticks_in_1ms l) |>) ;;
      ret a
  | Fault f => fail f
  end.

(** ** Initialisation *)

Definition empty_list : thread_list := mkTL FALSE false 0 [].

Definition thread_list_init (n : lname) : M kernel unit := upd_list n (fun _ => empty_list).

Definition sched_init : M kernel unit :=
  for_up (Z.to_nat MAX_PROCESSOR_COUNT) 0 (fun i =>
    thread_list_init (Runnable i) ;;
    thread_list_init (Blocked i) ;;
    modify (fun k => k <| running_thread := fupd (running_thread k) i None |>)) ;;
  thread_list_init Migrating.

(** The address of a TCB. *)
Definition IDLE_THREAD_ADDRESS (g_memory_start : Z) : Z := 0x800000 + g_memory_start.

Definition idle_tcb_at (g_memory_start i : Z) : Z :=
  va g_memory_start (IDLE_THREAD_ADDRESS g_memory_start + CONFIG_TCB_SIZE * i).

Definition tcb_temp (k : kernel) (id : Z) : Z :=
  u64 (tcb_base_addr k + PAGE_SIZE_4K * (id - MAX_PROCESSOR_COUNT)).

Definition free_TCB (at_ : Z) : TCB :=
  mkTCB (u64 (at_ + CONFIG_TCB_SIZE)) 0 (u64 (at_ + CONFIG_TCB_SIZE)) 0 (u16 (-1)) NOTALLOC 0
    THREAD_INIT_NAME 0 0 THREAD_DEFAULT_TIME_SLICE THREAD_DEFAULT_TIME_SLICE
    THREAD_DEFAULT_TIME_QUANTUM THREAD_DEFAULT_TIME_QUANTUM 0 INIT_CORE_MASK (Some Global) 0.

Definition idle_TCB (at_ i : Z) : TCB :=
  mkTCB (u64 (at_ + CONFIG_TCB_SIZE)) 0 (u64 (at_ + CONFIG_TCB_SIZE)) 0 (u16 i) CREATED 0
    0 0 0 THREAD_IDLE_THREAD_TIME_SLICE THREAD_IDLE_THREAD_TIME_SLICE
    THREAD_DEFAULT_TIME_QUANTUM THREAD_DEFAULT_TIME_QUANTUM 0 INIT_CORE_MASK None 0.

Definition thread_init (g_memory_start : Z) : M kernel unit :=
  thread_list_init Global ;;
  for_up (Z.to_nat MAX_PROCESSOR_COUNT) 0 (fun i =>
    thread_list_init (Local i) ;;
    modify (fun k => k <| g_running_thread_list := fupd (g_running_thread_list k) i None |>)) ;;
  let! base := zoom mem (az_alloc (PAGE_SIZE_4K * CONFIG_NUM_THREAD)) in
  modify (fun k => k <| tcb_base_addr := base |>) ;;
  when (base =? 0) (fail KernelHalt) ;;
  for_up (Z.to_nat CONFIG_NUM_THREAD) 0 (fun i =>
    let at_ := u64 (base + PAGE_SIZE_4K * i) in
    put_TCB (MAX_PROCESSOR_COUNT + i) (free_TCB at_) ;;
    add_tail Global (MAX_PROCESSOR_COUNT + i) ;;
    inc_count Global ;;
    zoom storage (store_tcb_info (i + MAX_PROCESSOR_COUNT) at_)) ;;
  for_up (Z.to_nat MAX_PROCESSOR_COUNT) 0 (fun i =>
    let at_ := idle_tcb_at g_memory_start i in
    put_TCB i (idle_TCB at_ i) ;;
    zoom storage (store_tcb_info i at_)).

(** ** Thread control blocks *)

Definition core_is_allowed (b : TCB) (cid : Z) : outcome Z :=
  match ISSET_CORE_MASK (core_mask b) cid with
  | Ok w => Ok (if negb (w =? 0) then FALSE else TRUE)
  | Fault f => Fault f
  end.

Definition get_current (cpu : Z) : M kernel Z :=
  let! r := gets (fun k => running_thread k cpu) in the NullPointer r.

(** An index of an array over the cores. *)
Definition cpu_index (c : Z) : M kernel Z :=
  if (0 <=? c) && (c <? MAX_PROCESSOR_COUNT) then ret c else fail OutOfBounds.

(** [g_idle_thread_list[cid]] *)
Definition idle_thread (cid : Z) : M kernel Z := cpu_index cid.

(** [dl_list_entry(l->tcb_list.next, TCB, tcb_link)] *)
Definition first_tcb (n : lname) : M kernel Z :=
  let! l := get_list n in the NullPointer (head (tcb_list l)).

Definition alloc_tcb (cpu : Z) : M kernel Z :=
  let! local := get_list (Local cpu) in
  let! tcb :=
    (if negb (tl_count local =? 0) then
       let! tcb := first_tcb (Local cpu) in
       unlink tcb ;;
       dec_count (Local cpu) ;;
       let! b := get_TCB tcb in
       when (0 <? refc b) (fail KernelHalt) ;;
       ret tcb
     else
       lock_list Global ;;
       let! g := get_list Global in
       when (bool_decide (tcb_list g = [])) (fail KernelHalt) ;;
       let! tcb := first_tcb Global in
       unlink tcb ;;
       dec_count Global ;;
       unlock_list Global ;;
       ret tcb) in
  on_TCB tcb (zoom refc (atomic_set 1)) ;;
  upd_TCB tcb (fun b => b <| user_stack := 0 |>
    <| time_slice := THREAD_DEFAULT_TIME_SLICE |>
    <| remaining_time_slice := THREAD_DEFAULT_TIME_SLICE |>
    <| time_quantum := THREAD_DEFAULT_TIME_QUANTUM |>
    <| remaining_time_quantum := THREAD_DEFAULT_TIME_QUANTUM |>) ;;
  on_TCB tcb (zoom intention (atomic_set 0)) ;;
  upd_TCB tcb (fun b => b <| running_core := u16 (-1) |> <| core_mask := INIT_CORE_MASK |>
    <| name := THREAD_INIT_NAME |> <| state := CREATED |> <| sched_list := None |>) ;;
  ret tcb.

Definition alloc_tcb_idle (cid : Z) : M kernel Z :=
  let! tcb := idle_thread cid in
  on_TCB tcb (zoom refc atomic_inc) ;;
  ret tcb.

Definition is_idle_thread (id : Z) : Z := if id <? MAX_PROCESSOR_COUNT then 1 else 0.

Definition THREAD_INIT_CREATE : Z := 0.

Definition THREAD_INIT_IDLE : Z := 1.

Definition THREAD_INIT_DESTROY : Z := 2.

Definition init_tcb (tcb stack_ type : Z) : M kernel unit :=
  let! k := get in
  let temp := tcb_temp k tcb in
  if type =? THREAD_INIT_CREATE then
    upd_TCB tcb (fun b => b <| stack_base := u64 (stack_ + CONFIG_STACK_SIZE) |>
      <| remaining_time_slice := THREAD_DEFAULT_TIME_SLICE |>
      <| remaining_time_quantum := THREAD_DEFAULT_TIME_QUANTUM |>
      <| name := THREAD_INIT_NAME |> <| acc_ltc := 0 |>)
  else if type =? THREAD_INIT_IDLE then
    upd_TCB tcb (fun b => b <| remaining_time_slice := THREAD_IDLE_THREAD_TIME_SLICE |>
      <| remaining_time_quantum := THREAD_IDLE_THREAD_TIME_SLICE |> <| acc_ltc := 0 |>)
  else if type =? THREAD_INIT_DESTROY then
    let! b := get_TCB tcb in
    zoom mem (az_free (u64 (stack_base b - CONFIG_STACK_SIZE))) ;;
    upd_TCB tcb (fun b => b <| stack := u64 (temp + CONFIG_TCB_SIZE) |>
      <| stack_base := u64 (temp + CONFIG_TCB_SIZE) |>
      <| state := NOTALLOC |> <| running_core := u16 (-1) |>)
  else fail KernelHalt.

(** [init_tcb(t, 0, THREAD_INIT_DESTROY); t->gen++;] *)
Definition retire (t : Z) : M kernel unit :=
  init_tcb t 0 THREAD_INIT_DESTROY ;;
  upd_TCB t (fun b => b <| gen := u32 (gen b + 1) |>).

Definition destroy_tcb (cpu t : Z) : M kernel unit :=
  let! local := get_list (Local cpu) in
  let! to_global :=
    (if 1 <? tl_count local then let! r := trylock_list Global in ret (negb (r =? 0))
     else ret false) in
  (if to_global then
     add_tail Global t ;;
     inc_count Global ;;
     retire t ;;
     unlock_list Global
   else if 4 <? tl_count local then
     lock_list Global ;;
     upd_list Global (fun g => g <| tcb_list := tcb_list g ++ tcb_list local |>
                                 <| tl_count := u64 (tl_count g + tl_count local) |>) ;;
     unlock_list Global ;;
     retire t ;;
     upd_list (Local cpu) (fun l => l <| tcb_list := [] |>) ;;
     add_tail (Local cpu) t ;;
     upd_list (Local cpu) (fun l => l <| tl_count := 1 |>)
   else
     retire t ;;
     add_tail (Local cpu) t ;;
     inc_count (Local cpu)) ;;
  zoom g_exit_thread_cnt atomic_inc ;;
  zoom g_thread_cnt atomic_dec ;;
  zoom tdcnt atomic_inc.

Definition get_current_tcb (cpu : Z) : M kernel Z :=
  let! tcb := get_current cpu in
  on_TCB tcb (zoom refc atomic_inc) ;;
  ret tcb.

(** [None] is NULL. *)
Definition get_tcb (tid : Z) : M kernel (option Z) :=
  if (tid <? 0) || (MAX_PROCESSOR_COUNT + CONFIG_NUM_THREAD <=? tid) then ret None
  else
    let! b := get_TCB tid in
    if decide (state b = NOTALLOC) then ret None
    else
      on_TCB tid (zoom refc atomic_inc) ;;
      ret (Some tid).

(** A use of the result that follows the pointer. *)
Definition get_tcb_ptr (tid : Z) : M kernel Z :=
  let! r := get_tcb (u64 tid) in the NullPointer r.

Definition put_tcb (cpu t : Z) : M kernel unit :=
  let! zero := on_TCB t (zoom refc atomic_dec_and_test) in
  when zero
    (let! b := get_TCB t in
     if decide (state b = EXITED) then destroy_tcb cpu t
     else if decide (state b <> NOTALLOC) then fail KernelHalt
     else ret tt).

(** ** The initial context of a thread

    The addresses of the code a new thread returns to. *)
Record code := mkCode { __thread_exit_at : Z; return_from_setup_thread_at : Z }.

(** Stores through [--kstack], in order. *)
Fixpoint push_all (m : memory) (kstack : Z) (vs : list Z) : memory * Z :=
  match vs with
  | [] => (m, kstack)
  | v :: vs' => push_all (store64 m (u64 (kstack - 8)) v) (u64 (kstack - 8)) vs'
  end.

Definition user_context (entrypoint stack_address : Z) : list Z :=
  [GDT_KERNEL_DATA_SEGMENT; u64 (stack_address + CONFIG_STACK_SIZE - 8);
   Z.lor THREAD_FLAGS_IOPL THREAD_FLAGS_IF; GDT_KERNEL_CODE_SEGMENT; entrypoint].

(** The segment registers, the return address and six registers. *)
Definition kernel_context (c : code) : list Z :=
  replicate 4 GDT_KERNEL_DATA_SEGMENT ++ return_from_setup_thread_at c :: replicate 6 0.

(** The frame, and the stack pointer below it.  [SELECTOR_RPL_0] is 0. *)
Definition setup_frame (c : code) (m : memory) (kstack entrypoint stack_address thread_param : Z)
    : memory * Z :=
  let m := store64 m (u64 (stack_address + CONFIG_STACK_SIZE - 8)) (__thread_exit_at c) in
  let '(m, kstack) := push_all m kstack (user_context entrypoint stack_address) in
  let m := store64 m (u64 (kstack - 8 * 6)) thread_param in
  let m := store64 m (u64 (kstack - 8 * 7)) thread_param in
  let '(m, kstack) := push_all m kstack [u64 (stack_address + CONFIG_STACK_SIZE)] in
  let kstack := u64 (kstack - 8 * THREAD_NUM_GP_REGISTER) in
  push_all m kstack (kernel_context c).

Definition setup_thread (c : code) (tcb entrypoint stack_address thread_param : Z) : M kernel unit :=
  let! b := get_TCB tcb in
  let! m := gets (fun k => ram (mem k)) in
  let '(m', kstack) := setup_frame c m (stack b) entrypoint stack_address thread_param in
  modify (fun k => k <| mem := mem k <| ram := m' |> |>) ;;
  upd_TCB tcb (fun b => b <| stack := kstack |>).

(** ** Operations on threads *)

Definition thread_exit (tcb : Z) : M kernel Z :=
  upd_TCB tcb (fun b => b <| state := EXITED |>) ;;
  on_TCB tcb (zoom intention
    (let! i := atomic_get in atomic_set (Z.land i (Z.lnot THREAD_INTENTION_EXITED)))) ;;
  ret 0.

Definition thread_suspend (cpu tid : Z) : M kernel Z :=
  let! tcb := get_tcb_ptr tid in
  on_TCB tcb (zoom intention (atomic_or THREAD_INTENTION_BLOCKED)) ;;
  put_tcb cpu tcb ;;
  ret 0.

Definition thread_wake_up (cpu tid : Z) : M kernel Z :=
  let! tcb := get_tcb_ptr tid in
  on_TCB tcb (zoom intention (atomic_or THREAD_INTENTION_READY)) ;;
  put_tcb cpu tcb ;;
  ret 0.

Definition lk_thread_set_name (cpu tid name_ : Z) : M kernel unit :=
  let! r := get_tcb tid in
  match r with
  | None => fail KernelHalt
  | Some tcb =>
      upd_TCB tcb (fun b => b <| name := name_ |>) ;;
      put_tcb cpu tcb
  end.

(** The search from index [i] over [n] threads. *)
Fixpoint lookup_tid_loop (cpu name_ : Z) (n : nat) (i : Z) : M kernel Z :=
  match n with
  | O => ret (u64 (-1))
  | S n' =>
      let! r := get_tcb i in
      match r with
      | None => lookup_tid_loop cpu name_ n' (i + 1)
      | Some tcb =>
          let! b := get_TCB tcb in
          if decide (state b = NOTALLOC) then
            put_tcb cpu tcb ;; lookup_tid_loop cpu name_ n' (i + 1)
          else if name b =? name_ then put_tcb cpu tcb ;; ret tcb
          else put_tcb cpu tcb ;; lookup_tid_loop cpu name_ n' (i + 1)
      end
  end.

Definition lk_thread_lookup_tid (cpu name_ : Z) : M kernel Z :=
  lookup_tid_loop cpu name_ (Z.to_nat CONFIG_NUM_THREAD) MAX_PROCESSOR_COUNT.

Fixpoint lookup_state_loop (cpu tid : Z) (n : nat) (i : Z) : M kernel Z :=
  match n with
  | O => ret (u64 (-1))
  | S n' =>
      let! r := get_tcb i in
      match r with
      | None => lookup_state_loop cpu tid n' (i + 1)
      | Some tcb =>
          let! b := get_TCB tcb in
          if name b =? tid then put_tcb cpu tcb ;; ret (u64 (-1))
          else put_tcb cpu tcb ;; lookup_state_loop cpu tid n' (i + 1)
      end
  end.

Definition lk_thread_lookup_state (cpu tid : Z) : M kernel Z :=
  lookup_state_loop cpu tid (Z.to_nat CONFIG_NUM_THREAD) MAX_PROCESSOR_COUNT.

(** The mask itself ([cst] is overwritten before it is copied). *)
Definition core_mask_of (core : Z) : outcome core_set :=
  if core =? -1 then Ok INIT_CORE_MASK else CLEAR_CORE_MASK FILL_CORE_MASK core.

Definition set_core (tcb core : Z) : M kernel unit :=
  match core_mask_of core with
  | Fault f => fail f
  | Ok m => upd_TCB tcb (fun b => b <| core_mask := m |>)
  end.

(** The new thread is put on the migrating list. *)
Definition add_migrating (thr : Z) : M kernel unit :=
  lock_list Migrating ;;
  add_tail Migrating thr ;;
  inc_count Migrating ;;
  upd_TCB thr (fun b => b <| sched_list := Some Migrating |> <| state := READY |>) ;;
  unlock_list Migrating.

(** [core] is an [int]; -1 leaves the choice of the core open. *)
Definition create_thread (c : code) (cpu ip argv core : Z) : M kernel Z :=
  let! thr := alloc_tcb cpu in
  get_tcb thr ;;
  let! stack_address := zoom mem (az_alloc CONFIG_STACK_SIZE) in
  init_tcb thr stack_address THREAD_INIT_CREATE ;;
  upd_TCB thr (fun b => b <| running_core := u16 core |>) ;;
  set_core thr core ;;
  let! entry := gets elf_load_entry in
  setup_thread c thr (if ip =? 0 then entry else ip) stack_address argv ;;
  add_migrating thr ;;
  put_tcb cpu thr ;;
  zoom g_thread_cnt atomic_inc ;;
  zoom trcnt atomic_inc ;;
  ret thr.

(** The result and the value stored through [id], a non-NULL pointer. *)
Definition sys_clone (c : code) (cpu ep argv : Z) : M kernel (Z * Z) :=
  let! tid := create_thread c cpu ep argv (-1) in
  if negb (tid =? 0) then ret (0, tid) else ret (-1, tid).

Definition sys_getpid (cpu : Z) : M kernel Z :=
  let! t := get_current cpu in ret (s32 t).

Definition ENOSYS : Z := 38.

Definition sys_getprio : M kernel Z := ret (- ENOSYS).

Definition sys_setprio (prio : Z) : M kernel Z := ret (- ENOSYS).
