(* ===== verification/Context.v ===== *)
(** * Contexts ([kernel/entry.h], [kernel/entrypoint.S])

    The registers and the stack of a core; [SAVECONTEXT] and [LOADCONTEXT], the
    entry of a system call, [context_switch], and the first run of a thread from
    the frame that [setup_thread] has built. *)

From S2P Require Import Prelude.
From S2P Require Import Utility.
From S2P Require Import Thread.

(** ** The instructions *)

(** The [i]-th word from the stack pointer. *)
Definition word (m : memory) (rsp i : Z) : Z := load64 m (u64 (rsp + 8 * i)).

(** The registers that [SAVECONTEXT] and [LOADCONTEXT] keep; the segment registers
    have 16 bits. *)
Record context := mkContext {
  c_gs : Z; c_fs : Z; c_es : Z; c_ds : Z;
  c_r15 : Z; c_r14 : Z; c_r13 : Z; c_r12 : Z; c_r11 : Z; c_r10 : Z; c_r9 : Z; c_r8 : Z;
  c_rsi : Z; c_rdi : Z; c_rdx : Z; c_rcx : Z; c_rbx : Z; c_rax : Z; c_rbp : Z
}.

#[export] Instance eta_context : Eta context := fun c =>
  mkContext (c_gs c) (c_fs c) (c_es c) (c_ds c)
    (c_r15 c) (c_r14 c) (c_r13 c) (c_r12 c) (c_r11 c) (c_r10 c) (c_r9 c) (c_r8 c)
    (c_rsi c) (c_rdi c) (c_rdx c) (c_rcx c) (c_rbx c) (c_rax c) (c_rbp c).

(** The value of [%rax] after a 16-bit move to [%ax]. *)
Definition mov_ax (rax v : Z) : Z := rax - u16 rax + v.

(** The words pushed, in order. *)
Definition saved (c : context) : list Z :=
  let rax := mov_ax (c_rax c) (c_ds c) in
  [c_rbp c; c_rax c; c_rbx c; c_rcx c; c_rdx c; c_rdi c; c_rsi c;
   c_r8 c; c_r9 c; c_r10 c; c_r11 c; c_r12 c; c_r13 c; c_r14 c; c_r15 c;
   rax; mov_ax rax (c_es c); c_fs c; c_gs c].

Definition KERNEL_DATA_SEGMENT : Z := 0x10.

(** The registers after the pushes: [%rbp] points at the saved [%rbp], and the
    segment registers are the kernel's, moved through [%ax]. *)
Definition entered (c : context) (rsp : Z) : context :=
  let rax := mov_ax (mov_ax (c_rax c) (c_ds c)) (c_es c) in
  c <| c_rbp := u64 (rsp - 8) |> <| c_rax := mov_ax rax KERNEL_DATA_SEGMENT |>
    <| c_ds := KERNEL_DATA_SEGMENT |> <| c_es := KERNEL_DATA_SEGMENT |>
    <| c_gs := KERNEL_DATA_SEGMENT |> <| c_fs := KERNEL_DATA_SEGMENT |>.

(** The memory, the registers and the stack pointer. *)
Definition SAVECONTEXT (m : memory) (c : context) (rsp : Z) : memory * context * Z :=
  let '(m, rsp') := push_all m rsp (saved c) in (m, entered c rsp, rsp').

(** The registers and the stack pointer after the pops. *)
Definition LOADCONTEXT (m : memory) (rsp : Z) : context * Z :=
  let w := word m rsp in
  (mkContext (u16 (w 0)) (u16 (w 1)) (u16 (w 2)) (u16 (w 3))
     (w 4) (w 5) (w 6) (w 7) (w 8) (w 9) (w 10) (w 11)
     (w 12) (w 13) (w 14) (w 15) (w 16) (w 17) (w 18),
   u64 (rsp + 8 * 19)).

(** The registers [context_switch] keeps on the stack. *)
Record callee := mkCallee { s_rbp : Z; s_rbx : Z; s_r12 : Z; s_r13 : Z; s_r14 : Z; s_r15 : Z }.

(** The end of [context_switch], from the stack pointer of the next thread: the
    registers, the return address and the stack pointer. *)
Definition switch_in (m : memory) (rsp : Z) : callee * Z * Z :=
  let w := word m rsp in
  (mkCallee (w 5) (w 4) (w 3) (w 2) (w 1) (w 0), w 6, u64 (rsp + 8 * 7)).

(** [context_switch(&prev->stack, &next->stack)], called with stack pointer [rsp],
    which points at the return address. *)
Definition context_switch (m : memory) (r : callee) (rsp prev next : Z) : memory * (callee * Z * Z) :=
  let '(m, rsp) := push_all m rsp [s_rbp r; s_rbx r; s_r12 r; s_r13 r; s_r14 r; s_r15 r] in
  let m := store64 m prev rsp in
  (m, switch_in m (load64 m next)).

(** [iretq] *)
Record iret_frame := mkIret { i_rip : Z; i_cs : Z; i_rflags : Z; i_rsp : Z; i_ss : Z }.

Definition iretq (m : memory) (rsp : Z) : iret_frame :=
  let w := word m rsp in mkIret (w 0) (w 1) (w 2) (w 3) (w 4).

(** A thread that has never run is switched to with stack pointer [rsp]: the
    address it returns to, and the state it has when the code there,
    [return_from_setup_thread], has loaded its context.  The call in between leaves
    the stack as it was. *)
Definition first_run (m : memory) (rsp : Z) : Z * context * iret_frame :=
  let '(_, ra, rsp) := switch_in m rsp in
  let '(ctx, rsp) := LOADCONTEXT m rsp in
  (ra, ctx, iretq m rsp).

(** [systemcall_entrypoint]: [process] is [process_systemcall], called with its
    seven arguments and the stack pointer of the call.  The result is the memory,
    the registers, the stack pointer, and the flags and the address that the code
    continues with. *)
Definition systemcall_entrypoint (process : list Z -> Z -> memory -> memory * Z)
    (m : memory) (c : context) (rsp : Z) : memory * context * Z * Z * Z :=
  let '(m, c, rsp) := SAVECONTEXT m c rsp in
  let rbp := c_rbp c in
  let arg i := load64 m (u64 (rbp - 8 * i)) in
  let args := [arg 5; arg 6; arg 4; arg 9; arg 7; arg 8] in
  let '(m, rsp) := push_all m rsp [arg 1] in
  let '(m, rax) := process (args ++ [word m rsp 0]) rsp m in
  let m := store64 m (u64 (rbp - 8)) rax in
  let '(c, rsp) := LOADCONTEXT m (u64 (rsp + 8)) in
  let m := store64 m (u64 (rsp - 8)) (c_r11 c) in
  (m, c, rsp, word m (rsp - 8) 0, c_rcx c).

(** ** The frame *)

(** Stores of QWORDs at distances below [top]. *)
Definition stores (m : memory) (top : Z) (l : list (Z * Z)) : memory :=
  foldl (fun m e => store64 m (top - fst e) (snd e)) m l.

Lemma stores_cons m top e l : stores m top (e :: l) = stores (store64 m (top - fst e) (snd e)) top l.
Proof. done. Qed.

Lemma stores_other l : forall m top b, (forall e, e ∈ l -> b + 8 <= top - fst e \/ top - fst e + 8 <= b) ->
  load64 (stores m top l) b = load64 m b.
Proof.
  induction l as [|e l IH]; intros m top b Hl; [done|]. rewrite stores_cons, IH by (intros; apply Hl; by right).
  apply load64_store64_ne. apply Hl. by left.
Qed.

Lemma stores_outside l : forall m top x, (forall e, e ∈ l -> ~ (top - fst e <= x < top - fst e + 8)) ->
  stores m top l x = m x.
Proof.
  induction l as [|e l IH]; intros m top x Hl; [done|]. rewrite stores_cons, IH by (intros; apply Hl; by right).
  rewrite store64_spec, decide_False; [done|]. apply Hl. by left.
Qed.

(** Aligned stores at different places read back. *)
Lemma stores_read l : forall m top o v, NoDup l.*1 -> (forall e, e ∈ l -> fst e mod 8 = 0) ->
  (o, v) ∈ l -> 0 <= v < 2 ^ 64 -> load64 (stores m top l) (top - o) = v.
Proof.
  induction l as [|e l IH]; intros m top o v Hnd Hal Hin Hv; [by apply not_elem_of_nil in Hin|].
  rewrite stores_cons. apply NoDup_cons in Hnd as [Hne Hnd].
  apply elem_of_cons in Hin as [<-|Hin]; [|by apply IH; [|intros; apply Hal; right|..]].
  cbn [fst snd] in *. rewrite stores_other; [by apply load64_store64|].
  intros e' He'. assert (fst e' <> o) as Hd.
  { intros <-. apply Hne. by apply list_elem_of_fmap_2. }
  pose proof (Hal e' ltac:(by right)). pose proof (Hal (o, v) ltac:(by left)). cbn in *. zdm.
Qed.

(** Pushed values and their distances below the top of the stack. *)
Fixpoint pushed (o : Z) (vs : list Z) : list (Z * Z) :=
  match vs with
  | [] => []
  | v :: vs' => (o + 8, v) :: pushed (o + 8) vs'
  end.

Lemma push_all_stores vs : forall m top o, 0 <= o -> o + 8 * lenZ vs <= top < 2 ^ 64 ->
  push_all m (top - o) vs = (stores m top (pushed o vs), top - (o + 8 * lenZ vs)).
Proof.
  induction vs as [|v vs IH]; intros m top o Ho Ht.
  { cbn. f_equal. change (lenZ []) with 0. lia. }
  assert (lenZ (v :: vs) = 1 + lenZ vs) as El by (unfold lenZ; cbn [length]; lia).
  assert (0 <= lenZ vs) by (unfold lenZ; lia).
  cbn [push_all pushed]. rewrite stores_cons. cbn [fst snd]. rewrite u64_small by lia.
  replace (top - o - 8) with (top - (o + 8)) by lia. rewrite IH by lia. f_equal. lia.
Qed.

Lemma stores_app m top l l' : stores m top (l ++ l') = stores (stores m top l) top l'.
Proof. apply foldl_app. Qed.

Definition frame_words (c : code) (entrypoint stack_address param : Z) : list (Z * Z) :=
  [(8, GDT_KERNEL_DATA_SEGMENT); (16, stack_address + CONFIG_STACK_SIZE - 8);
   (24, 0x3200); (32, GDT_KERNEL_CODE_SEGMENT); (40, entrypoint); (88, param); (96, param);
   (48, stack_address + CONFIG_STACK_SIZE);
   (168, GDT_KERNEL_DATA_SEGMENT); (176, GDT_KERNEL_DATA_SEGMENT); (184, GDT_KERNEL_DATA_SEGMENT);
   (192, GDT_KERNEL_DATA_SEGMENT); (200, return_from_setup_thread_at c);
   (208, 0); (216, 0); (224, 0); (232, 0); (240, 0); (248, 0)].

(** The value stored at a distance, when the distances are aligned and different. *)
Fixpoint slot (l : list (Z * Z)) (o : Z) : option Z :=
  match l with
  | [] => None
  | (o', v) :: l' => if o' =? o then Some v else slot l' o
  end.

Definition apart (l : list (Z * Z)) : Prop := NoDup l.*1 /\ Forall (fun o => o mod 8 = 0) l.*1.

Lemma slot_elem l o v : slot l o = Some v -> (o, v) ∈ l.
Proof.
  induction l as [|[o' v'] l IH]; cbn; [done|]. destruct (Z.eqb_spec o' o) as [->|]; intros E.
  - injection E as ->. by left.
  - right. auto.
Qed.

Lemma word_stores m top l r i v : apart l -> slot l (r - 8 * i) = Some v -> 0 <= v < 2 ^ 64 ->
  0 <= top - (r - 8 * i) < 2 ^ 64 -> word (stores m top l) (top - r) i = v.
Proof.
  intros [Hnd Hal] Hs Hv Hr. unfold word. replace (top - r + 8 * i) with (top - (r - 8 * i)) by lia.
  rewrite u64_small by lia. apply stores_read; [done| |by apply slot_elem|done].
  intros e He. rewrite Forall_forall in Hal. apply Hal. by apply list_elem_of_fmap_2.
Qed.

(** Replaces the words of known stores by their values. *)
Ltac words H := repeat
  match goal with |- context [word (stores ?m ?t ?l) (?t - ?r) ?i] =>
    rewrite (word_stores m t l r i _ H eq_refl)
      by (unfold GDT_KERNEL_DATA_SEGMENT, GDT_KERNEL_CODE_SEGMENT; lia)
  end.

Lemma frame_apart c entrypoint stack_address param : apart (frame_words c entrypoint stack_address param).
Proof. split; apply (bool_decide_unpack _); vm_compute; exact I. Qed.

Section frame.
Context (c : code) (m : memory) (top entrypoint stack_address param : Z).
Hypothesis Htop : 248 <= top < 2 ^ 64.
Hypothesis Hentry : 0 <= entrypoint < 2 ^ 64.
Hypothesis Hparam : 0 <= param < 2 ^ 64.
Hypothesis Hstack : 0 <= stack_address /\ stack_address + CONFIG_STACK_SIZE < 2 ^ 64.
Hypothesis Hapart : top <= stack_address + CONFIG_STACK_SIZE - 8 \/ stack_address + CONFIG_STACK_SIZE <= top - 248.
Hypothesis Hcode : 0 <= __thread_exit_at c < 2 ^ 64 /\ 0 <= return_from_setup_thread_at c < 2 ^ 64.

Lemma setup_frame_eq : setup_frame c m top entrypoint stack_address param =
  (stores (store64 m (stack_address + CONFIG_STACK_SIZE - 8) (__thread_exit_at c)) top
     (frame_words c entrypoint stack_address param), top - 248).
Proof.
  unfold CONFIG_STACK_SIZE in *. unfold setup_frame. rewrite (u64_small (stack_address + _ - 8)) by (unfold CONFIG_STACK_SIZE; lia).
  replace top with (top - 0) at 1 by lia. rewrite push_all_stores; [|lia|change (lenZ _) with 5; lia].
  change (0 + 8 * lenZ (user_context entrypoint stack_address)) with 40.
  replace (u64 (top - 40 - 8 * 6)) with (top - 88) by (rewrite u64_small; lia).
  replace (u64 (top - 40 - 8 * 7)) with (top - 96) by (rewrite u64_small; lia).
  rewrite (push_all_stores [_]); [|lia|change (lenZ _) with 1; lia]. change (40 + 8 * lenZ [_]) with 48.
  replace (u64 (top - 48 - 8 * THREAD_NUM_GP_REGISTER)) with (top - 160)
    by (unfold THREAD_NUM_GP_REGISTER; rewrite u64_small; lia).
  rewrite push_all_stores; [|lia|change (lenZ _) with 11; lia]. unfold user_context.
  rewrite !u64_small by (unfold CONFIG_STACK_SIZE; lia). reflexivity.
Qed.

(** C23: a thread made by [setup_thread] starts at its entry point.  When
    [context_switch] loads the stack pointer that [setup_thread] has stored, it
    returns to [return_from_setup_thread], and that code leaves with the entry point
    as instruction pointer, the kernel's segments, interrupts enabled, both argument
    registers holding the parameter, and a stack whose top is the address of
    [__thread_exit], so that returning from the entry point ends the thread. *)
Theorem new_thread_starts :
  let '(m', ks) := setup_frame c m top entrypoint stack_address param in
  let '(ra, ctx, fr) := first_run m' ks in
  let sp := stack_address + CONFIG_STACK_SIZE - 8 in
  ra = return_from_setup_thread_at c /\
  (c_rdi ctx = param /\ c_rsi ctx = param /\ c_rbp ctx = sp + 8) /\
  (c_ds ctx = 0x10 /\ c_es ctx = 0x10 /\ c_fs ctx = 0x10 /\ c_gs ctx = 0x10) /\
  fr = mkIret entrypoint 0x08 0x3200 sp 0x10 /\ load64 m' sp = __thread_exit_at c.
Proof using Type*.
  rewrite setup_frame_eq. unfold first_run, switch_in, LOADCONTEXT, iretq.
  rewrite (u64_small (top - 248 + 8 * 7)) by lia. rewrite (u64_small (top - 248 + 8 * 7 + 8 * 19)) by lia.
  replace (top - 248 + 8 * 7) with (top - 192) by lia. replace (top - 192 + 8 * 19) with (top - 40) by lia.
  pose proof (frame_apart c entrypoint stack_address param) as Ha.
  cbn [c_rdi c_rsi c_rbp c_ds c_es c_fs c_gs]. assert (0 <= stack_address + CONFIG_STACK_SIZE - 8) by (unfold CONFIG_STACK_SIZE; lia).
  words Ha. split_and!; [reflexivity..|lia|reflexivity|reflexivity|reflexivity|reflexivity|reflexivity|].
  rewrite stores_other; [apply load64_store64; lia|].
  apply Forall_forall. unfold frame_words.
  repeat (apply Forall_cons; split; [cbn [fst]; lia|]). by apply Forall_nil.
Qed.
End frame.

(** ** Saving and loading *)

(** The registers have their width. *)
Definition context_ok (c : context) : Prop :=
  Forall (fun s => 0 <= s < 2 ^ 16) [c_gs c; c_fs c; c_es c; c_ds c] /\
  Forall (fun r => 0 <= r < 2 ^ 64)
    [c_r15 c; c_r14 c; c_r13 c; c_r12 c; c_r11 c; c_r10 c; c_r9 c; c_r8 c;
     c_rsi c; c_rdi c; c_rdx c; c_rcx c; c_rbx c; c_rax c; c_rbp c].

Lemma u16_mov_ax rax v : 0 <= v < 2 ^ 16 -> u16 (mov_ax rax v) = v.
Proof. intros Hv. unfold mov_ax, u16. zdm. Qed.

Lemma mov_ax_range rax v : 0 <= rax < 2 ^ 64 -> 0 <= v < 2 ^ 16 -> 0 <= mov_ax rax v < 2 ^ 64.
Proof. intros Hr Hv. unfold mov_ax, u16. zdm. Qed.

Lemma word_agree m m' rsp i : 0 <= rsp + 8 * i < 2 ^ 64 ->
  (forall x, rsp + 8 * i <= x < rsp + 8 * i + 8 -> m' x = m x) -> word m' rsp i = word m rsp i.
Proof.
  intros Hr H. unfold word. rewrite u64_small by lia. apply load_bytes_ext. intros k Hk.
  by rewrite H by lia.
Qed.

Lemma word_store64 m a v rsp i : rsp + 8 * i = a -> 0 <= a < 2 ^ 64 -> 0 <= v < 2 ^ 64 ->
  word (store64 m a v) rsp i = v.
Proof. intros E Ha Hv. unfold word. rewrite E, u64_small by lia. by apply load64_store64. Qed.

Section saving.
Context (m : memory) (c : context) (rsp : Z).
Hypothesis Hc : context_ok c.

Definition saved_words : list (Z * Z) := pushed 0 (saved c).

Lemma saved_apart : apart saved_words.
Proof. split; apply (bool_decide_unpack _); vm_compute; exact I. Qed.

Lemma SAVECONTEXT_eq : 160 <= rsp < 2 ^ 64 ->
  SAVECONTEXT m c rsp = (stores m rsp saved_words, entered c rsp, rsp - 152).
Proof.
  intros Hr. unfold SAVECONTEXT. replace rsp with (rsp - 0) at 1 by lia.
  rewrite push_all_stores; [|lia|change (lenZ _) with 19; lia]. done.
Qed.

(** The bytes of the frame that differ from those of [m]. *)
Lemma saved_outside x : ~ (rsp - 152 <= x < rsp) -> stores m rsp saved_words x = m x.
Proof.
  intros Hx. apply stores_outside. apply Forall_forall. unfold saved_words, saved. cbn [pushed].
  repeat (apply Forall_cons; split; [cbn [fst]; lia|]). by apply Forall_nil.
Qed.

(** Loading a frame in which only the saved [%rax] may have been changed. *)
Lemma saved_load m' : 160 <= rsp < 2 ^ 64 ->
  (forall i, 0 <= i < 19 -> i <> 17 ->
    word m' (rsp - 152) i = word (stores m rsp saved_words) (rsp - 152) i) ->
  LOADCONTEXT m' (rsp - 152) = (c <| c_rax := word m' (rsp - 152) 17 |>, rsp).
Proof using Type*.
  intros Hr Hw. unfold LOADCONTEXT. rewrite !Hw by lia. rewrite (Hw 18) by lia.
  pose proof saved_apart as Ha. destruct Hc as [Hs Hg].
  rewrite !Forall_cons in Hs. rewrite !Forall_cons in Hg. destruct_and?.
  pose proof (mov_ax_range (c_rax c) (c_ds c) ltac:(lia) ltac:(lia)) as Hd.
  pose proof (mov_ax_range _ (c_es c) Hd ltac:(lia)) as He.
  words Ha. rewrite !u16_mov_ax by lia. unfold u16. rewrite !Z.mod_small by lia.
  rewrite u64_small by lia. replace (rsp - 152 + 8 * 19) with rsp by lia. reflexivity.
Qed.

(** The value of a saved register, by its distance from the saved [%rbp]. *)
Lemma saved_word i v : slot saved_words (8 + 8 * i) = Some v -> 0 <= v < 2 ^ 64 ->
  160 <= rsp < 2 ^ 64 -> 0 <= i < 19 -> load64 (stores m rsp saved_words) (u64 (rsp - 8 - 8 * i)) = v.
Proof.
  intros Hs Hv Hr Hi. replace (rsp - 8 - 8 * i) with (rsp - (8 + 8 * i)) by lia. rewrite u64_small by lia.
  apply stores_read; [apply saved_apart| |by apply slot_elem|done].
  intros e He. destruct saved_apart as [_ Hal]. rewrite Forall_forall in Hal. apply Hal.
  by apply list_elem_of_fmap_2.
Qed.
End saving.

(** An interrupt or a system call resumes what it interrupted.  When the code
    between [SAVECONTEXT] and [LOADCONTEXT] leaves the frame alone, the registers
    that [LOADCONTEXT] loads are the ones that [SAVECONTEXT] has stored, segment
    registers included, and the stack pointer is back at its place. *)
Theorem context_roundtrip m c rsp m' : context_ok c -> 160 <= rsp < 2 ^ 64 ->
  (forall x, rsp - 152 <= x < rsp -> m' x = fst (fst (SAVECONTEXT m c rsp)) x) ->
  LOADCONTEXT m' (snd (SAVECONTEXT m c rsp)) = (c, rsp).
Proof.
  intros Hc Hr. rewrite SAVECONTEXT_eq by done. cbn [fst snd]. intros Hm.
  assert (forall i, 0 <= i < 19 ->
    word m' (rsp - 152) i = word (stores m rsp (saved_words c)) (rsp - 152) i) as Hw.
  { intros i Hi. apply word_agree; [lia|]. intros x Hx. apply Hm. lia. }
  rewrite (saved_load m c rsp Hc m' Hr) by (intros; apply Hw; lia). rewrite Hw by lia.
  rewrite (word_stores m rsp (saved_words c) 152 17 _ (saved_apart c) eq_refl).
  - by destruct c.
  - destruct Hc as [_ Hg]. rewrite Forall_forall in Hg. apply Hg. set_solver.
  - lia.
Qed.

(** [process_systemcall] returns a QWORD and leaves the frame above its arguments
    alone, as the calling convention asks of it. *)
Definition well_behaved (process : list Z -> Z -> memory -> memory * Z) : Prop :=
  forall args sp m, 0 <= snd (process args sp m) < 2 ^ 64 /\
    forall x, sp + 8 <= x < sp + 160 -> fst (process args sp m) x = m x.

(** C22: a system call changes only [%rax] of the caller.  [process_systemcall] gets
    the caller's [%rdi], [%rsi], [%rdx], [%r10], [%r8], [%r9] and, as the number of
    the call, [%rax]; what it returns is the caller's [%rax], every other register and
    the stack pointer are as they were, and the caller goes on at the address in
    [%rcx] with the flags in [%r11].  Outside the frame of the call, memory is what
    [process_systemcall] left. *)
Theorem systemcall_returns process m c rsp :
  well_behaved process -> context_ok c -> 160 <= rsp < 2 ^ 64 ->
  let '(m', c', rsp', flags, rip) := systemcall_entrypoint process m c rsp in
  exists m0, (forall x, ~ (rsp - 160 <= x < rsp) -> m0 x = m x) /\
    let r := process [c_rdi c; c_rsi c; c_rdx c; c_r10 c; c_r8 c; c_r9 c; c_rax c] (rsp - 160) m0 in
    c' = c <| c_rax := snd r |> /\ rsp' = rsp /\ flags = c_r11 c /\ rip = c_rcx c /\
    (forall x, ~ (rsp - 160 <= x < rsp) -> m' x = fst r x).
Proof.
  intros Hp Hc Hr. unfold systemcall_entrypoint. rewrite SAVECONTEXT_eq by done.
  pose proof Hc as [_ Hg]. rewrite !Forall_cons in Hg. destruct_and?. set (mf := stores m rsp (saved_words c)).
  change (c_rbp (entered c rsp)) with (u64 (rsp - 8)). rewrite (u64_small (rsp - 8)) by lia.
  unfold mf. rewrite (saved_word m c rsp 1 _ eq_refl), (saved_word m c rsp 4 _ eq_refl),
    (saved_word m c rsp 5 _ eq_refl), (saved_word m c rsp 6 _ eq_refl), (saved_word m c rsp 7 _ eq_refl),
    (saved_word m c rsp 8 _ eq_refl), (saved_word m c rsp 9 _ eq_refl) by lia. fold mf.
  cbn [push_all]. rewrite (u64_small (rsp - 152 - 8)) by lia. replace (rsp - 152 - 8) with (rsp - 160) by lia.
  rewrite word_store64 by lia.
  set (m0 := store64 mf (rsp - 160) (c_rax c)). cbn [app].
  destruct (Hp [c_rdi c; c_rsi c; c_rdx c; c_r10 c; c_r8 c; c_r9 c; c_rax c] (rsp - 160) m0) as [Hv Hm1].
  destruct (process _ _ m0) as [m1 v] eqn:Ep. cbn [fst snd] in Hv, Hm1.
  rewrite (u64_small (rsp - 8 - 8)), (u64_small (rsp - 160 + 8)) by lia.
  replace (rsp - 160 + 8) with (rsp - 152) by lia. replace (rsp - 8 - 8) with (rsp - 16) by lia.
  rewrite (saved_load m c rsp Hc) by (done || (intros i Hi Hne; apply word_agree; [lia|]; intros x Hx;
    rewrite store64_spec, decide_False, Hm1 by lia; unfold m0; by rewrite store64_spec, decide_False by lia)).
  rewrite (word_store64 m1), u64_small by lia. change (c_r11 (c <| c_rax := v |>)) with (c_r11 c).
  rewrite word_store64 by lia. exists m0. rewrite Ep. split_and!; try reflexivity.
  - intros x Hx. unfold m0. rewrite store64_spec, decide_False by lia. apply saved_outside. lia.
  - intros x Hx. by rewrite !store64_spec, !decide_False by lia.
Qed.

(** ** Switching away and back *)

Definition callee_ok (r : callee) : Prop :=
  Forall (fun v => 0 <= v < 2 ^ 64) [s_rbp r; s_rbx r; s_r12 r; s_r13 r; s_r14 r; s_r15 r].

Definition callee_words (r : callee) : list (Z * Z) :=
  pushed 0 [s_rbp r; s_rbx r; s_r12 r; s_r13 r; s_r14 r; s_r15 r].

Lemma callee_apart r : apart (callee_words r).
Proof. split; apply (bool_decide_unpack _); vm_compute; exact I. Qed.

(** The memory that a switch leaves. *)
Lemma context_switch_mem m r rsp prev next : 48 <= rsp < 2 ^ 64 ->
  let m' := store64 (stores m rsp (callee_words r)) prev (rsp - 48) in
  context_switch m r rsp prev next = (m', switch_in m' (load64 m' next)).
Proof.
  intros Hr. unfold context_switch. replace rsp with (rsp - 0) at 1 by lia.
  rewrite push_all_stores; [|lia|change (lenZ _) with 6; lia]. done.
Qed.

Lemma callee_outside m r rsp x : ~ (rsp - 48 <= x < rsp) -> stores m rsp (callee_words r) x = m x.
Proof.
  intros Hx. apply stores_outside. apply Forall_forall. unfold callee_words. cbn [pushed].
  repeat (apply Forall_cons; split; [cbn [fst]; lia|]). by apply Forall_nil.
Qed.

(** C21: a thread that was switched away from comes back where it was.  Thread [A]
    calls [context_switch] and its stack pointer goes to its [TCB]; when any thread
    [B] later switches to [A], with [A]'s stack and [TCB] left alone meanwhile and
    [B]'s own elsewhere, [A] continues at its return address with the stack pointer
    of its call and the registers it had. *)
Theorem switch_resumes m r rsp prev next m2 r2 rsp2 prev2 :
  callee_ok r -> 48 <= rsp < 2 ^ 64 - 8 -> 48 <= rsp2 < 2 ^ 64 ->
  prev + 8 <= rsp - 48 \/ rsp + 8 <= prev ->
  (forall x, rsp - 48 <= x < rsp + 8 \/ prev <= x < prev + 8 ->
    m2 x = fst (context_switch m r rsp prev next) x /\
    ~ (rsp2 - 48 <= x < rsp2) /\ ~ (prev2 <= x < prev2 + 8)) ->
  snd (context_switch m2 r2 rsp2 prev2 prev) = (r, load64 m rsp, rsp + 8).
Proof.
  intros Hc Hr Hr2 Hd. rewrite !context_switch_mem by lia. cbn [fst snd]. intros Hx.
  set (m1 := store64 (stores m rsp (callee_words r)) prev (rsp - 48)) in *.
  set (m3 := store64 _ prev2 _). assert (forall x, rsp - 48 <= x < rsp + 8 \/ prev <= x < prev + 8 -> m3 x = m1 x) as Hm3.
  { intros x Hin. destruct (Hx x Hin) as (<-&?&?). unfold m3. rewrite store64_spec, decide_False by lia.
    by apply callee_outside. }
  replace (load64 m3 prev) with (rsp - 48).
  2: { rewrite <-(load64_store64 (stores m rsp (callee_words r)) prev (rsp - 48)) at 1 by lia.
       apply load_bytes_ext. intros k Hk. rewrite Hm3 by lia. done. }
  assert (forall i, 0 <= i < 7 -> word m3 (rsp - 48) i = word (stores m rsp (callee_words r)) (rsp - 48) i) as Hw.
  { intros i Hi. apply word_agree; [lia|]. intros x Hin. rewrite Hm3 by lia. unfold m1.
    by rewrite store64_spec, decide_False by lia. }
  unfold switch_in. rewrite !Hw by lia. unfold callee_ok in Hc. rewrite !Forall_cons in Hc. destruct_and?.
  rewrite (word_agree m _ _ 6) by (lia || (intros x Hin; apply callee_outside; lia)).
  pose proof (callee_apart r) as Ha. words Ha. unfold word. rewrite !u64_small by lia.
  replace (rsp - 48 + 8 * 6) with rsp by lia. replace (rsp - 48 + 8 * 7) with (rsp + 8) by lia. by destruct r.
Qed.

(** ** Instances *)

Lemma new_thread_starts_witness :
  let '(m', ks) := setup_frame (mkCode 0x1000 0x2000) (fun _ => 0) 0x10000 0x4000 0x20000 7 in
  let '(ra, ctx, fr) := first_run m' ks in
  let sp := 0x20000 + CONFIG_STACK_SIZE - 8 in
  ra = 0x2000 /\ (c_rdi ctx = 7 /\ c_rsi ctx = 7 /\ c_rbp ctx = sp + 8) /\
  (c_ds ctx = 0x10 /\ c_es ctx = 0x10 /\ c_fs ctx = 0x10 /\ c_gs ctx = 0x10) /\
  fr = mkIret 0x4000 0x08 0x3200 sp 0x10 /\ load64 m' sp = 0x1000.
Proof.
  apply (new_thread_starts (mkCode 0x1000 0x2000) (fun _ => 0) 0x10000 0x4000 0x20000 7);
    unfold CONFIG_STACK_SIZE; cbn; lia.
Defined.

Definition some_context : context :=
  mkContext 0x10 0x20 0x30 0x40 1 2 3 4 5 6 7 8 9 10 11 12 13 0x123456789 15.

Lemma some_context_ok : context_ok some_context.
Proof. split; repeat constructor; cbn; lia. Qed.

Lemma context_roundtrip_witness :
  LOADCONTEXT (fst (fst (SAVECONTEXT (fun _ => 0) some_context 0x1000)))
    (snd (SAVECONTEXT (fun _ => 0) some_context 0x1000)) = (some_context, 0x1000).
Proof. apply (context_roundtrip (fun _ => 0)); [apply some_context_ok|lia|done]. Defined.

(** A dispatcher that returns its first argument. *)
Definition first_argument (args : list Z) (sp : Z) (m : memory) : memory * Z := (m, u64 (hd 0 args)).

Lemma systemcall_returns_witness : well_behaved first_argument /\
  let '(m', c', rsp', flags, rip) := systemcall_entrypoint first_argument (fun _ => 0) some_context 0x1000 in
  exists m0, (forall x, ~ (0x1000 - 160 <= x < 0x1000) -> m0 x = 0) /\
    c' = some_context <| c_rax := 10 |> /\ rsp' = 0x1000 /\ flags = 5 /\ rip = 12 /\
    (forall x, ~ (0x1000 - 160 <= x < 0x1000) -> m' x = m0 x).
Proof.
  assert (well_behaved first_argument) as Hp.
  { intros args sp m. split; [apply (Z.mod_pos_bound _ (2 ^ 64)); lia|done]. }
  split; [exact Hp|].
  exact (systemcall_returns first_argument (fun _ => 0) some_context 0x1000 Hp some_context_ok ltac:(lia)).
Defined.

Lemma switch_resumes_witness :
  let m1 := fst (context_switch (fun _ => 3) (mkCallee 1 2 3 4 5 6) 0x1000 0x2000 0x5000) in
  snd (context_switch m1 (mkCallee 7 8 9 0 0 0) 0x3000 0x4000 0x2000) =
  (mkCallee 1 2 3 4 5 6, load64 (fun _ => 3) 0x1000, 0x1008).
Proof.
  apply (switch_resumes (fun _ => 3) (mkCallee 1 2 3 4 5 6) 0x1000 0x2000 0x5000); [|lia|lia|lia|].
  - repeat constructor; cbn; lia.
  - intros x Hx. split; [done|lia].
Defined.
