(* ===== verification/Sched.v ===== *)
(** * The scheduler ([kernel/thread.c]) and signals ([kernel/signal.c])

    [schedule] and what it calls: the choice of the next thread, the time slices,
    the context switch, and the work done on the way out of it - the previous
    thread takes its new state, the migrating list is drained into the core's
    run queue, and woken threads leave the blocked list. *)

From S2P Require Import Prelude.
From S2P Require Import Utility.
From S2P Require Import Lock.
From S2P Require Import Stat.
From S2P Require Import Memory.
From S2P Require Import Atomic.
From S2P Require Import LocalApic.
From S2P Require Import ShellStorage.
From S2P Require Import Thread.

Definition lift {St A} (o : outcome A) : M St A :=
  match o with
  | Ok a => ret a
  | Fault f => fail f
  end.

Definition has (i bit : Z) : bool := negb (Z.land i bit =? 0).

(** ** Time slices *)

Definition refill_time_slice (tcb : Z) : M kernel Z :=
  let! b := get_TCB tcb in
  (if remaining_time_slice b <=? 0 then
     if time_quantum b =? THREAD_INFINITE_TIME_QUANTUM then
       put_TCB tcb (b <| remaining_time_slice := time_slice b |>)
     else
       let q := s64 (remaining_time_quantum b - time_slice b) in
       when (q <? 0) (fail KernelHalt) ;;
       put_TCB tcb (b <| remaining_time_quantum := q |> <| remaining_time_slice := time_slice b |>)
   else ret tt) ;;
  ret 0.

Definition adjust_time_slice (cpu : Z) : M kernel Z :=
  let! curr := get_current cpu in
  let! '(consumed, tick) := on_lapic cpu lapic_consumed_time_slice in
  if consumed =? 0 then
    upd_TCB curr (fun b => b <| acc_ltc := u64 (acc_ltc b + tick) |>) ;;
    let! b := get_TCB curr in
    let! t := on_lapic cpu lapic_get_ticks_in_1ms in
    if t <=? acc_ltc b then put_TCB curr (b <| acc_ltc := 0 |>) ;; ret 1 else ret 0
  else ret consumed.

Definition decrease_remaining_time_slice (cpu consumed : Z) : M kernel unit :=
  let! curr := get_current cpu in
  upd_TCB curr (fun b => b <| remaining_time_slice := s64 (remaining_time_slice b - consumed) |>) ;;
  let! pending := on_lapic cpu lapic_timer_interrupt_pending in
  when (negb (pending =? 0)) (on_lapic cpu lapic_send_eoi).

(** ** Moving a thread between lists *)

(** [a.count--; dl_list_del_init(&t->tcb_link)] *)
Definition take_off (a : lname) (t : Z) : M kernel unit := dec_count a ;; unlink t.

(** [dl_list_add_tail(&t->tcb_link, &a.tcb_list); a.count++] *)
Definition put_on (a : lname) (t : Z) : M kernel unit := add_tail a t ;; inc_count a.

(** [atomic_set(&t->intention, atomic_get(&t->intention) & ~bits)] *)
Definition clear_intention (t bits : Z) : M kernel unit :=
  on_TCB t (zoom intention (let! i := atomic_get in atomic_set (Z.land i (Z.lnot bits)))).

Definition set_state (t : Z) (s : thread_state) : M kernel unit :=
  upd_TCB t (fun b => b <| state := s |>).

(** A thread to be blocked leaves the run queue. *)
Definition block_thread (cpu t : Z) : M kernel unit :=
  take_off (Runnable cpu) t ;;
  set_state t BLOCKED ;;
  clear_intention t THREAD_INTENTION_BLOCKED ;;
  put_on (Blocked cpu) t.

(** A woken thread enters it again. *)
Definition wake_thread (cpu t : Z) : M kernel unit :=
  take_off (Blocked cpu) t ;;
  set_state t READY ;;
  clear_intention t (Z.lor THREAD_INTENTION_READY THREAD_INTENTION_BLOCKED) ;;
  put_on (Runnable cpu) t.

(** A thread that may not run here is left to the other cores, unless one of them
    is at the migrating list. *)
Definition emigrate (cpu t : Z) : M kernel unit :=
  let! r := trylock_list Migrating in
  when (negb (r =? 0))
    (take_off (Runnable cpu) t ;;
     put_on Migrating t ;;
     unlock_list Migrating).

(** A thread of list [a] leaves the kernel. *)
Definition reap (cpu : Z) (a : lname) (t : Z) : M kernel unit :=
  let! r := thread_exit t in
  if r =? -1 then ret tt
  else take_off a t ;; put_tcb cpu t.

(** ** The choice of the next thread *)

Definition available_next (b : TCB) : Z :=
  if (0 <? remaining_time_slice b) && bool_decide (state b = READY) then TRUE else FALSE.

(** The thread found is marked as the one that runs. *)
Definition pick (cid t : Z) : M kernel unit :=
  set_state t RUNNING ;;
  let! c := cpu_index cid in
  modify (fun k => k <| g_running_thread_list := fupd (g_running_thread_list k) c (Some t) |>).

(** The first loop of [select_next_thread], over the rest of the run queue: [None]
    when it returns the idle thread early, else the thread found. *)
Fixpoint scan_runnable (cpu cid : Z) (ts : list Z) (found : option Z) : M kernel (option (option Z)) :=
  match ts with
  | [] => ret (Some found)
  | t :: ts' =>
      let! b := get_TCB t in
      if has (intention b) THREAD_INTENTION_EXITED then
        let! cur := get_current cpu in
        if cur =? t then
          let! idle := idle_thread cid in
          refill_time_slice idle ;;
          ret None
        else reap cpu (Runnable cpu) t ;; scan_runnable cpu cid ts' found
      else if has (intention b) THREAD_INTENTION_BLOCKED then
        block_thread cpu t ;;
        scan_runnable cpu cid ts' found
      else if available_next b =? TRUE then
        let! allowed := lift (core_is_allowed b cid) in
        if negb (allowed =? 0) then
          match found with
          | Some _ => scan_runnable cpu cid ts' found
          | None => pick cid t ;; scan_runnable cpu cid ts' (Some t)
          end
        else
          emigrate cpu t ;;
          scan_runnable cpu cid ts' found
      else scan_runnable cpu cid ts' found
  end.

(** The second loop: whether a time slice was refilled. *)
Fixpoint refill_runnable (ts : list Z) (refilled : bool) : M kernel bool :=
  match ts with
  | [] => ret refilled
  | t :: ts' =>
      let! b := get_TCB t in
      if bool_decide (state b = READY) && (remaining_time_slice b <=? 0) then
        refill_time_slice t ;; refill_runnable ts' true
      else refill_runnable ts' refilled
  end.

(** [fuel] bounds the jumps to [retry]. *)
Fixpoint select_loop (cpu cid : Z) (fuel : nat) : M kernel Z :=
  match fuel with
  | O => fail NoFuel
  | S fuel' =>
      let! l := get_list (Runnable cpu) in
      let! r := scan_runnable cpu cid (tcb_list l) None in
      match r with
      | None => idle_thread cid
      | Some (Some t) => ret t
      | Some None =>
          let! l := get_list (Runnable cpu) in
          let! refilled := refill_runnable (tcb_list l) false in
          if refilled then select_loop cpu cid fuel'
          else
            let! l := get_list (Runnable cpu) in
            if tl_count l =? 1 then the NullPointer (head (tcb_list l))
            else idle_thread cid
      end
  end.

Definition select_next_thread (cpu : Z) : M kernel Z :=
  let! cur := get_current cpu in
  let! b := get_TCB cur in
  select_loop cpu (running_core b) 2.

(** ** Load balancing *)

(** The threads of core [c]: its run queue, and one more unless it idles. *)
Definition core_load (c : Z) : M kernel Z :=
  let! r := gets (fun k => g_running_thread_list k c) in
  let! t := the NullPointer r in
  let! l := get_list (Runnable c) in
  ret (if MAX_PROCESSOR_COUNT <=? t then u64 (tl_count l + 1) else tl_count l).

(** The loop over the cores from [i], with the least load so far. *)
Fixpoint min_core_loop (b : TCB) (cid : Z) (n : nat) (i best min_cid : Z) : M kernel (Z * Z) :=
  match n with
  | O => ret (best, min_cid)
  | S n' =>
      let! r := gets (fun k => g_running_thread_list k i) in
      match r with
      | None => min_core_loop b cid n' (i + 1) best min_cid
      | Some _ =>
          let! allowed := (if i =? cid then ret FALSE else lift (core_is_allowed b i)) in
          if allowed =? 0 then min_core_loop b cid n' (i + 1) best min_cid
          else
            let! tmp := core_load i in
            if tmp <? best then
              if tmp =? 0 then ret (tmp, i) else min_core_loop b cid n' (i + 1) tmp i
            else min_core_loop b cid n' (i + 1) best min_cid
      end
  end.

Definition get_cid_of_min_thread (next_tcb cid : Z) : M kernel Z :=
  let! b := get_TCB next_tcb in
  if ISONLY_CORE_MASK (core_mask b) cid =? 0 then ret cid
  else
    let! c := cpu_index cid in
    let! load := core_load c in
    if load =? 0 then ret cid
    else
      let! '(best, min_cid) :=
        min_core_loop b cid (Z.to_nat MAX_PROCESSOR_COUNT) 0 0xFFFFFFFFFFFFFFFF cid in
      if load <=? best then ret cid else ret min_cid.

(** ** After the switch *)

Definition __post_context_switch (cpu prev : Z) : M kernel unit :=
  let! b := get_TCB prev in
  if bool_decide (state b = EXITED) || bool_decide (state b = NOTALLOC) then ret tt
  else if has (intention b) THREAD_INTENTION_READY then
    set_state prev READY ;;
    clear_intention prev (Z.lor THREAD_INTENTION_READY THREAD_INTENTION_BLOCKED)
  else if has (intention b) THREAD_INTENTION_BLOCKED then
    block_thread cpu prev
  else if has (intention b) THREAD_INTENTION_EXITED then
    let! cur := get_current cpu in
    if cur =? prev then ret tt else reap cpu (Runnable cpu) prev
  else ret tt.

(** The threads of a core: in its run queue or blocked. *)
Definition threads_on (cpu : Z) : M kernel Z :=
  let! r := get_list (Runnable cpu) in
  let! b := get_list (Blocked cpu) in
  ret (u64 (tl_count r + tl_count b)).

(** A migrating thread joins the run queue of the core. *)
Definition adopt (cpu cid t : Z) : M kernel unit :=
  unlink t ;;
  dec_count Migrating ;;
  put_on (Runnable cpu) t ;;
  upd_TCB t (fun b => b <| running_core := u16 cid |>).

(** First pass over the migrating list: the threads meant for this core; whether
    the core is full. *)
Fixpoint adopt_own (cpu cid : Z) (ts : list Z) : M kernel bool :=
  match ts with
  | [] => ret false
  | t :: ts' =>
      let! b := get_TCB t in
      when (running_core b =? cid) (adopt cpu cid t) ;;
      let! n := threads_on cpu in
      if n =? RUNNABLE_MAX then ret true else adopt_own cpu cid ts'
  end.

(** Second pass: at most one thread that may run here. *)
Fixpoint adopt_one (cpu cid : Z) (ts : list Z) : M kernel unit :=
  match ts with
  | [] => ret tt
  | t :: ts' =>
      let! b := get_TCB t in
      let! allowed := lift (core_is_allowed b cid) in
      let! here :=
        (if negb (allowed =? 0) then
           let! min_cid := get_cid_of_min_thread t cid in ret (cid =? min_cid)
         else ret false) in
      if here then adopt cpu cid t
      else
        let! n := threads_on cpu in
        if n =? RUNNABLE_MAX then ret tt else adopt_one cpu cid ts'
  end.

Definition drain_migrating (cpu : Z) : M kernel unit :=
  let! n := threads_on cpu in
  when (n <? RUNNABLE_MAX)
    (let! g := get_list Migrating in
     if tl_count g =? 0 then ret tt
     else
       let! r := trylock_list Migrating in
       when (negb (r =? 0))
         (let! cur := get_current cpu in
          let! b := get_TCB cur in
          let cid := running_core b in
          let! g := get_list Migrating in
          let! full := adopt_own cpu cid (tcb_list g) in
          (if full then ret tt
           else let! g := get_list Migrating in adopt_one cpu cid (tcb_list g)) ;;
          unlock_list Migrating)).

(** The loop over the blocked list: exits and wake-ups. *)
Definition unblock (cpu t : Z) : M kernel unit :=
  let! b := get_TCB t in
  if has (intention b) THREAD_INTENTION_EXITED then
    let! cur := get_current cpu in
    if cur =? t then ret tt else reap cpu (Blocked cpu) t
  else if has (intention b) THREAD_INTENTION_READY then
    wake_thread cpu t
  else ret tt.

Definition post_context_switch (cpu prev : Z) : M kernel unit :=
  __post_context_switch cpu prev ;;
  drain_migrating cpu ;;
  let! l := get_list (Blocked cpu) in
  when (negb (tl_count l =? 0)) (for_each (tcb_list l) (unblock cpu)).

Definition release_thread_spl (cpu prev : Z) : M kernel unit := post_context_switch cpu prev.

(** ** Signals *)

Definition get_sigs (c : Z) : M kernel signal_list := gets (fun k => local_sig_list k c).

Definition upd_sigs (c : Z) (f : signal_list -> signal_list) : M kernel unit :=
  modify (fun k => k <| local_sig_list := fupd (local_sig_list k) c (f (local_sig_list k c)) |>).

Definition on_sig_lock (c : Z) (m : M Z unit) : M kernel unit :=
  let! l := get_sigs c in
  match m (sl_lock l) with
  | Ok (_, w) => upd_sigs c (fun l => l <| sl_lock := w |>)
  | Fault f => fail f
  end.

Definition signal_init : M kernel unit :=
  for_up (Z.to_nat MAX_PROCESSOR_COUNT) 0 (fun i => upd_sigs i (fun _ => mkSL FALSE 0 [])).

Definition sys_signal (cpu handler : Z) : M kernel Z :=
  let! curr := get_current cpu in
  upd_TCB curr (fun b => b <| signal_handler := handler |>) ;;
  ret 0.

(** The call of a handler, code of the application: recorded, with no effect on
    the kernel; a call of address 0 faults. *)
Definition call_handler (handler signum_ : Z) : M kernel unit :=
  if handler =? 0 then fail NullPointer
  else modify (fun k => k <| handled := handled k ++ [(handler, signum_)] |>).

(** [sizeof(signal_t)] *)
Definition SIGNAL_SIZE : Z := 24.

Definition sys_kill (cpu dest signum_ : Z) : M kernel Z :=
  let! curr := get_current cpu in
  let! tcb := get_tcb_ptr dest in
  let! b := get_TCB tcb in
  let dest_core := running_core b in
  if tcb =? curr then
    when (negb (signal_handler b =? 0)) (call_handler (signal_handler b) signum_) ;;
    put_tcb cpu tcb ;;
    ret 0
  else
    let! at_ := zoom mem (az_alloc SIGNAL_SIZE) in
    when (at_ =? 0) (fail NullPointer) ;;
    let! c := cpu_index dest_core in
    on_sig_lock c spinlock_lock ;;
    upd_sigs c (fun l => l <| sig_list := sig_list l ++ [mkSignal at_ dest signum_] |>
                           <| sl_count := u64 (sl_count l + 1) |>) ;;
    on_sig_lock c spinlock_unlock ;;
    upd_TCB tcb (fun b => b <| signal_flag := 1 |>) ;;
    put_tcb cpu tcb ;;
    ret 0.

(** One signal of the list, in the traversal for thread [tid]. *)
Definition deliver (cpu handler tid : Z) (s : signal_t) : M kernel unit :=
  when (sig_dest s =? tid)
    (call_handler handler (signum s) ;;
     upd_sigs cpu (fun l => l <| sig_list := filter (fun x => sig_at x <> sig_at s) (sig_list l) |>
                              <| sl_count := u64 (sl_count l - 1) |>) ;;
     zoom mem (az_free (sig_at s)) ;;
     ret tt).

Definition do_signal (cpu handler tid : Z) : M kernel unit :=
  on_sig_lock cpu spinlock_lock ;;
  let! l := get_sigs cpu in
  for_each (sig_list l) (deliver cpu handler tid) ;;
  on_sig_lock cpu spinlock_unlock.

(** The end of [schedule], for the thread [t] that resumes there. *)
Definition signal_handling (cpu t : Z) : M kernel unit :=
  let! b := get_TCB t in
  when (negb (signal_flag b =? 0))
    (do_signal cpu (signal_handler b) (s32 t) ;;
     upd_TCB t (fun b => b <| signal_flag := 0 |> <| signal_handler := 0 |>)).

(** ** The switch *)

(** [context_switch(prev, next)] and what [next] does then, up to its return to
    the code it was suspended in: a thread suspended in [schedule] runs the rest
    of that function, a new one goes through [release_thread_spl].  [sp] is the
    stack pointer [prev] is left with. *)
Definition switch_to (cpu sp prev next : Z) : M kernel unit :=
  upd_TCB prev (fun b => b <| stack := sp |>) ;;
  let! k := get in
  let resumes := bool_decide (next ∈ suspended k) in
  put (k <| suspended := {[ prev ]} ∪ (suspended k ∖ {[ next ]}) |>) ;;
  if resumes then post_context_switch cpu prev ;; signal_handling cpu next
  else release_thread_spl cpu prev.

(** The common beginning of [schedule] and [schedule_to]. *)
Definition charge (cpu : Z) : M kernel unit :=
  let! consumed := adjust_time_slice cpu in
  on_lapic cpu lapic_stop_timer ;;
  decrease_remaining_time_slice cpu consumed.

Definition add_intention (t i : Z) : M kernel unit :=
  on_TCB t (zoom intention (let! j := atomic_get in atomic_set (Z.lor i j))).

(** The time slice is passed as an [int]. *)
Definition start_slice (cpu t : Z) : M kernel unit :=
  let! b := get_TCB t in
  on_lapic cpu (lapic_start_timer_oneshot (s32 (remaining_time_slice b))).

(** [TRUE] when the caller goes on; [FALSE] after a switch, when another thread
    runs on the core. *)
Definition schedule (cpu sp intention_ : Z) : M kernel Z :=
  let! curr := get_current cpu in
  let! b := get_TCB curr in
  let cid := running_core b in
  charge cpu ;;
  add_intention curr intention_ ;;
  let! next := select_next_thread cpu in
  if next =? curr then
    refill_time_slice curr ;;
    start_slice cpu curr ;;
    post_context_switch cpu curr ;;
    set_state curr RUNNING ;;
    clear_intention curr THREAD_INTENTION_READY ;;
    ret TRUE
  else
    let! n := get_TCB next in
    when (remaining_time_slice n <=? 0) (refill_time_slice next ;; ret tt) ;;
    start_slice cpu next ;;
    upd_TCB next (fun b => b <| running_core := cid |>) ;;
    modify (fun k => k <| running_thread := fupd (running_thread k) cpu (Some next) |>) ;;
    switch_to cpu sp curr next ;;
    ret FALSE.

(** [select_next_thread], a slice for its choice and the timer. *)
Definition schedule_to (cpu sp next_tid intention_ : Z) : M kernel Z :=
  let! curr := get_current cpu in
  let! b := get_TCB curr in
  let cid := running_core b in
  charge cpu ;;
  add_intention curr intention_ ;;
  let! next := get_tcb_ptr next_tid in
  let! n := get_TCB next in
  let! b := get_TCB curr in
  let! direct :=
    (if running_core n =? running_core b then
       let! allowed := lift (core_is_allowed n cid) in ret (negb (allowed =? 0))
     else ret false) in
  let! go :=
    (if direct then
       when (remaining_time_slice n <=? 0) (refill_time_slice next ;; ret tt) ;;
       start_slice cpu next ;;
       pick cid next ;;
       ret (Some next)
     else
       put_tcb cpu next ;;
       let! next := select_next_thread cpu in
       let! n := get_TCB next in
       when (remaining_time_slice n <=? 0) (refill_time_slice next ;; ret tt) ;;
       start_slice cpu next ;;
       if next =? curr then
         set_state curr RUNNING ;;
         post_context_switch cpu curr ;;
         ret None
       else
         get_tcb next ;;
         ret (Some next)) in
  match go with
  | None => ret TRUE
  | Some next =>
      upd_TCB next (fun b => b <| running_core := cid |>) ;;
      modify (fun k => k <| running_thread := fupd (running_thread k) cpu (Some next) |>) ;;
      put_tcb cpu next ;;
      switch_to cpu sp curr next ;;
      ret FALSE
  end.

(** ** Exit and idle threads *)

Definition __thread_exit (cpu sp : Z) : M kernel Z :=
  let! cur := get_current cpu in
  let! tcb := get_tcb_ptr cur in
  on_TCB tcb (zoom intention (atomic_set THREAD_INTENTION_EXITED)) ;;
  upd_TCB tcb (fun b => b <| name := THREAD_INIT_NAME |>) ;;
  put_tcb cpu tcb ;;
  schedule cpu sp THREAD_INTENTION_EXITED ;;
  ret 0.

Definition do_exit (cpu sp : Z) : M kernel unit := __thread_exit cpu sp ;; ret tt.

(** Loading the page table register has no effect here. *)
Definition setup_idle_thread (cpu : Z) : M kernel unit :=
  let! t := alloc_tcb_idle cpu in
  init_tcb t 0 THREAD_INIT_IDLE ;;
  set_state t RUNNING ;;
  modify (fun k => k <| g_running_thread_list := fupd (g_running_thread_list k) cpu (Some t) |>
                     <| running_thread := fupd (running_thread k) cpu (Some t) |>) ;;
  start_slice cpu t ;;
  on_lapic cpu (zoom flags_reg enable_interrupt).
