(* ===== verification/ThreadInv.v ===== *)
(** * What the thread lists and the thread control blocks keep

    The invariant of the thread tables: every thread but the idle ones is on
    exactly one list, and the list says in which state it is and on which core;
    a core runs its idle thread or a thread of its own run queue; the stacks of
    the threads and the blocks of the queued signals are distinct live blocks of
    the kernel's allocator.  The lemmas of this file are the ways the operations
    change the tables. *)

From S2P Require Import Prelude.
From S2P Require Import Utility.
From S2P Require Import Lock.
From S2P Require Import Stat.
From S2P Require Import Memory.
From S2P Require Import PageAlloc.
From S2P Require Import Allocator.
From S2P Require Import Atomic.
From S2P Require Import LocalApic.
From S2P Require Import ShellStorage.
From S2P Require Import Thread.
From S2P Require Import Sched.

(** ** The invariant *)

Definition NTHREAD : Z := MAX_PROCESSOR_COUNT + CONFIG_NUM_THREAD.

Definition is_cpu (c : Z) : Prop := 0 <= c < MAX_PROCESSOR_COUNT.

Definition valid (n : lname) : Prop :=
  match n with
  | Runnable c | Blocked c | Local c => is_cpu c
  | Global | Migrating => True
  end.

Definition members (k : kernel) (n : lname) : list Z := tcb_list (lists k n).

(** The lock of list [n] is held by the calling core, which holds the lock of
    [lk]; else it is free or held by another core. *)
Definition lock_ok (lk : option lname) (n : lname) (l : thread_list) : Prop :=
  if decide (lk = Some n) then tl_lock l = TRUE /\ held_elsewhere l = false
  else tl_lock l = if held_elsewhere l then TRUE else FALSE.

Definition list_ok (lk : option lname) (n : lname) (l : thread_list) : Prop :=
  NoDup (tcb_list l) /\ tl_count l = lenZ (tcb_list l) /\ lock_ok lk n l.

Definition allowed (b : TCB) (c : Z) : Prop := core_is_allowed b c = Ok TRUE.

(** What membership of list [n] says of thread [t] with control block [b]. *)
Definition fits (k : kernel) (n : lname) (t : Z) (b : TCB) : Prop :=
  match n with
  | Runnable c =>
      (state b = READY \/ state b = RUNNING) /\ refc b = 1 /\ running_core b = c /\ allowed b c
  | Blocked c =>
      (state b = BLOCKED \/ state b = READY) /\ refc b = 1 /\ running_core b = c /\ allowed b c
  | Migrating =>
      state b = READY /\ refc b = 1 /\ (is_cpu (running_core b) -> allowed b (running_core b))
  | Local _ | Global =>
      state b = NOTALLOC /\ refc b = 0 /\ stack b = u64 (tcb_temp k t + CONFIG_TCB_SIZE)
  end.

(** Idle threads are asked neither to block nor to exit. *)
Definition tcb_ok (t : Z) (b : TCB) : Prop :=
  time_slice b = THREAD_DEFAULT_TIME_SLICE /\ time_quantum b = THREAD_INFINITE_TIME_QUANTUM /\
  0 <= intention b < 64 /\ lenZ (core_mask b) = 8 /\
  (signal_flag b <> 0 -> signal_handler b <> 0) /\
  (t < MAX_PROCESSOR_COUNT ->
     has (intention b) THREAD_INTENTION_BLOCKED = false /\
     has (intention b) THREAD_INTENTION_EXITED = false).

Definition idle_ok (k : kernel) (c : Z) (b : TCB) : Prop :=
  running_core b = c /\ state b <> NOTALLOC /\ state b <> EXITED /\
  refc b = if running_thread k c then 1 else 0.

Definition stack_of (b : TCB) : Z := u64 (stack_base b - CONFIG_STACK_SIZE).

(** Who holds a block of the kernel's allocator. *)
Inductive owner : Set :=
| TcbArea
| StackOf (t : Z)
| SignalsOf (c : Z).

Definition owns (k : kernel) (o : owner) (a : Z) : Prop :=
  match o with
  | TcbArea => a = tcb_base_addr k
  | StackOf t => MAX_PROCESSOR_COUNT <= t /\ exists b, tcbs k !! t = Some b /\
      state b <> NOTALLOC /\ a = stack_of b /\ a <> 0
  | SignalsOf c => is_cpu c /\ a ∈ sig_at <$> sig_list (local_sig_list k c)
  end.

Definition sigs_ok (l : signal_list) : Prop :=
  sl_lock l = FALSE /\ sl_count l = u64 (lenZ (sig_list l)) /\ NoDup (sig_at <$> sig_list l).

Record mem_ok (k : kernel) : Prop := {
  mo_inv : kmem_inv (mem k);
  mo_live : forall o a, owns k o a -> exists bytes, kernel_block (mem k) a bytes;
  mo_unique : forall o o' a, owns k o a -> owns k o' a -> o = o'
}.

Definition ticks_ok (t : Z * Z) : Prop := snd t <> 0 \/ fst t / 10 <> 0.

(** [sw]: a core in the middle of [schedule], whose thread may already have been
    moved to the blocked list; [lk]: the list whose lock the calling core holds. *)
Record kinv (sw : option Z) (lk : option lname) (k : kernel) : Prop := {
  ki_dom : forall t, is_Some (tcbs k !! t) <-> 0 <= t < NTHREAD;
  ki_list : forall n, valid n -> list_ok lk n (lists k n);
  ki_apart : forall n m t, valid n -> valid m -> t ∈ members k n -> t ∈ members k m -> n = m;
  ki_home : forall t, MAX_PROCESSOR_COUNT <= t < NTHREAD -> exists n, valid n /\ t ∈ members k n;
  ki_member : forall n t, valid n -> t ∈ members k n ->
    MAX_PROCESSOR_COUNT <= t /\ exists b, tcbs k !! t = Some b /\ fits k n t b;
  ki_tcb : forall t b, tcbs k !! t = Some b -> tcb_ok t b;
  ki_idle : forall c b, is_cpu c -> tcbs k !! c = Some b -> idle_ok k c b;
  ki_running : forall c t, running_thread k c = Some t -> is_cpu c /\
    (t = c \/ t ∈ members k (Runnable c) \/ (sw = Some c /\ t ∈ members k (Blocked c)));
  ki_ticks : ticks_ok (lapic_ticks k);
  ki_sigs : forall c, is_cpu c -> sigs_ok (local_sig_list k c);
  ki_mem : mem_ok k
}.

(** ** Primitive steps *)

Definition set_tcb (t : Z) (b : TCB) (k : kernel) : kernel := k <| tcbs := <[t := b]> (tcbs k) |>.

Definition set_list (n : lname) (l : thread_list) (k : kernel) : kernel :=
  k <| lists := fupd (lists k) n l |>.

Lemma wp_get_TCB t b Q k : tcbs k !! t = Some b -> Q b k -> wp (get_TCB t) Q k.
Proof. intros Hb HQ. unfold get_TCB. wp_steps. by apply (wp_the _ _ b). Qed.

Lemma wp_put_TCB t b Q k : Q tt (set_tcb t b k) -> wp (put_TCB t b) Q k.
Proof. done. Qed.

Lemma wp_upd_TCB t b f Q k : tcbs k !! t = Some b -> Q tt (set_tcb t (f b) k) -> wp (upd_TCB t f) Q k.
Proof. intros Hb HQ. apply wp_bind. by apply (wp_get_TCB _ b). Qed.

Lemma wp_on_TCB {A} t b (m : M TCB A) Q k : tcbs k !! t = Some b ->
  wp m (fun a b' => Q a (set_tcb t b' k)) b -> wp (on_TCB t m) Q k.
Proof.
  intros Hb Hm. apply wp_bind. apply (wp_get_TCB _ b); [done|].
  unfold wp in *. destruct (m b) as [[a b']|]; [|done]. exact Hm.
Qed.

Lemma wp_upd_list n f Q k : Q tt (set_list n (f (lists k n)) k) -> wp (upd_list n f) Q k.
Proof. done. Qed.

Lemma set_tcb_tcb t b b' k : set_tcb t b (set_tcb t b' k) = set_tcb t b k.
Proof. unfold set_tcb. cbn. by rewrite insert_insert_eq. Qed.

Lemma lookup_set_tcb t b k : tcbs (set_tcb t b k) !! t = Some b.
Proof. apply lookup_insert_eq. Qed.

Lemma fupd_eq {A B} `{EqDecision A} (f : A -> B) a b : fupd f a b a = b.
Proof. unfold fupd. by rewrite decide_True. Qed.

Lemma fupd_ne {A B} `{EqDecision A} (f : A -> B) a b x : x <> a -> fupd f a b x = f x.
Proof. intros. unfold fupd. by rewrite decide_False. Qed.

(** ** Changes of the tables *)

Lemma NoDup_range_length (l : list Z) a n : NoDup l -> 0 <= n -> (forall x, x ∈ l -> a <= x < a + n) ->
  lenZ l <= n.
Proof.
  intros Hnd Hn Hr.
  assert (l ⊆+ seqZ a n) as Hs%submseteq_length.
  { apply NoDup_submseteq; [done|]. intros x Hx%Hr. by apply elem_of_seqZ. }
  rewrite length_seqZ in Hs. unfold lenZ. lia.
Qed.

Lemma filter_other (t : Z) (l : list Z) : t ∉ l -> filter (fun x => x <> t) l = l.
Proof.
  intros Ht. induction l as [|x l IH]; [done|]. apply not_elem_of_cons in Ht as [Hx Ht].
  by rewrite filter_cons_True, (IH Ht) by done.
Qed.

Lemma lenZ_filter_other (t : Z) (l : list Z) : NoDup l -> t ∈ l -> lenZ (filter (fun x => x <> t) l) = lenZ l - 1.
Proof.
  intros Hnd Ht. apply list_elem_of_split in Ht as (l1 & l2 & ->).
  apply NoDup_app in Hnd as (_ & Hd & [H2 _]%NoDup_cons).
  rewrite filter_app, filter_cons_False by naive_solver.
  rewrite !filter_other; [unfold lenZ; rewrite !length_app; cbn; lia|done|].
  intros ?%Hd. set_solver.
Qed.

Lemma kinv_lt sw lk k n t : kinv sw lk k -> valid n -> t ∈ members k n -> MAX_PROCESSOR_COUNT <= t < NTHREAD.
Proof.
  intros Hk Hn Ht. destruct (ki_member _ _ _ Hk _ _ Hn Ht) as (? & b & Hb & _).
  assert (0 <= t < NTHREAD) by (apply (ki_dom _ _ _ Hk); by exists b). lia.
Qed.

Lemma kinv_count sw lk k n : kinv sw lk k -> valid n ->
  tl_count (lists k n) = lenZ (members k n) /\ 0 <= lenZ (members k n) <= CONFIG_NUM_THREAD.
Proof.
  intros Hk Hn. destruct (ki_list _ _ _ Hk n Hn) as (Hnd & Hc & _). split; [done|].
  split; [unfold lenZ; lia|]. apply (NoDup_range_length _ MAX_PROCESSOR_COUNT); [done|done|].
  intros t Ht. by eapply kinv_lt.
Qed.

(** Every thread but the moved one is where it was; [t] is at the end of [d]. *)
Definition moved (lk : option lname) (t : Z) (d n : lname) (l l' : thread_list) : Prop :=
  tcb_list l' = filter (fun x => x <> t) (tcb_list l) ++ (if decide (n = d) then [t] else []) /\
  tl_count l' = lenZ (tcb_list l') /\ lock_ok lk n l'.

Lemma moved_member lk t d n l l' x : moved lk t d n l l' ->
  x ∈ tcb_list l' <-> (x <> t /\ x ∈ tcb_list l) \/ (x = t /\ n = d).
Proof.
  intros [-> _]. rewrite elem_of_app, list_elem_of_filter. case_decide; set_solver.
Qed.

Lemma moved_list_ok lk t d n l l' : NoDup (tcb_list l) -> moved lk t d n l l' -> list_ok lk n l'.
Proof.
  intros Hnd (E & Hc & Hlk). split_and!; [|done|done]. rewrite E. apply NoDup_app. split_and!.
  - by apply NoDup_filter.
  - intros x [Hx _]%list_elem_of_filter. case_decide; set_solver.
  - case_decide; [apply NoDup_singleton|constructor].
Qed.

(** The parts of the state the tables are not in. *)
Record rest_same (k k' : kernel) : Prop := {
  rs_running : running_thread k' = running_thread k;
  rs_ticks : lapic_ticks k' = lapic_ticks k;
  rs_sigs : local_sig_list k' = local_sig_list k;
  rs_base : tcb_base_addr k' = tcb_base_addr k
}.

Lemma fits_rest k k' n t b : tcb_base_addr k' = tcb_base_addr k -> fits k n t b -> fits k' n t b.
Proof. intros E. unfold fits, tcb_temp. by rewrite E. Qed.

Section moves.
Context (sw : option Z) (lk : option lname) (k k' : kernel).
Hypothesis Hk : kinv sw lk k.
Hypothesis Hrest : rest_same k k'.

Lemma kinv_moved t b' d :
  tcbs k' = <[t := b']> (tcbs k) ->
  (forall n, valid n -> moved lk t d n (lists k n) (lists k' n)) ->
  valid d -> MAX_PROCESSOR_COUNT <= t < NTHREAD ->
  fits k d t b' -> tcb_ok t b' ->
  (forall c, running_thread k c = Some t -> d = Runnable c \/ (sw = Some c /\ d = Blocked c)) ->
  mem_ok k' -> kinv sw lk k'.
Proof.
  intros Htcbs Hmv Hd Ht Hfit Hok Hrun Hmem.
  assert (forall n x, valid n -> x ∈ members k' n <->
    (x <> t /\ x ∈ members k n) \/ (x = t /\ n = d)) as Hin
    by (intros n x Hn; apply (moved_member lk t d n), Hmv, Hn).
  constructor.
  - intros x. rewrite Htcbs, lookup_insert_is_Some, (ki_dom _ _ _ Hk).
    unfold MAX_PROCESSOR_COUNT in *. destruct (decide (t = x)) as [->|]; lia || naive_solver.
  - intros n Hn. eapply moved_list_ok; [|by apply Hmv]. apply (ki_list _ _ _ Hk n Hn).
  - intros n m x Hn Hm Hx Hx'. apply Hin in Hx; [|done]. apply Hin in Hx'; [|done].
    destruct Hx as [[Hne Hx]|[-> ->]], Hx' as [[Hne' Hx']|[? ->]]; try done.
    by apply (ki_apart _ _ _ Hk n m x).
  - intros x Hx. destruct (decide (x = t)) as [->|Hne].
    + exists d. split; [done|]. apply Hin; [done|]. by right.
    + destruct (ki_home _ _ _ Hk x Hx) as (n & Hn & Hxn). exists n. split; [done|].
      apply Hin; [done|]. by left.
  - intros n x Hn Hx. apply Hin in Hx; [|done]. rewrite Htcbs.
    destruct Hx as [[Hne Hx]|[-> ->]].
    + destruct (ki_member _ _ _ Hk n x Hn Hx) as (? & b & Hb & Hf). split; [done|]. exists b.
      rewrite lookup_insert_ne by done. split; [done|]. by apply (fits_rest k), Hf; apply Hrest.
    + split; [lia|]. exists b'. rewrite lookup_insert_eq. split; [done|].
      by apply (fits_rest k), Hfit; apply Hrest.
  - intros x b. rewrite Htcbs. intros [[<- <-]|[_ Hb]]%lookup_insert_Some; [done|].
    by apply (ki_tcb _ _ _ Hk).
  - intros c b Hc. unfold is_cpu in Hc. rewrite Htcbs, lookup_insert_ne by lia. intros Hb.
    pose proof (ki_idle _ _ _ Hk c b Hc Hb) as Hi. unfold idle_ok in *.
    by rewrite (rs_running _ _ Hrest).
  - intros c x. rewrite (rs_running _ _ Hrest). intros Hcx.
    destruct (ki_running _ _ _ Hk c x Hcx) as [Hc Hor]. split; [done|].
    assert (valid (Runnable c) /\ valid (Blocked c)) as [Hv Hv'] by done. rewrite !Hin by done.
    destruct (decide (x = t)) as [->|]; [|naive_solver].
    right. destruct (Hrun c Hcx) as [->|[-> ->]]; [left|right; split; [done|]]; by right.
  - rewrite (rs_ticks _ _ Hrest). apply Hk.
  - rewrite (rs_sigs _ _ Hrest). apply Hk.
  - done.
Qed.

(** A control block changes in place. *)
Lemma kinv_tweak t b b' :
  tcbs k' = <[t := b']> (tcbs k) -> lists k' = lists k -> tcbs k !! t = Some b ->
  (forall n, valid n -> t ∈ members k n -> fits k n t b -> fits k n t b') -> tcb_ok t b' ->
  (is_cpu t -> idle_ok k t b -> idle_ok k t b') ->
  mem_ok k' -> kinv sw lk k'.
Proof.
  intros Htcbs Hl Hb Hfit Hok Hidle Hmem.
  assert (forall n, members k' n = members k n) as Hin by (intros; unfold members; by rewrite Hl).
  constructor.
  - intros x. rewrite Htcbs, lookup_insert_is_Some, (ki_dom _ _ _ Hk).
    assert (0 <= t < NTHREAD) by (apply (ki_dom _ _ _ Hk); by exists b).
    destruct (decide (t = x)) as [->|]; lia || naive_solver.
  - intros n. rewrite Hl. apply Hk.
  - intros n m x. rewrite !Hin. apply Hk.
  - intros x Hx. destruct (ki_home _ _ _ Hk x Hx) as (n & ?). exists n. by rewrite Hin.
  - intros n x Hn. rewrite Hin. intros Hx. destruct (ki_member _ _ _ Hk n x Hn Hx) as (? & c & Hc & Hf).
    split; [done|]. rewrite Htcbs. destruct (decide (x = t)) as [->|Hne].
    + exists b'. rewrite lookup_insert_eq. split; [done|]. apply (fits_rest k); [apply Hrest|].
      apply Hfit; [done|done|]. by simplify_eq.
    + exists c. rewrite lookup_insert_ne by done. split; [done|].
      by apply (fits_rest k), Hf; apply Hrest.
  - intros x c. rewrite Htcbs. intros [[<- <-]|[_ ?]]%lookup_insert_Some; [done|].
    by apply (ki_tcb _ _ _ Hk).
  - intros c x Hc. rewrite Htcbs. unfold idle_ok. rewrite (rs_running _ _ Hrest).
    intros [[<- <-]|[_ ?]]%lookup_insert_Some; [|by apply (ki_idle _ _ _ Hk)].
    apply Hidle; [done|]. by apply (ki_idle _ _ _ Hk).
  - intros c x. rewrite (rs_running _ _ Hrest), !Hin. apply Hk.
  - rewrite (rs_ticks _ _ Hrest). apply Hk.
  - rewrite (rs_sigs _ _ Hrest). apply Hk.
  - done.
Qed.

(** The owners of the blocks are the same. *)
Lemma mem_ok_same : mem k' = mem k ->
  (forall t, MAX_PROCESSOR_COUNT <= t ->
     match tcbs k' !! t with
     | Some b' => exists b, tcbs k !! t = Some b /\ stack_base b' = stack_base b /\
         (state b' = NOTALLOC <-> state b = NOTALLOC)
     | None => True
     end) ->
  mem_ok k'.
Proof.
  intros Em Hb. assert (forall o a, owns k' o a -> owns k o a) as Ho.
  { intros o a. destruct o as [|t|c]; cbn.
    - by rewrite (rs_base _ _ Hrest).
    - intros (Ht & b' & E & Hs & -> & Hz). specialize (Hb t Ht). rewrite E in Hb.
      destruct Hb as (b & E' & Esb & Est). split; [done|]. exists b. unfold stack_of in *.
      rewrite Esb in *. split_and!; [done|tauto|done|done].
    - by rewrite (rs_sigs _ _ Hrest). }
  destruct (ki_mem _ _ _ Hk) as [Hi Hl Hu]. split; rewrite ?Em; eauto.
Qed.
End moves.

(** ** Moving a thread *)

Ltac case_names :=
  repeat match goal with
  | |- context [decide (?a = ?b)] => destruct (decide (a = b)); subst; try done
  end.

(** [k'] is [k] with [t], now described by [b'], at the end of list [d]. *)
Record relocated (lk : option lname) (k k' : kernel) (t : Z) (d : lname) (b' : TCB) : Prop := {
  rl_tables : exists ls, k' = k <| tcbs := <[t := b']> (tcbs k) |> <| lists := ls |>;
  rl_moved : forall n, valid n -> moved lk t d n (lists k n) (lists k' n)
}.

Lemma relocated_rest lk k k' t d b' : relocated lk k k' t d b' -> rest_same k k'.
Proof. by intros [[ls ->] _]. Qed.

Definition strip (a : lname) (t : Z) (ls : lname -> thread_list) : lname -> thread_list :=
  let ls1 := fupd ls a (ls a <| tl_count := u64 (tl_count (ls a) - 1) |>) in
  fun n => ls1 n <| tcb_list := filter (fun x => x <> t) (tcb_list (ls1 n)) |>.

Definition append (d : lname) (t : Z) (ls : lname -> thread_list) : lname -> thread_list :=
  let ls1 := fupd ls d (ls d <| tcb_list := tcb_list (ls d) ++ [t] |>) in
  fupd ls1 d (ls1 d <| tl_count := u64 (tl_count (ls1 d) + 1) |>).

Lemma wp_take_off a t Q k : Q tt (k <| lists := strip a t (lists k) |>) -> wp (take_off a t) Q k.
Proof. done. Qed.

Lemma wp_put_on d t Q k : Q tt (k <| lists := append d t (lists k) |>) -> wp (put_on d t) Q k.
Proof. done. Qed.

Lemma strip_list sw lk k a t n : kinv sw lk k -> valid a -> t ∈ members k a -> valid n ->
  let l := strip a t (lists k) n in
  tcb_list l = filter (fun x => x <> t) (members k n) /\
  tl_count l = lenZ (tcb_list l) /\ lock_ok lk n l.
Proof.
  intros Hk Ha Ht Hn. cbn zeta. unfold strip, fupd.
  destruct (kinv_count _ _ _ _ Hk Ha) as [Ea La]. destruct (ki_list _ _ _ Hk a Ha) as (Hnd & _ & Hl).
  destruct (decide (n = a)) as [->|Hne]; cbn.
  - split_and!; [done| |done]. rewrite lenZ_filter_other by done. rewrite Ea.
    assert (0 < lenZ (members k a)).
    { unfold lenZ. destruct (members k a); [by apply not_elem_of_nil in Ht|cbn; lia]. }
    unfold CONFIG_NUM_THREAD in La. unfold members in *. rewrite u64_small; lia.
  - split_and!; [done| |apply (ki_list _ _ _ Hk n Hn)].
    rewrite filter_other; [by apply kinv_count with sw lk|]. intros Hx. apply Hne.
    by apply (ki_apart _ _ _ Hk n a t).
Qed.

Lemma append_moved lk d t n (ls ls' : lname -> thread_list) :
  tcb_list (ls' n) = filter (fun x => x <> t) (tcb_list (ls n)) ->
  tl_count (ls' n) = lenZ (tcb_list (ls' n)) -> lock_ok lk n (ls' n) -> lenZ (tcb_list (ls' n)) < 2 ^ 32 ->
  moved lk t d n (ls n) (append d t ls' n).
Proof.
  intros E Hc Hl Hb. unfold moved, append, fupd. destruct (decide (n = d)) as [->|]; cbn.
  - rewrite decide_True by done. cbn. split_and!; [by rewrite E| |done].
    rewrite Hc, lenZ_app. change (lenZ [t]) with 1. apply u64_small. unfold lenZ in *. lia.
  - rewrite app_nil_r. done.
Qed.

Lemma lenZ_filter_le (t : Z) (l : list Z) : lenZ (filter (fun x => x <> t) l) <= lenZ l.
Proof. unfold lenZ. pose proof (length_filter (fun x => x <> t) l). lia. Qed.

Lemma transfer_moved sw lk k a d t n : kinv sw lk k -> valid a -> t ∈ members k a -> valid n ->
  moved lk t d n (lists k n) (append d t (strip a t (lists k)) n).
Proof.
  intros Hk Ha Ht Hn. destruct (strip_list sw lk k a t n Hk Ha Ht Hn) as (E & Hc & Hl).
  apply append_moved; [done..|]. rewrite E. pose proof (lenZ_filter_le t (members k n)).
  pose proof (proj2 (kinv_count _ _ _ _ Hk Hn)). unfold CONFIG_NUM_THREAD in *. lia.
Qed.

(** ** Intentions *)

Lemma has_bit i j : 0 <= j -> has i (Z.shiftl 1 j) = Z.testbit i j.
Proof. intros. unfold has. by rewrite land_bit_eq0, negb_involutive. Qed.

Lemma small_bits i : 0 <= i -> (forall j, 6 <= j -> Z.testbit i j = false) -> 0 <= i < 64.
Proof. intros Hi Hb. split; [done|]. by apply (bits_lt_pow2 i 6). Qed.

Lemma clear_range i bits : 0 <= i < 64 -> 0 <= Z.land i (Z.lnot bits) < 64.
Proof.
  intros Hi. apply small_bits; [apply Z.land_nonneg; lia|]. intros j Hj.
  rewrite Z.land_spec, (lt_pow2_bits i 6 j) by lia. done.
Qed.

Lemma add_range i bits : 0 <= i < 64 -> 0 <= bits < 64 -> 0 <= Z.lor bits i < 64.
Proof.
  intros Hi Hb. apply small_bits; [apply Z.lor_nonneg; lia|]. intros j Hj.
  rewrite Z.lor_spec, (lt_pow2_bits i 6 j), (lt_pow2_bits bits 6 j) by lia. done.
Qed.

Lemma has_clear_same i j bits : 0 <= j -> Z.testbit bits j = true ->
  has (Z.land i (Z.lnot bits)) (Z.shiftl 1 j) = false.
Proof.
  intros Hj Hb. rewrite has_bit, Z.land_spec, Z.lnot_spec, Hb, andb_false_r by lia. done.
Qed.

Lemma has_clear_other i j bits : 0 <= j -> Z.testbit bits j = false ->
  has (Z.land i (Z.lnot bits)) (Z.shiftl 1 j) = has i (Z.shiftl 1 j).
Proof.
  intros Hj Hb. rewrite !has_bit, Z.land_spec, Z.lnot_spec, Hb, andb_true_r by lia. done.
Qed.

Lemma has_add i j bits : 0 <= j ->
  has (Z.lor bits i) (Z.shiftl 1 j) = has bits (Z.shiftl 1 j) || has i (Z.shiftl 1 j).
Proof. intros Hj. by rewrite !has_bit, Z.lor_spec by lia. Qed.

Lemma has_clear_mono i bits bit : 0 <= bit -> has (Z.land i (Z.lnot bits)) (Z.shiftl 1 bit) = true ->
  has i (Z.shiftl 1 bit) = true.
Proof. intros Hb. rewrite !has_bit, Z.land_spec by lia. by intros [? _]%andb_true_iff. Qed.

Lemma wp_clear_intention t b bits Q k : tcbs k !! t = Some b -> 0 <= intention b < 64 ->
  Q tt (set_tcb t (b <| intention := Z.land (intention b) (Z.lnot bits) |>) k) ->
  wp (clear_intention t bits) Q k.
Proof.
  intros Hb Hi HQ. apply (wp_on_TCB _ b); [done|]. apply wp_zoom. unfold atomic_get, atomic_set.
  wp_steps. pose proof (clear_range _ bits Hi). by rewrite s32_small by lia.
Qed.

Lemma wp_add_intention t b i Q k : tcbs k !! t = Some b -> 0 <= intention b < 64 -> 0 <= i < 64 ->
  Q tt (set_tcb t (b <| intention := Z.lor i (intention b) |>) k) ->
  wp (add_intention t i) Q k.
Proof.
  intros Hb Hi Hj HQ. apply (wp_on_TCB _ b); [done|]. apply wp_zoom. unfold atomic_get, atomic_set.
  wp_steps. pose proof (add_range _ _ Hi Hj). by rewrite s32_small by lia.
Qed.

(** ** Changes of a control block *)

Section updates.
Context (sw : option Z) (lk : option lname) (k : kernel).
Hypothesis Hk : kinv sw lk k.

Lemma mem_ok_set_tcb t b b' : tcbs k !! t = Some b -> stack_base b' = stack_base b ->
  (state b' = NOTALLOC <-> state b = NOTALLOC) -> mem_ok (set_tcb t b' k).
Proof.
  intros Hb Hs Hst. eapply mem_ok_same; [exact Hk|done|done|]. intros x _. cbn.
  destruct (decide (x = t)) as [->|].
  - rewrite lookup_insert_eq. by exists b.
  - rewrite lookup_insert_ne by done. destruct (tcbs k !! x); naive_solver.
Qed.

Lemma kinv_set_tcb t b b' : tcbs k !! t = Some b -> stack_base b' = stack_base b ->
  (state b' = NOTALLOC <-> state b = NOTALLOC) ->
  (forall n, valid n -> t ∈ members k n -> fits k n t b -> fits k n t b') -> tcb_ok t b' ->
  (is_cpu t -> idle_ok k t b -> idle_ok k t b') -> kinv sw lk (set_tcb t b' k).
Proof.
  intros Hb Hs Hst Hf Hok Hi.
  eapply kinv_tweak; [exact Hk|done|reflexivity|reflexivity|exact Hb|exact Hf|exact Hok|exact Hi|].
  by eapply mem_ok_set_tcb.
Qed.

(** Fields no list depends on. *)
Lemma kinv_set_aux t b b' : tcbs k !! t = Some b ->
  (stack b', stack_base b', state b', refc b', running_core b', core_mask b') =
  (stack b, stack_base b, state b, refc b, running_core b, core_mask b) ->
  tcb_ok t b' -> kinv sw lk (set_tcb t b' k).
Proof.
  intros Hb [= E1 E2 E3 E4 E5 E6] Hok. eapply kinv_set_tcb;
    [exact Hb|done|by rewrite E3| |exact Hok|].
  - intros n _ _. unfold fits, allowed, core_is_allowed. by rewrite E1, E3, E4, E5, E6.
  - intros _. unfold idle_ok. by rewrite E3, E4, E5.
Qed.

(** A thread moves from list [a] to list [d]. *)
Lemma kinv_relocated t b b' d k' : relocated lk k k' t d b' -> tcbs k !! t = Some b ->
  stack_base b' = stack_base b -> state b <> NOTALLOC -> state b' <> NOTALLOC ->
  valid d -> MAX_PROCESSOR_COUNT <= t < NTHREAD -> fits k d t b' -> tcb_ok t b' ->
  (forall c, running_thread k c = Some t -> d = Runnable c \/ (sw = Some c /\ d = Blocked c)) ->
  kinv sw lk k'.
Proof.
  intros Hr Hb Hs Hst Hst' Hd Ht Hf Hok Hrun. pose proof (relocated_rest _ _ _ _ _ _ Hr) as Hrest.
  destruct Hr as [[ls ->] Hm]. eapply kinv_moved; [exact Hk|done|done|done|done|done|done|done|done|].
  eapply mem_ok_same; [exact Hk|done|done|]. intros x _. cbn. destruct (decide (x = t)) as [->|].
  - rewrite lookup_insert_eq. exists b. naive_solver.
  - rewrite lookup_insert_ne by done. destruct (tcbs k !! x); naive_solver.
Qed.
End updates.

(** ** Locks *)

(** Only locks differ. *)
Definition relisted (k k' : kernel) : Prop :=
  exists ls, k' = k <| lists := ls |> /\
    forall n, tcb_list (ls n) = tcb_list (lists k n) /\ tl_count (ls n) = tl_count (lists k n).

Lemma relisted_members k k' n : relisted k k' -> members k' n = members k n.
Proof. intros (ls & -> & H). apply (H n). Qed.

Lemma kinv_relisted sw lk lk' k k' : kinv sw lk k -> relisted k k' ->
  (forall n, valid n -> lock_ok lk' n (lists k' n)) -> kinv sw lk' k'.
Proof.
  intros Hk Hr Hlk. assert (forall n, members k' n = members k n) as Hm
    by (intros; by apply relisted_members).
  destruct Hr as (ls & -> & Hls). constructor; try apply Hk.
  - intros n Hn. destruct (Hls n) as [E E']. destruct (ki_list _ _ _ Hk n Hn) as (Hnd & Hc & _).
    unfold list_ok. cbn. rewrite E, E'. split_and!; [done|done|by apply Hlk].
  - intros n m t. rewrite !Hm. apply Hk.
  - intros t Ht. destruct (ki_home _ _ _ Hk t Ht) as (n & ?). exists n. by rewrite Hm.
  - intros n t. rewrite Hm. apply Hk.
  - intros c t. rewrite !Hm. apply Hk.
  - destruct (ki_mem _ _ _ Hk). by constructor.
Qed.

Lemma relisted_lock k n w h :
  relisted k (set_list n (lists k n <| tl_lock := w |> <| held_elsewhere := h |>) k).
Proof. eexists. split; [done|]. intros m. unfold fupd. by destruct (decide (m = n)) as [->|]. Qed.

Lemma relisted_word k n w : relisted k (set_list n (lists k n <| tl_lock := w |>) k).
Proof. eexists. split; [done|]. intros m. unfold fupd. by destruct (decide (m = n)) as [->|]. Qed.

Lemma wp_lock_list sw k n Q : kinv sw None k -> valid n ->
  (forall k', relisted k k' -> kinv sw (Some n) k' -> Q tt k') -> wp (lock_list n) Q k.
Proof.
  intros Hk Hn HQ. destruct (ki_list _ _ _ Hk n Hn) as (_ & _ & Hl). unfold lock_ok in Hl. rewrite decide_False in Hl by done.
  assert (forall k', relisted k k' -> lists k' n = lists k n <| tl_lock := TRUE |> <| held_elsewhere := false |> ->
    (forall m, m <> n -> lists k' m = lists k m) -> Q tt k') as Hdone.
  { intros k' Hr E Ho. apply HQ; [done|]. eapply kinv_relisted; [done|done|]. intros m Hm.
    unfold lock_ok. destruct (decide (m = n)) as [->|Hne].
    - rewrite decide_True by done. by rewrite E.
    - rewrite decide_False by congruence. rewrite Ho by done. by destruct (ki_list _ _ _ Hk m Hm) as (_ & _ & ?). }
  apply wp_bind, wp_gets. destruct (lists k n) as [w h c l] eqn:E. cbn in Hl |- *.
  destruct h; subst w.
  - apply wp_upd_list. rewrite E. apply Hdone.
    + pose proof (relisted_lock k n TRUE false) as H. by rewrite E in H.
    + by cbn; rewrite fupd_eq.
    + intros m Hm. cbn. by rewrite fupd_ne.
  - apply wp_upd_list. rewrite E. apply Hdone.
    + pose proof (relisted_word k n TRUE) as H. by rewrite E in H.
    + by cbn; rewrite fupd_eq.
    + intros m Hm. cbn. by rewrite fupd_ne.
Qed.

Lemma wp_unlock_list sw k n Q : kinv sw (Some n) k ->
  (forall k', relisted k k' -> kinv sw None k' -> Q tt k') -> valid n -> wp (unlock_list n) Q k.
Proof.
  intros Hk HQ Hn. apply wp_upd_list. apply HQ; [apply relisted_word|].
  eapply kinv_relisted; [done|apply relisted_word|]. intros m Hm. unfold lock_ok. cbn. unfold fupd.
  destruct (ki_list _ _ _ Hk m Hm) as (_ & _ & Hl). unfold lock_ok in Hl.
  destruct (decide (m = n)) as [->|].
  - rewrite decide_True in Hl by done. destruct Hl as [_ Hh]. cbn. by rewrite Hh.
  - by rewrite decide_False in Hl by congruence.
Qed.

Lemma wp_trylock_list sw k n Q : kinv sw None k -> valid n ->
  (forall k', relisted k k' -> kinv sw (Some n) k' -> Q TRUE k') ->
  (forall k', relisted k k' -> kinv sw None k' -> Q FALSE k') ->
  wp (trylock_list n) Q k.
Proof.
  intros Hk Hn HT HF. destruct (ki_list _ _ _ Hk n Hn) as (_ & _ & Hl). unfold lock_ok in Hl. rewrite decide_False in Hl by done.
  apply wp_bind, wp_gets. unfold spinlock_trylock, cmpxchg.
  assert (forall lk' k', relisted k k' -> lock_ok lk' n (lists k' n) -> (lk' = None \/ lk' = Some n) ->
    (forall m, m <> n -> lists k' m = lists k m) -> kinv sw lk' k') as Hdone.
  { intros lk' k' Hr Hl' Hlk Ho. eapply kinv_relisted; [done|done|]. intros m Hm.
    destruct (decide (m = n)) as [->|Hne]; [done|]. rewrite Ho by done.
    destruct (ki_list _ _ _ Hk m Hm) as (_ & _ & Hx). unfold lock_ok in *.
    rewrite decide_False in Hx by done. destruct Hlk as [-> | ->]; [done|].
    by rewrite decide_False by congruence. }
  rewrite Hl. destruct (held_elsewhere (lists k n)) eqn:Eh;
    cbv beta iota zeta delta [Z.eqb TRUE FALSE negb]; apply wp_bind, wp_upd_list, wp_ret.
  - apply HF; [apply relisted_word|]. apply Hdone; [apply relisted_word| |by left|].
    + unfold lock_ok. cbn. rewrite fupd_eq. cbn. by rewrite Eh.
    + intros m Hm. cbn. by rewrite fupd_ne.
  - apply HT; [apply relisted_word|]. apply Hdone; [apply relisted_word| |by right|].
    + unfold lock_ok. rewrite decide_True by done. cbn. rewrite fupd_eq. cbn. by rewrite Eh.
    + intros m Hm. cbn. by rewrite fupd_ne.
Qed.

(** ** States that agree on the tables *)

Lemma kinv_same sw lk k k' : kinv sw lk k -> tcbs k' = tcbs k -> lists k' = lists k -> mem k' = mem k ->
  rest_same k k' -> kinv sw lk k'.
Proof.
  intros Hk Et El Em [Er Eti Es Eb].
  assert (forall o a, owns k' o a <-> owns k o a) as Ho.
  { intros o a. unfold owns. by rewrite Et, Es, Eb. }
  assert (forall n t b, fits k' n t b <-> fits k n t b) as Hf.
  { intros n t b. unfold fits, tcb_temp. by rewrite Eb. }
  destruct Hk as [? ? ? ? Hmem ? Hidle ? ? ? [? Hl Hu]].
  constructor; unfold members in *; rewrite ?Et, ?El, ?Er, ?Eti, ?Es; try done.
  - intros n t Hn Ht. destruct (Hmem n t Hn Ht) as (? & b & ? & ?). split; [done|]. exists b.
    by rewrite Hf.
  - intros c b Hc Hb. unfold idle_ok. rewrite Er. by apply Hidle.
  - split; rewrite ?Em; [done| |].
    + intros o a Hoa%Ho. by apply (Hl o).
    + intros o o' a Hoa%Ho Hoa'%Ho. by apply (Hu o o' a).
Qed.
