(* ===== verification/ThreadOps.v ===== *)
(** * The thread operations keep the tables in order

    Specifications of the functions that move threads between lists, create them
    and release them, on top of the table changes of [ThreadInv]. *)

From S2P Require Import Prelude.
From S2P Require Import Utility.
From S2P Require Import Lock.
From S2P Require Import Stat.
From S2P Require Import Memory.
From S2P Require Import PageAlloc.
From S2P Require Import Allocator.
From S2P Require Import Atomic.
From S2P Require Import LocalApic.
From S2P Require Import ShellStorage.
From S2P Require Import Thread.
From S2P Require Import Sched.
From S2P Require Import ThreadInv.

(** ** Between run queue, blocked list and migrating list *)

(** The control block with a new state, and without some intentions. *)
Definition restate (s : thread_state) (bits : Z) (b : TCB) : TCB :=
  b <| state := s |> <| intention := Z.land (intention b) (Z.lnot bits) |>.

Lemma tcb_ok_clear t b bits : tcb_ok t b ->
  tcb_ok t (b <| intention := Z.land (intention b) (Z.lnot bits) |>).
Proof.
  intros (? & ? & Hi & ? & ? & Hidle). split_and!; cbn; try done; try by apply clear_range.
  intros Ht. destruct (Hidle Ht) as [Hb He].
  split; apply not_true_iff_false; intros Hx;
    (apply has_clear_mono in Hx; [|done]); 
    (eapply eq_true_false_abs; [exact Hx|first [exact Hb|exact He]]).
Qed.

Lemma tcb_ok_restate t b s bits : tcb_ok t b -> tcb_ok t (restate s bits b).
Proof. exact (tcb_ok_clear t b bits). Qed.

Section transfers.
Context (sw : option Z) (lk : option lname) (k : kernel).
Hypothesis Hk : kinv sw lk k.

Lemma member_tcb n t : valid n -> t ∈ members k n ->
  MAX_PROCESSOR_COUNT <= t < NTHREAD /\ exists b, tcbs k !! t = Some b /\ fits k n t b /\ tcb_ok t b.
Proof.
  intros Hn Ht. destruct (ki_member _ _ _ Hk n t Hn Ht) as (_ & b & Hb & Hf).
  split; [by eapply kinv_lt|]. exists b. split_and!; [done|done|]. by apply (ki_tcb _ _ _ Hk).
Qed.

(** The four steps of a transfer. *)
Lemma wp_transfer a d t b s bits Q : valid a -> valid d -> a <> d -> t ∈ members k a ->
  tcbs k !! t = Some b -> tcb_ok t b -> state b <> NOTALLOC -> s <> NOTALLOC ->
  fits k d t (restate s bits b) ->
  (forall c, running_thread k c = Some t -> d = Runnable c \/ (sw = Some c /\ d = Blocked c)) ->
  (forall k', relocated lk k k' t d (restate s bits b) -> kinv sw lk k' -> Q tt k') ->
  wp (take_off a t ;; set_state t s ;; clear_intention t bits ;; put_on d t) Q k.
Proof.
  intros Ha Hd Hne Ht Hb Hok Hs Hs' Hfit Hrun HQ.
  apply wp_bind, wp_take_off. apply wp_bind, (wp_upd_TCB _ b); [done|].
  apply wp_bind. eapply wp_clear_intention; [apply lookup_set_tcb|apply Hok|]. apply wp_put_on.
  rewrite set_tcb_tcb. eassert (relocated lk k _ t d (restate s bits b)) as Hr.
  2: { apply HQ; [exact Hr|]. eapply kinv_relocated; [exact Hk|exact Hr|exact Hb|done..| |exact Hfit| |exact Hrun].
       - exact (kinv_lt _ _ _ _ _ Hk Ha Ht).
       - by apply tcb_ok_restate. }
  split; [by eexists|]. intros n Hn. cbn. by eapply transfer_moved.
Qed.

Lemma not_running a cpu t : is_cpu cpu -> (a = Runnable cpu /\ running_thread k cpu <> Some t \/
    a = Blocked cpu /\ sw = None) ->
  t ∈ members k a -> forall c, running_thread k c <> Some t.
Proof.
  intros Hcpu Ha Ht c Hc. destruct (ki_running _ _ _ Hk c t Hc) as [Hic Hor].
  assert (valid a) as Hva by naive_solver.
  destruct Hor as [->|[Hr|[Hsw Hb]]].
  - pose proof (kinv_lt _ _ _ _ _ Hk Hva Ht). unfold is_cpu in Hic. lia.
  - pose proof (ki_apart _ _ _ Hk a (Runnable c) t Hva Hic Ht Hr). naive_solver.
  - pose proof (ki_apart _ _ _ Hk a (Blocked c) t Hva Hic Ht Hb). naive_solver.
Qed.

(** Only the core itself runs a thread of its run queue. *)
Lemma runs_here cpu t c : is_cpu cpu -> t ∈ members k (Runnable cpu) ->
  running_thread k c = Some t -> c = cpu.
Proof.
  intros Hcpu Ht Hc. destruct (decide (c = cpu)) as [|Hne]; [done|].
  destruct (ki_running _ _ _ Hk c t Hc) as [Hic [->|[Hr|[_ Hb]]]].
  - pose proof (kinv_lt _ _ _ _ _ Hk (Hcpu : valid (Runnable cpu)) Ht). unfold is_cpu in Hic. lia.
  - pose proof (ki_apart _ _ _ Hk (Runnable cpu) (Runnable c) t Hcpu Hic Ht Hr). congruence.
  - by pose proof (ki_apart _ _ _ Hk (Runnable cpu) (Blocked c) t Hcpu Hic Ht Hb).
Qed.

Lemma wp_block_thread cpu t b Q : is_cpu cpu -> t ∈ members k (Runnable cpu) -> tcbs k !! t = Some b ->
  (running_thread k cpu = Some t -> sw = Some cpu) ->
  (forall k', relocated lk k k' t (Blocked cpu) (restate BLOCKED THREAD_INTENTION_BLOCKED b) ->
     kinv sw lk k' -> Q tt k') ->
  wp (block_thread cpu t) Q k.
Proof.
  intros Hcpu Ht Hb Hcur HQ. destruct (member_tcb (Runnable cpu) t Hcpu Ht) as (_ & ? & Hb' & Hf & Hok).
  rewrite Hb in Hb'. injection Hb' as <-. destruct Hf as (Hs & Hrc & Hco & Hal).
  eapply wp_transfer; [done|done|done|done|exact Hb|done|by destruct Hs as [-> | ->]|done|by split; [left|]| |done].
  intros c Hc. pose proof (runs_here _ _ _ Hcpu Ht Hc) as ->. right. by split; [apply Hcur|].
Qed.

Lemma wp_wake_thread cpu t b Q : is_cpu cpu -> t ∈ members k (Blocked cpu) -> tcbs k !! t = Some b ->
  sw = None ->
  (forall k', relocated lk k k' t (Runnable cpu)
       (restate READY (Z.lor THREAD_INTENTION_READY THREAD_INTENTION_BLOCKED) b) ->
     kinv sw lk k' -> Q tt k') ->
  wp (wake_thread cpu t) Q k.
Proof.
  intros Hcpu Ht Hb Hsw HQ. destruct (member_tcb (Blocked cpu) t Hcpu Ht) as (_ & ? & Hb' & Hf & Hok).
  rewrite Hb in Hb'. injection Hb' as <-. destruct Hf as (Hs & Hrc & Hco & Hal).
  eapply wp_transfer; [done|done|done|done|exact Hb|done|by destruct Hs as [-> | ->]|done|by split; [left|]| |done].
  intros c Hc. exfalso. eapply (not_running (Blocked cpu)); [exact Hcpu|by right|exact Ht|exact Hc].
Qed.
End transfers.

(** ** Adoption *)

Lemma adopt_lists t (ls : lname -> thread_list) d n :
  let ls1 := fun n => ls n <| tcb_list := filter (fun x => x <> t) (tcb_list (ls n)) |> in
  let ls2 := fupd ls1 Migrating (ls1 Migrating <| tl_count := u64 (tl_count (ls1 Migrating) - 1) |>) in
  append d t ls2 n = append d t (strip Migrating t ls) n.
Proof.
  cbn zeta. unfold append, strip, fupd. cbn.
  repeat case_decide; subst; try done; cbn; repeat case_decide; done.
Qed.

Lemma wp_adopt sw lk k cpu t b Q : kinv sw lk k -> is_cpu cpu -> t ∈ members k Migrating ->
  tcbs k !! t = Some b -> allowed b cpu ->
  (forall k', relocated lk k k' t (Runnable cpu) (b <| running_core := cpu |>) -> kinv sw lk k' -> Q tt k') ->
  wp (adopt cpu cpu t) Q k.
Proof.
  intros Hk Hcpu Ht Hb Hal HQ. destruct (member_tcb _ _ _ Hk Migrating t I Ht) as (Hr & ? & Hb' & Hf & Hok).
  rewrite Hb in Hb'. injection Hb' as <-. destruct Hf as (Hs & Hrc & _).
  unfold adopt, unlink, dec_count. apply wp_bind, wp_modify, wp_bind, wp_upd_list, wp_bind, wp_put_on.
  apply (wp_upd_TCB _ b); [done|].
  assert (u16 cpu = cpu) as -> by (unfold is_cpu, MAX_PROCESSOR_COUNT in Hcpu; apply u16_small; lia).
  eassert (relocated lk k _ t (Runnable cpu) (b <| running_core := cpu |>)) as Hrel.
  2: { apply HQ; [exact Hrel|]. eapply kinv_relocated; [exact Hk|exact Hrel|exact Hb|done|by cbn; rewrite Hs|by cbn; rewrite Hs|exact Hcpu|exact Hr| |exact Hok|].
       - split_and!; [by left|done|done|exact Hal].
       - intros c Hc. destruct (ki_running _ _ _ Hk c t Hc) as [Hic [->|[Hx|[_ Hx]]]].
         + unfold is_cpu in Hic. lia.
         + by pose proof (ki_apart _ _ _ Hk Migrating (Runnable c) t I Hic Ht Hx).
         + by pose proof (ki_apart _ _ _ Hk Migrating (Blocked c) t I Hic Ht Hx). }
  split; [by eexists|]. intros n Hn.
  refine (eq_ind_r (moved lk t (Runnable cpu) n (lists k n)) _ (adopt_lists t (lists k) (Runnable cpu) n)).
  by eapply transfer_moved.
Qed.

(** ** Releasing a stack *)

Definition live_or_null (m : kmem) (a : Z) : Prop := a = 0 \/ exists bytes, kernel_block m a bytes.

(** The block at [a] is gone, the others are there. *)
Definition freed (m m' : kmem) (a : Z) : Prop :=
  kmem_inv m' /\ forall x n, kernel_block m' x n <-> kernel_block m x n /\ x <> a.

Lemma wp_release m a Q : kmem_inv m -> live_or_null m a -> (forall r m', freed m m' a -> Q r m') ->
  wp (az_free a) Q m.
Proof.
  intros Hm Ha HQ. destruct (decide (a = 0)) as [->|Hne].
  - unfold az_free. apply wp_bind, wp_mm_lock; [apply (proj1 Hm)|]. cbn [Z.eqb].
    apply wp_bind, wp_mm_unlock, wp_ret. apply HQ.
    refine (eq_ind_r (fun m' => freed m m' 0) _ (relock m (pi_spl _ (proj1 Hm)))).
    split; [done|]. intros x n. split; [|tauto].
    intros Hx. split; [done|]. pose proof (pa_block_pos (PageAllocator := kernel_allocator) m x n Hm Hx). lia.
  - destruct Ha as [|[n Hb]]; [done|].
    eapply wp_mono; [by apply (pa_free_spec (PageAllocator := kernel_allocator) m a n)|].
    intros r m' (_ & Hi & Hbl). by apply HQ.
Qed.

Definition retired (k : kernel) (t : Z) (b : TCB) : TCB :=
  let top := u64 (tcb_temp k t + CONFIG_TCB_SIZE) in
  b <| stack := top |> <| stack_base := top |> <| state := NOTALLOC |>
    <| running_core := u16 (-1) |> <| gen := u32 (gen b + 1) |>.

Lemma wp_retire k t b Q : tcbs k !! t = Some b -> kmem_inv (mem k) -> live_or_null (mem k) (stack_of b) ->
  (forall m', freed (mem k) m' (stack_of b) -> Q tt (set_tcb t (retired k t b) (k <| mem := m' |>))) ->
  wp (retire t) Q k.
Proof.
  intros Hb Hm Hl HQ. unfold retire, init_tcb. apply wp_bind, wp_bind, wp_get. cbn -[wp].
  apply wp_bind, (wp_get_TCB _ b); [done|]. apply wp_bind, wp_zoom.
  apply wp_release; [done|done|]. intros r m' Hf. eapply wp_upd_TCB; [exact Hb|].
  eapply wp_upd_TCB; [apply lookup_set_tcb|]. rewrite set_tcb_tcb. by apply HQ.
Qed.

(** ** Releasing a thread *)

Definition is_free (n : lname) : Prop :=
  match n with
  | Local _ | Global => True
  | _ => False
  end.

(** Thread [t] is on a free list, with a new generation number; its stack is back
    with the allocator; nothing else has changed. *)
Record reaped (k k' : kernel) (t : Z) : Prop := {
  rp_tcb : exists b b', tcbs k !! t = Some b /\ tcbs k' = <[t := b']> (tcbs k) /\
    state b' = NOTALLOC /\ gen b' = u32 (gen b + 1) /\ freed (mem k) (mem k') (stack_of b);
  rp_members : forall n, valid n -> ~ is_free n ->
    members k' n = filter (fun x => x <> t) (members k n);
  rp_rest : rest_same k k';
  rp_suspended : suspended k' = suspended k
}.

Lemma owns_pos sw lk k o a : kinv sw lk k -> owns k o a -> 0 < a.
Proof.
  intros Hk Ho. destruct (mo_live _ (ki_mem _ _ _ Hk) _ _ Ho) as [n Hb].
  by destruct (pa_block_pos (PageAllocator := kernel_allocator) _ _ _ (mo_inv _ (ki_mem _ _ _ Hk)) Hb).
Qed.

Lemma stack_live sw lk k t b : kinv sw lk k -> tcbs k !! t = Some b -> MAX_PROCESSOR_COUNT <= t ->
  state b <> NOTALLOC -> live_or_null (mem k) (stack_of b).
Proof.
  intros Hk Hb Ht Hs. destruct (decide (stack_of b = 0)) as [|Hne]; [by left|right].
  apply (mo_live _ (ki_mem _ _ _ Hk) (StackOf t)). cbn. split; [done|]. by exists b.
Qed.

Lemma mem_ok_freed sw lk k k' t b b' : kinv sw lk k -> rest_same k k' -> MAX_PROCESSOR_COUNT <= t ->
  tcbs k !! t = Some b -> tcbs k' = <[t := b']> (tcbs k) -> state b <> NOTALLOC -> state b' = NOTALLOC ->
  freed (mem k) (mem k') (stack_of b) -> mem_ok k'.
Proof.
  intros Hk Hrest Ht Hb Htcbs Hs Hs' [Hm Hbl].
  assert (forall o a, owns k' o a -> owns k o a /\ o <> StackOf t) as Hown.
  { intros o a. destruct o as [|x|c]; cbn.
    - rewrite (rs_base _ _ Hrest). done.
    - rewrite Htcbs. intros (? & c & [[-> ->]|[Hne Hc]]%lookup_insert_Some & Hst & ? & ?); [done|].
      split; [|congruence]. split; [done|]. by exists c.
    - by rewrite (rs_sigs _ _ Hrest). }
  destruct (ki_mem _ _ _ Hk) as [_ Hl Hu]. split; [done| |].
  - intros o a [Ho Hne]%Hown. destruct (Hl _ _ Ho) as [n Hn]. exists n. apply Hbl. split; [done|].
    intros ->. apply Hne. apply (Hu _ _ (stack_of b)); [done|]. cbn. split; [done|]. exists b.
    split_and!; [done|done|done|]. pose proof (owns_pos _ _ _ _ _ Hk Ho). lia.
  - intros o o' a [Ho _]%Hown [Ho' _]%Hown. eauto.
Qed.

(** The free list of core [c] is appended to the global one. *)
Definition spill (c : Z) (ls : lname -> thread_list) : lname -> thread_list :=
  fupd (fupd ls Global (mkTL FALSE false (u64 (tl_count (ls Global) + tl_count (ls (Local c))))
                         (tcb_list (ls Global) ++ tcb_list (ls (Local c)))))
       (Local c) (ls (Local c) <| tcb_list := [] |> <| tl_count := 0 |>).

Lemma kinv_spill sw k c : kinv sw None k -> is_cpu c -> kinv sw None (k <| lists := spill c (lists k) |>).
Proof.
  intros Hk Hc. set (k' := k <| lists := spill c (lists k) |>).
  assert (forall n, members k' n = if decide (n = Local c) then []
    else if decide (n = Global) then members k Global ++ members k (Local c) else members k n) as Hm.
  { intros n. unfold members. cbn. unfold spill, fupd. by repeat case_decide. }
  destruct (kinv_count _ _ _ _ Hk (I : valid Global)) as [Eg Lg].
  destruct (kinv_count _ _ _ _ Hk (Hc : valid (Local c))) as [El Ll].
  constructor; try apply Hk.
  - intros n Hn. unfold list_ok. fold (members k' n). rewrite Hm. unfold lock_ok, fupd. cbn.
    destruct (ki_list _ _ _ Hk n Hn) as (Hnd & Hcn & Hln). unfold spill, fupd.
    rewrite (decide_False (P := None = Some n)) by done.
    destruct (decide (n = Local c)) as [->|]; [|destruct (decide (n = Global)) as [->|]]; cbn.
    + split_and!; [constructor|done|exact Hln].
    + destruct (ki_list _ _ _ Hk (Local c) Hc) as (Hnl & _ & _). split_and!; [|unfold members|done].
      * apply NoDup_app. split_and!; [done| |done]. intros x Hx Hx'.
        by pose proof (ki_apart _ _ _ Hk Global (Local c) x I Hc Hx Hx').
      * rewrite Eg, El, lenZ_app. apply u64_small. unfold members, CONFIG_NUM_THREAD in *. lia.
    + split_and!; done.
  - intros n m x Hn Hm'. rewrite !Hm.
    pose proof (ki_apart _ _ _ Hk n m x Hn Hm').
    pose proof (ki_apart _ _ _ Hk (Local c) m x Hc Hm').
    pose proof (ki_apart _ _ _ Hk n (Local c) x Hn Hc).
    repeat case_decide; subst; set_solver.
  - intros x Hx. destruct (ki_home _ _ _ Hk x Hx) as (n & Hn & Hin).
    exists (if decide (n = Local c) then Global else n). rewrite Hm. repeat case_decide; subst; set_solver.
  - intros n x Hn. rewrite Hm. repeat case_decide; subst; [set_solver| |apply (ki_member _ _ _ Hk n x Hn)].
    intros [Hx|Hx]%elem_of_app; [by apply (ki_member _ _ _ Hk Global)|].
    by apply (ki_member _ _ _ Hk (Local c)).
  - destruct (ki_mem _ _ _ Hk). by constructor.
Qed.

(** The common end of the cases of [destroy_tcb]: [k1] is [k] up to a spill. *)
Lemma destroyed_ok sw k k1 k' t b b' d : kinv sw None k -> kinv sw None k1 ->
  (k1 = k \/ exists c, k1 = k <| lists := spill c (lists k) |>) ->
  tcbs k !! t = Some b -> state b <> NOTALLOC -> MAX_PROCESSOR_COUNT <= t < NTHREAD ->
  (forall c, running_thread k c <> Some t) -> valid d -> is_free d ->
  rest_same k k' -> suspended k' = suspended k -> tcbs k' = <[t := b']> (tcbs k) ->
  tcb_ok t b' -> fits k d t b' -> gen b' = u32 (gen b + 1) -> freed (mem k) (mem k') (stack_of b) ->
  (forall n, valid n -> moved None t d n (lists k1 n) (lists k' n)) ->
  reaped k k' t /\ kinv sw None k'.
Proof.
  intros Hk Hk1 Hor Hb Hs Ht Hrun Hd Hfd Hrest Hsus Htcbs Hok Hfit Hgen Hfr Hmv.
  assert (state b' = NOTALLOC) as Hs' by (destruct d; try done; apply Hfit).
  assert (mem_ok k') as Hmem by (apply (mem_ok_freed sw None k k' t b b'); try done; lia).
  split.
  - split; [by exists b, b'| |done|done]. intros n Hn Hnf. destruct (Hmv n Hn) as (E & _).
    unfold members. rewrite E, decide_False, app_nil_r by (intros ->; done). f_equal.
    destruct Hor as [->|[c ->]]; [done|]. cbn. unfold spill, fupd.
    rewrite !decide_False by (intros ->; done). done.
  - eapply kinv_moved; [exact Hk1| |destruct Hor as [->|[c ->]]; done|exact Hmv|done|done| |done| |done].
    + destruct Hor as [->|[c ->]]; [done|]. by destruct Hrest.
    + destruct Hor as [->|[c ->]]; [done|]. by apply (fits_rest k).
    + intros c Hc. exfalso. apply (Hrun c). destruct Hor as [->|[? ->]]; exact Hc.
Qed.

Section destroy.
Context (sw : option Z) (k : kernel) (a : lname) (cpu t : Z) (b b1 : TCB).
Hypothesis Hk : kinv sw None k.
Hypothesis Ha : valid a.
Hypothesis Hfa : ~ is_free a.
Hypothesis Hcpu : is_cpu cpu.
Hypothesis Ht : t ∈ members k a.
Hypothesis Hb : tcbs k !! t = Some b.
Hypothesis Hrun : forall c, running_thread k c <> Some t.
(** Its control block once it is off its list. *)
Hypothesis Hst : stack_base b1 = stack_base b.
Hypothesis Hgen : gen b1 = gen b.
Hypothesis Hrefc : refc b1 = 0.
Hypothesis Hok : tcb_ok t b1.

Let k1 : kernel := k <| tcbs := <[t := b1]> (tcbs k) |> <| lists := strip a t (lists k) |>.

Lemma live_state : state b <> NOTALLOC.
Proof.
  destruct (member_tcb _ _ _ Hk a t Ha Ht) as (_ & ? & Hb' & Hf & _).
  rewrite Hb in Hb'. injection Hb' as <-. destruct a; try done; by destruct Hf as [[-> | ->] _] || by destruct Hf as [-> _].
Qed.

Lemma strip_free n : is_free n -> valid n -> strip a t (lists k) n = lists k n.
Proof.
  intros Hfn Hn. unfold strip. rewrite fupd_ne by (intros ->; done).
  rewrite filter_other; [by destruct (lists k n)|].
  intros Hx. by pose proof (ki_apart _ _ _ Hk n a t Hn Ha Hx Ht) as ->.
Qed.

Lemma retire_pre (ls : lname -> thread_list) : let k2 := k1 <| lists := ls |> in
  tcbs k2 !! t = Some b1 /\ kmem_inv (mem k2) /\ live_or_null (mem k2) (stack_of b1).
Proof.
  split_and!; [apply lookup_insert_eq|apply (ki_mem _ _ _ Hk)|]. unfold stack_of. rewrite Hst.
  eapply (stack_live _ _ _ _ b Hk Hb); [by apply (kinv_lt _ _ _ _ _ Hk Ha Ht)|apply live_state].
Qed.

(** The counters are updated last. *)
Lemma wp_destroy_end k0 k' d Q : kinv sw None k0 ->
  (k0 = k \/ exists c, k0 = k <| lists := spill c (lists k) |>) -> valid d -> is_free d ->
  rest_same k k' -> suspended k' = suspended k -> tcbs k' = <[t := retired k t b1]> (tcbs k) ->
  freed (mem k) (mem k') (stack_of b1) ->
  (forall n, valid n -> moved None t d n (lists k0 n) (lists k' n)) ->
  (forall k', reaped k k' t -> kinv sw None k' -> Q tt k') ->
  wp (zoom g_exit_thread_cnt atomic_inc ;; zoom g_thread_cnt atomic_dec ;; zoom tdcnt atomic_inc) Q k'.
Proof.
  intros Hk0 Hor Hd Hfd Hrest Hsus Htcbs Hfr Hmv HQ.
  apply wp_bind, wp_zoom, wp_modify, wp_bind, wp_zoom, wp_modify, wp_zoom, wp_modify.
  edestruct (destroyed_ok sw k k0) as [Hr Hk']; [exact Hk|exact Hk0|exact Hor|exact Hb|apply live_state|
    by apply (kinv_lt _ _ _ _ _ Hk Ha Ht)|exact Hrun|exact Hd|exact Hfd|..|apply HQ; [exact Hr|exact Hk']].
  - by destruct Hrest.
  - done.
  - exact Htcbs.
  - exact Hok.
  - by destruct d.
  - cbn. by rewrite Hgen.
  - unfold stack_of in *. by rewrite Hst in Hfr.
  - exact Hmv.
Qed.

Let counters : M kernel unit :=
  zoom g_exit_thread_cnt atomic_inc ;; zoom g_thread_cnt atomic_dec ;; zoom tdcnt atomic_inc.

Lemma append_ext d (ls ls' : lname -> thread_list) n : (forall m, ls m = ls' m) ->
  append d t ls n = append d t ls' n.
Proof. intros E. unfold append, fupd. by repeat case_decide; rewrite ?E. Qed.

Lemma append_strip_moved d n : valid n ->
  moved None t d n (lists k n) (append d t (strip a t (lists k)) n).
Proof. intros. by eapply transfer_moved. Qed.

(** The three cases. *)
Lemma wp_destroy_local ls Q : (forall n, ls n = strip a t (lists k) n) ->
  (forall k', reaped k k' t -> kinv sw None k' -> Q tt k') ->
  wp (retire t ;; add_tail (Local cpu) t ;; inc_count (Local cpu)) (fun _ => wp counters Q)
     (k1 <| lists := ls |>).
Proof.
  intros Els HQ. destruct (retire_pre ls) as (H1 & H2 & H3).
  apply wp_bind. eapply wp_retire; [exact H1|exact H2|exact H3|]. intros m' Hfr.
  apply wp_bind, wp_upd_list, wp_upd_list.
  apply (wp_destroy_end k _ (Local cpu)); [done|by left|done|done|done|done| |done| |exact HQ].
  - cbn. by rewrite insert_insert_eq.
  - intros n Hn. refine (eq_ind_r (moved _ _ _ _ _) _ (append_ext (Local cpu) _ _ n Els)).
    by apply append_strip_moved.
Qed.

Lemma wp_destroy_global ls Q : held_elsewhere (lists k Global) = false ->
  ls = fupd (strip a t (lists k)) Global (strip a t (lists k) Global <| tl_lock := TRUE |>) ->
  (forall k', reaped k k' t -> kinv sw None k' -> Q tt k') ->
  wp (add_tail Global t ;; inc_count Global ;; retire t ;; unlock_list Global) (fun _ => wp counters Q)
     (k1 <| lists := ls |>).
Proof.
  intros Hh -> HQ. apply wp_bind, wp_upd_list, wp_bind, wp_upd_list, wp_bind.
  match goal with |- wp _ _ ?s => destruct (retire_pre (lists s)) as (H1 & H2 & H3) end.
  eapply wp_retire; [exact H1|exact H2|exact H3|]. intros m' Hfr. apply wp_upd_list.
  apply (wp_destroy_end k _ Global); [done|by left|done|done|done|done| |done| |exact HQ].
  - cbn. by rewrite insert_insert_eq.
  - intros n Hn. pose proof (append_strip_moved Global n Hn) as Hm.
    destruct (ki_list _ _ _ Hk n Hn) as (_ & _ & Hl).
    cbn -[strip]. unfold append, fupd in *. destruct (decide (n = Global)) as [->|]; [|exact Hm].
    rewrite !decide_True by done. rewrite !decide_True in Hm by done. unfold moved in *. cbn -[strip] in *.
    rewrite !strip_free in * by done. split_and!; [apply Hm|apply Hm|]. unfold lock_ok. cbn. by rewrite Hh.
Qed.

Lemma wp_destroy_spill ls Q : (forall n, ls n = strip a t (lists k) n) ->
  held_elsewhere (lists k Global) = true ->
  (forall k', reaped k k' t -> kinv sw None k' -> Q tt k') ->
  wp (lock_list Global ;;
      upd_list Global (fun g => g <| tcb_list := tcb_list g ++ members k (Local cpu) |>
                                  <| tl_count := u64 (tl_count g + tl_count (lists k (Local cpu))) |>) ;;
      unlock_list Global ;;
      retire t ;;
      upd_list (Local cpu) (fun l => l <| tcb_list := [] |>) ;;
      add_tail (Local cpu) t ;;
      upd_list (Local cpu) (fun l => l <| tl_count := 1 |>)) (fun _ => wp counters Q)
     (k1 <| lists := ls |>).
Proof.
  intros Els Hh HQ. apply wp_bind, wp_bind, wp_gets.
  assert (ls Global = lists k Global) as Eg by (rewrite Els; by apply strip_free).
  cbn [lists set_field k1]. rewrite Eg, Hh. apply wp_upd_list, wp_bind, wp_upd_list, wp_bind, wp_upd_list, wp_bind.
  match goal with |- wp _ _ ?s => destruct (retire_pre (lists s)) as (H1 & H2 & H3) end.
  eapply wp_retire; [exact H1|exact H2|exact H3|]. intros m' Hfr.
  apply wp_bind, wp_upd_list, wp_bind, wp_upd_list, wp_upd_list.
  pose proof (kinv_spill sw k cpu Hk Hcpu) as Hks.
  apply (wp_destroy_end _ _ (Local cpu) _ Hks); [right; by exists cpu|done|done|done|done| |done| |exact HQ].
  - cbn. by rewrite insert_insert_eq.
  - intros n Hn. destruct (ki_list _ _ _ Hks n Hn) as (_ & Hc & Hlk).
    assert (t ∉ tcb_list (spill cpu (lists k) n) \/ (n <> Local cpu /\ n <> Global)) as Hnot.
    { destruct (decide (n = Local cpu)) as [->|]; [|destruct (decide (n = Global)) as [->|]; [|by right]]; left.
      - unfold spill. rewrite fupd_eq. cbn. apply not_elem_of_nil.
      - intros Hx. destruct (member_tcb _ _ _ Hks Global t I Hx) as (_ & b' & Hb' & [Hs _] & _).
        cbn in Hb'. rewrite Hb in Hb'. injection Hb' as Eb. apply live_state. by rewrite Eb. }
    cbn -[strip]. unfold moved.
    destruct (decide (n = Local cpu)) as [->|Hnl]; [|destruct (decide (n = Global)) as [->|Hng]].
    + rewrite filter_other by tauto. unfold spill. rewrite !fupd_eq. cbn -[strip].
      rewrite fupd_ne, fupd_ne, fupd_ne, Els, strip_free by done. unfold spill in Hlk.
      cbn in Hlk. rewrite fupd_eq in Hlk. done.
    + rewrite filter_other, app_nil_r by tauto. rewrite !(fupd_ne _ (Local cpu)), fupd_eq by done.
      cbn -[strip]. rewrite !fupd_eq. cbn. unfold spill. rewrite fupd_ne, fupd_eq by done. cbn.
      unfold spill in Hc. cbn in Hc. rewrite fupd_ne, fupd_eq in Hc by done. by rewrite Eg.
    + rewrite !(fupd_ne _ (Local cpu)), !(fupd_ne _ Global), Els, app_nil_r by done. unfold spill.
      rewrite !fupd_ne by done. apply (strip_list sw None k a t n Hk Ha Ht Hn).
Qed.

Lemma wp_destroy Q : (forall k', reaped k k' t -> kinv sw None k' -> Q tt k') ->
  wp (destroy_tcb cpu t) Q k1.
Proof.
  intros HQ. unfold destroy_tcb. apply wp_bind, wp_gets.
  replace (lists k1 (Local cpu)) with (lists k (Local cpu)) by (symmetry; by apply strip_free).
  apply wp_bind. destruct (1 <? tl_count (lists k (Local cpu))) eqn:Hmore.
  - apply wp_bind, wp_bind, wp_gets.
    replace (lists k1 Global) with (lists k Global) by (symmetry; by apply strip_free).
    destruct (ki_list _ _ _ Hk Global I) as (_ & _ & Hlk). unfold lock_ok in Hlk.
    rewrite decide_False in Hlk by done. rewrite Hlk.
    destruct (held_elsewhere (lists k Global)) eqn:Hh;
      cbv beta iota zeta delta [spinlock_trylock cmpxchg TRUE FALSE Z.eqb negb];
      apply wp_bind, wp_upd_list, wp_ret, wp_ret; cbv beta iota; apply wp_bind.
    + assert (forall n, fupd (lists k1) Global (lists k1 Global <| tl_lock := 1 |>) n =
        strip a t (lists k) n) as Els.
      { intros n. unfold fupd. case_decide as E; [subst n|done]. cbn -[strip].
        rewrite strip_free by done. destruct (lists k Global). cbn in *. by subst. }
      destruct (4 <? tl_count (lists k (Local cpu))).
      * by apply wp_destroy_spill.
      * by apply wp_destroy_local.
    + by apply wp_destroy_global.
  - apply wp_ret. cbv beta iota. apply wp_bind.
    destruct (4 <? tl_count (lists k (Local cpu))) eqn:E4; [lia|].
    by apply wp_destroy_local.
Qed.
End destroy.

Lemma wp_reap sw k cpu a t Q : kinv sw None k -> is_cpu cpu -> (a = Runnable cpu \/ a = Blocked cpu) ->
  t ∈ members k a -> (forall c, running_thread k c <> Some t) ->
  (forall k', reaped k k' t -> kinv sw None k' -> Q tt k') -> wp (reap cpu a t) Q k.
Proof.
  intros Hk Hcpu Hor Ht Hrun HQ. assert (valid a /\ ~ is_free a) as [Ha Hfa] by (destruct Hor as [-> | ->]; auto).
  destruct (member_tcb _ _ _ Hk a t Ha Ht) as (_ & b & Hb & Hf & Hok).
  assert (refc b = 1) as Hrefc by (destruct Hor as [-> | ->]; apply Hf).
  unfold reap, thread_exit. apply wp_bind, wp_bind, (wp_upd_TCB _ b); [done|]. apply wp_bind.
  eapply wp_clear_intention; [apply lookup_set_tcb|apply Hok|]. apply wp_ret. cbn [Z.eqb].
  apply wp_bind, wp_take_off. rewrite set_tcb_tcb. unfold put_tcb. apply wp_bind.
  eapply wp_on_TCB; [apply lookup_insert_eq|]. apply wp_zoom. unfold atomic_dec_and_test.
  wp_steps. cbn -[wp set_tcb s32]. rewrite Hrefc. cbn -[wp set_tcb].
  apply wp_bind. eapply wp_get_TCB; [apply lookup_insert_eq|]. cbn -[wp set_tcb destroy_tcb].
  match goal with |- wp _ _ (set_tcb _ ?b1 _) => set (b' := b1) end.
  match goal with |- wp _ _ ?s => replace s with
    (k <| tcbs := <[t := b']> (tcbs k) |> <| lists := strip a t (lists k) |>)
    by (unfold set_tcb; cbn; by rewrite insert_insert_eq) end.
  eapply wp_destroy; [exact Hk|exact Ha|exact Hfa|exact Hcpu|exact Ht|exact Hb|exact Hrun|done|done|done| |exact HQ].
  exact (tcb_ok_clear t b THREAD_INTENTION_EXITED Hok).
Qed.

(** ** References *)

(** A thread that exists, with the one reference of its list. *)
Definition alive (k : kernel) (t : Z) (b : TCB) : Prop :=
  tcbs k !! t = Some b /\ state b <> NOTALLOC /\ refc b = 1.

Lemma member_alive sw lk k n t b : kinv sw lk k -> valid n -> ~ is_free n -> t ∈ members k n ->
  tcbs k !! t = Some b -> alive k t b.
Proof.
  intros Hk Hn Hfn Ht Hb. destruct (member_tcb _ _ _ Hk n t Hn Ht) as (_ & ? & Hb' & Hf & _).
  rewrite Hb in Hb'. injection Hb' as <-. split; [done|].
  destruct n; try done; destruct Hf as (Hs & ? & _); (split; [|done]);
    first [by destruct Hs as [-> | ->]|by rewrite Hs].
Qed.

Lemma current_alive sw lk k c t b : kinv sw lk k -> running_thread k c = Some t ->
  tcbs k !! t = Some b -> alive k t b /\ running_core b = c.
Proof.
  intros Hk Hc Hb. destruct (ki_running _ _ _ Hk c t Hc) as [Hic [->|[Hx|[_ Hx]]]].
  - destruct (ki_idle _ _ _ Hk c b Hic Hb) as (Hco & Hs & _ & Hr). by rewrite Hc in Hr.
  - split; [apply (member_alive _ _ _ (Runnable c) _ _ Hk); [done|by intros []|done|done]|].
    destruct (member_tcb _ _ _ Hk (Runnable c) t Hic Hx) as (_ & ? & Hb' & Hf & _).
    rewrite Hb in Hb'. injection Hb' as <-. apply Hf.
  - split; [apply (member_alive _ _ _ (Blocked c) _ _ Hk); [done|by intros []|done|done]|].
    destruct (member_tcb _ _ _ Hk (Blocked c) t Hic Hx) as (_ & ? & Hb' & Hf & _).
    rewrite Hb in Hb'. injection Hb' as <-. apply Hf.
Qed.

Lemma running_some sw lk k c t : kinv sw lk k -> running_thread k c = Some t -> is_Some (tcbs k !! t).
Proof.
  intros Hk Hc. destruct (ki_running _ _ _ Hk c t Hc) as [Hic Hor]. apply (ki_dom _ _ _ Hk).
  unfold is_cpu in Hic. destruct Hor as [->|[Hx|[_ Hx]]].
  - unfold NTHREAD, CONFIG_NUM_THREAD. lia.
  - pose proof (kinv_lt _ _ _ _ _ Hk (Hic : valid (Runnable c)) Hx). unfold MAX_PROCESSOR_COUNT in *. lia.
  - pose proof (kinv_lt _ _ _ _ _ Hk (Hic : valid (Blocked c)) Hx). unfold MAX_PROCESSOR_COUNT in *. lia.
Qed.

Lemma kinv_range sw lk k t b : kinv sw lk k -> tcbs k !! t = Some b -> 0 <= t < NTHREAD.
Proof. intros Hk Hb. apply (ki_dom _ _ _ Hk). by exists b. Qed.

Lemma wp_get_tcb_in k t b Q : 0 <= t < NTHREAD -> alive k t b ->
  Q (Some t) (set_tcb t (b <| refc := 2 |>) k) -> wp (get_tcb t) Q k.
Proof.
  intros Hrg (Hb & Hs & Hr) HQ. unfold NTHREAD in Hrg.
  unfold get_tcb. rewrite (proj2 (Z.ltb_ge _ _)), (proj2 (Z.leb_gt _ _)) by lia. cbn [orb].
  apply wp_bind, (wp_get_TCB _ b); [done|]. rewrite decide_False by done.
  apply wp_bind, (wp_on_TCB _ b); [done|]. apply wp_zoom, wp_modify, wp_ret. rewrite Hr. exact HQ.
Qed.

Lemma wp_get_tcb sw lk k t b Q : kinv sw lk k -> alive k t b ->
  Q (Some t) (set_tcb t (b <| refc := 2 |>) k) -> wp (get_tcb t) Q k.
Proof. intros Hk Ha. apply wp_get_tcb_in; [|done]. by eapply kinv_range, Ha. Qed.

Lemma wp_get_tcb_ptr sw lk k t b Q : kinv sw lk k -> alive k t b ->
  Q t (set_tcb t (b <| refc := 2 |>) k) -> wp (get_tcb_ptr t) Q k.
Proof.
  intros Hk Ha HQ. unfold get_tcb_ptr. pose proof (kinv_range _ _ _ _ _ Hk (proj1 Ha)) as Hrg.
  unfold NTHREAD, MAX_PROCESSOR_COUNT, CONFIG_NUM_THREAD in Hrg. rewrite u64_small by lia.
  apply wp_bind. by eapply wp_get_tcb, wp_the.
Qed.

Lemma wp_put_tcb k cpu t b Q : tcbs k !! t = Some b -> refc b = 2 ->
  Q tt (set_tcb t (b <| refc := 1 |>) k) -> wp (put_tcb cpu t) Q k.
Proof.
  intros Hb Hr HQ. unfold put_tcb. apply wp_bind, (wp_on_TCB _ b); [done|].
  apply wp_zoom. unfold atomic_dec_and_test. wp_steps. cbn -[wp set_tcb s32]. by rewrite Hr.
Qed.
