(* ===== verification/ThreadSched.v ===== *)
(** * The scheduler keeps the tables in order

    Specifications of [select_next_thread], [post_context_switch] and [schedule]. *)

From S2P Require Import Prelude.
From S2P Require Import Utility.
From S2P Require Import Lock.
From S2P Require Import Stat.
From S2P Require Import Memory.
From S2P Require Import PageAlloc.
From S2P Require Import Allocator.
From S2P Require Import Atomic.
From S2P Require Import LocalApic.
From S2P Require Import ShellStorage.
From S2P Require Import Thread.
From S2P Require Import Sched.
From S2P Require Import ThreadInv.
From S2P Require Import ThreadOps.

(** ** The choice of the next thread *)

(** Asked neither to exit nor to block. *)
Definition quiet (b : TCB) : Prop :=
  has (intention b) THREAD_INTENTION_EXITED = false /\
  has (intention b) THREAD_INTENTION_BLOCKED = false.

Definition quiet_in (k : kernel) (t : Z) : Prop :=
  match tcbs k !! t with
  | Some b => quiet b
  | None => True
  end.

(** A thread the scan would pick. *)
Definition eligible (T : gmap Z TCB) (t : Z) : bool :=
  match T !! t with
  | Some b => negb (has (intention b) THREAD_INTENTION_EXITED) &&
      negb (has (intention b) THREAD_INTENTION_BLOCKED) && (available_next b =? TRUE)
  | None => false
  end.

Definition first_eligible (T : gmap Z TCB) (ts : list Z) : option Z :=
  head (filter (fun t => eligible T t = true) ts).

(** What the scheduler leaves alone until it switches. *)
Definition env (k : kernel) : gset Z * (Z -> option Z) := (suspended k, running_thread k).

Lemma env_same k k' : rest_same k k' -> suspended k' = suspended k -> env k' = env k.
Proof. intros Hr E. unfold env. by rewrite E, (rs_running _ _ Hr). Qed.

Section select.
Context (cpu cur : Z) (T : gmap Z TCB) (queue : list Z) (susp : gset Z * (Z -> option Z)).
Hypothesis Hcpu : is_cpu cpu.

(** The state of the scan, with [ts] left to visit. *)
Record scanning (k : kernel) (ts : list Z) (found : option Z) : Prop := {
  sc_inv : kinv (Some cpu) None k;
  sc_cur : running_thread k cpu = Some cur;
  sc_susp : env k = susp;
  sc_nodup : NoDup ts;
  sc_left : forall t, t ∈ ts -> t ∈ members k (Runnable cpu) /\ tcbs k !! t = T !! t;
  sc_seen : forall t, t ∈ members k (Runnable cpu) -> t ∉ ts -> quiet_in k t;
  sc_blocked : cur ∈ members k (Blocked cpu) -> quiet_in k cur;
  sc_found : forall t, found = Some t -> t ∈ members k (Runnable cpu) /\ t ∉ ts;
  sc_same : found = None -> forall t, t ∈ members k (Runnable cpu) -> tcbs k !! t = T !! t;
  sc_queue : forall t, t ∈ members k (Runnable cpu) -> t ∈ queue
}.

(** A thread leaves the run queue. *)
Lemma scanning_removed k k' t ts found : scanning k (t :: ts) found ->
  kinv (Some cpu) None k' -> rest_same k k' -> suspended k' = suspended k ->
  members k' (Runnable cpu) = filter (fun x => x <> t) (members k (Runnable cpu)) ->
  (forall x, x <> t -> tcbs k' !! x = tcbs k !! x) ->
  (cur ∈ members k' (Blocked cpu) -> quiet_in k' cur) ->
  scanning k' ts found.
Proof.
  intros Hs Hk' Hrest Hsus Hm Htcbs Hbl. destruct Hs as [Hk Hcur Hsu Hnd Hleft Hseen Hb Hf Hsm Hqu].
  apply NoDup_cons in Hnd as [Hnt Hnd].
  assert (forall x, x ∈ members k' (Runnable cpu) <-> x <> t /\ x ∈ members k (Runnable cpu)) as Hin.
  { intros x. by rewrite Hm, list_elem_of_filter. }
  constructor; try done.
  - by rewrite (rs_running _ _ Hrest).
  - by rewrite (env_same k k').
  - intros x Hx. assert (x <> t) by (by intros ->). destruct (Hleft x) as [? ?]; [by right|].
    rewrite Htcbs, Hin by done. done.
  - intros x [Hne Hx]%Hin Hnx. unfold quiet_in. rewrite Htcbs by done. apply Hseen; [done|].
    by apply not_elem_of_cons.
  - intros x Hx. destruct (Hf x Hx) as [Hxm [Hne Hnx]%not_elem_of_cons]. by rewrite Hin.
  - intros Hn x [Hne Hx]%Hin. rewrite Htcbs by done. by apply Hsm.
  - intros x [_ Hx]%Hin. by apply Hqu.
Qed.

(** A thread stays, with another control block. *)
Lemma scanning_kept k k' t ts found found' : scanning k (t :: ts) found ->
  kinv (Some cpu) None k' -> rest_same k k' -> suspended k' = suspended k -> lists k' = lists k ->
  (forall x, x <> t -> tcbs k' !! x = tcbs k !! x) -> quiet_in k' t ->
  (found' = None -> tcbs k' !! t = tcbs k !! t) -> (found' = found \/ found' = Some t) -> scanning k' ts found'.
Proof.
  intros Hs Hk' Hrest Hsus Hl Htcbs Hq Hn' Hf'. destruct Hs as [Hk Hcur Hsu Hnd Hleft Hseen Hb Hf Hsm Hqu].
  apply NoDup_cons in Hnd as [Hnt Hnd].
  assert (forall n, members k' n = members k n) as Hm by (intros; unfold members; by rewrite Hl).
  destruct (Hleft t) as [Htm _]; [by left|].
  constructor; rewrite ?Hm; try done.
  - by rewrite (rs_running _ _ Hrest).
  - by rewrite (env_same k k').
  - intros x Hx. assert (x <> t) by (by intros ->). rewrite Htcbs by done. apply Hleft. by right.
  - intros x Hx Hnx. destruct (decide (x = t)) as [->|]; [done|]. unfold quiet_in. rewrite Htcbs by done.
    apply Hseen; [done|]. by apply not_elem_of_cons.
  - intros Hx. specialize (Hb Hx). unfold quiet_in in *. destruct (decide (cur = t)) as [->|]; [done|].
    by rewrite Htcbs.
  - intros x Hx. destruct Hf' as [->| ->]; [|by simplify_eq].
    by destruct (Hf x Hx) as [? [? ?]%not_elem_of_cons].
  - intros Hn x Hx. assert (found = None) by (destruct Hf' as [<-|E]; congruence).
    destruct (decide (x = t)) as [->|]; [rewrite Hn' by done|rewrite Htcbs by done]; by apply Hsm.
Qed.

(** The current thread is not among those of [ts] that exit. *)
Definition cur_stays (ts : list Z) : Prop :=
  cur ∈ ts -> forall b, T !! cur = Some b -> has (intention b) THREAD_INTENTION_EXITED = false.

Definition scanned (found : option Z) (ts : list Z) (r : option (option Z)) (k' : kernel) : Prop :=
  match r with
  | Some f => scanning k' [] f /\
      f = match found with Some t => Some t | None => first_eligible T ts end /\ cur_stays ts
  | None => kinv (Some cpu) None k' /\ running_thread k' cpu = Some cur /\ env k' = susp /\
      cur ∈ members k' (Runnable cpu) /\
      exists b, T !! cur = Some b /\ cur ∈ ts /\ has (intention b) THREAD_INTENTION_EXITED = true
  end.

Lemma cur_stays_cons t ts : cur_stays [t] -> cur_stays ts -> cur_stays (t :: ts).
Proof. intros Ht Hts [E|Hc]%elem_of_cons b Hb; [apply Ht; [rewrite E; by left|done]|by apply Hts]. Qed.

Lemma scanned_cons found t ts r k' : eligible T t = false -> cur_stays [t] -> scanned found ts r k' ->
  scanned found (t :: ts) r k'.
Proof.
  intros He Hst. destruct r as [f|]; cbn.
  - intros (Hs & -> & Hts). split_and!; [done| |by apply cur_stays_cons]. destruct found; [done|].
    unfold first_eligible. by rewrite filter_cons_False by (by rewrite He).
  - intros (? & ? & ? & ? & b & ? & ? & ?). split_and!; try done. exists b. split_and!; [done|by right|done].
Qed.

(** The slice of the idle thread is refilled; it is never used up. *)
Lemma wp_refill sw lk k t b (Q : Z -> kernel -> Prop) : kinv sw lk k -> tcbs k !! t = Some b ->
  (forall b', b' = b <| remaining_time_slice :=
       if remaining_time_slice b <=? 0 then THREAD_DEFAULT_TIME_SLICE else remaining_time_slice b |> ->
     forall k', kinv sw lk k' -> rest_same k k' -> suspended k' = suspended k -> lists k' = lists k ->
     tcbs k' = <[t := b']> (tcbs k) -> Q 0 k') ->
  wp (refill_time_slice t) Q k.
Proof.
  intros Hk Hb HQ. destruct (ki_tcb _ _ _ Hk t b Hb) as (Hts & Hq & Hrest).
  unfold refill_time_slice. apply wp_bind, (wp_get_TCB _ b); [done|]. apply wp_bind.
  specialize (HQ _ eq_refl). destruct (remaining_time_slice b <=? 0).
  - rewrite Hq. cbn [Z.eqb THREAD_INFINITE_TIME_QUANTUM]. apply wp_put_TCB, wp_ret. rewrite Hts.
    apply HQ; [|done..]. eapply kinv_set_aux; [exact Hk|exact Hb|done|].
    exact (conj Hts (conj Hq Hrest)).
  - apply wp_ret, wp_ret. apply HQ; [done|done|done|done|]. symmetry. apply insert_id. rewrite Hb.
    by destruct b.
Qed.

Lemma wp_pick sw lk k t b (Q : unit -> kernel -> Prop) : kinv sw lk k -> t ∈ members k (Runnable cpu) ->
  tcbs k !! t = Some b ->
  (forall k', kinv sw lk k' -> rest_same k k' -> suspended k' = suspended k -> lists k' = lists k ->
     tcbs k' = <[t := b <| state := RUNNING |>]> (tcbs k) -> Q tt k') ->
  wp (pick cpu t) Q k.
Proof.
  intros Hk Ht Hb HQ. destruct (member_tcb _ _ _ Hk (Runnable cpu) t Hcpu Ht) as (Hr & ? & Hb' & Hf & Hok).
  rewrite Hb in Hb'. injection Hb' as <-. unfold pick, set_state. apply wp_bind, (wp_upd_TCB _ b); [done|].
  unfold cpu_index. pose proof Hcpu as [H0 H1]. rewrite (proj2 (Z.leb_le _ _)), (proj2 (Z.ltb_lt _ _)) by done.
  apply wp_bind, wp_ret, wp_modify. apply HQ; [|done..].
  assert (kinv sw lk (set_tcb t (b <| state := RUNNING |>) k)) as Hk1.
  { eapply kinv_set_tcb; [exact Hk|exact Hb|done| | |exact Hok|].
    - destruct Hf as [[E | E] _]; cbn; rewrite E; done.
    - intros n Hn Htn _. rewrite (ki_apart _ _ _ Hk n (Runnable cpu) t Hn Hcpu Htn Ht).
      split; [by right|apply Hf].
    - intros Ht0. unfold is_cpu in Ht0. lia. }
  by apply (kinv_same _ _ _ _ Hk1).
Qed.

Lemma scan_reap k t ts found : scanning k (t :: ts) found -> cur <> t ->
  wp (reap cpu (Runnable cpu) t) (fun _ k' => scanning k' ts found) k.
Proof.
  intros Hs Hne. pose proof (sc_inv _ _ _ Hs) as Hk. destruct (sc_left _ _ _ Hs t) as [Ht _]; [by left|].
  apply (wp_reap (Some cpu)); [done|done|by left|done| |].
  { eapply not_running; [exact Hk|exact Hcpu| |exact Ht]. left. rewrite (sc_cur _ _ _ Hs). naive_solver. }
  intros k' Hrp Hk'. destruct (rp_tcb _ _ _ Hrp) as (b & b' & _ & Htcbs & _).
  eapply scanning_removed; [exact Hs|done|apply Hrp|apply Hrp|apply (rp_members _ _ _ Hrp); [done|by intros []]| |].
  - intros x Hx. by rewrite Htcbs, lookup_insert_ne.
  - rewrite (rp_members _ _ _ Hrp) by (done || by intros []). intros [_ Hx]%list_elem_of_filter.
    pose proof (sc_blocked _ _ _ Hs Hx) as Hq. unfold quiet_in in *. by rewrite Htcbs, lookup_insert_ne.
Qed.

Lemma scan_block k t b ts found : scanning k (t :: ts) found -> tcbs k !! t = Some b ->
  has (intention b) THREAD_INTENTION_EXITED = false ->
  wp (block_thread cpu t) (fun _ k' => scanning k' ts found) k.
Proof.
  intros Hs Hb Hex. pose proof (sc_inv _ _ _ Hs) as Hk. destruct (sc_left _ _ _ Hs t) as [Ht _]; [by left|].
  eapply wp_block_thread; [exact Hk|done|exact Ht|exact Hb|done|]. intros k' Hrl Hk'.
  pose proof (relocated_rest _ _ _ _ _ _ Hrl) as Hrest. destruct Hrl as [[ls ->] Hm].
  destruct (Hm (Runnable cpu) Hcpu) as [Er _]. rewrite decide_False, app_nil_r in Er by done.
  eapply scanning_removed; [exact Hs|done|exact Hrest|done|exact Er| |].
  - intros x Hx. cbn. by rewrite lookup_insert_ne.
  - intros [[Hx Hx']|[-> _]]%(moved_member _ _ _ _ _ _ _ (Hm (Blocked cpu) Hcpu)); unfold quiet_in; cbn.
    + rewrite lookup_insert_ne by done. by apply (sc_blocked _ _ _ Hs).
    + rewrite lookup_insert_eq. split; cbn.
      * refine (eq_trans (has_clear_other _ 5 THREAD_INTENTION_BLOCKED _ eq_refl) Hex). done.
      * by apply (has_clear_same _ 4).
Qed.

Lemma wp_scan ts : forall k found, scanning k ts found ->
  wp (scan_runnable cpu cpu ts found) (scanned found ts) k.
Proof.
  induction ts as [|t ts IH]; intros k found Hs; cbn [scan_runnable].
  { apply wp_ret. split_and!; [done|by destruct found|by intros ?%not_elem_of_nil]. }
  pose proof (sc_inv _ _ _ Hs) as Hk. destruct (sc_left _ _ _ Hs t) as [Ht HT]; [by left|].
  destruct (member_tcb _ _ _ Hk (Runnable cpu) t Hcpu Ht) as (Hr & b & Hb & Hf & Hok).
  apply wp_bind, (wp_get_TCB _ b); [done|]. rewrite Hb in HT. symmetry in HT.
  assert (forall k' found', scanning k' ts found' -> eligible T t = false -> cur_stays [t] ->
    wp (scan_runnable cpu cpu ts found') (scanned found' (t :: ts)) k') as Hskip.
  { intros k' found' Hs' He Hst. eapply wp_mono; [by apply IH|]. intros r k2. by apply scanned_cons. }
  unfold eligible in Hskip. rewrite HT in Hskip.
  destruct (has (intention b) THREAD_INTENTION_EXITED) eqn:Hex.
  { apply wp_bind, wp_bind, wp_gets. rewrite (sc_cur _ _ _ Hs). apply wp_ret.
    destruct (Z.eqb_spec cur t) as [E|Hne].
    - unfold idle_thread, cpu_index. pose proof Hcpu as [H0 H1].
      rewrite (proj2 (Z.leb_le _ _)), (proj2 (Z.ltb_lt _ _)) by done. apply wp_bind, wp_ret.
      destruct (proj2 (ki_dom _ _ _ Hk cpu)) as [bi Hbi]; [unfold NTHREAD, CONFIG_NUM_THREAD; lia|].
      apply wp_bind. eapply wp_refill; [exact Hk|exact Hbi|]. intros b' _ k' Hk' Hrest Hsus Hl Htcbs.
      apply wp_ret. split_and!; [done| | | |].
      + rewrite (rs_running _ _ Hrest). apply Hs.
      + rewrite (env_same k k' Hrest Hsus). apply Hs.
      + unfold members. by rewrite Hl, E.
      + exists b. rewrite E. split_and!; [done|by left|done].
    - apply wp_bind. eapply wp_mono; [by apply scan_reap|]. intros ? k' Hs'. apply Hskip; [done..|].
      by intros ?%list_elem_of_singleton. }
  assert (cur_stays [t]) as Hstay.
  { intros E%list_elem_of_singleton b' Hb'. rewrite E in Hb'. congruence. }
  destruct (has (intention b) THREAD_INTENTION_BLOCKED) eqn:Hbl.
  { apply wp_bind. eapply wp_mono; [by eapply scan_block|]. intros ? k' Hs'. by apply Hskip. }
  destruct (available_next b =? TRUE) eqn:Hav.
  - destruct Hf as (Hst & Hrc & Hco & Hal). unfold allowed in Hal. rewrite Hal.
    apply wp_bind, wp_ret. cbn [Z.eqb TRUE negb]. destruct found as [t0|].
    + eapply wp_mono; [apply IH|].
      * eapply scanning_kept; [exact Hs|done|done|done|done|done| |done|by left]. unfold quiet_in. by rewrite Hb.
      * intros [f|] k'; cbn; [intros (? & ? & ?); split_and!; [done..|by apply cur_stays_cons]|]. intros (? & ? & ? & ? & c & ? & ? & ?). split_and!; try done.
        exists c. split_and!; [done|by right|done].
    + apply wp_bind. eapply wp_pick; [exact Hk|exact Ht|exact Hb|]. intros k' Hk' Hrest Hsus Hl Htcbs.
      eapply wp_mono; [apply IH|].
      * eapply scanning_kept; [exact Hs|done|done|done|done| | |done|by right].
        -- intros x Hx. by rewrite Htcbs, lookup_insert_ne.
        -- unfold quiet_in. by rewrite Htcbs, lookup_insert_eq.
      * intros [f|] k2; cbn.
        -- intros (? & -> & ?). split_and!; [done| |by apply cur_stays_cons].
           unfold first_eligible. rewrite filter_cons_True; [done|].
           unfold eligible. by rewrite HT, Hex, Hbl, Hav.
        -- intros (? & ? & ? & ? & c & ? & ? & ?). split_and!; try done.
           exists c. split_and!; [done|by right|done].
  - apply Hskip; [|by rewrite ?Hex, ?Hbl, ?Hav|done]. eapply scanning_kept; [exact Hs|done|done|done|done|done| |done|by left].
    unfold quiet_in. by rewrite Hb.
Qed.

End select.

(** Time slices differ: those used up of ready threads are full again. *)
Record resliced (k k' : kernel) : Prop := {
  re_rest : rest_same k k';
  re_susp : suspended k' = suspended k;
  re_lists : lists k' = lists k;
  re_tcb : forall t b', tcbs k' !! t = Some b' -> exists b, tcbs k !! t = Some b /\
    b' = b <| remaining_time_slice := remaining_time_slice b' |> /\
    (0 < remaining_time_slice b -> remaining_time_slice b' = remaining_time_slice b)
}.

Definition starved (k : kernel) (t : Z) : Prop :=
  exists b, tcbs k !! t = Some b /\ state b = READY /\ remaining_time_slice b <= 0.

Lemma resliced_refl k : resliced k k.
Proof.
  constructor; try done. intros x b' Hb'. exists b'. split_and!; [done|by destruct b'|done].
Qed.

Lemma resliced_trans k1 k2 k3 : resliced k1 k2 -> resliced k2 k3 -> resliced k1 k3.
Proof.
  intros [[] ? ? H1] [[] ? ? H2]. constructor; try congruence.
  - constructor; congruence.
  - intros t b3 Hb3. destruct (H2 t b3 Hb3) as (b2 & Hb2 & E2 & P2).
    destruct (H1 t b2 Hb2) as (b1 & Hb1 & E1 & P1). exists b1. split_and!; [done| |].
    + rewrite E2, E1. done.
    + intros Hp. specialize (P1 Hp). rewrite <- P1 in *. by apply P2.
Qed.

Lemma resliced_starved k k' t : resliced k k' -> starved k' t -> starved k t.
Proof.
  intros Hre (b' & Hb' & Hst & Hsl). destruct (re_tcb _ _ Hre t b' Hb') as (b & Hb & E & Hpos).
  exists b. split; [done|]. rewrite E in Hst. split; [done|].
  destruct (Z.le_gt_cases (remaining_time_slice b) 0) as [|Hgt]; [done|]. specialize (Hpos ltac:(lia)). lia.
Qed.

Lemma resliced_quiet k k' t : resliced k k' -> quiet_in k t -> quiet_in k' t.
Proof.
  intros Hre. unfold quiet_in. destruct (tcbs k' !! t) as [b'|] eqn:E; [|done].
  destruct (re_tcb _ _ Hre _ _ E) as (b & Hbk & -> & _). by rewrite Hbk.
Qed.

Lemma wp_refill_runnable sw lk ts : forall k r, kinv sw lk k -> (forall t, t ∈ ts -> is_Some (tcbs k !! t)) ->
  wp (refill_runnable ts r) (fun r' k' => kinv sw lk k' /\ resliced k k' /\
    (forall t, t ∈ ts -> ~ starved k' t) /\
    (r' = true -> r = true \/ exists t, t ∈ ts /\ starved k t)) k.
Proof.
  induction ts as [|t ts IH]; intros k r Hk Hsome; cbn [refill_runnable].
  { apply wp_ret. split_and!; [done|apply resliced_refl|set_solver|by left]. }
  destruct (Hsome t) as [b Hb]; [by left|]. apply wp_bind, (wp_get_TCB _ b); [done|].
  destruct (bool_decide (state b = READY) && (remaining_time_slice b <=? 0)) eqn:E.
  - apply andb_true_iff in E as [Hst%bool_decide_eq_true Hsl]. apply wp_bind.
    eapply wp_refill; [exact Hk|exact Hb|]. intros b' -> k1 Hk1 Hrest Hsus Hl Htcbs. rewrite Hsl in Htcbs.
    assert (resliced k k1) as Hre.
    { constructor; try done. intros x c. rewrite Htcbs. intros [[<- <-]|[_ Hc]]%lookup_insert_Some.
      - exists b. split_and!; [done|done|lia].
      - exists c. split_and!; [done|by destruct c|done]. }
    eapply wp_mono; [apply IH; [done|]|].
    + intros x Hx. rewrite Htcbs. apply lookup_insert_is_Some'. right. apply Hsome. by right.
    + intros r' k2 (Hk2 & Hre2 & Hns & Hr'). split_and!; [done|by eapply resliced_trans| |].
      * intros x [->|Hx]%elem_of_cons; [|by apply Hns].
        intros (c & Hc & _ & Hle)%(resliced_starved _ _ _ Hre2). rewrite Htcbs, lookup_insert_eq in Hc.
        injection Hc as <-. cbn in Hle. unfold THREAD_DEFAULT_TIME_SLICE in Hle. lia.
      * intros _. right. exists t. split; [by left|]. exists b. split_and!; [done|done|lia].
  - eapply wp_mono; [apply IH; [done|]|].
    + intros x Hx. apply Hsome. by right.
    + intros r' k2 (Hk2 & Hre2 & Hns & Hr'). split_and!; [done|done| |set_solver].
      intros x [->|Hx]%elem_of_cons; [|by apply Hns]. intros Hx%(resliced_starved _ _ _ Hre2).
      destruct Hx as (c & Hc & Hst & Hle). rewrite Hb in Hc. injection Hc as <-.
      rewrite bool_decide_true in E by done. cbn in E. lia.
Qed.
Lemma kinv_switching cpu lk k : kinv None lk k -> kinv (Some cpu) lk k.
Proof.
  intros Hk. constructor; try apply Hk. intros c t Hc.
  destruct (ki_running _ _ _ Hk c t Hc) as (? & [|[|[? _]]]); [tauto|tauto|done].
Qed.

Section selection.
Context (cpu cur : Z).
Hypothesis Hcpu : is_cpu cpu.

(** The core's thread before and after a pass over the run queue. *)
Record selecting (k : kernel) : Prop := {
  se_inv : kinv (Some cpu) None k;
  se_cur : running_thread k cpu = Some cur;
  se_blocked : cur ∈ members k (Blocked cpu) -> quiet_in k cur
}.

Definition selected (susp : gset Z * (Z -> option Z)) (next : Z) (k' : kernel) : Prop :=
  selecting k' /\ env k' = susp /\
  (next = cpu \/ (next ∈ members k' (Runnable cpu) /\ quiet_in k' next)).

Lemma start_scan k : selecting k ->
  scanning cpu cur (tcbs k) (members k (Runnable cpu)) (env k) k (members k (Runnable cpu)) None.
Proof. intros [Hk Hc Hb]. constructor; try done. apply (ki_list _ _ _ Hk (Runnable cpu) Hcpu). Qed.

Lemma selecting_resliced k k' : selecting k -> kinv (Some cpu) None k' -> resliced k k' -> selecting k'.
Proof.
  intros [Hk Hc Hb] Hk' Hre. constructor; [done| |].
  - by rewrite (rs_running _ _ (re_rest _ _ Hre)).
  - unfold members in *. rewrite (re_lists _ _ Hre). intros Hx%Hb. by eapply resliced_quiet.
Qed.

Lemma idle_selected susp k' : selecting k' -> env k' = susp ->
  wp (idle_thread cpu) (selected susp) k'.
Proof.
  intros Hs Hsus. unfold idle_thread, cpu_index. pose proof Hcpu as [H0 H1].
  rewrite (proj2 (Z.leb_le _ _)), (proj2 (Z.ltb_lt _ _)) by done. apply wp_ret.
  split_and!; [done|done|by left].
Qed.

(** Two passes are enough: after the first, no ready thread lacks a slice. *)
Lemma wp_select_loop n : forall k, selecting k -> (0 < n)%nat ->
  (n = 1%nat -> forall t, t ∈ members k (Runnable cpu) -> ~ starved k t) ->
  wp (select_loop cpu cpu n) (selected (env k)) k.
Proof.
  induction n as [|n IH]; intros k Hs Hn Hst; [lia|]. cbn [select_loop].
  apply wp_bind, wp_gets, wp_bind. eapply wp_mono; [apply wp_scan; [done|by apply start_scan]|].
  intros [[t|]|] k1; cbn [scanned].
  - intros [Hsc _]. destruct Hsc as [Hk1 Hc1 Hsu1 _ _ Hseen Hb1 Hf _ _]. apply wp_ret.
    destruct (Hf t eq_refl) as [Ht _]. split_and!; [done|done|right]. split; [done|].
    apply Hseen; [done|set_solver].
  - intros [Hsc _]. destruct Hsc as [Hk1 Hc1 Hsu1 _ _ Hseen Hb1 _ Hsame Hqu].
    apply wp_bind, wp_gets, wp_bind. eapply wp_mono.
    { apply (wp_refill_runnable (Some cpu) None); [done|]. intros t Ht.
      destruct (member_tcb _ _ _ Hk1 (Runnable cpu) t Hcpu Ht) as (_ & b & Hb & _). by exists b. }
    intros refilled k2 (Hk2 & Hre & Hns & Hr).
    assert (selecting k2) as Hs2 by (by apply (selecting_resliced k1)).
    assert (env k2 = env k) as Hsu2 by (rewrite <- Hsu1; by apply env_same, (re_susp _ _ Hre); apply Hre).
    destruct refilled.
    + destruct n as [|n].
      * exfalso. destruct (Hr eq_refl) as [|(t & Ht & b & Hb & Hstb)]; [done|].
        apply (Hst eq_refl t); [by apply Hqu|]. exists b. split; [|done]. by rewrite <- Hsame.
      * rewrite <- Hsu2. apply IH; [done|lia|]. intros _ t. unfold members. rewrite (re_lists _ _ Hre). apply Hns.
    + apply wp_bind, wp_gets. destruct (tl_count (lists k2 (Runnable cpu)) =? 1) eqn:E1; [|by apply idle_selected].
      destruct (head (tcb_list (lists k2 (Runnable cpu)))) as [t|] eqn:Eh.
      * apply wp_ret. assert (t ∈ members k2 (Runnable cpu)) as Ht.
        { by apply head_Some_elem_of. }
        split_and!; [done|done|right]. split; [done|].
        apply (resliced_quiet k1); [done|]. apply Hseen; [|set_solver].
        unfold members in *. by rewrite <- (re_lists _ _ Hre).
      * exfalso. destruct (kinv_count _ _ _ _ Hk2 (Hcpu : valid (Runnable cpu))) as [Ec _].
        apply head_None in Eh. unfold members in Ec. rewrite Eh in Ec. unfold lenZ in Ec. cbn in Ec. lia.
  - intros (Hk1 & Hc1 & Hsu1 & Hm & b & _). apply idle_selected; [|done]. constructor; [done|done|].
    intros Hx. by pose proof (ki_apart _ _ _ Hk1 (Runnable cpu) (Blocked cpu) cur Hcpu Hcpu Hm Hx).
Qed.
End selection.

(** ** After the switch *)

(** [k'] has the same threads running; control blocks outside [S] are the same and
    no thread but those of [S] has left the blocked list of [cpu]. *)
Record framed (cpu : Z) (S : Z -> Prop) (k k' : kernel) : Prop := {
  fr_running : running_thread k' = running_thread k;
  fr_susp : suspended k' = suspended k;
  fr_tcb : forall t, ~ S t -> tcbs k' !! t = tcbs k !! t;
  fr_blocked : forall t, ~ S t -> t ∈ members k (Blocked cpu) -> t ∈ members k' (Blocked cpu)
}.

Lemma framed_refl cpu S k : framed cpu S k k.
Proof. by constructor. Qed.

Lemma framed_trans cpu (S S' : Z -> Prop) k1 k2 k3 :
  framed cpu S k1 k2 -> framed cpu S' k2 k3 -> framed cpu (fun t => S t \/ S' t) k1 k3.
Proof.
  intros [Er Es Et Eb] [Er' Es' Et' Eb']. constructor; [congruence|congruence| |].
  - intros t Ht. rewrite Et', Et by tauto. done.
  - intros t Ht Hm. apply Eb'; [tauto|]. apply Eb; tauto.
Qed.

Lemma framed_weaken cpu (S S' : Z -> Prop) k k' : (forall t, S t -> S' t) ->
  framed cpu S k k' -> framed cpu S' k k'.
Proof. intros HS [Er Es Et Eb]. constructor; try done; eauto. Qed.

Lemma framed_relocated cpu lk k k' t d b' : is_cpu cpu -> relocated lk k k' t d b' ->
  framed cpu (eq t) k k'.
Proof.
  intros Hcpu [[ls ->] Hm]. constructor; [done|done| |].
  - intros x Hx. cbn. by rewrite lookup_insert_ne.
  - intros x Hx Hb. apply (moved_member _ _ _ _ _ _ _ (Hm (Blocked cpu) Hcpu)). by left.
Qed.

Lemma framed_reaped cpu k k' t : is_cpu cpu -> reaped k k' t -> framed cpu (eq t) k k'.
Proof.
  intros Hcpu Hr. destruct (rp_tcb _ _ _ Hr) as (b & b' & _ & Htcbs & _). constructor.
  - apply Hr.
  - apply Hr.
  - intros x Hx. by rewrite Htcbs, lookup_insert_ne.
  - intros x Hx Hb. rewrite (rp_members _ _ _ Hr) by (done || by intros []). by apply list_elem_of_filter.
Qed.

Lemma framed_set_tcb cpu t b k : framed cpu (eq t) k (set_tcb t b k).
Proof. constructor; try done. intros x Hx. cbn. by rewrite lookup_insert_ne. Qed.

(** The thread that gives up the core. *)
Definition leaving (cpu now prev : Z) (k : kernel) : Prop :=
  prev = cpu \/
  (prev ∈ members k (Runnable cpu) /\ (prev = now -> quiet_in k prev)) \/
  (prev ∈ members k (Blocked cpu) /\ quiet_in k prev).

Lemma leaving_tcb cpu now prev k : kinv None None k -> is_cpu cpu -> leaving cpu now prev k ->
  exists b, tcbs k !! prev = Some b /\ tcb_ok prev b /\ state b <> EXITED /\ state b <> NOTALLOC.
Proof.
  intros Hk Hcpu Hlv.
  destruct Hlv as [->|[[Hp _]|[Hp _]]].
  - destruct (proj2 (ki_dom _ _ _ Hk cpu)) as [b Hb].
    { unfold is_cpu, NTHREAD, CONFIG_NUM_THREAD in *. lia. }
    exists b. split_and!; [done|by apply (ki_tcb _ _ _ Hk)|..]; by apply (ki_idle _ _ _ Hk cpu).
  - destruct (member_tcb _ _ _ Hk (Runnable cpu) prev Hcpu Hp) as (_ & b & Hb & [[E|E] _] & Hok);
      exists b; rewrite E; done.
  - destruct (member_tcb _ _ _ Hk (Blocked cpu) prev Hcpu Hp) as (_ & b & Hb & [[E|E] _] & Hok);
      exists b; rewrite E; done.
Qed.

(** A thread asked to exit or to block was in the run queue and has left the core. *)
Lemma leaving_loud cpu now prev k b : kinv None None k -> is_cpu cpu -> leaving cpu now prev k ->
  tcbs k !! prev = Some b -> ~ quiet b -> prev ∈ members k (Runnable cpu) /\ prev <> now.
Proof.
  intros Hk Hcpu Hlv Hb Hq. destruct Hlv as [->|[[Hp Hn]|[_ Hx]]].
  - exfalso. apply Hq. destruct (ki_tcb _ _ _ Hk cpu b Hb) as (_ & _ & _ & _ & _ & Hi).
    unfold is_cpu in Hcpu. destruct Hi; [lia|done].
  - split; [done|]. intros E. specialize (Hn E). unfold quiet_in in Hn. by rewrite Hb in Hn.
  - unfold quiet_in in Hx. by rewrite Hb in Hx.
Qed.

Lemma wp_post_prev cpu now prev k : kinv None None k -> is_cpu cpu ->
  running_thread k cpu = Some now -> leaving cpu now prev k ->
  wp (__post_context_switch cpu prev) (fun _ k' => kinv None None k' /\ framed cpu (eq prev) k k') k.
Proof.
  intros Hk Hcpu Hnow Hlv. destruct (leaving_tcb _ _ _ _ Hk Hcpu Hlv) as (b & Hb & Hok & He & Hna).
  apply wp_bind, (wp_get_TCB _ b); [done|]. rewrite !bool_decide_false by done. cbn [orb].
  destruct (has (intention b) THREAD_INTENTION_READY).
  { apply wp_bind, (wp_upd_TCB _ b); [done|]. eapply wp_clear_intention; [apply lookup_set_tcb|apply Hok|].
    rewrite set_tcb_tcb. split; [|apply framed_set_tcb].
    eapply kinv_set_tcb; [exact Hk|exact Hb|done|done| |exact (tcb_ok_restate prev b READY _ Hok)|].
    - intros n _ _ Hf. destruct n; [by split; [left|apply Hf]|by split; [right|apply Hf]|by destruct Hf..|].
      split; [done|apply Hf].
    - intros _ (? & _ & _ & ?). done. }
  destruct (has (intention b) THREAD_INTENTION_BLOCKED) eqn:Hbl.
  { destruct (leaving_loud _ _ _ _ _ Hk Hcpu Hlv Hb) as [Hp Hne]; [by intros [_ ?]; congruence|].
    eapply wp_block_thread; [exact Hk|done|done|exact Hb|congruence|]. intros k' Hr Hk'.
    split; [done|]. by eapply framed_relocated. }
  destruct (has (intention b) THREAD_INTENTION_EXITED) eqn:Hex.
  { destruct (leaving_loud _ _ _ _ _ Hk Hcpu Hlv Hb) as [Hp Hne]; [by intros [? _]; congruence|].
    apply wp_bind, wp_bind, wp_gets. rewrite Hnow. apply wp_ret.
    rewrite (proj2 (Z.eqb_neq _ _)) by done. apply (wp_reap None); [done|done|by left|done| |].
    - eapply not_running; [exact Hk|exact Hcpu| |exact Hp]. left. split; [done|]. congruence.
    - intros k' Hr Hk'. split; [done|]. by apply framed_reaped. }
  apply wp_ret. split; [done|apply framed_refl].
Qed.

(** *** The migrating list *)

Lemma core_is_allowed_ok b c : lenZ (core_mask b) = 8 -> 0 <= c < 256 ->
  core_is_allowed b c = Ok TRUE \/ core_is_allowed b c = Ok FALSE.
Proof.
  intros Hl Hc. unfold core_is_allowed, ISSET_CORE_MASK.
  destruct (nthZ_in_range (core_mask b) (c / 32)) as [w ->]; [rewrite Hl; zdm|].
  destruct (negb _); tauto.
Qed.

Lemma wp_threads_on cpu (Q : Z -> kernel -> Prop) k : (forall n, Q n k) -> wp (threads_on cpu) Q k.
Proof. intros HQ. unfold threads_on, get_list. wp_steps. apply HQ. Qed.

Lemma relocated_keeps lk k k' t d b' x n : relocated lk k k' t d b' -> valid n -> x <> t ->
  x ∈ members k n -> x ∈ members k' n.
Proof. intros [_ Hm] Hn Hx Hin. apply (moved_member _ _ _ _ _ _ _ (Hm n Hn)). by left. Qed.

Section drain.
Context (cpu : Z).
Hypothesis Hcpu : 0 <= cpu < 256.

Lemma small_cpu : is_cpu cpu.
Proof. unfold is_cpu, MAX_PROCESSOR_COUNT. lia. Qed.

Let Hic := small_cpu.

Lemma wp_adopt_own ts : forall k, kinv None (Some Migrating) k -> NoDup ts ->
  (forall t, t ∈ ts -> t ∈ members k Migrating) ->
  wp (adopt_own cpu cpu ts) (fun _ k' => kinv None (Some Migrating) k' /\
    framed cpu (fun t => t ∈ members k Migrating) k k' /\
    forall t, t ∈ members k' Migrating -> t ∈ members k Migrating) k.
Proof.
  induction ts as [|t ts IH]; intros k Hk Hnd Hts; cbn [adopt_own].
  { apply wp_ret. split_and!; [done|apply framed_refl|done]. }
  apply NoDup_cons in Hnd as [Hnt Hnd]. assert (t ∈ members k Migrating) as Ht by (apply Hts; by left).
  destruct (member_tcb _ _ _ Hk Migrating t I Ht) as (_ & b & Hb & Hf & Hok).
  apply wp_bind, (wp_get_TCB _ b); [done|]. apply wp_bind.
  apply (wp_mono _ (fun _ k' => kinv None (Some Migrating) k' /\ framed cpu (eq t) k k' /\
    (forall x, x ∈ members k' Migrating -> x ∈ members k Migrating) /\
    forall x, x ∈ ts -> x ∈ members k' Migrating)).
  - apply wp_when; intros Hco.
    + eapply wp_adopt; [exact Hk|done|done|exact Hb| |].
      * destruct Hf as (_ & _ & Hal). apply Z.eqb_eq in Hco. rewrite Hco in Hal. by apply Hal.
      * intros k' Hr Hk'. split_and!; [done|by eapply framed_relocated| |].
        -- intros x [[_ Hx]|[-> Hx]]%(moved_member _ _ _ _ _ _ _ (rl_moved _ _ _ _ _ _ Hr Migrating I)); done.
        -- intros x Hx. eapply relocated_keeps; [exact Hr|done|by intros ->|apply Hts; by right].
    + split_and!; [done|apply framed_refl|done|]. intros x Hx. apply Hts. by right.
  - intros ? k1 (Hk1 & Hfr & Hsub & Hts1). apply wp_bind, wp_threads_on. intros n.
    destruct (n =? RUNNABLE_MAX).
    + apply wp_ret. split_and!; [done| |done]. eapply framed_weaken; [|exact Hfr]. by intros ? <-.
    + eapply wp_mono; [by apply IH|]. intros ? k2 (Hk2 & Hfr2 & Hsub2). split_and!; [done| |eauto].
      eapply framed_weaken; [|eapply framed_trans; [exact Hfr|exact Hfr2]]. intros x [<-|Hx]; eauto.
Qed.

Lemma wp_adopt_one ts : forall k, kinv None (Some Migrating) k ->
  (forall t, t ∈ ts -> t ∈ members k Migrating) ->
  wp (adopt_one cpu cpu ts) (fun _ k' => kinv None (Some Migrating) k' /\
    framed cpu (fun t => t ∈ members k Migrating) k k') k.
Proof.
  induction ts as [|t ts IH]; intros k Hk Hts; cbn [adopt_one].
  { apply wp_ret. split; [done|apply framed_refl]. }
  assert (t ∈ members k Migrating) as Ht by (apply Hts; by left).
  destruct (member_tcb _ _ _ Hk Migrating t I Ht) as (_ & b & Hb & Hf & Hok).
  apply wp_bind, (wp_get_TCB _ b); [done|].
  destruct (core_is_allowed_ok b cpu) as [Hal|Hal]; [apply Hok|done|..]; rewrite Hal; apply wp_bind, wp_ret;
    cbn [Z.eqb TRUE FALSE negb]; apply wp_bind.
  - unfold get_cid_of_min_thread. apply wp_bind, wp_bind, (wp_get_TCB _ b); [done|]. cbn [ISONLY_CORE_MASK Z.eqb].
    apply wp_ret, wp_ret. rewrite Z.eqb_refl. eapply wp_adopt; [exact Hk|done|done|exact Hb|done|].
    intros k' Hr Hk'. split; [done|]. eapply framed_weaken; [|by eapply framed_relocated]. by intros ? <-.
  - apply wp_ret, wp_bind, wp_threads_on. intros n. destruct (n =? RUNNABLE_MAX).
    + apply wp_ret. split; [done|apply framed_refl].
    + apply IH; [done|]. intros x Hx. apply Hts. by right.
Qed.

Lemma framed_relisted S k k' : relisted k k' -> framed cpu S k k'.
Proof.
  intros Hr. pose proof (fun n => relisted_members _ _ n Hr) as Hm. destruct Hr as (ls & -> & _).
  constructor; try done. intros t _. by rewrite Hm.
Qed.

Lemma current_core lk k now : kinv None lk k -> running_thread k cpu = Some now ->
  exists b, tcbs k !! now = Some b /\ running_core b = cpu.
Proof.
  intros Hk Hnow. destruct (running_some _ _ _ _ _ Hk Hnow) as [b Hb].
  exists b. split; [done|]. by eapply current_alive.
Qed.

Lemma wp_drain k now : kinv None None k -> running_thread k cpu = Some now ->
  wp (drain_migrating cpu) (fun _ k' => kinv None None k' /\
    framed cpu (fun t => t ∈ members k Migrating) k k') k.
Proof.
  intros Hk Hnow. unfold drain_migrating. apply wp_bind, wp_threads_on. intros n.
  apply wp_when; intros _; [|split; [done|apply framed_refl]]. apply wp_bind, wp_gets.
  destruct (tl_count (lists k Migrating) =? 0); [apply wp_ret; split; [done|apply framed_refl]|].
  apply wp_bind. apply (wp_trylock_list None); [done|done| |]; intros k1 Hr1 Hk1;
    apply wp_when; try done; intros _.
  2: { split; [done|by apply framed_relisted]. }
  pose proof (framed_relisted (fun t => t ∈ members k Migrating) _ _ Hr1) as Hf1.
  assert (members k1 Migrating = members k Migrating) as Em by (by apply relisted_members).
  assert (running_thread k1 cpu = Some now) as Hnow1 by (by rewrite (fr_running _ _ _ _ Hf1)).
  destruct (current_core _ _ _ Hk1 Hnow1) as (b & Hb & Hco).
  apply wp_bind, wp_bind, wp_gets. rewrite Hnow1. apply wp_ret, wp_bind, (wp_get_TCB _ b); [done|].
  apply wp_bind, wp_gets, wp_bind. rewrite Hco. eapply wp_mono.
  { apply wp_adopt_own; [exact Hk1|by apply (ki_list _ _ _ Hk1 Migrating I)|done]. }
  intros full k2 (Hk2 & Hf2 & Hsub). rewrite Em in Hf2, Hsub. apply wp_bind.
  apply (wp_mono _ (fun _ k' => kinv None (Some Migrating) k' /\
    framed cpu (fun t => t ∈ members k Migrating) k2 k')).
  - destruct full; [apply wp_ret; split; [done|apply framed_refl]|]. apply wp_bind, wp_gets.
    eapply wp_mono; [by apply wp_adopt_one|]. intros ? k3 [Hk3 Hf3]. split; [done|].
    eapply framed_weaken; [exact Hsub|exact Hf3].
  - intros ? k3 [Hk3 Hf3]. eapply wp_unlock_list; [exact Hk3| |done]. intros k4 Hr4 Hk4. split; [done|].
    pose proof (framed_relisted (fun t => t ∈ members k Migrating) _ _ Hr4) as Hf4.
    eapply framed_weaken; [|eapply framed_trans; [exact Hf1|eapply framed_trans;
      [exact Hf2|eapply framed_trans; [exact Hf3|exact Hf4]]]]. cbn. tauto.
Qed.

(** *** The blocked list *)

(** A blocked thread that has been woken and not asked to exit. *)
Definition woken (k : kernel) (t : Z) : Prop :=
  t ∈ members k (Blocked cpu) /\ exists b, tcbs k !! t = Some b /\
    has (intention b) THREAD_INTENTION_READY = true /\ has (intention b) THREAD_INTENTION_EXITED = false.

(** In the run queue, ready. *)
Definition queued (k : kernel) (t : Z) : Prop :=
  t ∈ members k (Runnable cpu) /\ exists b, tcbs k !! t = Some b /\ state b = READY.

Lemma wp_unblock k now t : kinv None None k -> running_thread k cpu = Some now ->
  t ∈ members k (Blocked cpu) ->
  wp (unblock cpu t) (fun _ k' => kinv None None k' /\ framed cpu (eq t) k k' /\
    (forall x, x <> t -> x ∈ members k (Runnable cpu) -> x ∈ members k' (Runnable cpu)) /\
    (woken k t -> queued k' t)) k.
Proof.
  intros Hk Hnow Ht. destruct (member_tcb _ _ _ Hk (Blocked cpu) t Hic Ht) as (_ & b & Hb & Hf & Hok).
  apply wp_bind, (wp_get_TCB _ b); [done|].
  destruct (has (intention b) THREAD_INTENTION_EXITED) eqn:Hex.
  - assert (forall c, running_thread k c <> Some t) as Hnr.
    { eapply not_running; [exact Hk|exact Hic|by right|exact Ht]. }
    apply wp_bind, wp_bind, wp_gets. rewrite Hnow. apply wp_ret.
    destruct (Z.eqb_spec now t) as [->|]; [by destruct (Hnr cpu)|].
    apply (wp_reap None); [done|done|by right|done|done|]. intros k' Hr Hk'.
    split_and!; [done|by apply framed_reaped| |].
    + intros x Hx Hm. rewrite (rp_members _ _ _ Hr) by (done || by intros []). by apply list_elem_of_filter.
    + intros (_ & c & Hc & _ & Hex'). congruence.
  - destruct (has (intention b) THREAD_INTENTION_READY) eqn:Hrd.
    + eapply wp_wake_thread; [exact Hk|done|done|exact Hb|done|]. intros k' Hr Hk'.
      split_and!; [done|by eapply framed_relocated| |].
      * intros x Hx Hm. by eapply relocated_keeps.
      * intros _. destruct Hr as [[ls ->] Hm]. split.
        -- apply (moved_member _ _ _ _ _ _ _ (Hm (Runnable cpu) Hic)). by right.
        -- cbn. rewrite lookup_insert_eq. by eexists.
    + apply wp_ret. split_and!; [done|apply framed_refl|done|]. intros (_ & c & Hc & Hrd' & _). congruence.
Qed.

Lemma woken_framed (S : Z -> Prop) k k' t : framed cpu S k k' -> ~ S t -> woken k t -> woken k' t.
Proof.
  intros Hf Ht (Hm & b & Hb & Hbits). split; [by apply (fr_blocked _ _ _ _ Hf)|].
  exists b. by rewrite (fr_tcb _ _ _ _ Hf).
Qed.

Lemma wp_unblock_all k now : kinv None None k -> running_thread k cpu = Some now ->
  wp (for_each (members k (Blocked cpu)) (unblock cpu)) (fun _ k' => kinv None None k' /\
    running_thread k' = running_thread k /\ suspended k' = suspended k /\
    forall t, woken k t -> queued k' t) k.
Proof.
  intros Hk Hnow. apply (wp_for_each (fun l k' => kinv None None k' /\
    running_thread k' = running_thread k /\ suspended k' = suspended k /\ NoDup l /\
    (forall t, t ∈ l -> t ∈ members k' (Blocked cpu)) /\
    forall t, woken k t -> (t ∈ l /\ woken k' t) \/ queued k' t)).
  - split_and!; try done; [by apply (ki_list _ _ _ Hk (Blocked cpu) Hic)|].
    intros t Ht. left. by split; [apply Ht|].
  - intros x l k1 (Hk1 & Er & Es & [Hnx Hnd]%NoDup_cons & Hl & HW).
    assert (x ∈ members k1 (Blocked cpu)) as Hx by (apply Hl; by left).
    eapply wp_mono; [apply (wp_unblock k1 now); [done|by rewrite Er|done]|].
    intros ? k2 (Hk2 & Hf & Hkeep & Hwk). split_and!; [done| | |done| |].
    + by rewrite (fr_running _ _ _ _ Hf).
    + by rewrite (fr_susp _ _ _ _ Hf).
    + intros t Ht. apply (fr_blocked _ _ _ _ Hf); [by intros ->|]. apply Hl. by right.
    + intros t [[[->|Ht]%elem_of_cons Hwt]|[Hq (b & Hb & Hs)]]%HW.
      * right. by apply Hwk.
      * left. split; [done|]. eapply woken_framed; [exact Hf| |done]. by intros ->.
      * assert (t <> x) as Hne.
        { intros ->. by pose proof (ki_apart _ _ _ Hk1 (Runnable cpu) (Blocked cpu) x Hic Hic Hq Hx). }
        right. split; [by apply Hkeep|]. exists b. by rewrite (fr_tcb _ _ _ _ Hf) by congruence.
  - intros k' (? & ? & ? & _ & _ & HW). split_and!; try done. intros t Ht.
    destruct (HW t Ht) as [[[]%not_elem_of_nil _]|]; done.
Qed.

Lemma wp_post_context_switch k now prev : kinv None None k -> running_thread k cpu = Some now ->
  leaving cpu now prev k ->
  wp (post_context_switch cpu prev) (fun _ k' => kinv None None k' /\
    running_thread k' = running_thread k /\ suspended k' = suspended k /\
    forall t, t <> prev -> woken k t -> queued k' t) k.
Proof.
  intros Hk Hnow Hlv. unfold post_context_switch. apply wp_bind.
  eapply wp_mono; [by apply (wp_post_prev _ now)|]. intros ? k1 [Hk1 Hf1]. apply wp_bind.
  eapply wp_mono; [apply (wp_drain _ now); [done|by rewrite (fr_running _ _ _ _ Hf1)]|]. intros ? k2 [Hk2 Hf2].
  assert (forall t, t <> prev -> woken k t -> woken k2 t) as Hw.
  { intros t Hne Ht. eapply woken_framed in Ht; [|exact Hf1|by intros ->].
    eapply woken_framed; [exact Hf2| |exact Ht]. cbn. intros Hx.
    by pose proof (ki_apart _ _ _ Hk1 Migrating (Blocked cpu) t I Hic Hx (proj1 Ht)). }
  assert (running_thread k2 = running_thread k) as Er
    by (by rewrite (fr_running _ _ _ _ Hf2), (fr_running _ _ _ _ Hf1)).
  assert (suspended k2 = suspended k) as Es by (by rewrite (fr_susp _ _ _ _ Hf2), (fr_susp _ _ _ _ Hf1)).
  apply wp_bind, wp_gets. apply wp_when; intros Hc.
  - eapply wp_mono; [apply (wp_unblock_all k2 now); [done|by rewrite Er]|].
    intros ? k3 (Hk3 & Er3 & Es3 & HW). split_and!; [done|congruence|congruence|]. eauto.
  - split_and!; try done. intros t Hne Ht. destruct (Hw t Hne Ht) as [Hm _].
    destruct (kinv_count _ _ _ _ Hk2 (Hic : valid (Blocked cpu))) as [Ec _].
    destruct (members k2 (Blocked cpu)) eqn:E; [by apply not_elem_of_nil in Hm|].
    apply negb_false_iff, Z.eqb_eq in Hc. rewrite Ec in Hc. unfold lenZ in Hc. cbn [length] in Hc. lia.
Qed.
End drain.
