(* ===== verification/ThreadCalls.v ===== *)
(** * Calls of the kernel and what they guarantee

    [schedule], thread creation, exit, suspension, wake-up and signals keep the
    tables in order, whatever calls are made and in which order; with the
    consequences: no thread runs on two cores, stacks in use are never released,
    a woken thread is queued, the scheduler picks the first eligible thread. *)

From S2P Require Import Prelude.
From S2P Require Import Utility.
From S2P Require Import Lock.
From S2P Require Import Stat.
From S2P Require Import Memory.
From S2P Require Import PageAlloc.
From S2P Require Import Allocator.
From S2P Require Import Atomic.
From S2P Require Import LocalApic.
From S2P Require Import ShellStorage.
From S2P Require Import Thread.
From S2P Require Import Sched.
From S2P Require Import ThreadInv.
From S2P Require Import ThreadOps.
From S2P Require Import ThreadSched.

(** ** The timer of a core *)

Definition lapic_of (k : kernel) (cpu : Z) : lapic :=
  mkLapic (msrs k cpu) (eflags k cpu) (fst (lapic_ticks k)) (snd (lapic_ticks k)).

Definition with_lapic (cpu : Z) (l : lapic) (k : kernel) : kernel :=
  k <| msrs := fupd (msrs k) cpu (msr l) |> <| eflags := fupd (eflags k) cpu (flags_reg l) |>
    <| lapic_ticks := (ticks_in_10ms l, ticks_in_1ms l) |>.

Definition lapic_ok (l : lapic) : Prop := ticks_ok (ticks_in_10ms l, ticks_in_1ms l).

Lemma wp_on_lapic {A} cpu (m : M lapic A) Q k :
  wp m (fun a l => Q a (with_lapic cpu l k)) (lapic_of k cpu) -> wp (on_lapic cpu m) Q k.
Proof.
  intros Hm. unfold on_lapic. apply wp_bind, wp_get. unfold wp in *.
  change (mkLapic _ _ _ _) with (lapic_of k cpu). by destruct (m (lapic_of k cpu)) as [[a l]|].
Qed.

Lemma kinv_with_lapic sw lk k cpu l : kinv sw lk k -> lapic_ok l -> kinv sw lk (with_lapic cpu l k).
Proof. intros Hk Hl. constructor; try apply Hk; [done|]. destruct (ki_mem _ _ _ Hk). by constructor. Qed.

Lemma lapic_of_ok sw lk k cpu : kinv sw lk k -> lapic_ok (lapic_of k cpu).
Proof. intros Hk. pose proof (ki_ticks _ _ _ Hk) as Ht. unfold lapic_ok. cbn. by destruct (lapic_ticks k). Qed.

(** Writing a register leaves the calibration alone. *)
Lemma wp_write_ok r v (Q : unit -> lapic -> Prop) a : lapic_ok a -> (forall a', lapic_ok a' -> Q tt a') ->
  wp (x2apic_write r v) Q a.
Proof. intros Ha HQ. apply wp_modify. by apply HQ. Qed.

Lemma wp_ticks_ok (Q : Z -> lapic -> Prop) a : lapic_ok a ->
  (forall t a', lapic_ok a' -> t <> 0 -> Q t a') -> wp lapic_get_ticks_in_1ms Q a.
Proof.
  intros Ha HQ. unfold lapic_get_ticks_in_1ms. apply wp_bind, wp_gets, wp_bind.
  unfold lapic_ok, ticks_ok in Ha. cbn in Ha. apply wp_when; intros E.
  - apply wp_modify, wp_gets. cbn. apply HQ; [left|]; cbn; lia.
  - apply wp_gets. apply HQ; [|lia]. left; cbn; lia.
Qed.

(** ** The common beginning of [schedule] *)

(** Time has been charged to [cur]: only its accounting and the timer differ. *)
Record charged (cur : Z) (k k' : kernel) : Prop := {
  ch_inv : kinv None None k';
  ch_running : running_thread k' = running_thread k;
  ch_susp : suspended k' = suspended k;
  ch_lists : lists k' = lists k;
  ch_tcb : forall t, t <> cur -> tcbs k' !! t = tcbs k !! t;
  ch_cur : forall b, tcbs k !! cur = Some b -> exists b', tcbs k' !! cur = Some b' /\
    intention b' = intention b
}.

Lemma charged_lapic cur k k' cpu l : charged cur k k' -> lapic_ok l -> charged cur k (with_lapic cpu l k').
Proof. intros [] Hl. constructor; try done. by apply kinv_with_lapic. Qed.

Lemma charged_tcb cur k k' b b' : charged cur k k' -> tcbs k' !! cur = Some b ->
  (stack b', stack_base b', state b', refc b', running_core b', core_mask b') =
  (stack b, stack_base b, state b, refc b, running_core b, core_mask b) ->
  intention b' = intention b -> tcb_ok cur b' -> charged cur k (set_tcb cur b' k').
Proof.
  intros [Hk Er Es El Et Ec] Hb E Ei Hok. constructor; try done.
  - by eapply kinv_set_aux.
  - intros t Ht. cbn. rewrite lookup_insert_ne by done. by apply Et.
  - intros b0 Hb0. destruct (Ec b0 Hb0) as (b1 & Hb1 & Ei1). exists b'. cbn. rewrite lookup_insert_eq.
    split; [done|]. rewrite Hb in Hb1. injection Hb1 as <-. congruence.
Qed.

Lemma charged_refl cur k : kinv None None k -> charged cur k k.
Proof. intros Hk. constructor; try done. eauto. Qed.

Lemma wp_adjust cpu cur k k' : charged cur k k' -> running_thread k cpu = Some cur ->
  is_Some (tcbs k' !! cur) ->
  wp (adjust_time_slice cpu) (fun _ k2 => charged cur k k2 /\ is_Some (tcbs k2 !! cur)) k'.
Proof.
  intros Hch Hcur [b Hb]. unfold adjust_time_slice. apply wp_bind, wp_bind, wp_gets.
  rewrite (ch_running _ _ _ Hch), Hcur. apply wp_ret, wp_bind, wp_on_lapic.
  pose proof (lapic_of_ok _ _ _ cpu (ch_inv _ _ _ Hch)) as Hl0.
  unfold lapic_consumed_time_slice, x2apic_read. apply wp_bind, wp_gets, wp_bind, wp_gets, wp_bind.
  apply wp_ticks_ok; [done|]. intros t l Hl Ht. rewrite (proj2 (Z.eqb_neq _ _)) by done. apply wp_ret.
  match goal with |- context [if ?c then _ else _] => destruct c end; [|apply wp_ret; split; [by apply charged_lapic|by exists b]].
  pose proof (charged_lapic _ _ _ cpu l Hch Hl) as Hch1.
  pose proof (ki_tcb _ _ _ (ch_inv _ _ _ Hch) cur b Hb) as Hok.
  apply wp_bind. eapply wp_upd_TCB; [exact Hb|]. apply wp_bind. eapply wp_get_TCB; [apply lookup_set_tcb|].
  match goal with |- wp _ _ (set_tcb cur ?b1 _) =>
    assert (charged cur k (set_tcb cur b1 (with_lapic cpu l k'))) as Hch2
      by (by eapply charged_tcb; [exact Hch1|exact Hb|..])
  end.
  apply wp_bind, wp_on_lapic, wp_ticks_ok; [by eapply lapic_of_ok, (ch_inv _ _ _ Hch2)|]. intros t2 l2 Hl2 _.
  pose proof (charged_lapic _ _ _ cpu l2 Hch2 Hl2) as Hch3.
  match goal with |- context [if ?c then _ else _] => destruct c end.
  - apply wp_bind, wp_put_TCB, wp_ret. split; [|eexists; apply lookup_set_tcb].
    eapply charged_tcb; [exact Hch3|apply lookup_set_tcb|done|done|exact Hok].
  - apply wp_ret. split; [done|]. eexists. apply lookup_set_tcb.
Qed.

Lemma wp_decrease cpu cur k k' n : charged cur k k' -> running_thread k cpu = Some cur ->
  is_Some (tcbs k' !! cur) ->
  wp (decrease_remaining_time_slice cpu n) (fun _ k2 => charged cur k k2 /\ is_Some (tcbs k2 !! cur)) k'.
Proof.
  intros Hch2 Hcur [b Hb]. unfold decrease_remaining_time_slice. apply wp_bind, wp_bind, wp_gets.
  rewrite (ch_running _ _ _ Hch2), Hcur. apply wp_ret, wp_bind. eapply wp_upd_TCB; [exact Hb|].
  match goal with |- wp _ _ ?s => assert (charged cur k s) as Hch3 end.
  { eapply charged_tcb; [exact Hch2|exact Hb|done|done|].
    exact (ki_tcb _ _ _ (ch_inv _ _ _ Hch2) cur b Hb). }
  apply wp_bind, wp_on_lapic. unfold lapic_timer_interrupt_pending, x2apic_read. apply wp_bind, wp_gets, wp_ret.
  pose proof (lapic_of_ok _ _ _ cpu (ch_inv _ _ _ Hch3)) as Hl3.
  pose proof (charged_lapic _ _ _ cpu _ Hch3 Hl3) as Hch4.
  apply wp_when; intros _; [|split; [exact Hch4|eexists; apply lookup_set_tcb]].
  apply wp_on_lapic, wp_write_ok; [by eapply lapic_of_ok, (ch_inv _ _ _ Hch4)|]. intros l5 Hl5.
  split; [by apply charged_lapic|eexists; apply lookup_set_tcb].
Qed.

Lemma wp_charge cpu cur k : kinv None None k -> running_thread k cpu = Some cur -> is_Some (tcbs k !! cur) ->
  wp (charge cpu) (fun _ k' => charged cur k k') k.
Proof.
  intros Hk Hcur Hsome. unfold charge. apply wp_bind.
  eapply wp_mono; [apply (wp_adjust cpu cur k); [by apply charged_refl|done|done]|].
  intros c k1 [Hch1 Hb]. apply wp_bind, wp_on_lapic, wp_write_ok; [by eapply lapic_of_ok, (ch_inv _ _ _ Hch1)|].
  intros l Hl. pose proof (charged_lapic _ _ _ cpu l Hch1 Hl) as Hch2.
  eapply wp_mono; [by apply (wp_decrease cpu cur k)|]. by intros ? ? [? _].
Qed.

(** ** Signals *)

Lemma kinv_sigs sw lk k k' : kinv sw lk k -> tcbs k' = tcbs k -> lists k' = lists k ->
  running_thread k' = running_thread k -> lapic_ticks k' = lapic_ticks k -> tcb_base_addr k' = tcb_base_addr k ->
  (forall c, is_cpu c -> sigs_ok (local_sig_list k' c)) -> mem_ok k' -> kinv sw lk k'.
Proof.
  intros Hk Et El Er Eti Eb Hs Hm.
  assert (forall n t b, fits k' n t b <-> fits k n t b) as Hf.
  { intros n t b. unfold fits, tcb_temp. by rewrite Eb. }
  destruct Hk as [? ? ? ? Hmem ? Hidle ? ? ? ?].
  constructor; unfold members in *; rewrite ?Et, ?El, ?Er, ?Eti; try done.
  - intros n t Hn Ht. destruct (Hmem n t Hn Ht) as (? & b & ? & ?). split; [done|]. exists b. by rewrite Hf.
  - intros c b Hc Hb. unfold idle_ok. rewrite Er. by apply Hidle.
Qed.

Lemma kinv_sigs_ext sw lk k k' : kinv sw lk k -> tcbs k' = tcbs k -> lists k' = lists k ->
  running_thread k' = running_thread k -> lapic_ticks k' = lapic_ticks k -> tcb_base_addr k' = tcb_base_addr k ->
  mem k' = mem k -> (forall c, local_sig_list k' c = local_sig_list k c) -> kinv sw lk k'.
Proof.
  intros Hk Et El Er Eti Eb Em Es. eapply kinv_sigs; [exact Hk|done..| |].
  - intros c Hc. rewrite Es. by apply (ki_sigs _ _ _ Hk).
  - assert (forall o a, owns k' o a <-> owns k o a) as Ho.
    { intros o a. destruct o; cbn; by rewrite ?Et, ?Eb, ?Es. }
    destruct (ki_mem _ _ _ Hk) as [Hi Hl Hu]. split; rewrite ?Em; [done| |].
    + intros o a Ha%Ho. by apply (Hl o).
    + intros o o' a Ha%Ho Ha'%Ho. by apply (Hu o o' a).
Qed.

Definition unlock_sigs (cpu : Z) (k : kernel) : kernel :=
  k <| local_sig_list := fupd (local_sig_list k) cpu (local_sig_list k cpu <| sl_lock := FALSE |>) |>.

Definition remove_sig (cpu a : Z) (k : kernel) : kernel :=
  k <| local_sig_list := fupd (local_sig_list k) cpu (local_sig_list k cpu
      <| sig_list := filter (fun x => sig_at x <> a) (sig_list (local_sig_list k cpu)) |>
      <| sl_count := u64 (sl_count (local_sig_list k cpu) - 1) |>) |>.

Lemma filter_sig_at a (l : list signal_t) :
  sig_at <$> filter (fun x => sig_at x <> a) l = filter (fun x => x <> a) (sig_at <$> l).
Proof.
  induction l as [|s l IH]; [done|]. destruct (decide (sig_at s = a)) as [E|E].
  - rewrite filter_cons_False by naive_solver. cbn [fmap list_fmap].
    rewrite filter_cons_False by naive_solver. done.
  - rewrite filter_cons_True by done. cbn [fmap list_fmap]. rewrite filter_cons_True by done. f_equal. apply IH.
Qed.

(** A queued signal and its block go away together. *)
Lemma kinv_remove_sig k cpu a m' : kinv None None k -> is_cpu cpu ->
  a ∈ sig_at <$> sig_list (local_sig_list k cpu) -> freed (mem k) m' a ->
  kinv None None (remove_sig cpu a k <| mem := m' |>).
Proof.
  intros Hk Hcpu Ha [Hm' Hbl]. set (k' := remove_sig cpu a k <| mem := m' |>).
  assert (forall c, sig_at <$> sig_list (local_sig_list k' c) =
    if decide (c = cpu) then filter (fun x => x <> a) (sig_at <$> sig_list (local_sig_list k cpu))
    else sig_at <$> sig_list (local_sig_list k c)) as Hsg.
  { intros c. cbn. unfold fupd. case_decide; [|done]. cbn. apply filter_sig_at. }
  destruct (ki_sigs _ _ _ Hk cpu Hcpu) as (Hl & Hc & Hnd).
  eapply kinv_sigs; [exact Hk|done..| |].
  - intros c Hic. unfold sigs_ok. rewrite Hsg. cbn. unfold fupd.
    case_decide; [subst c|by apply (ki_sigs _ _ _ Hk)]. cbn. split_and!; [done| |by apply NoDup_filter].
    pose proof (lenZ_filter_other a _ Hnd Ha) as Hlf. rewrite <- filter_sig_at in Hlf.
    unfold lenZ in *. rewrite !length_fmap in Hlf. rewrite Hc, Hlf.
    unfold u64. by rewrite Zminus_mod_idemp_l.
  - assert (forall o x, owns k' o x -> owns k o x /\ x <> a) as Hown.
    { intros o x Ho. assert (owns k o x) as Ho'.
      { destruct o as [|t|c]; [done|done|]. cbn [owns] in *. rewrite Hsg in Ho. case_decide; [subst c|done].
        split; [done|]. by destruct Ho as [_ [_ Ho]%list_elem_of_filter]. }
      split; [done|]. intros ->.
      assert (o = SignalsOf cpu) as -> by (by apply (mo_unique _ (ki_mem _ _ _ Hk) _ _ a)).
      destruct Ho as [_ Ho]. rewrite Hsg, decide_True in Ho by done. by apply list_elem_of_filter in Ho as [? _]. }
    destruct (ki_mem _ _ _ Hk) as [_ Hlv Hu]. split; [done| |].
    + intros o x [Ho Hx]%Hown. destruct (Hlv o x Ho) as [n Hn]. exists n. by apply Hbl.
    + intros o o' x [Ho _]%Hown [Ho' _]%Hown. by apply (Hu o o' x).
Qed.

(** The traversal runs with the lock held. *)
Lemma wp_deliver cpu handler tid s k l : is_cpu cpu -> handler <> 0 ->
  kinv None None (unlock_sigs cpu k) -> NoDup (sig_at <$> s :: l) ->
  (forall x, x ∈ s :: l -> x ∈ sig_list (local_sig_list k cpu)) ->
  wp (deliver cpu handler tid s) (fun _ k' => kinv None None (unlock_sigs cpu k') /\
    running_thread k' = running_thread k /\ suspended k' = suspended k /\ tcbs k' = tcbs k /\ lists k' = lists k /\
    forall x, x ∈ l -> x ∈ sig_list (local_sig_list k' cpu)) k.
Proof.
  intros Hcpu Hh Hk [Hns Hnd]%NoDup_cons Hl. unfold deliver. apply wp_when; intros _.
  2: { split_and!; try done. intros x Hx. apply Hl. by right. }
  unfold call_handler. rewrite (proj2 (Z.eqb_neq _ _)) by done.
  apply wp_bind, wp_modify, wp_bind, wp_modify, wp_bind, wp_zoom.
  assert (s ∈ sig_list (local_sig_list k cpu)) as Hs by (apply Hl; by left).
  assert (sig_at s ∈ sig_at <$> sig_list (local_sig_list (unlock_sigs cpu k) cpu)) as Hin.
  { apply list_elem_of_fmap. exists s. split; [done|]. cbn. by rewrite fupd_eq. }
  apply wp_release.
  - apply (ki_mem _ _ _ Hk).
  - right. by apply (mo_live _ (ki_mem _ _ _ Hk) (SignalsOf cpu)).
  - intros r m' Hf. apply wp_ret. split_and!; try done.
    + pose proof (kinv_remove_sig _ cpu _ m' Hk Hcpu Hin Hf) as Hk'.
      eapply kinv_sigs_ext; [exact Hk'|done..|]. intros c. cbn. unfold fupd. by repeat (case_decide; cbn).
    + intros x Hx. cbn. rewrite fupd_eq. cbn. apply list_elem_of_filter. split; [|apply Hl; by right].
      intros E. apply Hns. rewrite <- E. by apply list_elem_of_fmap_2.
Qed.

Lemma wp_do_signal cpu handler tid k : is_cpu cpu -> handler <> 0 -> kinv None None k ->
  wp (do_signal cpu handler tid) (fun _ k' => kinv None None k' /\
    running_thread k' = running_thread k /\ suspended k' = suspended k /\ tcbs k' = tcbs k /\
    lists k' = lists k) k.
Proof.
  intros Hcpu Hh Hk. destruct (ki_sigs _ _ _ Hk cpu Hcpu) as (Hl & Hc & Hnd).
  unfold do_signal, on_sig_lock. apply wp_bind, wp_bind, wp_gets. rewrite Hl. cbn [spinlock_lock Z.eqb].
  apply wp_modify. apply wp_bind, wp_gets, wp_bind.
  match goal with |- wp _ _ ?s => set (k1 := s) end.
  assert (kinv None None (unlock_sigs cpu k1)) as Hk1.
  { eapply kinv_sigs_ext; [exact Hk|done..|]. intros c. cbn. unfold fupd. repeat (case_decide; cbn); try done.
    subst c. destruct (local_sig_list k cpu). cbn in *. by subst. }
  apply (wp_for_each (fun l k' => kinv None None (unlock_sigs cpu k') /\
    running_thread k' = running_thread k /\ suspended k' = suspended k /\ tcbs k' = tcbs k /\
    lists k' = lists k /\ NoDup (sig_at <$> l) /\
    forall x, x ∈ l -> x ∈ sig_list (local_sig_list k' cpu))).
  - split_and!; try done. cbn. by rewrite fupd_eq.
  - intros s l k2 (Hk2 & Er & Es & Et & El & Hnd2 & Hin). eapply wp_mono; [by apply (wp_deliver _ _ _ _ _ l)|].
    intros ? k3 (? & ? & ? & ? & ? & ?). apply NoDup_cons in Hnd2 as [_ ?].
    split_and!; try done; congruence.
  - intros k2 (Hk2 & Er & Es & Et & El & _). apply wp_bind, wp_gets, wp_modify. by split_and!.
Qed.

Lemma wp_signal_handling cpu t k : is_cpu cpu -> kinv None None k -> is_Some (tcbs k !! t) ->
  wp (signal_handling cpu t) (fun _ k' => kinv None None k' /\
    running_thread k' = running_thread k /\ suspended k' = suspended k /\ lists k' = lists k /\
    forall x, x <> t -> tcbs k' !! x = tcbs k !! x) k.
Proof.
  intros Hcpu Hk [b Hb]. apply wp_bind, (wp_get_TCB _ b); [done|].
  destruct (ki_tcb _ _ _ Hk t b Hb) as (H1 & H2 & H3 & H4 & H5 & H6).
  apply wp_when; intros Hfl; [|by split_and!]. apply wp_bind.
  eapply wp_mono; [apply wp_do_signal; [done| |done]|].
  { apply H5. intros E. by rewrite E in Hfl. }
  intros ? k1 (Hk1 & Er & Es & Et & El). apply (wp_upd_TCB _ b); [by rewrite Et|].
  split_and!; [|done|done|done|].
  - eapply kinv_set_aux; [exact Hk1|by rewrite Et|done|]. refine (conj H1 (conj H2 (conj H3 (conj H4 (conj _ H6))))). done.
  - intros x Hx. cbn. rewrite lookup_insert_ne by done. by rewrite Et.
Qed.

(** ** Switching threads *)

(** Another thread of the core, or its idle thread, takes over. *)
Lemma kinv_switch cpu next k : kinv (Some cpu) None k -> running_thread k cpu <> None ->
  (next = cpu \/ next ∈ members k (Runnable cpu)) -> is_cpu cpu ->
  kinv None None (k <| running_thread := fupd (running_thread k) cpu (Some next) |>).
Proof.
  intros Hk Hcur Hnext Hcpu. constructor; try apply Hk.
  - intros c b Hc Hb. destruct (ki_idle _ _ _ Hk c b Hc Hb) as (? & ? & ? & Hr). split_and!; try done.
    cbn. unfold fupd. case_decide as E; [|done]. rewrite Hr, E. by destruct (running_thread k cpu).
  - intros c t. cbn. unfold fupd. case_decide as E; [subst c|].
    + intros [= <-]. split; [done|]. tauto.
    + intros Ht. destruct (ki_running _ _ _ Hk c t Ht) as (? & [|[|[[= ->] _]]]); [tauto|tauto|done].
  - destruct (ki_mem _ _ _ Hk). by constructor.
Qed.

(** The thread keeps the core. *)
Lemma kinv_stay cpu cur k : kinv (Some cpu) None k -> running_thread k cpu = Some cur ->
  (cur = cpu \/ cur ∈ members k (Runnable cpu)) -> kinv None None k.
Proof.
  intros Hk Hcur Hor. constructor; try apply Hk. intros c t Ht.
  destruct (ki_running _ _ _ Hk c t Ht) as (? & [|[|[[= ->] _]]]); [tauto|tauto|].
  rewrite Hcur in Ht. injection Ht as <-. tauto.
Qed.

(** Nothing but the timer of the core changes. *)
Record timed (k k' : kernel) : Prop := {
  ti_inv : forall sw lk, kinv sw lk k -> kinv sw lk k';
  ti_running : running_thread k' = running_thread k;
  ti_susp : suspended k' = suspended k;
  ti_lists : lists k' = lists k;
  ti_tcbs : tcbs k' = tcbs k
}.

Lemma wp_start_slice sw lk cpu t b k (Q : unit -> kernel -> Prop) : kinv sw lk k -> tcbs k !! t = Some b ->
  (forall k', timed k k' -> Q tt k') -> wp (start_slice cpu t) Q k.
Proof.
  intros Hk Hb HQ. apply wp_bind, (wp_get_TCB _ b); [done|]. apply wp_on_lapic.
  unfold lapic_start_timer_oneshot. apply wp_bind, wp_gets, wp_bind, wp_write_ok; [by eapply lapic_of_ok|].
  intros l1 Hl1. apply wp_bind, wp_write_ok; [done|]. intros l2 Hl2. apply wp_write_ok; [done|].
  intros l3 Hl3. apply HQ. constructor; try done. intros ? ? ?. by apply kinv_with_lapic.
Qed.

(** A control block changes in a way its list does not see. *)
Lemma kinv_alive_tweak sw lk k t b b' : kinv sw lk k -> alive k t b ->
  (stack_base b', refc b', running_core b', core_mask b') =
  (stack_base b, refc b, running_core b, core_mask b) ->
  (state b' = state b \/ (state b' = RUNNING /\ (forall n, valid n -> t ∈ members k n -> exists c, n = Runnable c))) ->
  tcb_ok t b' -> kinv sw lk (set_tcb t b' k).
Proof.
  intros Hk (Hb & Hs & Hr) [= E1 E2 E3 E4] Hst Hok.
  eapply kinv_set_tcb; [exact Hk|exact Hb|done| | |done|].
  - destruct Hst as [-> |[-> _]]; [done|]. by split.
  - intros n Hn Hm Hf. unfold fits, allowed, core_is_allowed in *. rewrite E2, E3, E4.
    destruct Hst as [-> |[Est Hrn]]; [destruct n; naive_solver|].
    destruct (Hrn n Hn Hm) as [c ->]. rewrite Est. naive_solver.
  - intros _ (? & ? & ? & ?). unfold idle_ok. rewrite E2, E3. destruct Hst as [-> |[-> _]]; done.
Qed.

Lemma current_tcb cpu cur k : kinv None None k -> running_thread k cpu = Some cur ->
  exists b, alive k cur b /\ running_core b = cpu /\ tcb_ok cur b /\ is_cpu cpu.
Proof.
  intros Hk Hcur. destruct (ki_running _ _ _ Hk cpu cur Hcur) as [Hic Hor].
  destruct (running_some _ _ _ _ _ Hk Hcur) as [b Hb].
  exists b. destruct (current_alive _ _ _ _ _ _ Hk Hcur Hb). split_and!; try done. by apply (ki_tcb _ _ _ Hk).
Qed.

(** ** [schedule] *)

(** What a call on core [cpu] leaves: the tables in order, a thread running on the
    core, the other cores untouched. *)
Definition after_call (cpu : Z) (k k' : kernel) : Prop :=
  kinv None None k' /\ running_thread k' cpu <> None /\
  forall c, c <> cpu -> running_thread k' c = running_thread k c.

Lemma kinv_selecting cpu cur k : kinv None None k -> is_cpu cpu -> running_thread k cpu = Some cur ->
  selecting cpu cur k.
Proof.
  intros Hk Hic Hcur. constructor; [by apply kinv_switching|done|]. intros Hx. exfalso.
  destruct (ki_running _ _ _ Hk cpu cur Hcur) as [_ [->|[Hr|[? _]]]]; [| |done].
  - pose proof (kinv_lt _ _ _ _ _ Hk (Hic : valid (Blocked cpu)) Hx). unfold is_cpu in Hic. lia.
  - by pose proof (ki_apart _ _ _ Hk (Runnable cpu) (Blocked cpu) cur Hic Hic Hr Hx).
Qed.

Section schedule.
Context (cpu cur : Z).
Hypothesis Hcpu : 0 <= cpu < 256.

Let Hic : is_cpu cpu := small_cpu cpu Hcpu.

Lemma selecting_refill k t b (Q : Z -> kernel -> Prop) : selecting cpu cur k -> tcbs k !! t = Some b -> t <> cur ->
  (forall k' b', selecting cpu cur k' -> running_thread k' = running_thread k -> suspended k' = suspended k ->
     lists k' = lists k -> tcbs k' !! t = Some b' -> intention b' = intention b ->
     (forall x, x <> t -> tcbs k' !! x = tcbs k !! x) -> Q 0 k') ->
  wp (refill_time_slice t) Q k.
Proof.
  intros [Hk Hcur Hbl] Hb Ht HQ. eapply wp_refill; [exact Hk|exact Hb|].
  intros b' -> k' Hk' Hrest Hsus Hl Htcbs. eapply HQ; [|apply Hrest|done|done|by rewrite Htcbs, lookup_insert_eq|done|].
  - constructor; [done|by rewrite (rs_running _ _ Hrest)|]. unfold members, quiet_in in *.
    rewrite Hl, Htcbs, lookup_insert_ne by done. done.
  - intros x Hx. by rewrite Htcbs, lookup_insert_ne.
Qed.

(** The rest of the switch, once the next thread is set up. *)
Lemma wp_switch_to sp next k b : kinv None None k -> running_thread k cpu = Some next ->
  leaving cpu next cur k -> tcbs k !! cur = Some b ->
  wp (switch_to cpu sp cur next) (fun _ k' => kinv None None k' /\ running_thread k' = running_thread k) k.
Proof.
  intros Hk Hnow Hlv Hb. destruct (leaving_tcb _ _ _ _ Hk Hic Hlv) as (? & Hb' & Hok & He & Hna).
  rewrite Hb in Hb'. injection Hb' as <-.
  unfold switch_to. apply wp_bind, (wp_upd_TCB _ b); [done|]. apply wp_bind, wp_get, wp_bind, wp_put.
  set (k1 := set_tcb cur (b <| stack := sp |>) k <| suspended := _ |>).
  assert (kinv None None k1) as Hk1.
  { eapply (kinv_same _ _ (set_tcb cur (b <| stack := sp |>) k)); [|done..].
    eapply kinv_set_tcb; [exact Hk|exact Hb|done|done| |done|done].
    intros n _ _. destruct n; try done; by intros [? _]. }
  assert (leaving cpu next cur k1) as Hlv1.
  { destruct Hlv as [|[[? Hq]|[? Hq]]]; [by left|right; left|right; right]; (split; [done|]);
      unfold quiet_in in *; cbn; rewrite lookup_insert_eq; rewrite Hb in Hq; done. }
  assert (wp (post_context_switch cpu cur) (fun _ k' => kinv None None k' /\
    running_thread k' = running_thread k) k1) as Hpost.
  { eapply wp_mono; [by apply (wp_post_context_switch _ Hcpu k1 next)|]. by intros ? ? (? & ? & _). }
  case_bool_decide; [|exact Hpost]. apply wp_bind. eapply wp_mono; [exact Hpost|].
  intros ? k2 [Hk2 Er2]. eapply wp_mono.
  { apply wp_signal_handling; [done|done|].
    destruct (current_tcb cpu next k2 Hk2) as (c & [Hc _] & _); [by rewrite Er2|]. by exists c. }
  intros ? k3 (Hk3 & Er3 & _). split; [done|congruence].
Qed.

Lemma next_tcb k next : selecting cpu cur k -> (next = cpu \/ next ∈ members k (Runnable cpu)) ->
  exists b, alive k next b /\ running_core b = cpu /\ tcb_ok next b.
Proof.
  intros [Hk Hcur _] [->|Hm].
  - destruct (proj2 (ki_dom _ _ _ Hk cpu)) as [b Hb]; [unfold NTHREAD, MAX_PROCESSOR_COUNT, CONFIG_NUM_THREAD; lia|].
    exists b. destruct (ki_idle _ _ _ Hk cpu b Hic Hb) as (? & ? & ? & Hr). rewrite Hcur in Hr.
    split_and!; try done. by apply (ki_tcb _ _ _ Hk).
  - destruct (member_tcb _ _ _ Hk (Runnable cpu) next Hic Hm) as (_ & b & Hb & Hf & Hok). exists b.
    split_and!; [|by apply Hf|done].
    apply (member_alive _ _ _ (Runnable cpu) _ _ Hk); [done|by intros []|done|done].
Qed.

(** The thread that runs before the switch. *)
Lemma selecting_leaving k k' next : selecting cpu cur k -> next <> cur -> lists k' = lists k ->
  tcbs k' !! cur = tcbs k !! cur -> leaving cpu next cur k'.
Proof.
  intros [Hk Hcur Hbl] Hne Hl Ht. unfold leaving, members, quiet_in in *. rewrite Hl, Ht.
  destruct (ki_running _ _ _ Hk cpu cur Hcur) as [_ [->|[Hx|[_ Hx]]]]; [by left|right; left|right; right].
  - split; [done|]. by intros ->.
  - split; [done|]. by apply Hbl.
Qed.

Lemma wp_go sp next k : selecting cpu cur k -> next <> cur ->
  (next = cpu \/ next ∈ members k (Runnable cpu)) ->
  wp (let! n := get_TCB next in
      when (remaining_time_slice n <=? 0) (refill_time_slice next ;; ret tt) ;;
      start_slice cpu next ;;
      upd_TCB next (fun b => b <| running_core := cpu |>) ;;
      modify (fun k => k <| running_thread := fupd (running_thread k) cpu (Some next) |>) ;;
      switch_to cpu sp cur next ;;
      ret FALSE)
     (fun _ k' => kinv None None k' /\ running_thread k' = fupd (running_thread k) cpu (Some next)) k.
Proof.
  intros Hs Hne Hor. destruct (next_tcb k next Hs Hor) as (b & (Hb & _) & _).
  destruct (running_some _ _ _ _ _ (se_inv _ _ _ Hs) (se_cur _ _ _ Hs)) as [bc Hbc].
  apply wp_bind, (wp_get_TCB _ b); [done|]. apply wp_bind.
  apply (wp_mono _ (fun _ k' => selecting cpu cur k' /\ running_thread k' = running_thread k /\
    lists k' = lists k /\ tcbs k' !! cur = tcbs k !! cur)).
  { apply wp_when; intros _; [|by split_and!]. apply wp_bind. eapply selecting_refill; [exact Hs|exact Hb|done|].
    intros k' b' Hs' Er _ El _ _ Ho. apply wp_ret. split_and!; try done. by apply Ho. }
  intros ? k1 (Hs1 & Er1 & El1 & Et1).
  assert (next = cpu \/ next ∈ members k1 (Runnable cpu)) as Hor1 by (unfold members; by rewrite El1).
  destruct (next_tcb k1 next Hs1 Hor1) as (b1 & Ha1 & Hco1 & Hok1). apply wp_bind.
  eapply wp_start_slice; [apply Hs1|apply Ha1|]. intros k2 [Hi2 Er2 Es2 El2 Et2].
  assert (alive k2 next b1) as Ha2 by (unfold alive; by rewrite Et2).
  apply wp_bind. eapply wp_upd_TCB; [apply Ha2|]. apply wp_bind, wp_modify.
  set (k3 := set_tcb next (b1 <| running_core := cpu |>) k2).
  assert (kinv (Some cpu) None k3) as Hk3.
  { eapply kinv_alive_tweak; [apply Hi2, Hs1|exact Ha2|cbn; by rewrite Hco1|by left|exact Hok1]. }
  assert (selecting cpu cur k3) as Hs3.
  { destruct Hs1 as [_ Hc Hbl]. constructor; [done|by cbn; rewrite Er2|]. unfold members, quiet_in in *. cbn.
    rewrite lookup_insert_ne, El2, Et2 by done. done. }
  apply wp_bind. eapply wp_mono.
  { eapply (wp_switch_to sp next).
    - apply kinv_switch; [exact Hk3| | |done].
      + by rewrite (se_cur _ _ _ Hs3).
      + unfold members, k3. cbn. by rewrite El2.
    - cbn. by rewrite fupd_eq.
    - eapply (selecting_leaving k3); done.
    - cbn. rewrite lookup_insert_ne by done. rewrite Et2, Et1. exact Hbc. }
  intros ? k4 [Hk4 Er4]. apply wp_ret. split; [done|]. rewrite Er4. cbn. by rewrite Er2, Er1.
Qed.

(** The current thread goes on. *)
Lemma wp_go_on k : selecting cpu cur k ->
  (cur = cpu \/ (cur ∈ members k (Runnable cpu) /\ quiet_in k cur)) ->
  wp (refill_time_slice cur ;;
      start_slice cpu cur ;;
      post_context_switch cpu cur ;;
      set_state cur RUNNING ;;
      clear_intention cur THREAD_INTENTION_READY ;;
      ret TRUE)
     (fun _ k' => kinv None None k' /\ running_thread k' = running_thread k) k.
Proof.
  intros [Hk Hcur _] Hor. assert (kinv None None k) as Hk0 by (apply (kinv_stay cpu cur); [done|done|tauto]).
  destruct (running_some _ _ _ _ _ Hk Hcur) as [b Hb].
  apply wp_bind. eapply wp_refill; [exact Hk0|exact Hb|]. intros b' -> k1 Hk1 Hrest _ El1 Et1.
  apply wp_bind. eapply wp_start_slice; [exact Hk1|by rewrite Et1, lookup_insert_eq|].
  intros k2 [Hi2 Er2 Es2 El2 Et2]. pose proof (Hi2 _ _ Hk1) as Hk2.
  assert (running_thread k2 = running_thread k) as Er by (rewrite Er2; apply Hrest).
  apply wp_bind. eapply wp_mono.
  { apply (wp_post_context_switch _ Hcpu k2 cur cur); [done|by rewrite Er|].
    destruct Hor as [->|[Hm Hq]]; [by left|right; left]. unfold members, quiet_in in *.
    rewrite El2, El1, Et2, Et1, lookup_insert_eq. rewrite Hb in Hq. done. }
  intros ? k3 (Hk3 & Er3 & _ & _). assert (running_thread k3 cpu = Some cur) as Hc3 by congruence.
  destruct (current_tcb cpu cur k3 Hk3 Hc3) as (b3 & Ha3 & Hco3 & Hok3 & _).
  apply wp_bind. eapply wp_upd_TCB; [apply Ha3|]. apply wp_bind.
  eapply wp_clear_intention; [apply lookup_set_tcb|apply Hok3|]. apply wp_ret. rewrite set_tcb_tcb.
  split; [|cbn; congruence].
  eapply kinv_alive_tweak; [exact Hk3|exact Ha3|done|right|exact (tcb_ok_restate _ _ RUNNING _ Hok3)].
  split; [done|]. intros n Hn Hm. destruct (ki_running _ _ _ Hk3 cpu cur Hc3) as [_ [->|[Hx|[? _]]]]; [|by exists cpu; apply (ki_apart _ _ _ Hk3 n (Runnable cpu) cur)|done].
  pose proof (kinv_lt _ _ _ _ _ Hk3 Hn Hm). unfold MAX_PROCESSOR_COUNT in *. lia.
Qed.

Lemma wp_select k : kinv None None k -> running_thread k cpu = Some cur ->
  wp (select_next_thread cpu) (selected cpu cur (env k)) k.
Proof.
  intros Hk Hcur. destruct (current_tcb cpu cur k Hk Hcur) as (b & Ha & Hco & _ & _).
  unfold select_next_thread. apply wp_bind, wp_bind, wp_gets. rewrite Hcur. apply wp_ret, wp_bind, (wp_get_TCB _ b); [apply Ha|].
  rewrite Hco. apply wp_select_loop; [done|by apply kinv_selecting|lia|lia].
Qed.

(** The idle thread is never asked to block or to exit. *)
Definition may_ask (i : Z) : Prop :=
  0 <= i < 64 /\ (cur < MAX_PROCESSOR_COUNT ->
    has i THREAD_INTENTION_BLOCKED = false /\ has i THREAD_INTENTION_EXITED = false).

(** Time is charged to the current thread, which then says what it wants. *)
Lemma wp_begin {A} i k (m : M kernel A) (Q : A -> kernel -> Prop) :
  kinv None None k -> running_thread k cpu = Some cur -> may_ask i ->
  (forall k', kinv None None k' -> running_thread k' = running_thread k -> lists k' = lists k ->
     (forall t, t <> cur -> tcbs k' !! t = tcbs k !! t) -> wp m Q k') ->
  wp (charge cpu ;; add_intention cur i ;; m) Q k.
Proof.
  intros Hk Hcur [Hi Hmay] HQ. destruct (current_tcb cpu cur k Hk Hcur) as (b & Ha & _).
  apply wp_bind. eapply wp_mono; [apply (wp_charge cpu cur); [done|done|eexists; apply Ha]|].
  intros ? k1 [Hk1 Er1 Es1 El1 Eo1 Ec1].
  destruct (current_tcb cpu cur k1 Hk1) as (b1 & Ha1 & _ & Hok1 & _); [by rewrite Er1|].
  apply wp_bind. eapply wp_add_intention; [apply Ha1|apply Hok1|done|].
  apply HQ; [|done|done|].
  - eapply kinv_set_aux; [exact Hk1|apply Ha1|done|]. destruct Hok1 as (H1 & H2 & H3 & H4 & H5 & H6).
    refine (conj H1 (conj H2 (conj (add_range _ _ H3 Hi) (conj H4 (conj H5 _))))). intros Hid.
    destruct (H6 Hid) as [Hb He], (Hmay Hid) as [Hb' He'].
    split; [refine (eq_trans (has_add _ 4 i _) _)|refine (eq_trans (has_add _ 5 i _) _)]; try done; apply orb_false_iff; done.
  - intros t Ht. cbn. rewrite lookup_insert_ne by done. by apply Eo1.
Qed.

(** The switch has happened, to [next]. *)
Lemma after_switch k k1 k' next : running_thread k1 = running_thread k -> kinv None None k' ->
  running_thread k' = fupd (running_thread k1) cpu (Some next) -> after_call cpu k k'.
Proof.
  intros E Hk' Er. split_and!; [done|by rewrite Er, fupd_eq|].
  intros c Hc. by rewrite Er, fupd_ne, E by done.
Qed.

Lemma after_stay k k1 k' : running_thread k1 = running_thread k -> running_thread k cpu = Some cur ->
  kinv None None k' -> running_thread k' = running_thread k1 -> after_call cpu k k'.
Proof. intros E Hcur Hk' Er. split_and!; [done|by rewrite Er, E, Hcur|]. intros c _. by rewrite Er, E. Qed.

Lemma wp_schedule sp i k : kinv None None k -> running_thread k cpu = Some cur -> may_ask i ->
  wp (schedule cpu sp i) (fun _ k' => after_call cpu k k') k.
Proof.
  intros Hk Hcur Hi. destruct (current_tcb cpu cur k Hk Hcur) as (b & Ha & Hco & _).
  unfold schedule. apply wp_bind, wp_bind, wp_gets. rewrite Hcur. apply wp_ret, wp_bind, (wp_get_TCB _ b); [apply Ha|].
  rewrite Hco. apply wp_begin; [done..|]. intros k2 Hk2 Er2 _ _.
  assert (running_thread k2 cpu = Some cur) as Hc2 by (by rewrite Er2).
  apply wp_bind. eapply wp_mono; [by apply wp_select|].
  intros next k3 (Hs3 & [= _ Er3] & Hn). rewrite <- Er3 in Er2. destruct (Z.eqb_spec next cur) as [->|Hne].
  - eapply wp_mono; [by apply wp_go_on|]. intros ? k4 [Hk4 Er4]. by eapply after_stay.
  - eapply wp_mono; [apply wp_go; [done|done|tauto]|]. intros ? k4 [Hk4 Er4]. by eapply after_switch.
Qed.

(** *** [schedule_to] *)

(** The end of [schedule_to]: the thread, looked up, takes the core. *)
Lemma wp_enter sp next b k : selecting cpu cur k -> next <> cur ->
  (next = cpu \/ next ∈ members k (Runnable cpu)) -> tcbs k !! next = Some b ->
  wp (upd_TCB next (fun b => b <| running_core := cpu |>) ;;
      modify (fun k => k <| running_thread := fupd (running_thread k) cpu (Some next) |>) ;;
      put_tcb cpu next ;;
      switch_to cpu sp cur next ;;
      ret FALSE)
     (fun _ k' => kinv None None k' /\ running_thread k' = fupd (running_thread k) cpu (Some next))
     (set_tcb next (b <| refc := 2 |>) k).
Proof.
  intros Hs Hne Hor Hb. destruct (next_tcb k next Hs Hor) as (b' & Ha & Hco & Hok).
  assert (b' = b) as -> by (destruct Ha; congruence).
  destruct (running_some _ _ _ _ _ (se_inv _ _ _ Hs) (se_cur _ _ _ Hs)) as [bc Hbc].
  apply wp_bind. eapply wp_upd_TCB; [apply lookup_set_tcb|]. apply wp_bind, wp_modify, wp_bind.
  eapply wp_put_tcb; [apply lookup_set_tcb|done|]. apply wp_bind.
  match goal with |- wp _ _ ?s => set (k3 := s) end.
  assert (k3 = k <| running_thread := fupd (running_thread k) cpu (Some next) |>) as E3.
  { unfold k3, set_tcb. cbn. rewrite !insert_insert_eq, insert_id; [by destruct k|].
    rewrite Hb. destruct Ha as (_ & _ & Hr). destruct b. cbn in *. by subst. }
  eapply wp_mono.
  { eapply (wp_switch_to sp next); rewrite E3.
    - apply kinv_switch; [apply Hs|by rewrite (se_cur _ _ _ Hs)|done|done].
    - cbn. by rewrite fupd_eq.
    - by eapply (selecting_leaving k).
    - exact Hbc. }
  intros ? k4 [Hk4 Er4]. apply wp_ret. split; [done|]. by rewrite Er4, E3.
Qed.

(** The slice and the timer of a thread that has been looked up; [k] need not
    satisfy the invariant, since the reference taken is not in it. *)
Lemma wp_slice {A} t b k (m : M kernel A) (Q : A -> kernel -> Prop) : tcbs k !! t = Some b -> tcb_ok t b ->
  ticks_ok (lapic_ticks k) ->
  (forall r l, lapic_ok l -> wp m Q (with_lapic cpu l (set_tcb t (b <| remaining_time_slice := r |>) k))) ->
  wp (when (remaining_time_slice b <=? 0) (refill_time_slice t ;; ret tt) ;; start_slice cpu t ;; m) Q k.
Proof.
  intros Hb (Hts & Hq & _) Ht HQ.
  assert (forall r, wp (start_slice cpu t ;; m) Q (set_tcb t (b <| remaining_time_slice := r |>) k)) as Hst.
  { intros r. apply wp_bind, wp_bind. eapply wp_get_TCB; [apply lookup_set_tcb|]. apply wp_on_lapic.
    assert (lapic_ok (lapic_of (set_tcb t (b <| remaining_time_slice := r |>) k) cpu)) as Hl.
    { unfold lapic_ok. cbn. by destruct (lapic_ticks k). }
    unfold lapic_start_timer_oneshot. apply wp_bind, wp_gets, wp_bind, wp_write_ok; [done|].
    intros l1 Hl1. apply wp_bind, wp_write_ok; [done|]. intros l2 Hl2. apply wp_write_ok; [done|].
    intros l3 Hl3. by apply HQ. }
  apply wp_bind. apply wp_when; intros E.
  - unfold refill_time_slice. apply wp_bind, wp_bind, (wp_get_TCB _ b); [done|]. rewrite E, Hq.
    apply wp_bind, wp_put_TCB, wp_ret, wp_ret. apply Hst.
  - specialize (Hst (remaining_time_slice b)). unfold set_tcb in Hst. rewrite insert_id in Hst; [by destruct k|].
    rewrite Hb. by destruct b.
Qed.

(** What the two ways of choosing the next thread end in. *)
Definition chosen (k : kernel) (go : option Z) (k' : kernel) : Prop :=
  match go with
  | None => kinv None None k' /\ running_thread k' = running_thread k
  | Some next => exists b k1, k' = set_tcb next (b <| refc := 2 |>) k1 /\ selecting cpu cur k1 /\
      next <> cur /\ (next = cpu \/ next ∈ members k1 (Runnable cpu)) /\ tcbs k1 !! next = Some b /\
      running_thread k1 = running_thread k
  end.

(** The thread asked for is in the run queue of the core. *)
Lemma wp_direct next b k : kinv None None k -> running_thread k cpu = Some cur -> next <> cur ->
  next ∈ members k (Runnable cpu) -> tcbs k !! next = Some b ->
  wp (when (remaining_time_slice (b <| refc := 2 |>) <=? 0) (refill_time_slice next ;; ret tt) ;;
      start_slice cpu next ;;
      pick cpu next ;;
      ret (Some next)) (chosen k) (set_tcb next (b <| refc := 2 |>) k).
Proof.
  intros Hk Hcur Hne Hm Hb.
  pose proof (member_alive _ _ _ (Runnable cpu) _ _ Hk Hic ltac:(by intros []) Hm Hb) as Ha.
  pose proof (ki_tcb _ _ _ Hk next b Hb) as Hok.
  eapply (wp_slice next (b <| refc := 2 |>)); [apply lookup_set_tcb|exact Hok|apply (ki_ticks _ _ _ Hk)|].
  intros r l Hl. apply wp_bind. unfold pick. apply wp_bind. eapply wp_upd_TCB; [apply lookup_set_tcb|].
  unfold cpu_index. pose proof Hic as [H0 H1]. rewrite (proj2 (Z.leb_le _ _)), (proj2 (Z.ltb_lt _ _)) by done.
  apply wp_bind, wp_ret, wp_modify, wp_ret.
  set (b' := b <| remaining_time_slice := r |> <| state := RUNNING |>).
  set (k1 := with_lapic cpu l (set_tcb next b' k)
    <| g_running_thread_list := fupd (g_running_thread_list k) cpu (Some next) |>).
  assert (kinv None None k1) as Hk1.
  { eapply (kinv_same _ _ (with_lapic cpu l (set_tcb next b' k))); [|done..]. apply kinv_with_lapic; [|done].
    eapply kinv_alive_tweak; [exact Hk|exact Ha|done|right|exact Hok]. split; [done|].
    intros n Hn Hx. exists cpu. by apply (ki_apart _ _ _ Hk n (Runnable cpu) next). }
  exists b', k1. split_and!; [|by apply kinv_selecting|done|by right|apply lookup_insert_eq|done].
  unfold k1, b', set_tcb, with_lapic. cbn. by rewrite !insert_insert_eq.
Qed.

(** It is not: the core chooses as in [schedule]. *)
Lemma wp_elsewhere k : kinv None None k -> running_thread k cpu = Some cur ->
  wp (let! next := select_next_thread cpu in
      let! n := get_TCB next in
      when (remaining_time_slice n <=? 0) (refill_time_slice next ;; ret tt) ;;
      start_slice cpu next ;;
      if next =? cur then
        set_state cur RUNNING ;;
        post_context_switch cpu cur ;;
        ret None
      else
        get_tcb next ;;
        ret (Some next)) (chosen k) k.
Proof.
  intros Hk Hcur. apply wp_bind. eapply wp_mono; [by apply wp_select|].
  intros next k1 (Hs1 & [= _ Er1] & Hn).
  assert (next = cpu \/ next ∈ members k1 (Runnable cpu)) as Hn' by tauto.
  destruct (next_tcb k1 next Hs1 Hn') as (b & Ha & Hco & Hok). pose proof (se_inv _ _ _ Hs1) as Hk1.
  apply wp_bind, (wp_get_TCB _ b); [apply Ha|].
  eapply (wp_slice next b); [apply Ha|exact Hok|apply (ki_ticks _ _ _ Hk1)|]. intros r l Hl.
  set (b' := b <| remaining_time_slice := r |>). set (k2 := with_lapic cpu l (set_tcb next b' k1)).
  assert (forall sw, kinv sw None k1 -> kinv sw None k2) as Hi2.
  { intros sw H. apply kinv_with_lapic; [|done]. eapply kinv_set_aux; [exact H|apply Ha|done|exact Hok]. }
  assert (alive k2 next b') as Ha2 by (split; [apply lookup_insert_eq|apply Ha]).
  destruct (Z.eqb_spec next cur) as [->|Hne].
  - assert (kinv None None k2) as Hk2 by (apply Hi2, (kinv_stay cpu cur); [done|apply Hs1|done]).
    apply wp_bind. eapply wp_upd_TCB; [apply Ha2|]. apply wp_bind.
    match goal with |- wp _ _ ?s => set (k3 := s) end.
    assert (kinv None None k3) as Hk3.
    { eapply kinv_alive_tweak; [exact Hk2|exact Ha2|done|right|exact Hok]. split; [done|].
      intros n Hv Hm. destruct Hn' as [->|Hx]; [|by exists cpu; apply (ki_apart _ _ _ Hk1 n (Runnable cpu) cur)].
      pose proof (kinv_lt _ _ _ _ _ Hk2 Hv Hm). unfold MAX_PROCESSOR_COUNT in *. lia. }
    eapply wp_mono; [apply (wp_post_context_switch _ Hcpu k3 cur cur); [done|apply Hs1|]|].
    + destruct Hn as [->|[Hm Hq]]; [by left|right; left]. split; [exact Hm|]. intros _.
      unfold quiet_in in *. rewrite (proj1 Ha) in Hq. unfold k3. by rewrite lookup_set_tcb.
    + intros ? k4 (Hk4 & Er4 & _). apply wp_ret. split; [done|]. rewrite Er4. exact Er1.
  - apply wp_bind. eapply wp_get_tcb; [apply Hi2, Hk1|exact Ha2|]. apply wp_ret.
    exists b', k2. split_and!; [done| |done|done|apply Ha2|exact Er1].
    destruct Hs1 as [_ Hc Hbl]. constructor; [by apply Hi2|exact Hc|]. intros Hx%Hbl.
    unfold quiet_in in *. cbn. by rewrite lookup_insert_ne by done.
Qed.

(** [schedule_to] a thread other than the caller which, if this core is its core, is
    in the run queue. *)
Lemma wp_schedule_to sp tid b i k : kinv None None k -> running_thread k cpu = Some cur -> may_ask i ->
  tid <> cur -> alive k tid b -> (running_core b = cpu -> tid ∈ members k (Runnable cpu)) ->
  wp (schedule_to cpu sp tid i) (fun _ k' => after_call cpu k k') k.
Proof.
  intros Hk Hcur Hi Hne Ha Hq. destruct (current_tcb cpu cur k Hk Hcur) as (bc & Hac & Hco & _).
  unfold schedule_to. apply wp_bind, wp_bind, wp_gets. rewrite Hcur. apply wp_ret, wp_bind, (wp_get_TCB _ bc); [apply Hac|].
  rewrite Hco. apply wp_begin; [done..|]. intros k2 Hk2 Er2 El2 Et2.
  assert (running_thread k2 cpu = Some cur) as Hc2 by (by rewrite Er2).
  assert (alive k2 tid b) as Ha2 by (unfold alive; by rewrite Et2).
  destruct (current_tcb cpu cur k2 Hk2 Hc2) as (bc2 & Hac2 & Hco2 & _).
  apply wp_bind. eapply wp_get_tcb_ptr; [exact Hk2|exact Ha2|].
  apply wp_bind. eapply wp_get_TCB; [apply lookup_set_tcb|].
  apply wp_bind, (wp_get_TCB _ bc2); [cbn; rewrite lookup_insert_ne by done; apply Hac2|]. rewrite Hco2.
  set (k3 := set_tcb tid (b <| refc := 2 |>) k2).
  apply wp_bind. apply (wp_mono _ (fun direct k' => k' = k3 /\
    (direct = true -> tid ∈ members k2 (Runnable cpu)))).
  { cbn [running_core set_field]. destruct (Z.eqb_spec (running_core b) cpu) as [E|E]; [|apply wp_ret; done].
    assert (tid ∈ members k2 (Runnable cpu)) as Hm2 by (unfold members; rewrite El2; by apply Hq).
    destruct (member_tcb _ _ _ Hk2 (Runnable cpu) tid Hic Hm2) as (_ & b0 & Hb0 & (_ & _ & _ & Hal) & _).
    assert (b0 = b) as -> by (destruct Ha2; congruence). unfold allowed in Hal.
    match goal with |- context [lift ?x] => change x with (core_is_allowed b cpu) end. rewrite Hal.
    apply wp_bind, wp_ret, wp_ret. done. }
  intros direct ? [-> Hd]. apply wp_bind. apply (wp_mono _ (chosen k2)).
  { destruct direct; [apply wp_direct; try done; [by apply Hd|apply Ha2]|].
    apply wp_bind. eapply wp_put_tcb; [apply lookup_set_tcb|done|]. unfold k3. rewrite set_tcb_tcb.
    assert (set_tcb tid (b <| refc := 2 |> <| refc := 1 |>) k2 = k2) as ->; [|by apply wp_elsewhere].
    unfold set_tcb. rewrite insert_id; [by destruct k2|]. destruct Ha2 as (-> & _ & Hr). destruct b. cbn in *. by subst. }
  intros [next|] k4 Hch.
  - destruct Hch as (b4 & k5 & -> & Hs5 & Hne5 & Hor & Hb5 & Er5).
    eapply wp_mono; [by apply wp_enter|]. intros ? k6 [Hk6 Er6].
    eapply (after_switch k k5); [congruence|done|exact Er6].
  - destruct Hch as [Hk4 Er4]. apply wp_ret. by eapply (after_stay k k2).
Qed.
End schedule.

(** ** Marking a thread *)

Lemma tcb_ok_add t b i : tcb_ok t b -> 0 <= i < 64 ->
  (t < MAX_PROCESSOR_COUNT -> has i THREAD_INTENTION_BLOCKED = false /\ has i THREAD_INTENTION_EXITED = false) ->
  tcb_ok t (b <| intention := Z.lor i (intention b) |>).
Proof.
  intros (H1 & H2 & H3 & H4 & H5 & H6) Hi Hid.
  refine (conj H1 (conj H2 (conj (add_range _ _ H3 Hi) (conj H4 (conj H5 _))))). intros Ht.
  destruct (H6 Ht) as [Hb He], (Hid Ht) as [Hb' He'].
  split; [refine (eq_trans (has_add _ 4 i _) _)|refine (eq_trans (has_add _ 5 i _) _)];
    try done; by apply orb_false_iff.
Qed.

(** A thread is looked up, changed in a way its list does not see, and released. *)
Lemma wp_with_tcb cpu tid b (m : M TCB unit) (b2 : TCB) k (Q : Z -> kernel -> Prop) :
  kinv None None k -> alive k tid b ->
  wp m (fun _ b' => b' = b2 <| refc := 2 |>) (b <| refc := 2 |>) ->
  (stack b2, stack_base b2, state b2, refc b2, running_core b2, core_mask b2) =
  (stack b, stack_base b, state b, refc b, running_core b, core_mask b) -> tcb_ok tid b2 ->
  (forall k', k' = set_tcb tid b2 k -> kinv None None k' -> Q 0 k') ->
  wp (let! tcb := get_tcb_ptr tid in on_TCB tcb m ;; put_tcb cpu tcb ;; ret 0) Q k.
Proof.
  intros Hk Ha Hm E Hok HQ. apply wp_bind. eapply wp_get_tcb_ptr; [exact Hk|exact Ha|].
  apply wp_bind. eapply wp_on_TCB; [apply lookup_set_tcb|]. eapply wp_mono; [exact Hm|]. intros ? ? ->.
  rewrite set_tcb_tcb. apply wp_bind. eapply wp_put_tcb; [apply lookup_set_tcb|done|]. rewrite set_tcb_tcb.
  apply wp_ret. assert (b2 <| refc := 2 |> <| refc := 1 |> = b2) as E2.
  { injection E as _ _ _ Er _ _. destruct Ha as (_ & _ & Hr). rewrite Hr in Er. destruct b2. cbn in *. by rewrite Er. }
  cbn in E2 |- *. rewrite E2. apply HQ; [done|]. by eapply kinv_set_aux; [exact Hk|apply Ha|..].
Qed.

Lemma wp_or_intention b i : 0 <= intention b < 64 -> 0 <= i < 64 ->
  wp (zoom intention (atomic_or i)) (fun _ b' => b' = (b <| intention := Z.lor i (intention b) |>) <| refc := 2 |>)
     (b <| refc := 2 |>).
Proof.
  intros Hb Hi. apply wp_zoom, wp_modify. cbn. pose proof (add_range _ _ Hb Hi). by rewrite s32_small by lia.
Qed.

Lemma wp_wake_up cpu tid b k (Q : Z -> kernel -> Prop) : kinv None None k -> alive k tid b ->
  (forall k', k' = set_tcb tid (b <| intention := Z.lor THREAD_INTENTION_READY (intention b) |>) k ->
     kinv None None k' -> Q 0 k') ->
  wp (thread_wake_up cpu tid) Q k.
Proof.
  intros Hk Ha HQ. pose proof (ki_tcb _ _ _ Hk _ _ (proj1 Ha)) as Hok.
  eapply wp_with_tcb; [exact Hk|exact Ha|by apply wp_or_intention; [apply Hok|]|done| |exact HQ].
  by apply tcb_ok_add.
Qed.

Lemma wp_suspend cpu tid b k (Q : Z -> kernel -> Prop) : kinv None None k -> alive k tid b ->
  MAX_PROCESSOR_COUNT <= tid ->
  (forall k', k' = set_tcb tid (b <| intention := Z.lor THREAD_INTENTION_BLOCKED (intention b) |>) k ->
     kinv None None k' -> Q 0 k') ->
  wp (thread_suspend cpu tid) Q k.
Proof.
  intros Hk Ha Ht HQ. pose proof (ki_tcb _ _ _ Hk _ _ (proj1 Ha)) as Hok.
  eapply wp_with_tcb; [exact Hk|exact Ha|by apply wp_or_intention; [apply Hok|]|done| |exact HQ].
  apply tcb_ok_add; [done|done|lia].
Qed.

Lemma wp_exit cpu cur sp k : 0 <= cpu < 256 -> kinv None None k -> running_thread k cpu = Some cur ->
  MAX_PROCESSOR_COUNT <= cur -> wp (__thread_exit cpu sp) (fun _ k' => after_call cpu k k') k.
Proof.
  intros Hcpu Hk Hcur Hid. destruct (current_tcb cpu cur k Hk Hcur) as (b & Ha & _ & Hok & _).
  unfold __thread_exit. apply wp_bind, wp_bind, wp_gets. rewrite Hcur. apply wp_ret, wp_bind.
  eapply wp_get_tcb_ptr; [exact Hk|exact Ha|]. apply wp_bind. eapply wp_on_TCB; [apply lookup_set_tcb|].
  apply wp_zoom, wp_put. apply wp_bind. eapply wp_upd_TCB; [apply lookup_set_tcb|]. apply wp_bind.
  eapply wp_put_tcb; [apply lookup_set_tcb|done|]. rewrite !set_tcb_tcb. apply wp_bind.
  match goal with |- wp _ _ ?s => assert (kinv None None s) as Hk1 end.
  { eapply kinv_set_aux; [exact Hk|apply Ha|by destruct Ha as (_ & _ & ->)|].
    destruct Hok as (H1 & H2 & H3 & H4 & H5 & H6). refine (conj H1 (conj H2 (conj _ (conj H4 (conj H5 _))))); [done|lia]. }
  eapply wp_mono; [apply (wp_schedule cpu cur); [done|exact Hk1|done|]|].
  - split; [done|lia].
  - intros ? k2 (? & ? & Ho). apply wp_ret. by split_and!.
Qed.

Lemma wp_set_name cpu tid b nm k (Q : unit -> kernel -> Prop) : kinv None None k -> alive k tid b ->
  (kinv None None (set_tcb tid (b <| name := nm |>) k) -> Q tt (set_tcb tid (b <| name := nm |>) k)) ->
  wp (lk_thread_set_name cpu tid nm) Q k.
Proof.
  intros Hk Ha HQ. unfold lk_thread_set_name. apply wp_bind. eapply wp_get_tcb; [exact Hk|exact Ha|].
  apply wp_bind. eapply wp_upd_TCB; [apply lookup_set_tcb|].
  eapply wp_put_tcb; [apply lookup_set_tcb|done|]. rewrite !set_tcb_tcb. destruct Ha as (Hb & Hs & Hr).
  match goal with |- Q tt (set_tcb tid ?x k) =>
    replace x with (b <| name := nm |>) by (destruct b; cbn in *; by rewrite Hr) end. apply HQ.
  eapply kinv_set_aux; [exact Hk|exact Hb|done|exact (ki_tcb _ _ _ Hk _ _ Hb)].
Qed.

Lemma wp_sys_signal cpu cur h k : kinv None None k -> running_thread k cpu = Some cur ->
  (forall b, tcbs k !! cur = Some b -> signal_flag b <> 0 -> h <> 0) ->
  wp (sys_signal cpu h) (fun _ k' => after_call cpu k k') k.
Proof.
  intros Hk Hcur Hh. destruct (current_tcb cpu cur k Hk Hcur) as (b & Ha & _ & Hok & _).
  unfold sys_signal. apply wp_bind, wp_bind, wp_gets. rewrite Hcur. apply wp_ret, wp_bind.
  eapply wp_upd_TCB; [apply Ha|]. apply wp_ret. split_and!; [|by cbn; rewrite Hcur|done].
  eapply kinv_set_aux; [exact Hk|apply Ha|done|]. destruct Hok as (H1 & H2 & H3 & H4 & H5 & H6).
  refine (conj H1 (conj H2 (conj H3 (conj H4 (conj _ H6))))). cbn. intros Hfl. by apply (Hh b); [apply Ha|].
Qed.

(** *** Sending a signal *)

(** A block is added for a queued signal. *)
Lemma kinv_add_sig k c s m' bytes : kinv None None k -> is_cpu c -> kmem_inv m' ->
  (forall a n, kernel_block (mem k) a n -> a <> sig_at s) ->
  (forall a n, kernel_block m' a n <-> kernel_block (mem k) a n \/ (a = sig_at s /\ n = bytes)) ->
  forall l', sl_lock l' = FALSE -> sl_count l' = u64 (sl_count (local_sig_list k c) + 1) ->
  sig_list l' = sig_list (local_sig_list k c) ++ [s] ->
  kinv None None (k <| mem := m' |> <| local_sig_list := fupd (local_sig_list k) c l' |>).
Proof.
  intros Hk Hc Hm Hnew Hbl l' Hl Hcnt Hsl.
  set (k' := k <| mem := m' |> <| local_sig_list := fupd (local_sig_list k) c l' |>).
  assert (forall o, ~ owns k o (sig_at s)) as Hno.
  { intros o Ho. destruct (mo_live _ (ki_mem _ _ _ Hk) _ _ Ho) as [n Hn]. by apply (Hnew _ _ Hn). }
  destruct (ki_sigs _ _ _ Hk c Hc) as (_ & Ec & Hnd).
  eapply kinv_sigs; [exact Hk|done..| |].
  - intros d Hd. cbn. unfold fupd. case_decide; [subst d|by apply (ki_sigs _ _ _ Hk)].
    split_and!; [done| |].
    + rewrite Hcnt, Hsl, Ec, lenZ_app. change (lenZ [s]) with 1. unfold u64. by rewrite Zplus_mod_idemp_l.
    + rewrite Hsl, fmap_app. apply NoDup_app. split_and!; [done| |apply NoDup_singleton].
      intros a Ha Ha'. apply list_elem_of_singleton in Ha'. subst a. by apply (Hno (SignalsOf c)).
  - assert (forall o a, owns k' o a -> owns k o a \/ (o = SignalsOf c /\ a = sig_at s)) as Hown.
    { intros o a. destruct o as [|t|d]; cbn; [tauto|tauto|]. unfold fupd. intros [Hd Ha]. case_decide; [subst d|tauto].
      rewrite Hsl, fmap_app in Ha. apply elem_of_app in Ha as [Ha|Ha]; [tauto|].
      apply list_elem_of_singleton in Ha. tauto. }
    destruct (ki_mem _ _ _ Hk) as [_ Hlv Hu]. split; [done| |].
    + intros o a [Ho|[-> ->]]%Hown.
      * destruct (Hlv _ _ Ho) as [n Hn]. exists n. apply Hbl. by left.
      * exists bytes. apply Hbl. by right.
    + intros o o' a [Ho|[-> ->]]%Hown [Ho'|[-> Ea]]%Hown; [by apply (Hu _ _ a)| | |done].
      * subst a. by destruct (Hno o).
      * by destruct (Hno o').
Qed.

(** The allocator has a block of [size] bytes. *)
Definition has_room (m : kmem) (size : Z) : Prop :=
  exists a m', az_alloc size m = Ok (a, m') /\ a <> 0.

Lemma wp_alloc_room m size (Q : Z -> kmem -> Prop) : kmem_inv m -> 0 < size <= 2 ^ 30 -> has_room m size ->
  (forall a m' bytes, kmem_inv m' -> a <> 0 -> size <= bytes ->
     (forall x n, kernel_block m x n -> x <> a) ->
     (forall x n, kernel_block m' x n <-> kernel_block m x n \/ (x = a /\ n = bytes)) -> Q a m') ->
  wp (az_alloc size) Q m.
Proof.
  intros Hm Hs (a & m' & Hrun & Ha) HQ.
  pose proof (pa_alloc_spec (PageAllocator := kernel_allocator) m size Hm ltac:(lia)) as Hspec.
  unfold wp in *. rewrite Hrun in *. destruct Hspec as [Hm' [[-> _]|[_ (bytes & Hb & Hap & Hbl)]]]; [done|].
  apply (HQ a m' bytes); try done. intros x n Hx ->. pose proof (Hap _ _ Hx).
  destruct (pa_block_pos (PageAllocator := kernel_allocator) _ _ _ Hm Hx). lia.
Qed.

(** What [kill] of [dest] relies on, unless it is the caller itself. *)
Definition can_kill (k : kernel) (b : TCB) : Prop :=
  signal_handler b <> 0 /\ is_cpu (running_core b) /\ has_room (mem k) SIGNAL_SIZE.

Lemma wp_sys_kill cpu cur dest b sig k : kinv None None k -> running_thread k cpu = Some cur ->
  alive k dest b -> (dest <> cur -> can_kill k b) ->
  wp (sys_kill cpu dest sig) (fun r k' => r = 0 /\ after_call cpu k k') k.
Proof.
  intros Hk Hcur Ha Hcan. pose proof (ki_tcb _ _ _ Hk _ _ (proj1 Ha)) as Hok.
  unfold sys_kill. apply wp_bind, wp_bind, wp_gets. rewrite Hcur. apply wp_ret, wp_bind.
  eapply wp_get_tcb_ptr; [exact Hk|exact Ha|]. apply wp_bind. eapply wp_get_TCB; [apply lookup_set_tcb|].
  destruct Ha as (Hb & Hs & Hr). assert (b <| refc := 2 |> <| refc := 1 |> = b) as Eb by (destruct b; cbn in *; by rewrite Hr).
  destruct (Z.eqb_spec dest cur) as [->|Hne].
  - apply wp_bind. apply (wp_mono _ (fun _ k' => exists h,
      k' = set_tcb cur (b <| refc := 2 |>) k <| handled := h |>)).
    + apply wp_when; intros Hh; [|by eexists]. unfold call_handler. cbn [signal_handler set_field] in *.
      apply negb_true_iff in Hh. rewrite Hh. apply wp_modify. by eexists.
    + intros ? k' [h ->]. apply wp_bind. eapply wp_put_tcb; [apply lookup_set_tcb|done|]. apply wp_ret.
      split; [done|]. split_and!; [|by cbn; rewrite Hcur|done].
      eapply (kinv_same _ _ k); [done| |done..]. cbn. rewrite insert_insert_eq. cbn in Eb. rewrite Eb.
      by apply insert_id.
  - destruct (Hcan Hne) as (Hh & Hco & Hroom). apply wp_bind, wp_zoom.
    apply wp_alloc_room; [apply (ki_mem _ _ _ Hk)|done|done|]. intros a m' bytes Hm' Ha0 _ Hnew Hbl.
    apply wp_bind. rewrite (proj2 (Z.eqb_neq _ _)) by done. apply wp_ret, wp_bind.
    unfold cpu_index. cbn [running_core set_field]. pose proof Hco as [Hc0 Hc1].
    rewrite (proj2 (Z.leb_le _ _)), (proj2 (Z.ltb_lt _ _)) by done. apply wp_ret.
    destruct (ki_sigs _ _ _ Hk _ Hco) as (Hlk & _).
    unfold on_sig_lock. apply wp_bind, wp_bind, wp_gets. cbn [local_sig_list set_field set_tcb]. rewrite Hlk.
    apply wp_modify. apply wp_bind, wp_modify, wp_bind, wp_bind, wp_gets, wp_modify.
    apply wp_bind. eapply wp_upd_TCB; [apply lookup_set_tcb|]. apply wp_bind.
    eapply wp_put_tcb; [apply lookup_set_tcb|done|]. apply wp_ret. split; [done|].
    split_and!; [|by cbn; rewrite Hcur|done].
    set (l := local_sig_list k (running_core b)).
    pose proof (kinv_add_sig k (running_core b) (mkSignal a dest sig) m' bytes Hk Hco Hm' Hnew Hbl
      (mkSL FALSE (u64 (sl_count l + 1)) (sig_list l ++ [mkSignal a dest sig])) eq_refl eq_refl eq_refl) as Hk1.
    assert (tcb_ok dest (b <| signal_flag := 1 |>)) as Hok1.
    { destruct Hok as (H1 & H2 & H3 & H4 & H5 & H6). refine (conj H1 (conj H2 (conj H3 (conj H4 (conj _ H6))))). done. }
    eapply kinv_sigs_ext; [eapply (kinv_set_aux _ _ _ Hk1 dest b); [exact Hb| |exact Hok1]|..]; try done.
    + cbn. rewrite !insert_insert_eq. f_equal. by rewrite Hr.
    + intros c. cbn. unfold fupd. by repeat (case_decide; cbn).
Qed.
