(* ===== verification/ThreadCreate.v ===== *)
(** * Creating a thread

    [create_thread] takes a control block off a free list, gives it a stack and an
    initial context, and puts the thread on the migrating list; the first thing the
    new thread runs is its entry point. *)

From S2P Require Import Prelude.
From S2P Require Import Utility.
From S2P Require Import Lock.
From S2P Require Import Stat.
From S2P Require Import Memory.
From S2P Require Import MemoryBits.
From S2P Require Import Tiling.
From S2P Require Import Buddy.
From S2P Require Import PageAlloc.
From S2P Require Import Allocator.
From S2P Require Import Atomic.
From S2P Require Import LocalApic.
From S2P Require Import ShellStorage.
From S2P Require Import Thread.
From S2P Require Import Sched.
From S2P Require Import ThreadInv.
From S2P Require Import ThreadOps.
From S2P Require Import ThreadSched.
From S2P Require Import ThreadCalls.

(** ** Taking a control block *)

(** [t] is off its free list. *)
Definition popped (k : kernel) (t : Z) (ls : lname -> thread_list) : Prop :=
  forall n, valid n -> tcb_list (ls n) = filter (fun x => x <> t) (members k n) /\
    tl_count (ls n) = lenZ (tcb_list (ls n)) /\ lock_ok None n (ls n).

Definition fresh (b : TCB) : TCB :=
  b <| refc := 1 |> <| user_stack := 0 |> <| time_slice := THREAD_DEFAULT_TIME_SLICE |>
    <| remaining_time_slice := THREAD_DEFAULT_TIME_SLICE |>
    <| time_quantum := THREAD_DEFAULT_TIME_QUANTUM |>
    <| remaining_time_quantum := THREAD_DEFAULT_TIME_QUANTUM |> <| intention := 0 |>
    <| running_core := u16 (-1) |> <| core_mask := INIT_CORE_MASK |> <| name := THREAD_INIT_NAME |>
    <| state := CREATED |> <| sched_list := None |>.

Lemma unlink_dec_strip a t (ls : lname -> thread_list) n :
  let ls1 := fun n => ls n <| tcb_list := filter (fun x => x <> t) (tcb_list (ls n)) |> in
  fupd ls1 a (ls1 a <| tl_count := u64 (tl_count (ls1 a) - 1) |>) n = strip a t ls n.
Proof. cbn zeta. unfold strip, fupd. by case_decide; subst. Qed.

Lemma popped_strip sw k a t ls : kinv sw None k -> valid a -> t ∈ members k a ->
  (forall n, ls n = strip a t (lists k) n) -> popped k t ls.
Proof. intros Hk Ha Ht E n Hn. rewrite E. by apply (strip_list sw). Qed.

Lemma popped_unlock k t ls : kinv None (Some Global) k -> t ∈ members k Global ->
  (forall n, ls n = if decide (n = Global) then strip Global t (lists k) n <| tl_lock := FALSE |>
                    else strip Global t (lists k) n) -> popped k t ls.
Proof.
  intros Hk Ht E n Hn. rewrite E. destruct (strip_list None (Some Global) k Global t n Hk I Ht Hn) as (H1 & H2 & H3).
  unfold lock_ok in *. rewrite (decide_False (P := None = Some n)) by done.
  destruct (decide (n = Global)) as [->|En].
  - rewrite decide_True in H3 by done. split_and!; [exact H1|exact H2|].
    destruct H3 as [_ H3]. cbn -[strip]. by rewrite H3.
  - rewrite decide_False in H3 by congruence. by split_and!.
Qed.

(** The block is initialised. *)
Lemma wp_init_fresh k t b (Q : Z -> kernel -> Prop) : tcbs k !! t = Some b ->
  Q t (set_tcb t (fresh b) k) ->
  wp (on_TCB t (zoom refc (atomic_set 1)) ;;
      upd_TCB t (fun b => b <| user_stack := 0 |>
        <| time_slice := THREAD_DEFAULT_TIME_SLICE |>
        <| remaining_time_slice := THREAD_DEFAULT_TIME_SLICE |>
        <| time_quantum := THREAD_DEFAULT_TIME_QUANTUM |>
        <| remaining_time_quantum := THREAD_DEFAULT_TIME_QUANTUM |>) ;;
      on_TCB t (zoom intention (atomic_set 0)) ;;
      upd_TCB t (fun b => b <| running_core := u16 (-1) |> <| core_mask := INIT_CORE_MASK |>
        <| name := THREAD_INIT_NAME |> <| state := CREATED |> <| sched_list := None |>) ;;
      ret t) Q k.
Proof.
  intros Hb HQ. apply wp_bind, (wp_on_TCB _ b); [done|]. apply wp_zoom, wp_put.
  apply wp_bind. eapply wp_upd_TCB; [apply lookup_set_tcb|].
  apply wp_bind. eapply wp_on_TCB; [apply lookup_set_tcb|]. apply wp_zoom, wp_put.
  apply wp_bind. eapply wp_upd_TCB; [apply lookup_set_tcb|]. apply wp_ret. by rewrite !set_tcb_tcb.
Qed.

Lemma head_member k n t : head (tcb_list (lists k n)) = Some t -> t ∈ members k n.
Proof. apply head_Some_elem_of. Qed.

Lemma members_head k n : members k n <> [] -> exists t, head (tcb_list (lists k n)) = Some t.
Proof. unfold members. destruct (tcb_list (lists k n)) as [|t l]; [done|]. by exists t. Qed.

Lemma wp_alloc_tcb cpu k (Q : Z -> kernel -> Prop) : kinv None None k -> is_cpu cpu ->
  (members k (Local cpu) <> [] \/ members k Global <> []) ->
  (forall a t b ls, valid a -> is_free a -> t ∈ members k a -> tcbs k !! t = Some b -> popped k t ls ->
     Q t (set_tcb t (fresh b) (k <| lists := ls |>))) ->
  wp (alloc_tcb cpu) Q k.
Proof.
  intros Hk Hcpu Hfree HQ. unfold alloc_tcb. apply wp_bind, wp_gets, wp_bind.
  destruct (kinv_count _ _ _ _ Hk (Hcpu : valid (Local cpu))) as [Ec _]. rewrite Ec.
  destruct (Z.eqb_spec (lenZ (members k (Local cpu))) 0) as [E|E]; cbn [negb].
  - assert (members k (Local cpu) = []) as El by (unfold lenZ in E; destruct (members k (Local cpu)); [done|cbn in E; lia]).
    apply wp_bind. apply (wp_lock_list None); [done|done|]. intros k1 Hr1 Hk1.
    pose proof (fun n => relisted_members _ _ n Hr1) as Em. assert (members k1 Global <> []) as Hg by (rewrite Em; tauto).
    destruct (members_head k1 Global Hg) as [t Ht]. pose proof (head_member _ _ _ Ht) as Hm.
    destruct (member_tcb _ _ _ Hk1 Global t I Hm) as (_ & b & Hb & _).
    apply wp_bind, wp_gets, wp_bind. rewrite bool_decide_false by done. apply wp_ret.
    apply wp_bind, wp_bind, wp_gets. rewrite Ht. apply wp_ret.
    apply wp_bind, wp_modify, wp_bind, wp_upd_list, wp_bind, wp_upd_list, wp_ret.
    destruct Hr1 as (ls1 & -> & _). eapply wp_init_fresh; [exact Hb|]. rewrite Em in Hm.
    apply (HQ Global); try done. intros n Hn. rewrite <- Em. revert n Hn.
    apply (popped_unlock _ _ _ Hk1 (head_member _ _ _ Ht)). intros n. unfold strip, fupd. cbn.
    repeat (case_decide; subst; cbn; try done). by rewrite fupd_ne.
  - destruct (members_head k (Local cpu)) as [t Ht]; [by intros El; rewrite El in E|].
    pose proof (head_member _ _ _ Ht) as Hm.
    destruct (member_tcb _ _ _ Hk (Local cpu) t Hcpu Hm) as (_ & b & Hb & (_ & Hr & _) & _).
    apply wp_bind, wp_bind, wp_gets. rewrite Ht. apply wp_ret.
    apply wp_bind, wp_modify, wp_bind, wp_upd_list, wp_bind. eapply wp_get_TCB; [exact Hb|]. apply wp_bind.
    rewrite Hr. apply wp_ret, wp_ret. eapply wp_init_fresh; [exact Hb|].
    apply (HQ (Local cpu)); try done. apply (popped_strip None k (Local cpu)); try done.
    intros n. apply unlink_dec_strip.
Qed.

(** ** The new thread *)

Lemma kernel_block_range m a n : kmem_inv m -> kernel_block m a n -> 0 < a < 2 ^ 64.
Proof.
  intros [Hp _] (p & e & -> & _ & Hi & _). apply nthZ_Some_range in Hi.
  pose proof (sh_index _ (bi_shape _ _ (pi_buddy _ Hp))) as Hl. pose proof (pi_start _ Hp).
  pose proof (pi_end _ Hp). rewrite Hl in Hi. lia.
Qed.

(** Its control block. *)
Definition created (b : TCB) (stack_address kstack core : Z) (mask : core_set) : TCB :=
  fresh b <| stack := kstack |> <| stack_base := u64 (stack_address + CONFIG_STACK_SIZE) |>
    <| acc_ltc := 0 |> <| running_core := u16 core |> <| core_mask := mask |>
    <| sched_list := Some Migrating |> <| state := READY |>.

(** The migrating list's lock is taken and released around the insertion. *)
Lemma wp_enqueue k t b (Q : unit -> kernel -> Prop) :
  tcbs k !! t = Some b -> (forall n, valid n -> lock_ok None n (lists k n)) ->
  (forall ls', (forall n, ls' n = append Migrating t (lists k) n \/
      (n = Migrating /\ ls' n = append Migrating t (lists k) n <| tl_lock := FALSE |> <| held_elsewhere := false |>)) ->
     Q tt (set_tcb t (b <| sched_list := Some Migrating |> <| state := READY |>) (k <| lists := ls' |>))) ->
  wp (add_migrating t) Q k.
Proof.
  intros Hb Hlk HQ. specialize (Hlk Migrating I). unfold lock_ok in Hlk. rewrite decide_False in Hlk by done.
  apply wp_bind, wp_bind, wp_gets.
  assert (wp (if held_elsewhere (lists k Migrating)
    then upd_list Migrating (fun l => l <| tl_lock := TRUE |> <| held_elsewhere := false |>)
    else match spinlock_lock (tl_lock (lists k Migrating)) with
         | Ok (_, w) => upd_list Migrating (fun l => l <| tl_lock := w |>)
         | Fault f => fail f
         end) (fun _ k' => exists l', k' = set_list Migrating l' k /\
           l' = lists k Migrating <| tl_lock := TRUE |> <| held_elsewhere := false |>) k) as Hlock.
  { rewrite Hlk. destruct (lists k Migrating) as [w h c l] eqn:E. cbn in *. destruct h; subst w.
    - apply wp_upd_list. rewrite E. by eexists.
    - apply wp_upd_list. rewrite E. by eexists. }
  eapply wp_mono; [exact Hlock|]. intros ? ? (l' & -> & ->).
  apply wp_bind, wp_upd_list, wp_bind, wp_upd_list, wp_bind. eapply wp_upd_TCB; [exact Hb|]. apply wp_upd_list.
  match goal with |- Q tt ?s => refine (HQ (lists s) _) end. intros n. cbn. unfold append, fupd. destruct (decide (n = Migrating)) as [->|Hne]; [right|left; done].
  done.
Qed.

Lemma core_mask_ok core : core = -1 \/ 0 <= core < 256 ->
  exists mask, core_mask_of core = Ok mask /\ lenZ mask = 8 /\
    forall b, core_mask b = mask -> is_cpu (u16 core) -> allowed b (u16 core).
Proof.
  intros [->|Hc].
  - exists INIT_CORE_MASK. split_and!; [done|done|]. intros b _ [_ H]. vm_compute in H. discriminate.
  - unfold core_mask_of. rewrite (proj2 (Z.eqb_neq _ _)) by lia. unfold CLEAR_CORE_MASK.
    destruct (nthZ_in_range FILL_CORE_MASK (core / 32)) as [w Hw]; [change (lenZ FILL_CORE_MASK) with 8; zdm|].
    rewrite Hw. eexists. split_and!; [reflexivity|by rewrite lenZ_updZ|].
    intros b Eb _. rewrite u16_small by lia. unfold allowed, core_is_allowed, ISSET_CORE_MASK. rewrite Eb.
    rewrite nthZ_updZ_eq by (change (lenZ FILL_CORE_MASK) with 8; zdm).
    replace (Z.land _ _) with 0; [done|]. symmetry. apply Z.bits_inj'. intros i Hi.
    rewrite Z.bits_0, Z.land_spec. unfold u32. destruct (decide (i = core mod 32)) as [->|Hne].
    + rewrite Z.mod_pow2_bits_low by zdm. rewrite testbit_clear by zdm. by rewrite bool_decide_true.
    + rewrite Z.shiftl_spec, testbit_one by done. rewrite bool_decide_false by lia. apply andb_false_r.
Qed.

(** What the call leaves: thread [t], taken from a free list, is the last of the
    migrating list. *)
Record spawned (k k' : kernel) (t : Z) (b b' : TCB) : Prop := {
  sp_old : tcbs k !! t = Some b /\ state b = NOTALLOC;
  sp_tcbs : tcbs k' = <[t := b']> (tcbs k);
  sp_lists : forall n, valid n -> moved None t Migrating n (lists k n) (lists k' n);
  sp_rest : rest_same k k'
}.

Lemma mem_ok_spawned k k' t b b' a : kinv None None k -> rest_same k k' -> kmem_inv (mem k') ->
  tcbs k !! t = Some b -> state b = NOTALLOC -> tcbs k' = <[t := b']> (tcbs k) -> stack_of b' = a ->
  (a = 0 /\ (forall x n, kernel_block (mem k') x n <-> kernel_block (mem k) x n) \/
   exists bytes, (forall x n, kernel_block (mem k) x n -> x <> a) /\
     forall x n, kernel_block (mem k') x n <-> kernel_block (mem k) x n \/ (x = a /\ n = bytes)) ->
  mem_ok k'.
Proof.
  intros Hk Hrest Hm Hb Hs Et Ea Hor.
  assert (forall o x, owns k' o x -> (owns k o x /\ o <> StackOf t) \/ (o = StackOf t /\ x = a /\ a <> 0)) as Hown.
  { intros o x. destruct o as [|u|c]; cbn.
    - rewrite (rs_base _ _ Hrest). by left.
    - rewrite Et. intros (Hu & c & [[<- <-]|[Hne Hc]]%lookup_insert_Some & Hst & -> & Hx).
      + right. by subst a.
      + left. split; [|congruence]. split; [done|]. by exists c.
    - rewrite (rs_sigs _ _ Hrest). by left. }
  destruct (ki_mem _ _ _ Hk) as [_ Hl Hu].
  assert (forall o, a <> 0 -> ~ owns k o a) as Hno.
  { intros o Ha Ho. destruct Hor as [[? _]|(bytes & Hnew & _)]; [done|].
    destruct (Hl _ _ Ho) as [n Hn]. by apply (Hnew _ _ Hn). }
  split; [done| |].
  - intros o x [[Ho _]|(-> & -> & Ha)]%Hown.
    + destruct (Hl _ _ Ho) as [n Hn]. destruct Hor as [[_ Hbl]|(bytes & _ & Hbl)]; exists n; apply Hbl; tauto.
    + destruct Hor as [[? _]|(bytes & _ & Hbl)]; [done|]. exists bytes. apply Hbl. by right.
  - intros o o' x [[Ho _]|(-> & -> & Ha)]%Hown [[Ho' _]|(-> & Ex & Ha')]%Hown; [by apply (Hu _ _ x)| | |done].
    + subst x. by destruct (Hno o Ha').
    + by destruct (Hno o' Ha).
Qed.

Lemma stack_of_created b a ks core mask : 0 <= a < 2 ^ 64 -> stack_of (created b a ks core mask) = a.
Proof.
  intros Ha. unfold stack_of, created. cbn [stack_base set_field]. unfold u64.
  rewrite Zminus_mod_idemp_l. rewrite Z.mod_small; lia.
Qed.

Lemma set_tcb_mem t b k m : set_tcb t b k <| mem := m |> = set_tcb t b (k <| mem := m |>).
Proof. done. Qed.

Lemma set_tcb_lists t b k l : set_tcb t b k <| lists := l |> = set_tcb t b (k <| lists := l |>).
Proof. done. Qed.

Lemma spawned_kinv k k' t b b' : kinv None None k -> spawned k k' t b b' ->
  MAX_PROCESSOR_COUNT <= t < NTHREAD -> fits k Migrating t b' -> tcb_ok t b' -> mem_ok k' ->
  kinv None None k'.
Proof.
  intros Hk [[Hb Hs] Et Hl Hr] Ht Hf Hok Hm.
  eapply (kinv_moved _ _ k k' Hk Hr t b' Migrating); try done.
  intros c Hc. exfalso. destruct (ki_running _ _ _ Hk c t Hc) as [Hic [->|[Hx|[? _]]]]; [|..|done].
  - unfold is_cpu in Hic. lia.
  - destruct (member_tcb _ _ _ Hk (Runnable c) t Hic Hx) as (_ & ? & Hb' & [[E|E] _] & _);
      rewrite Hb in Hb'; injection Hb' as <-; congruence.
Qed.

Lemma enqueue_moved k t ls ls' n : popped k t ls -> valid n -> lenZ (members k n) <= CONFIG_NUM_THREAD ->
  (ls' n = append Migrating t ls n \/
   (n = Migrating /\ ls' n = append Migrating t ls n <| tl_lock := FALSE |> <| held_elsewhere := false |>)) ->
  moved None t Migrating n (lists k n) (ls' n).
Proof.
  intros Hp Hn Hlen Hor. destruct (Hp n Hn) as (H1 & H2 & H3).
  assert (moved None t Migrating n (lists k n) (append Migrating t ls n)) as Hm.
  { apply append_moved; [done..|]. rewrite H1. pose proof (lenZ_filter_le t (members k n)).
    unfold CONFIG_NUM_THREAD in *. lia. }
  destruct Hor as [-> |[-> ->]]; [done|]. destruct Hm as (? & ? & _). split_and!; try done.
Qed.

(** The new block of memory, if there is one. *)
Definition stack_block (m : kmem) (a : Z) (m' : kmem) : Prop :=
  az_alloc CONFIG_STACK_SIZE m = Ok (a, m').

Lemma wp_create_thread c cpu ip argv core k : kinv None None k -> is_cpu cpu ->
  (members k (Local cpu) <> [] \/ members k Global <> []) -> (core = -1 \/ 0 <= core < 256) ->
  wp (create_thread c cpu ip argv core) (fun t k' => kinv None None k' /\
    exists b a m' mask, stack_block (mem k) a m' /\ core_mask_of core = Ok mask /\
      let entry := if ip =? 0 then elf_load_entry k else ip in
      let frame := setup_frame c (ram m') (stack b) entry a argv in
      mem k' = m' <| ram := fst frame |> /\ spawned k k' t b (created b a (snd frame) core mask)) k.
Proof.
  intros Hk Hcpu Hfree Hcore. destruct (core_mask_ok core Hcore) as (mask & Hmask & Hml & Hmal).
  unfold create_thread. apply wp_bind. apply wp_alloc_tcb; [done|done|done|]. intros l t b ls Hl Hfl Ht Hb Hpop.
  destruct (member_tcb _ _ _ Hk l t Hl Ht) as (Hrg & ? & Hb' & Hfit & Hok). rewrite Hb in Hb'. injection Hb' as <-.
  assert (state b = NOTALLOC) as Hst by (by destruct l; try done; apply Hfit).
  apply wp_bind. eapply wp_get_tcb_in; [unfold MAX_PROCESSOR_COUNT in Hrg; lia|by split_and!; [apply lookup_set_tcb|..]|].
  rewrite set_tcb_tcb. apply wp_bind, wp_zoom.
  pose proof (pa_alloc_spec (PageAllocator := kernel_allocator) (mem k) CONFIG_STACK_SIZE (mo_inv _ (ki_mem _ _ _ Hk)) ltac:(done)) as Hal.
  unfold wp in Hal. destruct (az_alloc CONFIG_STACK_SIZE (mem k)) as [[a m']|] eqn:Erun; [|done].
  unfold wp at 1. change (mem (set_tcb _ _ _)) with (mem k). rewrite Erun, set_tcb_mem.
  unfold init_tcb. apply wp_bind, wp_bind, wp_get. cbn [Z.eqb THREAD_INIT_CREATE].
  eapply wp_upd_TCB; [apply lookup_set_tcb|]. apply wp_bind. eapply wp_upd_TCB; [apply lookup_set_tcb|].
  unfold set_core. rewrite Hmask. apply wp_bind. eapply wp_upd_TCB; [apply lookup_set_tcb|].
  apply wp_bind, wp_gets, wp_bind. unfold setup_thread. apply wp_bind. eapply wp_get_TCB; [apply lookup_set_tcb|].
  apply wp_bind, wp_gets.
  set (frame := setup_frame c (ram m') (stack b) (if ip =? 0 then elf_load_entry k else ip) a argv).
  match goal with |- context [setup_frame ?x1 ?x2 ?x3 ?x4 ?x5 ?x6] =>
    change (setup_frame x1 x2 x3 x4 x5 x6) with frame end.
  destruct frame as [ram' ks] eqn:Efr.
  apply wp_bind, wp_modify. rewrite !set_tcb_tcb, set_tcb_mem. eapply wp_upd_TCB; [apply lookup_set_tcb|].
  rewrite set_tcb_tcb.
  match goal with |- wp _ _ (set_tcb t ?B ?K) => change K with (k <| lists := ls |> <| mem := m' <| ram := ram' |> |>) end.
  apply wp_bind. eapply wp_enqueue; [apply lookup_set_tcb|by intros n Hn; apply (Hpop n Hn)|]. intros ls' Hls'.
  rewrite set_tcb_lists, set_tcb_tcb.
  apply wp_bind. eapply wp_put_tcb; [apply lookup_set_tcb|done|]. rewrite set_tcb_tcb.
  match goal with |- wp _ _ (set_tcb t ?B ?K) => change B with (created b a ks core mask);
    change K with (k <| lists := ls' |> <| mem := m' <| ram := ram' |> |>) end.
  apply wp_bind, wp_zoom, wp_modify, wp_bind, wp_zoom, wp_modify, wp_ret.
  match goal with |- kinv None None ?s /\ _ => set (k' := s) end.
  assert (spawned k k' t b (created b a ks core mask)) as Hsp.
  { split; [done|done| |done]. intros n Hn.
    eapply enqueue_moved; [exact Hpop|done|by apply (kinv_count _ _ _ _ Hk Hn)|apply Hls']. }
  assert (0 <= a < 2 ^ 64) as Hrange.
  { destruct Hal as [Hm' [[-> _]|[_ (bytes & _ & _ & Hbl)]]]; [done|].
    assert (kernel_block m' a bytes) as Hkb by (apply Hbl; by right). pose proof (kernel_block_range _ _ _ Hm' Hkb). lia. }
  split.
  - eapply spawned_kinv; [exact Hk|exact Hsp|exact Hrg| | |].
    + split_and!; [done|done|]. by apply Hmal.
    + destruct Hok as (_ & _ & _ & _ & H5 & _). split_and!; try done.
    + eapply (mem_ok_spawned k k' t b _ a Hk); [done|exact (proj1 Hal)|done|done|done|by apply stack_of_created|].
      destruct Hal as [_ [[-> ->]|[_ (bytes & Hsz & Hap & Hbl)]]]; [by left|right]. exists bytes. split; [|exact Hbl].
      intros x n Hx ->. pose proof (Hap _ _ Hx).
      destruct (pa_block_pos (PageAllocator := kernel_allocator) _ _ _ (mo_inv _ (ki_mem _ _ _ Hk)) Hx).
      unfold CONFIG_STACK_SIZE in Hsz. lia.
  - exists b, a, m', mask. split_and!; [exact Erun|done| |].
    + fold frame. by rewrite Efr.
    + fold frame. by rewrite Efr.
Qed.
