(* ===== verification/Boot.v ===== *)
(** * Initialisation of the thread tables ([kernel/main.c], [kernel/thread.c])

    [Main] calls [sched_init], [thread_init] and, later, [signal_init]; each core
    then calls [setup_idle_thread].  The first three establish the invariant of the
    thread tables with every thread unused, and the last one keeps it. *)

From S2P Require Import Prelude.
From S2P Require Import Utility.
From S2P Require Import Lock.
From S2P Require Import Stat.
From S2P Require Import Memory.
From S2P Require Import PageAlloc.
From S2P Require Import PoolInit.
From S2P Require Import Allocator.
From S2P Require Import Atomic.
From S2P Require Import LocalApic.
From S2P Require Import ShellStorage.
From S2P Require Import Thread.
From S2P Require Import Sched.
From S2P Require Import ThreadInv.
From S2P Require Import ThreadOps.
From S2P Require Import ThreadCalls.
From S2P Require Import ThreadCreate.

(** The calls of [Main] that set the tables up, in its order. *)
Definition init_threads (g_memory_start : Z) : M kernel unit :=
  sched_init ;;
  thread_init g_memory_start ;;
  signal_init.

(** What holds before: memory and the APIC timer are set up, no [TCB] is in use, and
    there is room for the array of [TCB]s. *)
Record fresh_kernel (k : kernel) : Prop := {
  fk_tcbs : tcbs k = ∅;
  fk_cores : forall c, ~ is_cpu c -> running_thread k c = None;
  fk_mem : kmem_inv (mem k);
  fk_room : has_room (mem k) (PAGE_SIZE_4K * CONFIG_NUM_THREAD);
  fk_ticks : ticks_ok (lapic_ticks k);
  fk_storage : lenZ (thread_area (storage k)) = NTHREAD
}.

(** Lists [n] with a core below [i], set up. *)
Definition below (i : Z) (n : lname) : Prop :=
  match n with
  | Runnable c | Blocked c => 0 <= c < i
  | _ => False
  end.

Record stage1 (k0 : kernel) (i : Z) (k : kernel) : Prop := {
  s1_lists : forall n, below i n -> lists k n = empty_list;
  s1_run : forall c, ~ (0 <= c < MAX_PROCESSOR_COUNT) \/ 0 <= c < i -> running_thread k c = None;
  s1_same : (tcbs k, mem k, lapic_ticks k, storage k) = (tcbs k0, mem k0, lapic_ticks k0, storage k0)
}.

Lemma wp_sched_init k0 (Q : unit -> kernel -> Prop) : fresh_kernel k0 ->
  (forall k, stage1 k0 MAX_PROCESSOR_COUNT k -> lists k Migrating = empty_list -> Q tt k) ->
  wp sched_init Q k0.
Proof.
  intros Hf HQ. apply wp_bind. apply (wp_for_up (stage1 k0)).
  - constructor; [by intros []; cbn; lia| |done]. intros c [Hc|Hc]; [by apply (fk_cores _ Hf)|lia].
  - intros i k Hi [Hl Hr Hs]. wp_steps. constructor; [| |done].
    + intros n Hn. cbn. unfold fupd. repeat case_decide; try done. apply Hl. destruct n; cbn in *; try done.
      * destruct (decide (c = i)); [by subst|lia].
      * destruct (decide (c = i)); [by subst|lia].
    + intros c Hc. cbn. unfold fupd. case_decide; [done|]. apply Hr. lia.
  - intros k Hk. apply wp_modify. apply HQ; [|by cbn; rewrite fupd_eq].
    destruct Hk as [Hl Hr Hs]. rewrite Z.add_0_l, Z2Nat.id in * by done. constructor; [|done|done].
    intros n Hn. cbn. rewrite fupd_ne by (by intros ->). by apply Hl.
Qed.

(** The [TCB]s of the first [lo] idle threads and of the first [hi] others. *)
Definition initial_TCB (g base lo hi t : Z) : option TCB :=
  if decide (0 <= t < lo) then Some (idle_TCB (idle_tcb_at g t) t)
  else if decide (MAX_PROCESSOR_COUNT <= t < MAX_PROCESSOR_COUNT + hi) then
    Some (free_TCB (u64 (base + PAGE_SIZE_4K * (t - MAX_PROCESSOR_COUNT))))
  else None.

Record filled (g base : Z) (m : kmem) (ticks : Z * Z) (lo hi : Z) (k : kernel) : Prop := {
  fi_tcbs : forall t, tcbs k !! t = initial_TCB g base lo hi t;
  fi_global : lists k Global = mkTL FALSE false hi (seqZ MAX_PROCESSOR_COUNT hi);
  fi_lists : forall n, valid n -> n <> Global -> lists k n = empty_list;
  fi_run : forall c, running_thread k c = None;
  fi_rest : (mem k, lapic_ticks k, tcb_base_addr k) = (m, ticks, base);
  fi_storage : lenZ (thread_area (storage k)) = NTHREAD
}.

Lemma wp_store_tcb k t a (Q : unit -> kernel -> Prop) : 0 <= t < lenZ (thread_area (storage k)) ->
  (forall s, lenZ (thread_area s) = lenZ (thread_area (storage k)) -> Q tt (k <| storage := s |>)) ->
  wp (zoom storage (store_tcb_info t a)) Q k.
Proof.
  intros Ht HQ. apply wp_zoom. unfold store_tcb_info. wp_steps.
  destruct (nthZ_in_range (thread_area (storage k)) t Ht) as [x Hx]. apply (wp_the _ _ x); [done|]. wp_steps.
  apply HQ. cbn. by rewrite lenZ_updZ.
Qed.

Lemma seqZ_snoc m n : 0 <= n -> seqZ m (n + 1) = seqZ m n ++ [m + n].
Proof. intros Hn. rewrite seqZ_app by lia. by rewrite (seqZ_cons _ 1). Qed.

Lemma wp_fill_threads g base m ticks k (Q : unit -> kernel -> Prop) :
  filled g base m ticks 0 0 k ->
  (forall k', filled g base m ticks 0 CONFIG_NUM_THREAD k' -> Q tt k') ->
  wp (for_up (Z.to_nat CONFIG_NUM_THREAD) 0 (fun i =>
    let at_ := u64 (base + PAGE_SIZE_4K * i) in
    put_TCB (MAX_PROCESSOR_COUNT + i) (free_TCB at_) ;;
    add_tail Global (MAX_PROCESSOR_COUNT + i) ;;
    inc_count Global ;;
    zoom storage (store_tcb_info (i + MAX_PROCESSOR_COUNT) at_))) Q k.
Proof.
  intros Hk HQ. apply (wp_for_up (fun i => filled g base m ticks 0 i)); [done| |].
  2: { intros k' Hk'. apply HQ. by rewrite Z.add_0_l, Z2Nat.id in Hk' by done. }
  intros i k1 Hi [Ht Hg Hl Hr He Hs]. rewrite Z2Nat.id in Hi by done. wp_steps.
  apply wp_store_tcb; [cbn; rewrite Hs; unfold NTHREAD, MAX_PROCESSOR_COUNT in *; lia|].
  intros s Es. constructor; try done.
  - intros t. cbn. unfold initial_TCB. destruct (decide (t = MAX_PROCESSOR_COUNT + i)) as [->|Hne].
    + rewrite lookup_insert_eq, decide_False, decide_True by (unfold MAX_PROCESSOR_COUNT; lia).
      do 4 f_equal. lia.
    + rewrite lookup_insert_ne, Ht by done. unfold initial_TCB. repeat case_decide; try done; lia.
  - cbn. rewrite fupd_eq. rewrite fupd_eq, Hg. cbn. rewrite u64_small by (unfold CONFIG_NUM_THREAD in *; lia).
    by rewrite seqZ_snoc by lia.
  - intros n Hn Hne. cbn. rewrite !fupd_ne by done. by apply Hl.
  - cbn. rewrite Es. done.
Qed.

Lemma wp_fill_idle g base m ticks k (Q : unit -> kernel -> Prop) :
  filled g base m ticks 0 CONFIG_NUM_THREAD k ->
  (forall k', filled g base m ticks MAX_PROCESSOR_COUNT CONFIG_NUM_THREAD k' -> Q tt k') ->
  wp (for_up (Z.to_nat MAX_PROCESSOR_COUNT) 0 (fun i =>
    let at_ := idle_tcb_at g i in
    put_TCB i (idle_TCB at_ i) ;;
    zoom storage (store_tcb_info i at_))) Q k.
Proof.
  intros Hk HQ. apply (wp_for_up (fun i => filled g base m ticks i CONFIG_NUM_THREAD)); [done| |].
  2: { intros k' Hk'. apply HQ. by rewrite Z.add_0_l, Z2Nat.id in Hk' by done. }
  intros i k1 Hi [Ht Hg Hl Hr He Hs]. rewrite Z2Nat.id in Hi by done. wp_steps.
  apply wp_store_tcb; [cbn; rewrite Hs; unfold NTHREAD, MAX_PROCESSOR_COUNT, CONFIG_NUM_THREAD in *; lia|].
  intros s Es. constructor; try done.
  - intros t. cbn. unfold initial_TCB. destruct (decide (t = i)) as [->|Hne].
    + by rewrite lookup_insert_eq, decide_True by lia.
    + rewrite lookup_insert_ne, Ht by done. unfold initial_TCB. repeat case_decide; try done; lia.
  - cbn. rewrite Es. done.
Qed.

Lemma wp_thread_init g k0 k (Q : unit -> kernel -> Prop) : fresh_kernel k0 ->
  stage1 k0 MAX_PROCESSOR_COUNT k -> lists k Migrating = empty_list ->
  (forall base m k', kmem_inv m -> (exists bytes, kernel_block m base bytes) ->
     filled g base m (lapic_ticks k0) MAX_PROCESSOR_COUNT CONFIG_NUM_THREAD k' -> Q tt k') ->
  wp (thread_init g) Q k.
Proof.
  intros Hf Hk Hmig HQ. destruct Hk as [Hl Hr Hs]. injection Hs as Ht Hm Hti Hst. unfold thread_init.
  apply wp_bind, wp_modify, wp_bind. set (k1 := _ <| lists := _ |>).
  apply (wp_for_up (fun i k' => (forall n, n = Global \/ (exists c, n = Local c /\ 0 <= c < i) -> lists k' n = empty_list) /\
    (forall n, (forall c, n <> Local c) -> lists k' n = lists k1 n) /\
    (tcbs k', running_thread k', mem k', lapic_ticks k', storage k') =
    (tcbs k, running_thread k, mem k, lapic_ticks k, storage k))).
  - split_and!; [|done|done]. intros n [->|(c & _ & ?)]; [by cbn; rewrite fupd_eq|lia].
  - intros i k2 Hi (Hl2 & Ho2 & E2). wp_steps. split_and!; [| |done]; intros n Hn; cbn.
    + destruct (decide (n = Local i)) as [->|Hne]; [by rewrite fupd_eq|rewrite fupd_ne by done].
      apply Hl2. destruct Hn as [->|(c & -> & Hc)]; [by left|]. right. exists c. split; [done|].
      assert (c <> i) by congruence. lia.
    + rewrite fupd_ne by done. by apply Ho2.
  - intros k2 (Hl2 & Ho2 & E2). rewrite Z.add_0_l, Z2Nat.id in Hl2 by done. injection E2 as Et2 Er2 Em2 Eti2 Es2.
    apply wp_bind, wp_zoom. rewrite Em2, Hm. apply wp_alloc_room; [apply (fk_mem _ Hf)|done|apply (fk_room _ Hf)|].
    intros base m bytes Hm' Hb0 _ _ Hblk. wp_steps. apply wp_when; intros Hz; [apply Z.eqb_eq in Hz; lia|].
    apply wp_bind, wp_fill_threads with (m := m) (ticks := lapic_ticks k0) (g := g).
    + constructor; cbn.
      * intros t. rewrite Et2, Ht, (fk_tcbs _ Hf), lookup_empty. unfold initial_TCB.
        rewrite !decide_False by lia. done.
      * by rewrite Hl2 by (by left).
      * intros n Hn Hne. destruct n; try done.
        -- rewrite Ho2 by done. cbn. rewrite fupd_ne by done. by apply Hl.
        -- rewrite Ho2 by done. cbn. rewrite fupd_ne by done. by apply Hl.
        -- rewrite Hl2; [done|]. right. by exists c.
        -- rewrite Ho2 by done. cbn. by rewrite fupd_ne by done.
      * intros c. rewrite Er2. apply Hr. lia.
      * by rewrite Eti2, Hti.
      * rewrite Es2, Hst. apply (fk_storage _ Hf).
    + intros k3 Hk3. apply wp_fill_idle with (base := base) (m := m) (ticks := lapic_ticks k0); [done|].
      intros k4 Hk4. apply (HQ base m); try done. exists bytes. apply Hblk. by right.
Qed.

Lemma wp_signal_init k (Q : unit -> kernel -> Prop) :
  (forall s, (forall c, is_cpu c -> s c = mkSL FALSE 0 []) -> Q tt (k <| local_sig_list := s |>)) ->
  wp signal_init Q k.
Proof.
  intros HQ. apply (wp_for_up (fun i k' => exists s,
    (forall c, 0 <= c < i -> s c = mkSL FALSE 0 []) /\ k' = k <| local_sig_list := s |>)).
  - exists (local_sig_list k). split; [lia|by destruct k].
  - intros i k1 Hi (s & Hs & ->). wp_steps. eexists. split; [|reflexivity]. intros c Hc. unfold fupd.
    case_decide; [done|]. apply Hs. lia.
  - intros k1 (s & Hs & ->). rewrite Z.add_0_l, Z2Nat.id in Hs by done. by apply HQ.
Qed.

Section initial.
Context (g base : Z) (m : kmem) (ticks : Z * Z) (k : kernel).
Hypothesis Hk : filled g base m ticks MAX_PROCESSOR_COUNT CONFIG_NUM_THREAD k.
Hypothesis Hm : kmem_inv m.
Hypothesis Hbase : exists bytes, kernel_block m base bytes.
Hypothesis Hticks : ticks_ok ticks.
Hypothesis Hsigs : forall c, is_cpu c -> local_sig_list k c = mkSL FALSE 0 [].

Lemma initial_members n t : valid n -> t ∈ members k n <->
  n = Global /\ MAX_PROCESSOR_COUNT <= t < NTHREAD.
Proof.
  intros Hn. unfold members, NTHREAD. destruct (decide (n = Global)) as [->|Hne].
  - rewrite (fi_global _ _ _ _ _ _ _ Hk). cbn. rewrite elem_of_seqZ. tauto.
  - rewrite (fi_lists _ _ _ _ _ _ _ Hk) by done. cbn. rewrite elem_of_nil. naive_solver.
Qed.

Lemma initial_lookup t b : tcbs k !! t = Some b ->
  (is_cpu t /\ b = idle_TCB (idle_tcb_at g t) t) \/
  (MAX_PROCESSOR_COUNT <= t < NTHREAD /\ b = free_TCB (u64 (base + PAGE_SIZE_4K * (t - MAX_PROCESSOR_COUNT)))).
Proof.
  rewrite (fi_tcbs _ _ _ _ _ _ _ Hk). unfold initial_TCB, NTHREAD, is_cpu.
  repeat case_decide; intros [= <-]; tauto.
Qed.

Lemma initial_owns o a : owns k o a -> o = TcbArea /\ a = base.
Proof.
  pose proof (fi_rest _ _ _ _ _ _ _ Hk) as [= _ _ Eb]. destruct o as [|t|c]; cbn.
  - by rewrite Eb.
  - intros (Hlt & b & Hb & Hs & _). destruct (initial_lookup t b Hb) as [[Hc ->]|[_ ->]]; [|done].
    unfold is_cpu in Hc. lia.
  - intros [Hc Ha]. rewrite Hsigs in Ha by done. by apply elem_of_nil in Ha.
Qed.

Lemma initial_kinv : kinv None None k.
Proof using Type*.
  pose proof (fi_rest _ _ _ _ _ _ _ Hk) as [= Em Eti Eb].
  constructor.
  - intros t. rewrite (fi_tcbs _ _ _ _ _ _ _ Hk). unfold initial_TCB, NTHREAD, MAX_PROCESSOR_COUNT, CONFIG_NUM_THREAD.
    repeat case_decide; split; intros Hx; try (by eexists); try lia.
  - intros n Hn. destruct (decide (n = Global)) as [->|Hne].
    + rewrite (fi_global _ _ _ _ _ _ _ Hk). split_and!; [apply NoDup_seqZ| |done].
      cbn. unfold lenZ. by rewrite length_seqZ, Z2Nat.id.
    + rewrite (fi_lists _ _ _ _ _ _ _ Hk) by done. split_and!; [constructor|done|done].
  - intros n n' t Hn Hn' [-> _]%initial_members [-> _]%initial_members; done.
  - intros t Ht. exists Global. split; [done|]. by apply initial_members.
  - intros n t Hn [-> Ht]%initial_members; [|done]. split; [lia|].
    eexists. rewrite (fi_tcbs _ _ _ _ _ _ _ Hk). unfold initial_TCB.
    rewrite decide_False, decide_True by (unfold NTHREAD in Ht; lia). split; [done|]. cbn.
    unfold tcb_temp. by rewrite Eb.
  - intros t b [[Hc ->]|[Ht ->]]%initial_lookup; unfold tcb_ok; cbn.
    + split_and!; try done; lia.
    + split_and!; try done; unfold NTHREAD in Ht; lia.
  - intros c b Hc [[_ ->]|[Ht ->]]%initial_lookup; [|unfold is_cpu in Hc; lia].
    unfold idle_ok. rewrite (fi_run _ _ _ _ _ _ _ Hk). cbn. split_and!; try done.
    unfold u16. apply Z.mod_small. unfold is_cpu, MAX_PROCESSOR_COUNT in Hc. lia.
  - intros c t. by rewrite (fi_run _ _ _ _ _ _ _ Hk).
  - by rewrite Eti.
  - intros c Hc. rewrite Hsigs by done. split_and!; [done|done|constructor].
  - constructor.
    + by rewrite Em.
    + intros o a [_ ->]%initial_owns. by rewrite Em.
    + intros o o' a [-> _]%initial_owns [-> _]%initial_owns. done.
Qed.
End initial.

Definition booted (k : kernel) : Prop :=
  kinv None None k /\ members k Global = seqZ MAX_PROCESSOR_COUNT CONFIG_NUM_THREAD /\
  (forall n, valid n -> n <> Global -> members k n = []) /\ forall c, running_thread k c = None.

Lemma wp_init_threads g k : fresh_kernel k -> wp (init_threads g) (fun _ k' => booted k') k.
Proof.
  intros Hf. unfold init_threads. apply wp_bind, wp_sched_init; [done|]. intros k1 Hk1 Hmig.
  apply wp_bind, (wp_thread_init g k); [done|done|done|]. intros base m k2 Hm Hb Hk2.
  apply wp_signal_init. intros s Hs. set (k3 := _ <| local_sig_list := s |>).
  assert (filled g base m (lapic_ticks k) MAX_PROCESSOR_COUNT CONFIG_NUM_THREAD k3) as Hk3.
  { destruct Hk2. by constructor. }
  unfold booted. split_and!.
  - eapply initial_kinv; [exact Hk3|done|done|apply (fk_ticks _ Hf)|done].
  - unfold members. by rewrite (fi_global _ _ _ _ _ _ _ Hk3).
  - intros n Hn Hne. unfold members. by rewrite (fi_lists _ _ _ _ _ _ _ Hk3).
  - apply (fi_run _ _ _ _ _ _ _ Hk3).
Qed.

(** *** Memory first *)

Definition boot (g_memory_start g_memory_end : Z) : M kernel unit :=
  zoom mem (free_mem_init g_memory_start g_memory_end) ;;
  init_threads g_memory_start.

Record cold_kernel (k : kernel) : Prop := {
  ck_tcbs : tcbs k = ∅;
  ck_cores : forall c, ~ is_cpu c -> running_thread k c = None;
  ck_stat : stat_ok (stat_area (mem k));
  ck_ticks : ticks_ok (lapic_ticks k);
  ck_storage : lenZ (thread_area (storage k)) = NTHREAD
}.

(** A pool that nothing has been taken from has room for every block that fits. *)
Lemma fresh_room m l : PoolInit.fresh m -> 0 <= l -> 2 ^ l <= smallest_block m -> room m l.
Proof.
  intros Hf Hl Hn. exists 0. split_and!; [lia|lia|]. intros q e He Hne.
  by apply (fresh_entry m) in He.
Qed.

Lemma has_room_level k size l : kmem_inv k -> size <= 2 ^ 30 -> level_for size l ->
  room (g_free_memory k) l -> has_room k size.
Proof.
  intros Hk Hs Hl Hr. destruct (proj1 (wp_Ok _ _ _) (wp_az_alloc k size Hk Hs)) as (r & k' & Hrun & _ & Hc).
  exists r, k'. split; [done|]. destruct Hc as [(_ & _ & Hno)|(l' & p & _ & _ & Hal)]; [by destruct (Hno l Hl)|].
  rewrite (al_addr _ _ _ _ _ Hal). pose proof (pi_start _ (proj1 Hk)). pose proof (al_range _ _ _ _ _ Hal). lia.
Qed.

Lemma wp_boot s e k : 0 <= s -> e < 2 ^ 63 -> 2 ^ 28 <= free_area s e <= 2 ^ 42 -> cold_kernel k ->
  wp (boot s e) (fun _ => booted) k.
Proof.
  intros Hs He Hf Hk.
  destruct (mm_init_spec s e Hs He ltac:(lia)) as (m & Hm & Hp & Hfr & _ & _ & _ & _ & Hsz).
  unfold boot. apply wp_bind, wp_zoom. unfold free_mem_init. unfold wp at 1. rewrite Hm.
  apply wp_init_threads. set (k1 := _ <| mem := _ |>).
  assert (kmem_inv (mem k1)) as Hki by (split; [exact Hp|apply (ck_stat _ Hk)]).
  constructor; [apply Hk|apply Hk|exact Hki| |apply Hk|apply Hk].
  apply (has_room_level _ _ 15); [exact Hki|done| |].
  - split_and!; [done|done|]. intros i Hi. assert (2 ^ i <= 2 ^ 14) by (apply Z.pow_le_mono_r; lia).
    unfold PAGE_SIZE_4K, CONFIG_NUM_THREAD. lia.
  - apply fresh_room; [exact Hfr|done|]. cbn. assert (2 ^ 16 <= free_area s e / 4096) by zdm. lia.
Qed.

(** C27: the kernel boots.  With 256 MiB of memory or more behind the kernel's own
    gigabyte, [free_mem_init], [sched_init], [thread_init] and [signal_init] return
    in the order in which [Main] calls them and leave the thread tables consistent:
    every list is empty but the global free list, which holds the 32767 threads in
    order, no core runs anything, and the array of [TCB]s is a live block of the
    allocator. *)
Theorem boot_correct s e k :
  0 <= s -> e < 2 ^ 63 -> 2 ^ 28 <= free_area s e <= 2 ^ 42 -> cold_kernel k ->
  exists k', boot s e k = Ok (tt, k') /\ booted k' /\
    exists bytes, kernel_block (mem k') (tcb_base_addr k') bytes.
Proof.
  intros Hs He Hf Hk. destruct (proj1 (wp_Ok _ _ _) (wp_boot s e k Hs He Hf Hk)) as ([] & k' & Hrun & Hb).
  exists k'. split_and!; [done|done|]. destruct Hb as [Hki _]. by apply (mo_live _ (ki_mem _ _ _ Hki) TcbArea).
Qed.

(** ** A core starts its idle thread *)

Lemma kinv_started cpu b b' k : kinv None None k -> is_cpu cpu -> running_thread k cpu = None ->
  tcbs k !! cpu = Some b -> stack_base b' = stack_base b -> state b' = RUNNING -> refc b' = 1 ->
  running_core b' = running_core b -> tcb_ok cpu b' ->
  forall gr, kinv None None (set_tcb cpu b' k <| g_running_thread_list := gr |>
    <| running_thread := fupd (running_thread k) cpu (Some cpu) |>).
Proof.
  intros Hk Hc Hn Hb Esb Es Er Ec Hok gr. destruct (ki_idle _ _ _ Hk _ _ Hc Hb) as (Hco & Hs1 & Hs2 & _).
  assert (forall n t, valid n -> t ∈ members k n -> t <> cpu) as Hne.
  { intros n t Hv Ht ->. pose proof (proj1 (ki_member _ _ _ Hk n cpu Hv Ht)). unfold is_cpu in Hc. lia. }
  assert (mem_ok (set_tcb cpu b' k)) as Hmem.
  { eapply mem_ok_set_tcb; [exact Hk|exact Hb|done|]. by rewrite Es. }
  constructor; cbn; try apply Hk.
  - intros t. rewrite <-(ki_dom _ _ _ Hk t). rewrite lookup_insert_is_Some. split; [|by destruct (decide (cpu = t)); auto].
    intros [<-|[_ ?]]; [by rewrite Hb|done].
  - intros n t Hv Ht. destruct (ki_member _ _ _ Hk n t Hv Ht) as (? & bt & Hbt & Hf). split; [done|].
    exists bt. rewrite lookup_insert_ne by (intros <-; by apply (Hne n cpu Hv Ht)). done.
  - intros t bt. rewrite lookup_insert_Some. intros [[<- <-]|[_ ?]]; [done|by apply (ki_tcb _ _ _ Hk)].
  - intros c bt Hcc. rewrite lookup_insert_Some. unfold idle_ok. cbn. intros [[<- <-]|[Hcne Hbt]].
    + rewrite fupd_eq, Ec, Es, Er. done.
    + rewrite fupd_ne by done. by apply (ki_idle _ _ _ Hk).
  - intros c t. unfold fupd. case_decide; [intros [= <-]; subst c; by split; [|left]|apply (ki_running _ _ _ Hk)].
  - by destruct Hmem; constructor.
Qed.

Lemma wp_setup_idle cpu k : kinv None None k -> is_cpu cpu -> running_thread k cpu = None ->
  wp (setup_idle_thread cpu) (fun _ k' => kinv None None k' /\
    running_thread k' = fupd (running_thread k) cpu (Some cpu) /\ lists k' = lists k) k.
Proof.
  intros Hk Hc Hn. destruct (proj2 (ki_dom _ _ _ Hk cpu)) as [b Hb].
  { unfold is_cpu, NTHREAD, CONFIG_NUM_THREAD in *. lia. }
  destruct (ki_idle _ _ _ Hk _ _ Hc Hb) as (Hco & Hs1 & Hs2 & Hr). rewrite Hn in Hr.
  unfold setup_idle_thread, alloc_tcb_idle, idle_thread, cpu_index. pose proof Hc as [Hc0 Hc1].
  rewrite (proj2 (Z.leb_le _ _)), (proj2 (Z.ltb_lt _ _)) by done.
  apply wp_bind, wp_bind, wp_ret, wp_bind. eapply wp_on_TCB; [exact Hb|]. apply wp_zoom. unfold atomic_inc. wp_steps.
  rewrite Hr. unfold init_tcb. apply wp_bind, wp_get.
  eapply wp_upd_TCB; [apply lookup_set_tcb|]. apply wp_bind. eapply wp_upd_TCB; [apply lookup_set_tcb|].
  rewrite !set_tcb_tcb. apply wp_bind, wp_modify, wp_bind.
  match goal with |- wp _ _ (set_tcb cpu ?x k <| g_running_thread_list := ?gr |> <| running_thread := _ |>) =>
    assert (kinv None None (set_tcb cpu x k <| g_running_thread_list := gr |>
      <| running_thread := fupd (running_thread k) cpu (Some cpu) |>)) as Hk1 end.
  { apply (kinv_started cpu b); try done. destruct (ki_tcb _ _ _ Hk _ _ Hb) as (H1 & H2 & H3 & H4 & H5 & H6).
    by refine (conj H1 (conj H2 (conj H3 (conj H4 (conj H5 H6))))). }
  eapply wp_start_slice; [exact Hk1|apply lookup_set_tcb|]. intros k2 [Hi Er _ El _].
  apply wp_on_lapic, wp_zoom, wp_modify. split_and!; [|exact Er|exact El].
  apply kinv_with_lapic; [by apply Hi|]. by eapply lapic_of_ok, Hi.
Qed.

(** ** Instances *)

(** A kernel with 1.5 GiB of memory before its tables are set up. *)
Definition cold : kernel :=
  mkKernel ∅ (fun _ => empty_list) (fun _ => None) (fun _ => None) 0 0 0 0 0 0 (fun _ => mkSL FALSE 0 [])
    small_kmem (fun _ _ => 0) (fun _ => 0) (1000000, 0) zero_area ∅ [].

Lemma cold_ok : cold_kernel cold.
Proof.
  constructor; [done|done|by split|by right|]. unfold cold, zero_area. cbn [storage thread_area].
  rewrite lenZ_replicate, Z2Nat.id; done.
Qed.

Lemma boot_correct_witness :
  exists k', boot 0 0x60000000 cold = Ok (tt, k') /\ booted k' /\
    exists bytes, kernel_block (mem k') (tcb_base_addr k') bytes.
Proof.
  apply (boot_correct 0 0x60000000 cold); [lia|lia|vm_compute; split; congruence|apply cold_ok].
Defined.
