(* ===== verification/ThreadSafety.v ===== *)
(** * The thread calls together

    Any sequence of calls by any cores, from the state the kernel boots into: no call
    faults, and the thread tables stay consistent. *)

From S2P Require Import Prelude.
From S2P Require Import Utility.
From S2P Require Import Lock.
From S2P Require Import Stat.
From S2P Require Import Memory.
From S2P Require Import PoolInit.
From S2P Require Import Allocator.
From S2P Require Import Atomic.
From S2P Require Import LocalApic.
From S2P Require Import ShellStorage.
From S2P Require Import Thread.
From S2P Require Import Sched.
From S2P Require Import ThreadInv.
From S2P Require Import ThreadOps.
From S2P Require Import ThreadSched.
From S2P Require Import ThreadCalls.
From S2P Require Import ThreadCreate.
From S2P Require Import Boot.

(** ** Calls and when they may be made *)

Inductive kcall : Set :=
| KStart
| KSchedule (intention : Z)
| KScheduleTo (tid intention : Z)
| KExit
| KCreate (ip argv core : Z)
| KWakeUp (tid : Z)
| KSuspend (tid : Z)
| KSetName (tid nm : Z)
| KSignal (handler : Z)
| KKill (dest sig : Z)
| KGetpid.

Definition do_kcall (c : code) (cpu sp : Z) (call : kcall) : M kernel Z :=
  match call with
  | KStart => setup_idle_thread cpu ;; ret 0
  | KSchedule i => schedule cpu sp i
  | KScheduleTo tid i => schedule_to cpu sp tid i
  | KExit => __thread_exit cpu sp
  | KCreate ip argv core => create_thread c cpu ip argv core
  | KWakeUp tid => thread_wake_up cpu tid
  | KSuspend tid => thread_suspend cpu tid
  | KSetName tid nm => lk_thread_set_name cpu tid nm ;; ret 0
  | KSignal h => sys_signal cpu h
  | KKill dest sig => sys_kill cpu dest sig
  | KGetpid => sys_getpid cpu
  end.

Definition live (k : kernel) (tid : Z) : Prop := exists b, alive k tid b.

(** A core starts its idle thread once; after that its current thread makes the
    calls.  The idle thread neither blocks nor exits; [schedule_to], with which a
    thread in [receive_offload_message] hands the core to the owner of an answer, names
    another thread, which is in the run queue if it belongs to the core; a thread is
    created while an unused [TCB] is left; the others name threads that exist.  A signal goes to a
    thread that has a handler and has been given a core, when there is memory for
    it. *)
Definition permitted (k : kernel) (cpu : Z) (call : kcall) : Prop :=
  match call with
  | KStart => running_thread k cpu = None
  | _ => exists cur, running_thread k cpu = Some cur /\
    match call with
    | KStart | KGetpid => True
    | KSchedule i => may_ask cur i
    | KScheduleTo tid i => may_ask cur i /\ tid <> cur /\
        exists b, alive k tid b /\ (running_core b = cpu -> tid ∈ members k (Runnable cpu))
    | KExit => MAX_PROCESSOR_COUNT <= cur
    | KCreate ip argv core =>
        (members k (Local cpu) <> [] \/ members k Global <> []) /\ (core = -1 \/ 0 <= core < 256)
    | KWakeUp tid | KSetName tid _ => live k tid
    | KSuspend tid => live k tid /\ MAX_PROCESSOR_COUNT <= tid
    | KSignal h => forall b, tcbs k !! cur = Some b -> signal_flag b <> 0 -> h <> 0
    | KKill dest _ => exists b, alive k dest b /\ (dest <> cur -> can_kill k b)
    end
  end.

(** Each call returns and keeps the invariant. *)
Lemma wp_kcall c cpu sp call k : kinv None None k -> 0 <= cpu < 256 -> permitted k cpu call ->
  wp (do_kcall c cpu sp call) (fun _ k' => kinv None None k') k.
Proof.
  intros Hk Hcpu Hp. pose proof (small_cpu cpu Hcpu) as Hic.
  destruct call; cbn [permitted] in Hp; [|destruct Hp as (cur & Hcur & Hp)..]; cbn [do_kcall].
  - apply wp_bind. eapply wp_mono; [by apply wp_setup_idle|]. intros ? k1 (? & _). by apply wp_ret.
  - eapply wp_mono; [by apply (wp_schedule cpu cur)|]. by intros ? k' [? _].
  - destruct Hp as (Hi & Hne & b & Hb & Hq). eapply wp_mono; [by eapply (wp_schedule_to cpu cur)|].
    by intros ? k' [? _].
  - eapply wp_mono; [by apply (wp_exit cpu cur)|]. by intros ? k' [? _].
  - destruct Hp. eapply wp_mono; [by apply wp_create_thread|]. by intros ? k' [? _].
  - destruct Hp as [b Hb]. by eapply wp_wake_up.
  - destruct Hp as [[b Hb] ?]. by eapply wp_suspend.
  - destruct Hp as [b Hb]. apply wp_bind. eapply wp_set_name; [done|exact Hb|]. intros ?. by apply wp_ret.
  - eapply wp_mono; [by apply (wp_sys_signal cpu cur)|]. by intros ? k' [? _].
  - destruct Hp as (b & Hb & ?). eapply wp_mono; [by apply (wp_sys_kill cpu cur dest b)|]. by intros ? k' (_ & ? & _).
  - unfold sys_getpid. apply wp_bind, wp_bind, wp_gets. rewrite Hcur. by apply wp_ret, wp_ret.
Qed.

(** ** Sequences of calls *)

(** Another core takes ([held = true]) or releases the lock of list [n] while no call
    of the model is running. *)
Definition contend (n : lname) (held : bool) (k : kernel) : kernel :=
  set_list n (lists k n <| tl_lock := if held then TRUE else FALSE |> <| held_elsewhere := held |>) k.

Inductive reach (c : code) (k0 : kernel) : kernel -> Prop :=
| reach_boot : reach c k0 k0
| reach_call k k' cpu sp call r : reach c k0 k -> 0 <= cpu < 256 -> permitted k cpu call ->
    do_kcall c cpu sp call k = Ok (r, k') -> reach c k0 k'
| reach_lock k n held : reach c k0 k -> valid n -> reach c k0 (contend n held k).

Lemma kinv_contend n held k : kinv None None k -> valid n -> kinv None None (contend n held k).
Proof.
  intros Hk Hn. assert (forall m, members (contend n held k) m = members k m) as Em.
  { intros m. unfold members, contend. cbn. unfold fupd. case_decide; [by subst|done]. }
  destruct (ki_mem _ _ _ Hk) as [Hm Hl Hu]. constructor; try (apply Hk || by constructor).
  - intros m Hv. cbn. unfold fupd. case_decide; [subst m|by apply (ki_list _ _ _ Hk)].
    destruct (ki_list _ _ _ Hk n Hv) as (Hnd & Hc & _). by split_and!; [| |destruct held].
  - intros a b t. rewrite !Em. apply Hk.
  - intros t Ht. destruct (ki_home _ _ _ Hk t Ht) as (m & ? & ?). exists m. by rewrite Em.
  - intros m t Hv. rewrite Em. apply (ki_member _ _ _ Hk m t Hv).
  - intros c t Hr. rewrite !Em. by apply (ki_running _ _ _ Hk).
Qed.

Lemma reach_kinv c k0 k : kinv None None k0 -> reach c k0 k -> kinv None None k.
Proof.
  intros H0. induction 1 as [|k k' cpu sp call r _ IH Hcpu Hp Hrun|k n held _ IH Hn]; [done| |by apply kinv_contend].
  pose proof (wp_kcall c cpu sp call k IH Hcpu Hp) as Hw. unfold wp in Hw. by rewrite Hrun in Hw.
Qed.

(** What the invariant means for the threads. *)
Record tables_safe (k : kernel) : Prop := {
  ts_one_core : forall c c' t, running_thread k c = Some t -> running_thread k c' = Some t -> c = c';
  ts_one_list : forall t, MAX_PROCESSOR_COUNT <= t < NTHREAD ->
    exists n, valid n /\ t ∈ members k n /\ forall n', valid n' -> t ∈ members k n' -> n' = n;
  ts_lists : forall n, valid n -> NoDup (members k n) /\ tl_count (lists k n) = lenZ (members k n);
  ts_stacks : forall t t' b b', tcbs k !! t = Some b -> tcbs k !! t' = Some b' ->
    MAX_PROCESSOR_COUNT <= t -> MAX_PROCESSOR_COUNT <= t' -> t <> t' ->
    state b <> NOTALLOC -> state b' <> NOTALLOC -> stack_of b <> 0 ->
    stack_of b <> stack_of b' /\ exists bytes, kernel_block (mem k) (stack_of b) bytes
}.

Lemma kinv_tables k : kinv None None k -> tables_safe k.
Proof.
  intros Hk. constructor.
  - intros c c' t H H'. destruct (ki_running _ _ _ Hk c t H) as [Hc Ht], (ki_running _ _ _ Hk c' t H') as [Hc' Ht'].
    assert (forall c1 c2, is_cpu c1 -> is_cpu c2 -> t = c1 -> t ∈ members k (Runnable c2) -> False) as Hx.
    { intros c1 c2 H1 H2 -> Hm. pose proof (proj1 (ki_member _ _ _ Hk (Runnable c2) c1 H2 Hm)).
      unfold is_cpu in H1. lia. }
    destruct Ht as [->|[Ht|[? _]]], Ht' as [Ht'|[Ht'|[? _]]]; try done.
    + by destruct (Hx c c').
    + by destruct (Hx c' c).
    + by pose proof (ki_apart _ _ _ Hk (Runnable c) (Runnable c') t Hc Hc' Ht Ht') as [=].
  - intros t Ht. destruct (ki_home _ _ _ Hk t Ht) as (n & Hn & Hm). exists n. split_and!; [done|done|].
    intros n' Hn' Hm'. by apply (ki_apart _ _ _ Hk n' n t).
  - intros n Hn. by destruct (ki_list _ _ _ Hk n Hn) as (? & ? & _).
  - intros t t' b b' Hb Hb' Ht Ht' Hne Hs Hs' Hz. destruct (ki_mem _ _ _ Hk) as [_ Hl Hu].
    assert (owns k (StackOf t) (stack_of b)) as Ho by (split; [done|by exists b]). split; [|by apply (Hl (StackOf t))].
    intros E. assert (owns k (StackOf t') (stack_of b)) as Ho' by (split; [done|exists b'; by rewrite <-E]).
    by injection (Hu _ _ _ Ho Ho').
Qed.

(** C1: threads stay apart, whatever the cores do.  From the booted kernel, through any
    sequence of calls of any cores, with other cores holding list locks at any time:
    every permitted call returns; no thread runs on two cores; every thread is on
    exactly one list, whose count is its length; and the stacks of different threads
    are different live blocks of the allocator. *)
Theorem threads_stay_apart c k0 k : booted k0 -> reach c k0 k ->
  tables_safe k /\
  forall cpu sp call, 0 <= cpu < 256 -> permitted k cpu call ->
    exists r k', do_kcall c cpu sp call k = Ok (r, k') /\ reach c k0 k' /\ tables_safe k'.
Proof.
  intros [H0 _] Hr. pose proof (reach_kinv c k0 k H0 Hr) as Hk. split; [by apply kinv_tables|].
  intros cpu sp call Hcpu Hp. destruct (proj1 (wp_Ok _ _ _) (wp_kcall c cpu sp call k Hk Hcpu Hp)) as (r & k' & Hrun & Hk').
  exists r, k'. split_and!; [done| |by apply kinv_tables]. by eapply reach_call.
Qed.

(** ** The choice of the next thread *)

Lemma bind_mono {A B} (m : M kernel A) (f f' : A -> M kernel B) :
  (forall a k r, f a k = Ok r -> f' a k = Ok r) -> forall k r, bind m f k = Ok r -> bind m f' k = Ok r.
Proof. intros Hf k r. unfold bind. destruct (m k) as [[a k']|]; [apply Hf|done]. Qed.

(** More fuel gives the same result. *)
Lemma select_loop_fuel cpu cid n : forall k r, select_loop cpu cid n k = Ok r -> select_loop cpu cid (S n) k = Ok r.
Proof.
  induction n as [|n IH]; [done|]. intros k r. apply bind_mono. clear k r. intros l. apply bind_mono.
  intros [[t|]|] k r; try done. revert k r. apply bind_mono. intros l'. apply bind_mono.
  intros [] k r; [apply IH|done].
Qed.

Lemma select_loop_enough cpu cid n k r : (2 <= n)%nat -> select_loop cpu cid 2 k = Ok r ->
  select_loop cpu cid n k = Ok r.
Proof. induction 1 as [|n _ IH]; [done|]. intros H. by apply select_loop_fuel, IH. Qed.

(** The scan stops at the first thread that can run. *)
Lemma wp_select_first cpu cur b t n k : is_cpu cpu -> kinv None None k -> selecting cpu cur k ->
  tcbs k !! cur = Some b -> has (intention b) THREAD_INTENTION_EXITED = false ->
  first_eligible (tcbs k) (members k (Runnable cpu)) = Some t ->
  wp (select_loop cpu cpu (S n)) (fun next _ => next = t) k.
Proof.
  intros Hc Hk Hs Hb Hex Ht. cbn [select_loop]. apply wp_bind, wp_gets, wp_bind.
  eapply wp_mono; [apply wp_scan; [done|by apply start_scan]|].
  intros [f|] k1; cbn [scanned].
  - intros (_ & -> & _). change (tcb_list (lists k (Runnable cpu))) with (members k (Runnable cpu)). rewrite Ht. by apply wp_ret.
  - intros (_ & _ & _ & _ & b' & Hb' & _ & Hx). rewrite Hb in Hb'. injection Hb' as <-. congruence.
Qed.

(** An exiting thread of the run queue gives way to the idle thread. *)
Lemma wp_select_exiting cpu cur b n k : is_cpu cpu -> selecting cpu cur k ->
  cur ∈ members k (Runnable cpu) ->
  tcbs k !! cur = Some b -> has (intention b) THREAD_INTENTION_EXITED = true ->
  wp (select_loop cpu cpu (S n)) (fun next _ => next = cpu) k.
Proof.
  intros Hc Hs Hm Hb Hex. cbn [select_loop]. apply wp_bind, wp_gets, wp_bind.
  eapply wp_mono; [apply wp_scan; [done|by apply start_scan]|]. intros [f|] k1; cbn [scanned].
  - intros (_ & _ & Hst). specialize (Hst Hm b Hb). congruence.
  - intros _. unfold idle_thread, cpu_index. pose proof Hc as [H0 H1].
    rewrite (proj2 (Z.leb_le _ _)), (proj2 (Z.ltb_lt _ _)) by done. by apply wp_ret.
Qed.

(** C24: choosing the next thread ends.  The jump back to [retry] in
    [select_next_thread] is taken at most once, so that every number of passes from
    two on gives the result of two; the result is the idle thread or a thread of the
    core's run queue that nobody has asked to block or to exit.  When the current
    thread is not exiting, it is the first thread of the queue that is ready with a
    time slice left, if there is one; when the current thread is exiting (and is not
    the idle thread itself), it is the idle thread. *)
Theorem selection_terminates cpu cur b k n :
  is_cpu cpu -> kinv None None k -> running_thread k cpu = Some cur -> tcbs k !! cur = Some b -> (2 <= n)%nat ->
  exists next k', select_next_thread cpu k = Ok (next, k') /\ select_loop cpu cpu n k = Ok (next, k') /\
    (next = cpu \/ (next ∈ members k' (Runnable cpu) /\ quiet_in k' next)) /\
    (forall t, has (intention b) THREAD_INTENTION_EXITED = false ->
      first_eligible (tcbs k) (members k (Runnable cpu)) = Some t -> next = t) /\
    (cur <> cpu -> has (intention b) THREAD_INTENTION_EXITED = true -> next = cpu).
Proof.
  intros Hc Hk Hcur Hb Hn. pose proof (kinv_selecting cpu cur k Hk Hc Hcur) as Hs.
  pose proof (wp_select_loop cpu cur Hc 2 k Hs ltac:(lia) ltac:(lia)) as (next & k' & Hrun & _ & _ & Hnext)%wp_Ok.
  exists next, k'. split_and!; [|by apply select_loop_enough|done|..].
  - destruct (current_tcb cpu cur k Hk Hcur) as (b' & Ha & Hco & _). unfold select_next_thread.
    unfold bind, get_current, gets, get_TCB, get, the, ret. cbn. unfold bind. cbn. rewrite Hcur. cbn.
    rewrite (proj1 Ha). cbn. by rewrite Hco.
  - intros t Hex Ht. pose proof (wp_select_first cpu cur b t 1 k Hc Hk Hs Hb Hex Ht) as Hw.
    unfold wp in Hw. by rewrite Hrun in Hw.
  - intros Hne Hex. destruct (ki_running _ _ _ Hk cpu cur Hcur) as [_ [?|[Hm|[? _]]]]; [done| |done].
    pose proof (wp_select_exiting cpu cur b 1 k Hc Hs Hm Hb Hex) as Hw.
    unfold wp in Hw. by rewrite Hrun in Hw.
Qed.

(** ** Waking up *)

(** C25: waking a sleeping thread that is not to exit makes it run again.  When some
    core calls [thread_wake_up] on a thread of core [cpu]'s blocked list, and [cpu]
    then runs [post_context_switch] on the way out of a switch from another thread
    [prev], the woken thread is in the run queue of [cpu], ready.  (That the thread
    is not the one switched from is needed: the next theorem.) *)
Theorem wakeup_takes_effect cpu other now prev t b k :
  0 <= cpu < 256 -> kinv None None k -> running_thread k cpu = Some now -> leaving cpu now prev k -> t <> prev ->
  t ∈ members k (Blocked cpu) -> tcbs k !! t = Some b -> has (intention b) THREAD_INTENTION_EXITED = false ->
  exists k' b', (thread_wake_up other t ;; post_context_switch cpu prev) k = Ok (tt, k') /\
    kinv None None k' /\ t ∈ members k' (Runnable cpu) /\ tcbs k' !! t = Some b' /\ state b' = READY.
Proof.
  intros Hcpu Hk Hnow Hlv Hne Ht Hb Hex. pose proof (small_cpu cpu Hcpu) as Hic.
  assert (wp (thread_wake_up other t ;; post_context_switch cpu prev) (fun _ k' => kinv None None k' /\
    queued cpu k' t) k) as ([] & k' & Hrun & Hk' & Hm & b' & Hb' & Hst)%wp_Ok; [|by exists k', b'].
  assert (alive k t b) as Ha by (eapply (member_alive _ _ _ (Blocked cpu)); [exact Hk|exact Hic|by intros []|done|done]).
  apply wp_bind. eapply wp_wake_up; [exact Hk|exact Ha|]. intros k1 -> Hk1.
  eapply wp_mono; [apply (wp_post_context_switch cpu Hcpu _ now prev); [exact Hk1|exact Hnow|]|].
  - unfold leaving, quiet_in. cbn. rewrite lookup_insert_ne by done. exact Hlv.
  - intros ? k2 (Hk2 & _ & _ & Hq). split; [exact Hk2|]. apply Hq; [done|]. split; [exact Ht|].
    eexists. split; [apply lookup_set_tcb|]. cbn. split.
    + by rewrite (has_add _ 3).
    + by rewrite (has_add _ 5).
Qed.

(** C37: a wake-up that comes too early is lost.  When a thread that is about to block
    has been woken already, so that both intentions are set, the scan of the run queue
    moves it to the blocked list, and [__post_context_switch] then takes the wake-up
    for its own: it clears both intentions and marks the thread ready where it is.
    The thread stays on the blocked list, and no later pass over that list moves
    it. *)
Theorem early_wakeup_is_lost cpu t b k :
  is_cpu cpu -> kinv (Some cpu) None k -> t ∈ members k (Runnable cpu) -> tcbs k !! t = Some b ->
  intention b = Z.lor THREAD_INTENTION_READY THREAD_INTENTION_BLOCKED ->
  exists k' b', (let! r := scan_runnable cpu cpu [t] None in
                 __post_context_switch cpu t ;; unblock cpu t ;; ret r) k = Ok (Some None, k') /\
    t ∈ members k' (Blocked cpu) /\ t ∉ members k' (Runnable cpu) /\
    tcbs k' !! t = Some b' /\ state b' = READY /\ intention b' = 0.
Proof.
  intros Hc Hk Ht Hb Hi.
  match goal with |- exists k' b', ?m k = _ /\ _ => assert (wp m (fun r k' => r = Some None /\
    t ∈ members k' (Blocked cpu) /\ t ∉ members k' (Runnable cpu) /\
    exists b', tcbs k' !! t = Some b' /\ state b' = READY /\ intention b' = 0) k)
    as (r & k' & Hrun & -> & H1 & H2 & b' & H3 & H4 & H5)%wp_Ok end; [|by exists k', b'].
  cbn [scan_runnable]. apply wp_bind, wp_bind, (wp_get_TCB _ b); [done|]. rewrite Hi.
  cbn [has THREAD_INTENTION_EXITED]. change (has _ THREAD_INTENTION_EXITED) with false. cbv iota.
  change (has _ THREAD_INTENTION_BLOCKED) with true. cbv iota. apply wp_bind.
  eapply wp_block_thread; [exact Hk|exact Hc|exact Ht|exact Hb|done|].
  intros k1 Hr Hk1. apply wp_ret, wp_bind. set (b1 := restate _ _ _) in Hr.
  assert (tcbs k1 !! t = Some b1) as Hb1 by (destruct Hr as [[ls ->] _]; apply lookup_insert_eq).
  assert (intention b1 = THREAD_INTENTION_READY) as Hi1 by (cbn; by rewrite Hi).
  apply wp_bind, (wp_get_TCB _ b1); [done|]. rewrite !bool_decide_false by done. cbn [orb]. rewrite Hi1.
  change (has _ THREAD_INTENTION_READY) with true. cbv iota.
  apply wp_bind, (wp_upd_TCB _ b1); [done|]. eapply wp_clear_intention; [apply lookup_set_tcb|cbn; rewrite Hi; done|].
  rewrite set_tcb_tcb. match goal with |- wp _ _ (set_tcb t ?x k1) => set (b2 := x) end.
  assert (intention b2 = 0) as Hi2 by (cbn; by rewrite Hi).
  apply wp_bind, wp_bind, (wp_get_TCB _ b2); [apply lookup_set_tcb|]. rewrite Hi2. cbv iota. apply wp_ret, wp_ret.
  split_and!; [done| | |by exists b2; split; [apply lookup_set_tcb|]].
  - apply (moved_member _ _ _ _ _ _ t (rl_moved _ _ _ _ _ _ Hr (Blocked cpu) Hc)). by right.
  - intros [[? _]|[_ ?]]%(moved_member _ _ _ _ _ _ t (rl_moved _ _ _ _ _ _ Hr (Runnable cpu) Hc)); done.
Qed.

(** ** Instances *)

Definition some_code : code := mkCode 0x1000 0x2000.

Lemma booted_exists : exists k, booted k.
Proof.
  destruct (proj1 (wp_Ok _ _ _) (wp_boot 0 0x60000000 cold ltac:(lia) ltac:(lia)
    ltac:(vm_compute; split; congruence) cold_ok)) as ([] & k & _ & Hb). by exists k.
Qed.

(** A booted kernel whose first core idles. *)
Lemma idling : exists k0 k1, booted k0 /\ reach some_code k0 k1 /\ running_thread k1 0 = Some 0 /\
  lists k1 = lists k0.
Proof.
  destruct booted_exists as [k0 Hb]. pose proof Hb as (Hk & Hg & Ho & Hr).
  assert (wp (do_kcall some_code 0 0 KStart) (fun _ k' =>
    running_thread k' = fupd (running_thread k0) 0 (Some 0) /\ lists k' = lists k0) k0) as (r & k1 & Hrun & Er & El)%wp_Ok.
  { apply wp_bind. eapply wp_mono; [apply (wp_setup_idle 0 k0 Hk); [done|apply Hr]|].
    intros ? k' [_ ?]. by apply wp_ret. }
  exists k0, k1. split_and!; [done| |by rewrite Er, fupd_eq|done].
  eapply (reach_call _ _ k0 k1 0 0 KStart); [constructor|lia|apply Hr|exact Hrun].
Qed.

Lemma threads_stay_apart_witness : exists k0 k1, booted k0 /\ reach some_code k0 k1 /\
  permitted k1 0 (KCreate 0x4000 7 0) /\ tables_safe k1 /\
  exists r k2, create_thread some_code 0 0x4000 7 0 k1 = Ok (r, k2) /\ reach some_code k0 k2 /\ tables_safe k2.
Proof.
  destruct idling as (k0 & k1 & Hb & Hr & Hrun & El). exists k0, k1.
  assert (permitted k1 0 (KCreate 0x4000 7 0)) as Hp.
  { exists 0. split_and!; [done| |right; lia]. right. unfold members. rewrite El.
    destruct Hb as (_ & Hg & _). unfold members in Hg. rewrite Hg. by rewrite seqZ_cons. }
  destruct (threads_stay_apart some_code k0 k1 Hb Hr) as [Hs Hcall].
  exact (conj Hb (conj Hr (conj Hp (conj Hs (Hcall 0 0 (KCreate 0x4000 7 0) ltac:(lia) Hp))))).
Defined.

(** A thread in the run queue of the first core, which idles. *)
Lemma one_runnable : exists k t b, kinv None None k /\ running_thread k 0 = Some 0 /\
  t ∈ members k (Runnable 0) /\ tcbs k !! t = Some b /\ intention b = 0.
Proof.
  destruct idling as (k0 & k1 & Hb & Hr & Hrun & El).
  pose proof (reach_kinv _ _ _ (proj1 Hb) Hr) as Hk1.
  assert (members k1 Global <> []) as Hg.
  { unfold members. rewrite El. destruct Hb as (_ & Hg & _). unfold members in Hg. by rewrite Hg, seqZ_cons. }
  destruct (proj1 (wp_Ok _ _ _) (wp_create_thread some_code 0 0x4000 7 0 k1 Hk1 ltac:(done) (or_intror Hg) ltac:(lia)))
    as (t & k2 & _ & Hk2 & b & a & m' & mask & _ & _ & _ & [_ Et Hl Hrest]).
  set (b2 := created _ _ _ _ _) in Et.
  assert (t ∈ members k2 Migrating) as Ht by (apply (moved_member _ _ _ _ _ _ t (Hl Migrating I)); by right).
  assert (tcbs k2 !! t = Some b2) as Hb2 by (by rewrite Et, lookup_insert_eq).
  destruct (ki_member _ _ _ Hk2 Migrating t I Ht) as (_ & ? & Hb2' & _ & _ & Hal).
  rewrite Hb2 in Hb2'. injection Hb2' as <-.
  assert (wp (adopt 0 0 t) (fun _ k' => kinv None None k' /\ running_thread k' 0 = Some 0 /\
    t ∈ members k' (Runnable 0) /\ exists b', tcbs k' !! t = Some b' /\ intention b' = 0) k2)
    as (_ & k3 & _ & Hk3 & Hr3 & Ht3 & b3 & Hb3 & Hi3)%wp_Ok; [|by exists k3, t, b3].
  eapply wp_adopt; [exact Hk2|done|exact Ht|exact Hb2|by apply Hal|]. intros k' Hrel Hk'. split_and!.
  - done.
  - by rewrite (rs_running _ _ (relocated_rest _ _ _ _ _ _ Hrel)), (rs_running _ _ Hrest).
  - apply (moved_member _ _ _ _ _ _ t (rl_moved _ _ _ _ _ _ Hrel (Runnable 0) ltac:(done))). by right.
  - destruct Hrel as [[ls ->] _]. eexists. split; [apply lookup_insert_eq|done].
Qed.

Lemma selection_terminates_witness : exists k b, kinv None None k /\ running_thread k 0 = Some 0 /\
  tcbs k !! 0 = Some b /\
  exists next k', select_next_thread 0 k = Ok (next, k') /\ select_loop 0 0 5 k = Ok (next, k') /\
    (next = 0 \/ (next ∈ members k' (Runnable 0) /\ quiet_in k' next)) /\
    (forall t, has (intention b) THREAD_INTENTION_EXITED = false ->
      first_eligible (tcbs k) (members k (Runnable 0)) = Some t -> next = t) /\
    (0 <> 0 -> has (intention b) THREAD_INTENTION_EXITED = true -> next = 0).
Proof.
  destruct one_runnable as (k & t & _ & Hk & Hr & _). destruct (current_tcb 0 0 k Hk Hr) as (b & Ha & _).
  exists k, b. refine (conj Hk (conj Hr (conj (proj1 Ha) _))).
  apply (selection_terminates 0 0 b k 5); [done|exact Hk|exact Hr|apply Ha|lia].
Defined.

Lemma early_wakeup_is_lost_witness : exists k t b, kinv (Some 0) None k /\
  t ∈ members k (Runnable 0) /\ tcbs k !! t = Some b /\
  exists k' b', (let! r := scan_runnable 0 0 [t] None in
                 __post_context_switch 0 t ;; unblock 0 t ;; ret r) k = Ok (Some None, k') /\
    t ∈ members k' (Blocked 0) /\ t ∉ members k' (Runnable 0) /\
    tcbs k' !! t = Some b' /\ state b' = READY /\ intention b' = 0.
Proof.
  destruct one_runnable as (k & t & b & Hk & Hr & Ht & Hb & Hi).
  set (b' := b <| intention := Z.lor THREAD_INTENTION_READY THREAD_INTENTION_BLOCKED |>).
  assert (kinv (Some 0) None (set_tcb t b' k)) as Hk'.
  { apply kinv_switching. eapply kinv_set_aux; [exact Hk|exact Hb|done|].
    destruct (ki_tcb _ _ _ Hk _ _ Hb) as (H1 & H2 & H3 & H4 & H5 & H6).
    refine (conj H1 (conj H2 (conj _ (conj H4 (conj H5 _))))); [done|].
    pose proof (proj1 (ki_member _ _ _ Hk (Runnable 0) t ltac:(done) Ht)). lia. }
  exists (set_tcb t b' k), t, b'. refine (conj Hk' (conj Ht (conj (lookup_set_tcb _ _ _) _))).
  apply (early_wakeup_is_lost 0 t b'); [done|exact Hk'|exact Ht|apply lookup_set_tcb|reflexivity].
Defined.

Lemma wakeup_takes_effect_witness : exists k t b, kinv None None k /\ t ∈ members k (Blocked 0) /\
  tcbs k !! t = Some b /\
  exists k' b', (thread_wake_up 1 t ;; post_context_switch 0 0) k = Ok (tt, k') /\
    kinv None None k' /\ t ∈ members k' (Runnable 0) /\ tcbs k' !! t = Some b' /\ state b' = READY.
Proof.
  destruct one_runnable as (k & t & b & Hk & Hr & Ht & Hb & Hi).
  pose proof (proj1 (ki_member _ _ _ Hk (Runnable 0) t ltac:(done) Ht)) as Hge.
  assert (wp (block_thread 0 t) (fun _ k' => kinv None None k' /\ running_thread k' 0 = Some 0 /\
    t ∈ members k' (Blocked 0) /\ exists b', tcbs k' !! t = Some b' /\ intention b' = 0) k)
    as (_ & k1 & _ & Hk1 & Hr1 & Ht1 & b1 & Hb1 & Hi1)%wp_Ok.
  { eapply wp_block_thread; [exact Hk|done|exact Ht|exact Hb| |].
    - rewrite Hr. intros [= <-]. unfold MAX_PROCESSOR_COUNT in Hge. lia.
    - intros k' Hrel Hk'. split_and!; [done| | |].
      + by rewrite (rs_running _ _ (relocated_rest _ _ _ _ _ _ Hrel)).
      + apply (moved_member _ _ _ _ _ _ t (rl_moved _ _ _ _ _ _ Hrel (Blocked 0) ltac:(done))). by right.
      + destruct Hrel as [[ls ->] _]. eexists. split; [apply lookup_insert_eq|]. cbn. by rewrite Hi. }
  exists k1, t, b1. refine (conj Hk1 (conj Ht1 (conj Hb1 _))).
  apply (wakeup_takes_effect 0 1 0 0 t b1 k1); [lia|exact Hk1|exact Hr1|by left| |exact Ht1|exact Hb1|by rewrite Hi1].
  unfold MAX_PROCESSOR_COUNT in Hge. lia.
Defined.
