(* ===== verification/Frames.v ===== *)
(** * What the thread calls leave alone

    No call of the kernel's thread code touches the identity of a core, the loads
    the cores publish, or the ticks they publish: these belong to the timer.  The
    rules follow the structure of the code, so that the proofs are found by
    [stays_auto]. *)

From S2P Require Import Prelude.
From S2P Require Import Lock.
From S2P Require Import Stat.
From S2P Require Import Memory.
From S2P Require Import Atomic.
From S2P Require Import LocalApic.
From S2P Require Import ShellStorage.
From S2P Require Import Thread.
From S2P Require Import Sched.
From S2P Require Import ThreadSafety.

(** Whenever [m] returns, [f] has the value it had. *)
Definition stays {St X A} (f : St -> X) (m : M St A) : Prop :=
  forall s a s', m s = Ok (a, s') -> f s' = f s.

(** ** The rules *)

Section rules.
Context {St X : Type} (f : St -> X).

Lemma stays_ret {A} (a : A) : stays f (ret a).
Proof. by intros s b s' [= _ ->]. Qed.

Lemma stays_fail {A} e : stays f (@fail St A e).
Proof. done. Qed.

Lemma stays_get : stays f get.
Proof. by intros s b s' [= _ ->]. Qed.

Lemma stays_gets {A} (g : St -> A) : stays f (gets g).
Proof. by intros s b s' [= _ ->]. Qed.

Lemma stays_the {A} e (o : option A) : stays f (the e o).
Proof. destruct o; [apply stays_ret|apply stays_fail]. Qed.

Lemma stays_modify g : (forall s, f (g s) = f s) -> stays f (modify g).
Proof. intros Hg s a s' [= _ <-]. apply Hg. Qed.

Lemma stays_bind {A B} (m : M St A) (k : A -> M St B) :
  stays f m -> (forall a, stays f (k a)) -> stays f (bind m k).
Proof.
  intros Hm Hk s b s'. unfold bind. destruct (m s) as [[a s1]|] eqn:E; [|done].
  intros Hrun. rewrite (Hk a _ _ _ Hrun). by apply (Hm _ _ _ E).
Qed.

(** A state that is read, changed and written back. *)
Lemma stays_update {A} (k : St -> M St A) :
  (forall s a s', k s s = Ok (a, s') -> f s' = f s) -> stays f (let! s := get in k s).
Proof. intros Hk s a s' Hrun. by apply (Hk s a). Qed.

Lemma stays_when b m : stays f m -> stays f (when b m).
Proof. destruct b; [done|]. intros _. apply stays_ret. Qed.

Lemma stays_for_each {A} (xs : list A) body : (forall x, stays f (body x)) -> stays f (for_each xs body).
Proof.
  intros Hb. induction xs as [|x xs IH]; cbn; [apply stays_ret|]. by apply stays_bind.
Qed.

Lemma stays_zoom {T A} (g : St -> T) {H : SetField g} (m : M T A) :
  (forall t s, f (set_field g t s) = f s) -> stays f (zoom g m).
Proof. intros Hg s a s'. unfold zoom. destruct (m (g s)) as [[a' t]|]; [|done]. intros [= _ <-]. apply Hg. Qed.

(** An operation on a field that [f] looks at only through [h]. *)
Lemma stays_zoom_in {T A Y} (g : St -> T) {H : SetField g} (h : T -> Y) (m : M T A) :
  stays h m -> (forall t s, h t = h (g s) -> f (set_field g t s) = f s) -> stays f (zoom g m).
Proof.
  intros Hm Hg s a s'. unfold zoom. destruct (m (g s)) as [[a' t]|] eqn:E; [|done].
  intros [= _ <-]. apply Hg. by apply (Hm _ _ _ E).
Qed.

(** With a total-correctness triple. *)
Lemma wp_stays {A} (m : M St A) Q s : wp m Q s -> stays f m -> wp m (fun a s' => Q a s' /\ f s' = f s) s.
Proof.
  intros Hm Hf. unfold wp in *. destruct (m s) as [[a s']|] eqn:E; [|done]. split; [done|]. by apply (Hf _ _ _ E).
Qed.
End rules.

Create HintDb stays.
#[export] Hint Resolve stays_ret stays_fail stays_get stays_gets stays_the stays_when stays_for_each : stays.

(** Follows the code: a sequence is two goals, a branch one per case, an operation
    with a lemma is closed by it, and another is unfolded. *)
Ltac stays_head m := lazymatch m with ?h _ => stays_head h | _ => m end.

Ltac stays_step :=
  lazymatch goal with
  | |- forall _, _ => intro
  | |- stays _ (bind _ _) => apply stays_bind
  | |- stays _ (modify _) => apply stays_modify; intros; reflexivity
  | |- stays _ (when _ _) => apply stays_when
  | |- stays _ (for_each _ _) => apply stays_for_each
  | |- stays _ (match ?x with _ => _ end) => destruct x
  | |- stays _ ?m =>
      first [ solve [auto with stays nocore]
            | apply stays_zoom; intros; reflexivity
            | let h := stays_head m in unfold h; cbn beta zeta ]
  end.
Ltac stays_auto := repeat stays_step.

(** ** The allocator *)

Lemma set_mem_info_stays n : stays Stat.core_load (set_mem_info n).
Proof.
  unfold set_mem_info. stays_step; [stays_auto|]. intros _. apply stays_update.
  intros s a s'. unfold bind, the. destruct (nthZ _ _); [|done]. cbn. by intros [= _ <-].
Qed.

Lemma stat_zoom_stays n : stays (fun k => Stat.core_load (stat_area k)) (zoom stat_area (set_mem_info n)).
Proof. eapply stays_zoom_in; [apply set_mem_info_stays|]. by intros. Qed.
#[export] Hint Resolve stat_zoom_stays : stays.

Lemma az_alloc_stays n : stays (fun k => Stat.core_load (stat_area k)) (az_alloc n).
Proof. unfold az_alloc. stays_auto. Qed.

Lemma az_free_stays a : stays (fun k => Stat.core_load (stat_area k)) (az_free a).
Proof. unfold az_free. stays_auto. Qed.

(** ** The local APIC *)

Definition apic_id_of (a : lapic) : Z := msr a APIC_REGISTER_APIC_ID.

Lemma x2apic_write_stays r v : r <> APIC_REGISTER_APIC_ID -> stays apic_id_of (x2apic_write r v).
Proof.
  intros Hr. apply stays_modify. intros a. unfold apic_id_of. cbn [msr set_field].
  by rewrite (proj2 (Z.eqb_neq _ _)) by done.
Qed.
#[export] Hint Extern 1 (stays apic_id_of (x2apic_write _ _)) => apply x2apic_write_stays; discriminate : stays.

Lemma lapic_eoi_stays : stays apic_id_of lapic_send_eoi.
Proof. stays_auto. Qed.

Lemma lapic_stop_stays : stays apic_id_of lapic_stop_timer.
Proof. stays_auto. Qed.

Lemma lapic_oneshot_stays n : stays apic_id_of (lapic_start_timer_oneshot n).
Proof. stays_auto. Qed.

Lemma lapic_ticks_stays : stays apic_id_of lapic_get_ticks_in_1ms.
Proof. stays_auto. Qed.
#[export] Hint Resolve lapic_eoi_stays lapic_stop_stays lapic_oneshot_stays lapic_ticks_stays : stays.

Lemma lapic_consumed_stays : stays apic_id_of lapic_consumed_time_slice.
Proof. stays_auto. Qed.

Lemma lapic_pending_stays : stays apic_id_of lapic_timer_interrupt_pending.
Proof. stays_auto. Qed.

Lemma lapic_sti_stays : stays apic_id_of (zoom flags_reg enable_interrupt).
Proof. stays_auto. Qed.
#[export] Hint Resolve lapic_consumed_stays lapic_pending_stays lapic_sti_stays : stays.

(** ** The kernel *)

(** What core [c] is called by the hardware, and what is published. *)
Definition public (c : Z) (k : kernel) : Z * list Z * list Z :=
  (msrs k c APIC_REGISTER_APIC_ID, Stat.core_load (stat_area (mem k)), ss_timer (storage k)).

Section kernel.
Context (c : Z).

Lemma put_TCB_stays t b : stays (public c) (put_TCB t b).
Proof. stays_auto. Qed.

Lemma get_TCB_stays t : stays (public c) (get_TCB t).
Proof. stays_auto. Qed.
Hint Resolve put_TCB_stays get_TCB_stays : stays.

Lemma upd_TCB_stays t g : stays (public c) (upd_TCB t g).
Proof. stays_auto. Qed.

Lemma on_TCB_stays {A} t (m : M TCB A) : stays (public c) (on_TCB t m).
Proof. unfold on_TCB. stays_auto. Qed.

Lemma on_lapic_stays {A} cpu (m : M lapic A) : stays apic_id_of m -> stays (public c) (on_lapic cpu m).
Proof.
  intros Hm. apply stays_update. intros k a k'. destruct (m _) as [[a' l]|] eqn:E; [|done].
  intros [= _ <-]. unfold public. cbn. apply Hm in E. unfold fupd. case_decide as Hd; [subst|done].
  unfold apic_id_of in E. cbn in E. by rewrite E.
Qed.

Lemma mem_stays {A} (m : M kmem A) : stays (fun k => Stat.core_load (stat_area k)) m -> stays (public c) (zoom mem m).
Proof. intros Hm. eapply stays_zoom_in; [exact Hm|]. intros t k E. unfold public. cbn in *. by rewrite E. Qed.
Hint Resolve upd_TCB_stays on_TCB_stays on_lapic_stays mem_stays az_alloc_stays az_free_stays : stays.

Lemma lock_list_stays n : stays (public c) (lock_list n).
Proof. unfold lock_list. stays_auto. Qed.

Lemma trylock_list_stays n : stays (public c) (trylock_list n).
Proof. unfold trylock_list. stays_auto. Qed.

Lemma destroy_tcb_stays cpu t : stays (public c) (destroy_tcb cpu t).
Proof. stays_auto. Qed.
Hint Resolve lock_list_stays trylock_list_stays destroy_tcb_stays : stays.

Lemma get_tcb_ptr_stays t : stays (public c) (get_tcb_ptr t).
Proof. stays_auto. Qed.

Lemma put_tcb_stays cpu t : stays (public c) (put_tcb cpu t).
Proof. stays_auto. Qed.

Lemma refill_stays t : stays (public c) (refill_time_slice t).
Proof. stays_auto. Qed.

Lemma pick_stays cid t : stays (public c) (pick cid t).
Proof. stays_auto. Qed.
Hint Resolve get_tcb_ptr_stays put_tcb_stays refill_stays pick_stays : stays.

Lemma reap_stays cpu a t : stays (public c) (reap cpu a t).
Proof. stays_auto. Qed.

Lemma block_stays cpu t : stays (public c) (block_thread cpu t).
Proof. stays_auto. Qed.

Lemma emigrate_stays cpu t : stays (public c) (emigrate cpu t).
Proof. stays_auto. Qed.

Lemma lift_stays {A} (o : outcome A) : stays (public c) (lift o).
Proof. unfold lift. stays_auto. Qed.
Hint Resolve reap_stays block_stays emigrate_stays lift_stays : stays.

Lemma scan_stays cpu cid ts : forall found, stays (public c) (scan_runnable cpu cid ts found).
Proof. induction ts as [|t ts IH]; intros found; cbn [scan_runnable]; stays_auto. Qed.

Lemma refill_all_stays ts : forall r, stays (public c) (refill_runnable ts r).
Proof. induction ts as [|t ts IH]; intros r; cbn [refill_runnable]; stays_auto. Qed.
Hint Resolve scan_stays refill_all_stays : stays.

Lemma select_stays cpu cid n : stays (public c) (select_loop cpu cid n).
Proof. induction n as [|n IH]; cbn [select_loop]; stays_auto. Qed.

Lemma min_core_stays b cid n : forall i best m, stays (public c) (min_core_loop b cid n i best m).
Proof. induction n as [|n IH]; intros i best m; cbn [min_core_loop]; stays_auto. Qed.
Hint Resolve select_stays min_core_stays : stays.

Lemma adopt_own_stays cpu cid ts : stays (public c) (adopt_own cpu cid ts).
Proof. induction ts as [|t ts IH]; cbn [adopt_own]; stays_auto. Qed.

Lemma adopt_one_stays cpu cid ts : stays (public c) (adopt_one cpu cid ts).
Proof. induction ts as [|t ts IH]; cbn [adopt_one]; stays_auto. Qed.
Hint Resolve adopt_own_stays adopt_one_stays : stays.

Lemma post_switch_stays cpu prev : stays (public c) (post_context_switch cpu prev).
Proof. stays_auto. Qed.

Lemma on_sig_lock_stays i m : stays (public c) (on_sig_lock i m).
Proof. unfold on_sig_lock. stays_auto. Qed.
Hint Resolve post_switch_stays on_sig_lock_stays : stays.

Lemma signal_handling_stays cpu t : stays (public c) (signal_handling cpu t).
Proof. stays_auto. Qed.

(** The set of suspended threads is written back with the state it was read from. *)
Lemma suspend_stays (g : gset Z -> gset Z) (k : bool -> M kernel unit) next : (forall b, stays (public c) (k b)) ->
  stays (public c) (let! s := get in
    let resumes := bool_decide (next ∈ suspended s) in
    put (s <| suspended := g (suspended s) |>) ;; k resumes).
Proof. intros Hk. apply stays_update. intros s a s' Hrun. by apply Hk in Hrun. Qed.
Hint Resolve signal_handling_stays : stays.

Lemma switch_to_stays cpu sp prev next : stays (public c) (switch_to cpu sp prev next).
Proof.
  apply stays_bind; [auto with stays|]. intros _.
  apply (suspend_stays (fun x => {[ prev ]} ∪ (x ∖ {[ next ]}))
    (fun b => if b then post_context_switch cpu prev ;; signal_handling cpu next else release_thread_spl cpu prev)).
  stays_auto.
Qed.

Lemma adjust_stays cpu : stays (public c) (adjust_time_slice cpu).
Proof. stays_auto. Qed.

Lemma decrease_stays cpu n : stays (public c) (decrease_remaining_time_slice cpu n).
Proof. stays_auto. Qed.

Lemma start_slice_stays cpu t : stays (public c) (start_slice cpu t).
Proof. stays_auto. Qed.
Hint Resolve switch_to_stays adjust_stays decrease_stays start_slice_stays : stays.

Lemma schedule_stays cpu sp i : stays (public c) (schedule cpu sp i).
Proof. stays_auto. Qed.
Hint Resolve schedule_stays : stays.

Lemma kcall_stays code cpu sp call : stays (public c) (do_kcall code cpu sp call).
Proof. unfold do_kcall. destruct call; stays_auto. Qed.
End kernel.
