(* ===== verification/Sleep.v ===== *)
(** * Threads that nobody moves

    What the kernel's calls leave alone of one thread [t]: where it is queued, what
    it has been asked to do, and where it runs, as long as no call names it.  The
    rules follow the structure of the code, as in [Frames], but depend on the state:
    an operation on another thread's control block or link does not concern [t], and
    a list that [t] is not on yields other threads only. *)

From S2P Require Import Prelude.
From S2P Require Import Lock.
From S2P Require Import Stat.
From S2P Require Import Memory.
From S2P Require Import Atomic.
From S2P Require Import LocalApic.
From S2P Require Import ShellStorage.
From S2P Require Import Thread.
From S2P Require Import Sched.
From S2P Require Import ThreadInv.
From S2P Require Import ThreadOps.
From S2P Require Import ThreadSched.
From S2P Require Import ThreadCalls.
From S2P Require Import ThreadSafety.

(** Thread [t] is on list [n] and on no other, its intention satisfies [I], it has
    not exited and is not unused, and it runs on core [r], or on none. *)
Record placed (t : Z) (n : lname) (I : Z -> Prop) (r : option Z) (k : kernel) : Prop := {
  pl_in : t ∈ members k n;
  pl_only : forall m, valid m -> m <> n -> t ∉ members k m;
  pl_tcb : exists b, tcbs k !! t = Some b /\ I (intention b) /\ state b <> EXITED /\ state b <> NOTALLOC;
  pl_runs : forall c, running_thread k c = Some t <-> r = Some c
}.

(** What follows a scan in [select_next_thread]. *)
Definition after_scan (cpu cid : Z) (j : nat) (o : option (option Z)) : M kernel Z :=
  match o with
  | None => idle_thread cid
  | Some (Some x) => ret x
  | Some None =>
      let! l := get_list (Runnable cpu) in
      let! refilled := refill_runnable (tcb_list l) false in
      if refilled then select_loop cpu cid j
      else
        let! l := get_list (Runnable cpu) in
        if tl_count l =? 1 then the NullPointer (head (tcb_list l)) else idle_thread cid
  end.

Lemma select_loop_S cpu cid j : select_loop cpu cid (S j) =
  (let! l := get_list (Runnable cpu) in
   let! o := scan_runnable cpu cid (tcb_list l) None in
   after_scan cpu cid j o).
Proof. done. Qed.

Section safe.
Context (t : Z) (n : lname) (I : Z -> Prop) (r : option Z).
Hypothesis not_idle : MAX_PROCESSOR_COUNT <= t.

(** Whenever [m] returns, [t] is where it was, and the result satisfies [R]. *)
Definition safe {A} (R : A -> Prop) (m : M kernel A) : Prop :=
  forall k a k', placed t n I r k -> m k = Ok (a, k') -> placed t n I r k' /\ R a.

Local Notation keeps := (safe (fun _ => True)).

(** ** The rules *)

Lemma safe_ret {A} (R : A -> Prop) a : R a -> safe R (ret a).
Proof. by intros HR k b k' Hp [= <- <-]. Qed.

Lemma safe_fail {A} (R : A -> Prop) e : safe R (fail e).
Proof. done. Qed.

Lemma safe_bind {A B} (R : A -> Prop) (R' : B -> Prop) (m : M kernel A) f :
  safe R m -> (forall a, R a -> safe R' (f a)) -> safe R' (bind m f).
Proof.
  intros Hm Hf k b k' Hp. unfold bind. destruct (m k) as [[a k1]|] eqn:E; [|done].
  destruct (Hm _ _ _ Hp E) as [Hp1 HR]. by apply Hf.
Qed.

Lemma keeps_bind {A B} (R' : B -> Prop) (m : M kernel A) f :
  keeps m -> (forall a, safe R' (f a)) -> safe R' (bind m f).
Proof. intros Hm Hf. eapply safe_bind; [exact Hm|]. intros a _. apply Hf. Qed.

Lemma safe_keeps {A} (R : A -> Prop) (m : M kernel A) : safe R m -> keeps m.
Proof. intros Hm k a k' Hp Hrun. split; [|done]. by destruct (Hm _ _ _ Hp Hrun). Qed.

Lemma keeps_gets {A} (g : kernel -> A) : keeps (gets g).
Proof. by intros k a k' Hp [= <- <-]. Qed.

Lemma keeps_get : keeps get.
Proof. by intros k a k' Hp [= <- <-]. Qed.

Lemma keeps_the {A} e (o : option A) : keeps (the e o).
Proof. destruct o; [by apply safe_ret|apply safe_fail]. Qed.

Lemma keeps_when b m : keeps m -> keeps (when b m).
Proof. destruct b; [done|]. intros _. by apply safe_ret. Qed.

Lemma keeps_for_each {A} (xs : list A) body : (forall x, x ∈ xs -> keeps (body x)) -> keeps (for_each xs body).
Proof.
  induction xs as [|x xs IH]; intros Hb; cbn [for_each]; [by apply safe_ret|].
  apply keeps_bind; [apply Hb; by left|]. intros _. apply IH. intros y Hy. apply Hb. by right.
Qed.

(** A change of fields that say nothing about threads. *)
Lemma keeps_modify g : (forall k, tcbs (g k) = tcbs k) -> (forall k, lists (g k) = lists k) ->
  (forall k, running_thread (g k) = running_thread k) -> keeps (modify g).
Proof.
  intros Et El Er k a k' [Hi Ho Hb Hr] [= _ <-]. split; [|done].
  split; unfold members; rewrite ?Et, ?El; try done. intros c. rewrite Er. apply Hr.
Qed.

Lemma keeps_zoom {S A} (g : kernel -> S) {H : SetField g} (m : M S A) :
  (forall s k, tcbs (set_field g s k) = tcbs k) -> (forall s k, lists (set_field g s k) = lists k) ->
  (forall s k, running_thread (set_field g s k) = running_thread k) -> keeps (zoom g m).
Proof.
  intros Et El Er k a k' [Hi Ho Hb Hr]. unfold zoom. destruct (m (g k)) as [[a' s]|]; [|done].
  intros [= _ <-]. split; [|done]. split; unfold members; rewrite ?Et, ?El; try done. intros c. rewrite Er. apply Hr.
Qed.

(** ** Control blocks and lists *)

Lemma keeps_put_TCB x b : x <> t -> keeps (put_TCB x b).
Proof.
  intros Hx k a k' [Hi Ho Hb Hr] [= _ <-]. split; [|done]. split; try done. cbn. by rewrite lookup_insert_ne.
Qed.

Lemma keeps_get_TCB x : keeps (get_TCB x).
Proof. apply keeps_bind; [apply keeps_get|]. intros k. apply keeps_the. Qed.

Lemma keeps_upd_TCB x f : x <> t -> keeps (upd_TCB x f).
Proof. intros Hx. apply keeps_bind; [apply keeps_get_TCB|]. intros b. by apply keeps_put_TCB. Qed.

(** Also for [t] itself, if the change does not concern its intention. *)
Lemma keeps_upd_any x f : (forall b, intention (f b) = intention b) ->
  (forall b, state (f b) = state b) -> keeps (upd_TCB x f).
Proof.
  intros Ei Es. destruct (decide (x = t)) as [->|Hx]; [|by apply keeps_upd_TCB].
  intros k a k' [Hi Ho (b & Hb & HI & Hs) Hr]. unfold upd_TCB, bind, get_TCB, bind, get, the. rewrite Hb.
  intros [= _ <-]. split; [|done]. split; try done. exists (f b). cbn. by rewrite lookup_insert_eq, Ei, Es.
Qed.

Lemma keeps_on_TCB {A} x (m : M TCB A) : x <> t -> keeps (on_TCB x m).
Proof.
  intros Hx. apply keeps_bind; [apply keeps_get_TCB|]. intros b. destruct (m b) as [[a b']|]; [|apply safe_fail].
  apply keeps_bind; [by apply keeps_put_TCB|]. intros _. by apply safe_ret.
Qed.

Lemma keeps_on_any {A} x (m : M TCB A) : (forall b a b', m b = Ok (a, b') -> I (intention b) ->
    I (intention b') /\ state b' = state b) -> keeps (on_TCB x m).
Proof.
  intros Hm. destruct (decide (x = t)) as [->|Hx]; [|by apply keeps_on_TCB].
  intros k a k' [Hi Ho (b & Hb & HI & Hs) Hr]. unfold on_TCB, bind, get_TCB, bind, get, the. rewrite Hb. cbn.
  destruct (m b) as [[a' b']|] eqn:E; [|done]. destruct (Hm _ _ _ E HI) as [HI' Hs']. intros [= _ <-].
  split; [|done]. split; try done. exists b'. cbn. rewrite lookup_insert_eq, Hs'. done.
Qed.

Lemma safe_get_list m : valid m -> m <> n -> safe (fun l => t ∉ tcb_list l) (get_list m).
Proof. intros Hv Hm k l k' Hp [= <- <-]. split; [done|]. by apply (pl_only _ _ _ _ _ Hp). Qed.

Lemma keeps_get_list m : keeps (get_list m).
Proof. apply keeps_gets. Qed.

(** The threads of a list stay the same for [t]. *)
Lemma keeps_upd_list m f : (forall l, t ∈ tcb_list (f l) <-> t ∈ tcb_list l) -> keeps (upd_list m f).
Proof.
  intros Hf k a k' [Hi Ho Hb Hr] [= _ <-]. split; [|done].
  assert (forall x, t ∈ members (k <| lists := fupd (lists k) m (f (lists k m)) |>) x <-> t ∈ members k x) as Hm.
  { intros x. unfold members. cbn. unfold fupd. case_decide; [subst x; apply Hf|done]. }
  split; try done; [by apply Hm|]. intros x Hv Hne. rewrite Hm. by apply Ho.
Qed.

(** A list that [t] is not on may change in any way that does not add [t]. *)
Lemma keeps_upd_other m f : valid m -> m <> n -> (forall l, t ∉ tcb_list l -> t ∉ tcb_list (f l)) ->
  keeps (upd_list m f).
Proof.
  intros Hv Hm Hf k a k' [Hi Ho Hb Hr] [= _ <-]. split; [|done].
  split; try done; unfold members in *; cbn; unfold fupd.
  - by rewrite decide_False.
  - intros x Hx Hne. case_decide; [subst x; apply Hf, Ho; done|by apply Ho].
Qed.

Lemma keeps_unlink x : x <> t -> keeps (unlink x).
Proof.
  intros Hx k a k' [Hi Ho Hb Hr] [= _ <-]. split; [|done].
  split; try done; unfold members in *; cbn.
  - apply list_elem_of_filter. done.
  - intros m Hv Hne [_ Hin]%list_elem_of_filter. by apply (Ho m).
Qed.

Lemma keeps_add_tail m x : x <> t -> keeps (add_tail m x).
Proof. intros Hx. apply keeps_upd_list. intros l. cbn. rewrite elem_of_app, list_elem_of_singleton. naive_solver. Qed.

Lemma keeps_count m f : keeps (upd_list m (fun l => l <| tl_count := f l |>)).
Proof. by apply keeps_upd_list. Qed.

Lemma keeps_lock_word m f : keeps (upd_list m (fun l => l <| tl_lock := f l |>)).
Proof. by apply keeps_upd_list. Qed.

Lemma keeps_lock_list m : keeps (lock_list m).
Proof.
  apply keeps_bind; [apply keeps_get_list|]. intros l. destruct (held_elsewhere l); [by apply keeps_upd_list|].
  destruct (spinlock_lock (tl_lock l)) as [[[] w]|]; [by apply keeps_upd_list|apply safe_fail].
Qed.

Lemma keeps_trylock_list m : keeps (trylock_list m).
Proof.
  apply keeps_bind; [apply keeps_get_list|]. intros l. destruct (spinlock_trylock (tl_lock l)) as [[x w]|]; [|apply safe_fail].
  apply keeps_bind; [by apply keeps_upd_list|]. intros _. by apply safe_ret.
Qed.

Lemma keeps_on_lapic {A} cpu (m : M lapic A) : keeps (on_lapic cpu m).
Proof.
  apply keeps_bind; [apply keeps_get|]. intros k. destruct (m _) as [[a l]|]; [|apply safe_fail].
  apply keeps_bind; [by apply keeps_modify|]. intros _. by apply safe_ret.
Qed.

Lemma safe_get_current c : r <> Some c -> safe (fun x => x <> t) (get_current c).
Proof.
  intros Hc k x k' Hp. unfold get_current, bind, gets. destruct (running_thread k c) as [y|] eqn:E; [|done].
  intros [= <- <-]. split; [done|]. intros ->. by apply (pl_runs _ _ _ _ _ Hp) in E.
Qed.

Lemma safe_cpu_index c : safe (fun x => x <> t) (cpu_index c).
Proof.
  unfold cpu_index. destruct ((0 <=? c) && (c <? MAX_PROCESSOR_COUNT)) eqn:E; [|apply safe_fail].
  apply safe_ret. apply andb_true_iff in E as [_ ?%Z.ltb_lt]. lia.
Qed.

(** ** The functions *)

Hypothesis queues : exists c, is_cpu c /\ (n = Runnable c \/ n = Blocked c).

Lemma not_free m : match m with Runnable _ | Blocked _ => False | _ => True end -> m <> n.
Proof. destruct queues as (c & _ & [-> | ->]); by destruct m. Qed.

Hint Resolve safe_get_current safe_cpu_index safe_get_list not_free : safe_r.
Hint Resolve keeps_put_TCB keeps_get_TCB keeps_upd_TCB keeps_on_TCB keeps_get_list keeps_unlink keeps_add_tail
  keeps_lock_list keeps_trylock_list keeps_on_lapic keeps_get keeps_gets keeps_the : safe.

Ltac safe_head m := lazymatch m with ?h _ => safe_head h | _ => m end.

Ltac safe_step :=
  lazymatch goal with
  | |- forall _, _ => intro
  | |- safe _ (bind _ _) =>
      first [ eapply safe_bind; [solve [eauto 3 with safe_r nocore]|] | apply keeps_bind ]
  | |- safe _ (ret _) => apply safe_ret; solve [done | eauto | congruence]
  | |- safe _ (fail _) => apply safe_fail
  | |- safe _ (modify _) => first [ apply keeps_modify; intros; reflexivity | solve [eauto 3 with safe nocore] ]
  | |- safe _ (upd_list _ _) => apply keeps_upd_list; intros; reflexivity
  | |- safe _ (when _ _) => apply keeps_when
  | |- safe _ (zoom _ _) => apply keeps_zoom; intros; reflexivity
  | |- safe _ (match ?x with _ => _ end) => destruct x
  | |- safe _ ?m =>
      first [ solve [eauto 3 with safe nocore] | solve [eauto 3 with safe_r nocore]
            | solve [eapply safe_keeps; eauto 3 with safe_r nocore]
            | apply keeps_upd_any; reflexivity
            | let h := safe_head m in unfold h; cbn beta zeta ]
  end.
Ltac safe_auto := repeat safe_step.

Context (cpu : Z).
Hypothesis on_cpu : is_cpu cpu.

Lemma keeps_retire x : x <> t -> keeps (retire x).
Proof. intros Hx. unfold retire. safe_auto. Qed.
Hint Resolve keeps_retire : safe.

Lemma keeps_destroy x : x <> t -> keeps (destroy_tcb cpu x).
Proof.
  intros Hx. unfold destroy_tcb.
  eapply safe_bind; [apply (safe_get_list (Local cpu)); [done|by apply not_free]|]. intros local Hl.
  safe_auto.
  - apply keeps_upd_list. intros l. cbn. rewrite elem_of_app. naive_solver.
  - apply keeps_upd_other; [done|by apply not_free|]. intros l _. cbn. apply not_elem_of_nil.
Qed.
Hint Resolve keeps_destroy : safe.

(** The reference count of any thread, [t] included, which has not exited. *)
Lemma keeps_refc x (m : M Z bool) : keeps (on_TCB x (zoom refc m)).
Proof.
  apply keeps_on_any. intros b a b'. unfold zoom. destruct (m (refc b)) as [[a' z]|]; [|done]. by intros [= _ <-].
Qed.

Lemma keeps_refc_unit x (m : M Z unit) : keeps (on_TCB x (zoom refc m)).
Proof.
  apply keeps_on_any. intros b a b'. unfold zoom. destruct (m (refc b)) as [[a' z]|]; [|done]. by intros [= _ <-].
Qed.
Hint Resolve keeps_refc keeps_refc_unit : safe.

Lemma keeps_put_tcb x : keeps (put_tcb cpu x).
Proof.
  apply keeps_bind; [auto with safe|]. intros z. apply keeps_when.
  destruct (decide (x = t)) as [->|Hx]; [|safe_auto].
  intros k a k' Hp. pose proof Hp as [_ _ (b & Hb & _ & Hs & _) _]. unfold bind, get_TCB, bind, get, the. rewrite Hb.
  cbn. rewrite decide_False by done. case_decide; [done|]. by intros [= _ <-].
Qed.

Lemma safe_get_tcb x : safe (fun o => forall y, o = Some y -> y = x) (get_tcb x).
Proof. unfold get_tcb. safe_auto. all: apply safe_ret; by intros ? [= ->]. Qed.
Hint Resolve keeps_put_tcb : safe.

Lemma safe_get_tcb_ptr x : 0 <= x < 2 ^ 64 -> safe (fun y => y = x) (get_tcb_ptr x).
Proof.
  intros Hx. unfold get_tcb_ptr. rewrite u64_small by done. eapply safe_bind; [apply safe_get_tcb|].
  intros [y|] Hy; [apply safe_ret; by apply Hy|apply safe_fail].
Qed.

Lemma keeps_refill x : x <> t -> keeps (refill_time_slice x).
Proof. intros Hx. unfold refill_time_slice. safe_auto. Qed.

Lemma keeps_pick cid x : x <> t -> keeps (pick cid x).
Proof. intros Hx. unfold pick. safe_auto. Qed.

Lemma keeps_block c x : x <> t -> keeps (block_thread c x).
Proof. intros Hx. unfold block_thread. safe_auto. Qed.

Lemma keeps_wake c x : x <> t -> keeps (wake_thread c x).
Proof. intros Hx. unfold wake_thread. safe_auto. Qed.

Lemma keeps_emigrate c x : x <> t -> keeps (emigrate c x).
Proof. intros Hx. unfold emigrate. safe_auto. Qed.

Lemma keeps_reap a x : x <> t -> keeps (reap cpu a x).
Proof. intros Hx. unfold reap. safe_auto. Qed.

Lemma keeps_lift {A} (o : outcome A) : keeps (lift o).
Proof. unfold lift. safe_auto. Qed.
Hint Resolve keeps_refill keeps_pick keeps_block keeps_wake keeps_emigrate keeps_reap keeps_lift : safe.

Lemma keeps_start_slice c x : keeps (start_slice c x).
Proof. unfold start_slice. safe_auto. Qed.

Lemma keeps_current c : keeps (get_current c).
Proof. unfold get_current. safe_auto. Qed.
Hint Resolve keeps_start_slice keeps_current : safe.

(** The scan of the run queue, when [t] is not among the threads left. *)
Definition found_other (x : option (option Z)) : Prop := x <> Some (Some t).

Lemma safe_scan cid ts : forall found, t ∉ ts -> found <> Some t ->
  safe found_other (scan_runnable cpu cid ts found).
Proof.
  induction ts as [|x ts IH]; intros found Ht Hf; cbn [scan_runnable].
  { apply safe_ret. intros [= ->]. done. }
  apply not_elem_of_cons in Ht as [Hx Ht]. assert (x <> t) by congruence.
  specialize (IH found Ht Hf) as IHf. assert (safe found_other (scan_runnable cpu cid ts (Some x))) as IHx.
  { apply IH; [done|]. by intros [= ->]. }
  safe_auto.
Qed.

Lemma keeps_refill_all ts : forall b, t ∉ ts -> keeps (refill_runnable ts b).
Proof.
  induction ts as [|x ts IH]; intros b Ht; cbn [refill_runnable]; [by apply safe_ret|].
  apply not_elem_of_cons in Ht as [Hx Ht]. assert (x <> t) by congruence.
  pose proof (IH b Ht). pose proof (IH true Ht). safe_auto.
Qed.
Hint Resolve keeps_refill_all : safe.
Hint Resolve safe_scan : safe_r.

Lemma keeps_min_core b cid j : forall i best m, keeps (min_core_loop b cid j i best m).
Proof. induction j as [|j IH]; intros i best m; cbn [min_core_loop]; safe_auto. Qed.
Hint Resolve keeps_min_core : safe.

Lemma keeps_adopt c cid x : x <> t -> keeps (adopt c cid x).
Proof. intros Hx. unfold adopt. safe_auto. Qed.
Hint Resolve keeps_adopt : safe.

Lemma keeps_adopt_own c cid ts : t ∉ ts -> keeps (adopt_own c cid ts).
Proof.
  induction ts as [|x ts IH]; intros Ht; cbn [adopt_own]; [by apply safe_ret|].
  apply not_elem_of_cons in Ht as [Hx Ht]. assert (x <> t) by congruence. specialize (IH Ht). safe_auto.
Qed.

Lemma keeps_adopt_one c cid ts : t ∉ ts -> keeps (adopt_one c cid ts).
Proof.
  induction ts as [|x ts IH]; intros Ht; cbn [adopt_one]; [by apply safe_ret|].
  apply not_elem_of_cons in Ht as [Hx Ht]. assert (x <> t) by congruence. specialize (IH Ht). safe_auto.
Qed.
Hint Resolve keeps_adopt_own keeps_adopt_one : safe.

Lemma valid_migrating : valid Migrating.
Proof. done. Qed.
Lemma not_migrating : Migrating <> n.
Proof. by apply not_free. Qed.
Hint Resolve valid_migrating not_migrating : safe_r.

Lemma keeps_drain : keeps (drain_migrating cpu).
Proof. unfold drain_migrating. safe_auto. Qed.
Hint Resolve keeps_drain : safe.

Lemma keeps_sig_lock c m : keeps (on_sig_lock c m).
Proof. unfold on_sig_lock. safe_auto. Qed.
Hint Resolve keeps_sig_lock : safe.

Lemma keeps_deliver h x s : keeps (deliver cpu h x s).
Proof. unfold deliver. safe_auto. Qed.

Lemma keeps_signals x : keeps (signal_handling cpu x).
Proof. unfold signal_handling. safe_auto. apply keeps_for_each. intros s _. apply keeps_deliver. Qed.
Hint Resolve keeps_signals : safe.

Lemma keeps_new_running c x g : x <> t -> r <> Some c -> (forall k, tcbs (g k) = tcbs k) ->
  (forall k, lists (g k) = lists k) -> (forall k, running_thread (g k) = fupd (running_thread k) c (Some x)) ->
  keeps (modify g).
Proof.
  intros Hx Hc Et El Er k a k' [Hi Ho Hb Hr] [= _ <-]. split; [|done].
  split; unfold members; rewrite ?Et, ?El; try done. intros y. rewrite Er. unfold fupd.
  case_decide; [subst y|apply Hr]. naive_solver.
Qed.

Lemma keeps_set_running c x : x <> t -> r <> Some c ->
  keeps (modify (fun k => k <| running_thread := fupd (running_thread k) c (Some x) |>)).
Proof. intros Hx Hc. by apply (keeps_new_running c x). Qed.
Hint Resolve keeps_set_running : safe.

(** ** A thread that is blocked *)

Hypothesis blocked : forall c, Runnable c <> n.

Lemma safe_runnable : safe (fun l => t ∉ tcb_list l) (get_list (Runnable cpu)).
Proof. by apply safe_get_list. Qed.
Hint Resolve safe_runnable : safe_r.

Lemma safe_scan_all cid ts : t ∉ ts -> safe found_other (scan_runnable cpu cid ts None).
Proof. intros Ht. by apply safe_scan. Qed.

Lemma safe_the_head l : t ∉ l -> safe (fun x => x <> t) (the NullPointer (head l)).
Proof. destruct l as [|x l]; [intros _; apply safe_fail|]. intros [? _]%not_elem_of_cons. by apply safe_ret. Qed.
Hint Resolve safe_scan_all safe_the_head : safe_r.

Lemma found_ne x : found_other (Some (Some x)) -> x <> t.
Proof. by intros H ->. Qed.
Hint Resolve found_ne : core.

Lemma safe_found cid j o : found_other o -> safe (fun x => x <> t) (select_loop cpu cid j) ->
  safe (fun x => x <> t) (after_scan cpu cid j o).
Proof. intros Ho IH. unfold after_scan. safe_auto. Qed.

Lemma safe_select cid j : safe (fun x => x <> t) (select_loop cpu cid j).
Proof.
  induction j as [|j IH]; [apply safe_fail|]. rewrite select_loop_S.
  eapply safe_bind; [apply safe_runnable|]. intros l Hl. eapply safe_bind; [by apply safe_scan_all|].
  intros o Ho. by apply safe_found.
Qed.
Hint Resolve safe_select : safe_r.

Lemma safe_select_next : safe (fun x => x <> t) (select_next_thread cpu).
Proof. unfold select_next_thread. safe_auto. Qed.
Hint Resolve safe_select_next : safe_r.

Lemma keeps_post_switch prev : prev <> t -> keeps (__post_context_switch cpu prev).
Proof. intros Hx. unfold __post_context_switch. safe_auto. Qed.
Hint Resolve keeps_post_switch : safe.

(** The thread has been asked neither to wake up nor to exit; a request to block
    leaves it so. *)
Hypothesis asleep : forall i, I i ->
  has i THREAD_INTENTION_READY = false /\ has i THREAD_INTENTION_EXITED = false /\
  I (s32 (Z.lor THREAD_INTENTION_BLOCKED i)).

Lemma keeps_unblock x : keeps (unblock cpu x).
Proof.
  destruct (decide (x = t)) as [->|Hx]; [|unfold unblock; safe_auto].
  intros k a k' Hp. pose proof Hp as [_ _ (b & Hb & (Hr & He & _)%asleep & _) _].
  unfold unblock, bind, get_TCB, bind, get, the. rewrite Hb. cbn. rewrite He, Hr. by intros [= _ <-].
Qed.
Hint Resolve keeps_unblock : safe.

Lemma keeps_post_context_switch prev : prev <> t -> keeps (post_context_switch cpu prev).
Proof. intros Hx. unfold post_context_switch. safe_auto. by apply keeps_for_each; intros x _; auto with safe. Qed.
Hint Resolve keeps_post_context_switch : safe.

(** The set of suspended threads is written back with the state it was read from. *)
Lemma keeps_switch_to sp prev next : prev <> t -> keeps (switch_to cpu sp prev next).
Proof.
  intros Hx. apply keeps_bind; [auto with safe|]. intros _ k a k' Hp. unfold bind at 1, get. cbn beta iota.
  assert (keeps (if bool_decide (next ∈ suspended k) then post_context_switch cpu prev ;; signal_handling cpu next
                 else release_thread_spl cpu prev)) as Hk by safe_auto.
  apply Hk. by destruct Hp.
Qed.
Hint Resolve keeps_switch_to : safe.

Hypothesis elsewhere : r <> Some cpu.

Lemma keeps_charge : keeps (charge cpu).
Proof. unfold charge. safe_auto. Qed.

Lemma keeps_add_intention x i : x <> t -> keeps (add_intention x i).
Proof. intros Hx. unfold add_intention. safe_auto. Qed.
Hint Resolve keeps_charge keeps_add_intention : safe.

Lemma keeps_schedule sp i : keeps (schedule cpu sp i).
Proof. unfold schedule. safe_auto. Qed.
Hint Resolve keeps_schedule : safe.

Lemma safe_get_tcb_other x : 0 <= x < 2 ^ 64 -> x <> t -> safe (fun y => y <> t) (get_tcb_ptr x).
Proof. intros Hx Hne k a k' Hp [? ->]%safe_get_tcb_ptr; done. Qed.
Hint Resolve safe_get_tcb_other : safe_r.

Lemma keeps_schedule_to sp tid i : 0 <= tid < 2 ^ 64 -> tid <> t -> keeps (schedule_to cpu sp tid i).
Proof.
  intros Ht Hne. unfold schedule_to.
  repeat lazymatch goal with
  | |- safe _ (bind _ (fun o => match o with Some _ => _ | None => _ end)) => fail
  | _ => safe_step
  end.
  eapply (safe_bind (fun o => o <> Some t)); [safe_auto|]. intros [x|] Hx; [|safe_auto].
  assert (x <> t) by congruence. safe_auto.
Qed.
Hint Resolve keeps_schedule_to : safe.

Lemma exit_keeps sp cur k a k' : placed t n I r k -> running_thread k cpu = Some cur -> 0 <= cur < 2 ^ 64 ->
  __thread_exit cpu sp k = Ok (a, k') -> placed t n I r k'.
Proof.
  intros Hp Hcur Hrange. assert (cur <> t) as Hne.
  { intros ->. by apply (pl_runs _ _ _ _ _ Hp) in Hcur. }
  assert (get_current cpu k = Ok (cur, k)) as Eg by (unfold get_current, bind, gets; by rewrite Hcur).
  unfold __thread_exit, bind at 1. rewrite Eg. intros Hrun.
  match type of Hrun with ?m k = _ => assert (keeps m) as Hm by safe_auto end. by apply (Hm _ _ _ Hp Hrun).
Qed.

(** *** Calls other than those of the scheduler *)

Lemma safe_first m : valid m -> m <> n -> safe (fun x => x <> t) (first_tcb m).
Proof.
  intros Hv Hm. unfold first_tcb. eapply safe_bind; [by apply safe_get_list|]. intros l Hl. by apply safe_the_head.
Qed.

Lemma valid_free : valid Global /\ valid (Local cpu) /\ Global <> n /\ Local cpu <> n.
Proof. split_and!; try done; by apply not_free. Qed.

Hint Resolve safe_first : safe_r.

Lemma safe_alloc_tcb : safe (fun x => x <> t) (alloc_tcb cpu).
Proof.
  destruct valid_free as (Hg & Hl & Hgn & Hln). unfold alloc_tcb. apply keeps_bind; [auto with safe|]. intros l.
  eapply (safe_bind (fun x => x <> t)); safe_auto.
Qed.
Hint Resolve safe_alloc_tcb : safe_r.

Lemma keeps_set_core x c : x <> t -> keeps (set_core x c).
Proof. intros Hx. unfold set_core. safe_auto. Qed.

Lemma keeps_setup_thread code x e sa p : x <> t -> keeps (setup_thread code x e sa p).
Proof. intros Hx. unfold setup_thread. safe_auto. Qed.
Hint Resolve keeps_set_core keeps_setup_thread : safe.

Lemma keeps_create code ip argv core : keeps (create_thread code cpu ip argv core).
Proof. unfold create_thread. safe_auto. Qed.

Lemma safe_alloc_idle : safe (fun x => x <> t) (alloc_tcb_idle cpu).
Proof. unfold alloc_tcb_idle. safe_auto. Qed.
Hint Resolve safe_alloc_idle : safe_r.

Lemma keeps_setup_idle : keeps (setup_idle_thread cpu).
Proof.
  unfold setup_idle_thread. safe_auto.
  match goal with |- context [Some ?x] => by apply (keeps_new_running cpu x) end.
Qed.

Lemma keeps_wake_up x : 0 <= x < 2 ^ 64 -> x <> t -> keeps (thread_wake_up cpu x).
Proof. intros Hx Hne. unfold thread_wake_up. safe_auto. Qed.

Lemma keeps_ask_block x : keeps (on_TCB x (zoom intention (atomic_or THREAD_INTENTION_BLOCKED))).
Proof. apply keeps_on_any. intros b a b' [= _ <-] Hi. split; [|done]. cbn. by apply asleep. Qed.
Hint Resolve keeps_ask_block : safe.

Lemma keeps_suspend x : keeps (thread_suspend cpu x).
Proof. unfold thread_suspend. safe_auto. Qed.

Lemma keeps_set_name x nm : keeps (lk_thread_set_name cpu x nm).
Proof. unfold lk_thread_set_name. safe_auto. Qed.

Lemma keeps_signal h : keeps (sys_signal cpu h).
Proof. unfold sys_signal. safe_auto. Qed.

Lemma keeps_kill dest sig : keeps (sys_kill cpu dest sig).
Proof. unfold sys_kill. safe_auto. Qed.

Lemma keeps_getpid : keeps (sys_getpid cpu).
Proof. unfold sys_getpid. safe_auto. Qed.

End safe.

(** ** Asleep

    A thread on a blocked list that nobody has asked to wake up or to exit. *)
Definition unasked (i : Z) : Prop :=
  0 <= i < 64 /\ has i THREAD_INTENTION_READY = false /\ has i THREAD_INTENTION_EXITED = false.

Definition sleeping (t cpu : Z) (k : kernel) : Prop := placed t (Blocked cpu) unasked None k.

Lemma unasked_block i : unasked i -> has i THREAD_INTENTION_READY = false /\
  has i THREAD_INTENTION_EXITED = false /\ unasked (s32 (Z.lor THREAD_INTENTION_BLOCKED i)).
Proof.
  intros (Hi & Hr & He). split_and!; [done..|].
  assert (0 <= Z.lor THREAD_INTENTION_BLOCKED i < 64) as Hb by by apply add_range.
  rewrite s32_small by lia. split_and!; [lia..| |].
  - rewrite (has_add _ 3) by done. exact Hr.
  - rewrite (has_add _ 5) by done. exact He.
Qed.

(** Calls that do not wake [t] or hand it the core leave it asleep. *)
Definition names (call : kcall) (t : Z) : Prop :=
  match call with
  | KWakeUp tid | KScheduleTo tid _ => tid = t
  | _ => False
  end.

Lemma kcall_sleeping c cpu sp call t home k a k' : kinv None None k -> 0 <= cpu < 256 -> is_cpu home ->
  permitted k cpu call -> ~ names call t -> sleeping t home k ->
  do_kcall c cpu sp call k = Ok (a, k') -> sleeping t home k'.
Proof.
  intros Hk Hcpu Hh Hp Hn Hs Hrun. pose proof (small_cpu cpu Hcpu) as Hic.
  assert (MAX_PROCESSOR_COUNT <= t) as Ht by (eapply (kinv_lt _ _ _ (Blocked home)); [exact Hk|done|apply Hs]).
  assert (forall x b, alive k x b -> 0 <= x < 2 ^ 64) as Hrange.
  { intros x b [Hx _]. assert (0 <= x < NTHREAD) by (apply (ki_dom _ _ _ Hk); by exists b). unfold NTHREAD, MAX_PROCESSOR_COUNT, CONFIG_NUM_THREAD in *. lia. }
  assert (exists c0, is_cpu c0 /\ (Blocked home = Runnable c0 \/ Blocked home = Blocked c0)) as Hq by eauto.
  assert (forall m : M kernel Z, safe t (Blocked home) unasked None (fun _ => True) m ->
    m k = Ok (a, k') -> sleeping t home k') as Hm by (intros m Hm Hrun'; by apply (Hm _ _ _ Hs Hrun')).
  pose proof unasked_block as Hu. revert Hrun.
  destruct call; cbn [permitted names] in Hp, Hn; [|destruct Hp as (cur & Hcur & Hp)..]; cbn [do_kcall].
  - apply Hm. apply keeps_bind; [by apply keeps_setup_idle|]. intros _. by apply safe_ret.
  - apply Hm. by apply keeps_schedule.
  - destruct Hp as (_ & _ & b & Hb & _). apply Hm. apply keeps_schedule_to; eauto.
  - destruct (current_tcb cpu cur k Hk Hcur) as (b & Hb & _). eapply exit_keeps; eauto.
  - apply Hm. by apply keeps_create.
  - destruct Hp as [b Hb]. apply Hm. apply keeps_wake_up; eauto.
  - apply Hm. by apply keeps_suspend.
  - apply Hm. apply keeps_bind; [by apply keeps_set_name|]. intros _. by apply safe_ret.
  - apply Hm. by apply keeps_signal.
  - apply Hm. by apply keeps_kill.
  - apply Hm. by apply keeps_getpid.
Qed.

(** ** A thread that blocks after it has been woken

    What [schedule] does to a thread that asks to block when it has been woken before:
    the scan takes it off the run queue, the core switches to another thread, and
    [__post_context_switch] clears the wake-up.  *)

(** A computation takes [P] to [Q]. *)
Definition leads {A} (P Q : kernel -> Prop) (R : A -> Prop) (m : M kernel A) : Prop :=
  forall k a k', P k -> m k = Ok (a, k') -> Q k' /\ R a.

Lemma leads_bind {A B} (P P' Q : kernel -> Prop) (R : A -> Prop) (R' : B -> Prop) (m : M kernel A) f :
  leads P P' R m -> (forall a, R a -> leads P' Q R' (f a)) -> leads P Q R' (bind m f).
Proof.
  intros Hm Hf k b k' Hp. unfold bind. destruct (m k) as [[a k1]|] eqn:E; [|done].
  destruct (Hm _ _ _ Hp E) as [Hp1 HR]. by apply Hf.
Qed.

Lemma leads_get_TCB {A} t n I r Q (R : A -> Prop) f :
  (forall b, I (intention b) -> state b <> EXITED -> state b <> NOTALLOC ->
     leads (fun k => placed t n I r k /\ tcbs k !! t = Some b) Q R (f b)) ->
  leads (placed t n I r) Q R (bind (get_TCB t) f).
Proof.
  intros Hf k a k' Hp. pose proof Hp as [_ _ (b & Hb & HI & He & Hn) _].
  unfold get_TCB, bind, get, the. rewrite Hb. cbn. by apply (Hf b).
Qed.

Lemma leads_weaken {A} (P P' Q : kernel -> Prop) (R : A -> Prop) m :
  (forall k, P k -> P' k) -> leads P' Q R m -> leads P Q R m.
Proof. intros HP Hm k a k' Hp. by apply Hm, HP. Qed.

Lemma leads_read {A B} (P Q : kernel -> Prop) (R : A -> Prop) (R' : B -> Prop) (m : M kernel A) f :
  (forall k a k', P k -> m k = Ok (a, k') -> k' = k /\ R a) -> (forall a, R a -> leads P Q R' (f a)) ->
  leads P Q R' (bind m f).
Proof. intros Hm Hf. eapply leads_bind; [|exact Hf]. intros k a k' Hp Hrun. by destruct (Hm _ _ _ Hp Hrun) as [-> ?]. Qed.

Lemma leads_gets {A B} (P Q : kernel -> Prop) (R : B -> Prop) (g : kernel -> A) f :
  (forall k, P k -> leads P Q R (f (g k))) -> leads P Q R (bind (gets g) f).
Proof. intros Hf k a k' Hp. by apply Hf. Qed.

Lemma get_TCB_reads x k b k' : get_TCB x k = Ok (b, k') -> k' = k.
Proof. unfold get_TCB, bind, get, the. destruct (_ !! x); [|done]. by intros [= _ <-]. Qed.

Lemma get_current_reads c k x k' : get_current c k = Ok (x, k') -> k' = k.
Proof. unfold get_current, bind, gets, the. destruct (running_thread k c); [|done]. by intros [= _ <-]. Qed.

Section falling_asleep.
Context (t cpu : Z).
Hypothesis not_idle : MAX_PROCESSOR_COUNT <= t.
Hypothesis on_cpu : is_cpu cpu.

(** The intentions of the thread: woken and about to block, woken. *)
Definition both_asked (i : Z) : Prop :=
  0 <= i < 64 /\ has i THREAD_INTENTION_READY = true /\ has i THREAD_INTENTION_BLOCKED = true /\
  has i THREAD_INTENTION_EXITED = false.

Definition wake_asked (i : Z) : Prop :=
  0 <= i < 64 /\ has i THREAD_INTENTION_READY = true /\ has i THREAD_INTENTION_EXITED = false.

Local Notation about_to_block := (placed t (Runnable cpu) both_asked (Some cpu)).
Local Notation off_the_queue := (placed t (Blocked cpu) wake_asked (Some cpu)).
Local Notation switched := (placed t (Blocked cpu) wake_asked None).

Lemma wp_leads {A} (P Q : kernel -> Prop) (R : A -> Prop) m :
  (forall k, P k -> wp m (fun a k' => Q k' /\ R a) k) -> leads P Q R m.
Proof. intros Hm k a k' Hp Hrun. specialize (Hm k Hp). unfold wp in Hm. by rewrite Hrun in Hm. Qed.

Lemma block_clears i : both_asked i -> wake_asked (Z.land i (Z.lnot THREAD_INTENTION_BLOCKED)).
Proof.
  intros (Hi & HR & _ & HE). split_and!; [by apply clear_range..| |].
  - etrans; [by apply (has_clear_other _ 3)|exact HR].
  - etrans; [by apply (has_clear_other _ 5)|exact HE].
Qed.

Lemma block_leads : leads about_to_block off_the_queue (fun _ => True) (block_thread cpu t).
Proof.
  apply wp_leads. intros k [Hi Ho (b & Hb & HI & Hs & Hn) Hr]. destruct (HI) as [Hrg _].
  unfold block_thread, take_off, put_on, set_state. apply wp_bind, wp_bind, wp_upd_list, wp_modify, wp_bind.
  eapply wp_upd_TCB; [exact Hb|]. apply wp_bind. eapply wp_clear_intention; [apply lookup_set_tcb|done|].
  apply wp_bind, wp_upd_list, wp_upd_list. split; [|done].
  match goal with |- placed _ _ _ _ ?s => set (k' := s) end.
  assert (forall m, members k' m = filter (fun x => x <> t) (members k m) ++
    (if decide (m = Blocked cpu) then [t] else [])) as Hm.
  { intros m. unfold members, k'. cbn. unfold fupd. repeat (case_decide; subst; cbn); done || by rewrite app_nil_r. }
  split.
  - rewrite Hm, decide_True by done. apply elem_of_app. right. by left.
  - intros m Hv Hne. rewrite Hm, decide_False, app_nil_r by done. by intros [? _]%list_elem_of_filter.
  - eexists. split; [apply lookup_insert_eq|]. cbn -[THREAD_INTENTION_BLOCKED Z.land]. split_and!; try done.
    by apply block_clears.
  - done.
Qed.

Lemma on_queue : exists c, is_cpu c /\ (Runnable cpu = Runnable c \/ Runnable cpu = Blocked c).
Proof. eauto. Qed.

Lemma on_blocked : exists c, is_cpu c /\ (Blocked cpu = Runnable c \/ Blocked cpu = Blocked c).
Proof. eauto. Qed.
Hint Resolve on_queue on_blocked : core.

Lemma current_leads n I : safe t n I (Some cpu) (fun x => x = t) (get_current cpu).
Proof.
  intros k x k' Hp. unfold get_current, bind, gets. rewrite (proj2 (pl_runs _ _ _ _ _ Hp cpu) eq_refl).
  by intros [= <- <-].
Qed.

(** The scan reaches the thread and takes it off the run queue; it does not find it. *)
Lemma scan_leads cid ts : forall found, NoDup ts -> t ∈ ts -> found <> Some t ->
  leads about_to_block off_the_queue (found_other t) (scan_runnable cpu cid ts found).
Proof.
  induction ts as [|x ts IH]; intros found Hnd Hin Hf; [by apply elem_of_nil in Hin|].
  apply NoDup_cons in Hnd as [Hx Hnd]. cbn [scan_runnable]. destruct (decide (x = t)) as [->|Hne].
  - apply leads_get_TCB. intros b (_ & _ & HB & HE) _ _. rewrite HE, HB.
    eapply leads_weaken; [by intros k [? _]|]. eapply leads_bind; [apply block_leads|]. intros _ _.
    by apply safe_scan.
  - apply elem_of_cons in Hin as [E|Hin]; [by rewrite E in Hne|]. specialize (IH found Hnd Hin Hf) as IHf.
    eapply leads_bind; [apply keeps_get_TCB|]. intros b _. destruct (has _ _).
    { eapply leads_bind; [apply current_leads|]. intros cur ->. rewrite (proj2 (Z.eqb_neq _ _)) by done.
      eapply leads_bind; [by apply keeps_reap|]. by intros _ _. }
    destruct (has _ _).
    { eapply leads_bind; [by apply keeps_block|]. by intros _ _. }
    destruct (_ =? _); [|done]. eapply leads_bind; [apply keeps_lift|]. intros al _. destruct (negb _).
    + destruct found; [done|]. eapply leads_bind; [by apply keeps_pick|]. intros _ _.
      apply IH; [done|done|congruence].
    + eapply leads_bind; [by apply keeps_emigrate|]. by intros _ _.
Qed.

(** The thread selected is another one. *)
Lemma select_leads : leads (fun k => about_to_block k /\ NoDup (members k (Runnable cpu))) off_the_queue
  (fun x => x <> t) (select_next_thread cpu).
Proof.
  unfold select_next_thread.
  apply (leads_read _ _ (fun _ => True)); [by intros k a k' _ ->%get_current_reads|]. intros cur _.
  apply (leads_read _ _ (fun _ => True)); [by intros k a k' _ ->%get_TCB_reads|]. intros b _.
  rewrite select_loop_S. apply leads_gets. intros k [Hp Hnd]. eapply leads_weaken; [by intros k0 [? _]|].
  eapply leads_bind; [apply scan_leads; [done|apply Hp|done]|]. intros o Ho.
  by apply safe_found; try apply safe_select.
Qed.

Lemma run_other_leads x : x <> t -> leads off_the_queue switched (fun _ => True)
  (modify (fun k => k <| running_thread := fupd (running_thread k) cpu (Some x) |>)).
Proof.
  intros Hx k a k' [Hi Ho Hb Hr] [= _ <-]. split; [|done]. split; try done. intros y. cbn. unfold fupd.
  case_decide; [naive_solver|]. rewrite Hr. naive_solver.
Qed.

(** The wake-up is taken for the thread's own. *)
Lemma post_switch_leads : leads switched (sleeping t cpu) (fun _ => True) (__post_context_switch cpu t).
Proof.
  unfold __post_context_switch. apply leads_get_TCB. intros b (Hi & HR & HE) He Hn.
  rewrite !bool_decide_false, HR by done. cbn [orb]. apply wp_leads. intros k [[Hin Ho (b' & _) Hr] Hb].
  apply wp_bind. eapply wp_upd_TCB; [exact Hb|]. eapply wp_clear_intention; [apply lookup_set_tcb|done|].
  split; [|done]. split; try done. eexists. split; [apply lookup_insert_eq|]. split; [|done].
  split; [by apply clear_range|]. split; [by apply (has_clear_same _ 3)|]. etrans; [by apply (has_clear_other _ 5)|exact HE].
Qed.

Lemma sleeping_post_switch : leads switched (sleeping t cpu) (fun _ => True) (post_context_switch cpu t).
Proof.
  unfold post_context_switch. eapply leads_bind; [apply post_switch_leads|]. intros _ _.
  pose proof unasked_block.
  eapply leads_bind; [by apply keeps_drain|]. intros _ _. apply leads_gets. intros k _.
  apply keeps_when, keeps_for_each. intros x _. by apply keeps_unblock.
Qed.

Lemma switch_leads sp x : leads switched (sleeping t cpu) (fun _ => True) (switch_to cpu sp t x).
Proof.
  unfold switch_to. eapply leads_bind; [by apply keeps_upd_any|]. intros _ _ k a k' Hp. unfold bind at 1, get. cbn beta iota.
  assert (leads switched (sleeping t cpu) (fun _ => True)
    (if bool_decide (x ∈ suspended k) then post_context_switch cpu t ;; signal_handling cpu x
     else release_thread_spl cpu t)) as Hk.
  { destruct (bool_decide _); [|apply sleeping_post_switch]. eapply leads_bind; [apply sleeping_post_switch|].
    intros _ _. by apply keeps_signals. }
  apply Hk. by destruct Hp.
Qed.

(** The thread runs on the core and has been woken. *)
Record woken_early (k : kernel) : Prop := {
  we_inv : kinv None None k;
  we_runs : running_thread k cpu = Some t;
  we_tcb : exists b, tcbs k !! t = Some b /\ wake_asked (intention b)
}.

Lemma charge_leads : leads woken_early woken_early (fun _ => True) (charge cpu).
Proof.
  apply wp_leads. intros k [Hk Hr (b & Hb & HI)]. eapply wp_mono; [by apply (wp_charge cpu t)|].
  intros [] k1 [Hk1 Er _ _ _ Hc]. split; [|done]. destruct (Hc b Hb) as (b' & Hb' & Ei).
  split; [done|by rewrite Er|]. exists b'. by rewrite Ei.
Qed.

Lemma woken_early_placed k : woken_early k -> placed t (Runnable cpu) wake_asked (Some cpu) k.
Proof.
  intros [Hk Hr (b & Hb & HI)].
  assert (forall c, running_thread k c = Some t -> t ∈ members k (Runnable c)) as Hq.
  { intros c Hc. destruct (ki_running _ _ _ Hk c t Hc) as [Hic [->|[?|[? _]]]]; [|done|done].
    destruct Hic. lia. }
  specialize (Hq cpu Hr) as Hin. split; [done| | |].
  - intros m Hv Hne Hm. apply Hne. by apply (ki_apart _ _ _ Hk m (Runnable cpu) t).
  - exists b. split_and!; [done|done|..]; destruct (ki_member _ _ _ Hk (Runnable cpu) t on_cpu Hin) as (_ & b' & Hb' & [Hs|Hs] & _);
      rewrite Hb in Hb'; injection Hb' as <-; congruence.
  - intros c. split; [|by intros [= <-]]. intros Hc. pose proof (Hq c Hc) as Hc'.
    destruct (ki_running _ _ _ Hk c t Hc) as [Hic _].
    by pose proof (ki_apart _ _ _ Hk (Runnable cpu) (Runnable c) t on_cpu Hic Hin Hc') as [= ->].
Qed.

Lemma ask_leads : leads woken_early (fun k => about_to_block k /\ NoDup (members k (Runnable cpu))) (fun _ => True)
  (add_intention t THREAD_INTENTION_BLOCKED).
Proof.
  apply wp_leads. intros k Hw. pose proof (woken_early_placed k Hw) as [Hi Ho (b & Hb & (Hg & HR & HE) & Hs & Hn) Hr].
  eapply wp_add_intention; [exact Hb|done|done|]. split; [|done].
  split; [|by apply (ki_list _ _ _ (we_inv _ Hw) (Runnable cpu))].
  split; try done. eexists. split; [apply lookup_insert_eq|]. split; [|done]. cbn -[THREAD_INTENTION_BLOCKED Z.lor].
  split; [by apply add_range|]. split_and!.
  - rewrite (has_add _ 3) by done. exact HR.
  - by rewrite (has_add _ 4) by done.
  - rewrite (has_add _ 5) by done. exact HE.
Qed.

(** A thread that asks to block after it has been woken falls asleep, and no wake-up
    is left. *)
Lemma schedule_leads sp : leads woken_early (sleeping t cpu) (fun r => r = FALSE)
  (schedule cpu sp THREAD_INTENTION_BLOCKED).
Proof.
  unfold schedule. apply (leads_read _ _ (fun x => x = t)).
  { intros k x k' Hw E. pose proof (get_current_reads _ _ _ _ E) as ->. split; [done|].
    by apply (current_leads _ _ _ _ _ (woken_early_placed _ Hw)) in E as [_ ?]. }
  intros cur ->. apply (leads_read _ _ (fun _ => True)); [by intros k a k' _ ->%get_TCB_reads|]. intros b _.
  eapply leads_bind; [apply charge_leads|]. intros _ _. eapply leads_bind; [apply ask_leads|]. intros _ _.
  eapply leads_bind; [apply select_leads|]. intros next Hne. rewrite (proj2 (Z.eqb_neq _ _)) by done.
  eapply leads_bind; [apply keeps_get_TCB|]. intros n _. eapply leads_bind.
  { apply keeps_when. apply keeps_bind; [by apply keeps_refill|]. intros _. by apply safe_ret. }
  intros _ _. eapply leads_bind; [by apply keeps_start_slice|]. intros _ _.
  eapply leads_bind; [by apply keeps_upd_TCB|]. intros _ _.
  eapply leads_bind; [by apply run_other_leads|]. intros _ _.
  eapply leads_bind; [apply switch_leads|]. intros _ _. by apply safe_ret.
Qed.
End falling_asleep.

Lemma contend_sleeping n held t cpu k : sleeping t cpu k -> sleeping t cpu (contend n held k).
Proof.
  assert (forall m, members (contend n held k) m = members k m) as Em.
  { intros m. unfold members, contend. cbn. unfold fupd. case_decide; [by subst|done]. }
  intros [Hi Ho Hb Hr]. split; try done; [by rewrite Em|]. intros m. rewrite Em. apply Ho.
Qed.
