(* ===== verification/Timer.v ===== *)
(** * Timer interrupts, core numbers and the clock ([kernel/timer.c], [multiprocessor.c])

    Every tick of a core's timer is counted, the load of the core is published
    once in a hundred ticks, and the thread the core runs is charged and, when its
    time slice is used up, preempted.  The state is the kernel's, with the static
    counters of [timer.c], the table of core numbers and the time stamp counter of
    the machine.  The theorems are about any interleaving of ticks, thread calls
    and changes the hardware makes. *)

From S2P Require Import Prelude.
From S2P Require Import Lock.
From S2P Require Import Stat.
From S2P Require Import Memory.
From S2P Require Import PageAlloc.
From S2P Require Import Allocator.
From S2P Require Import LocalApic.
From S2P Require Import ShellStorage.
From S2P Require Import Thread.
From S2P Require Import Sched.
From S2P Require Import ThreadInv.
From S2P Require Import ThreadSched.
From S2P Require Import ThreadCalls.
From S2P Require Import Boot.
From S2P Require Import ThreadSafety.
From S2P Require Import Frames.

Definition MAX_PAPIC_ID : Z := 600.

Definition MAX_CORE : Z := 100.

(** The kernel; the static variables of [multiprocessor.c] and [timer.c]; the time
    stamp counter. *)
Record clock := mkClock {
  sys : kernel;
  list_apic_id : list Z;
  curr_cpu : Z;
  apic_lock : Z;
  g_tick_count : list Z;
  g_tick_total_prev : list Z;
  g_tick_total_curr : list Z;
  g_tick_cpu_prev : list Z;
  g_tick_cpu_curr : list Z;
  start_tsc : Z;
  freq : Z;
  tsc : Z
}.

#[export] Instance eta_clock : Eta clock := fun s =>
  mkClock (sys s) (list_apic_id s) (curr_cpu s) (apic_lock s) (g_tick_count s) (g_tick_total_prev s)
    (g_tick_total_curr s) (g_tick_cpu_prev s) (g_tick_cpu_curr s) (start_tsc s) (freq s) (tsc s).

(** ** Core numbers *)

(** [{-1, }] is -1 and zeros. *)
Definition no_apic_ids : list Z := -1 :: replicate (Z.to_nat (MAX_PAPIC_ID - 1)) 0.

Definition set_apic_id (apicid : Z) : M clock Z :=
  zoom apic_lock spinlock_lock ;;
  let! s := get in
  let! _ := the OutOfBounds (nthZ (list_apic_id s) apicid) in
  put (s <| list_apic_id := updZ (list_apic_id s) apicid (curr_cpu s) |>
         <| curr_cpu := s32 (curr_cpu s + 1) |>) ;;
  zoom apic_lock spinlock_unlock ;;
  gets (fun s => u64 (curr_cpu s)).

Definition get_papic_id (cpu : Z) : M clock Z :=
  zoom sys (on_lapic cpu (x2apic_read APIC_REGISTER_APIC_ID)).

Definition get_apic_id (cpu : Z) : M clock Z :=
  let! papic_id := get_papic_id cpu in
  let! l := gets list_apic_id in
  let! id := the OutOfBounds (nthZ l papic_id) in
  ret (u64 id).

(** ** The clock *)

(** The two halves the instruction returns, put together. *)
Definition rdtsc : M clock Z :=
  let! t := gets tsc in
  let lo := u32 t in
  let hi := u32 (Z.shiftr t 32) in
  ret (Z.lor (Z.shiftl hi 32) lo).

(** [wait] is the delay of fifty milliseconds: the counter runs meanwhile. *)
Definition detect_cpu_frequency (wait : M clock unit) : M clock Z :=
  let! ts1 := rdtsc in
  wait ;;
  let! ts2 := rdtsc in
  ret (u64 (u64 (ts2 - ts1) * 20)).

Definition timer_init (wait : M clock unit) : M clock unit :=
  for_up (Z.to_nat MAX_PROCESSOR_COUNT) 0 (fun i =>
    modify (fun s => s <| g_tick_count := updZ (g_tick_count s) i 0 |>)) ;;
  let! f := detect_cpu_frequency wait in
  modify (fun s => s <| freq := f |>) ;;
  let! t := rdtsc in
  modify (fun s => s <| start_tsc := t |>).

Definition get_start_tsc : M clock Z := gets start_tsc.

Definition get_freq : M clock Z := gets freq.

(** [tv] is whether the pointer is not NULL; the result, and what is stored through
    it.  The arithmetic is unsigned, the two fields are [long]. *)
Definition sys_gettimeofday (tv : bool) : M clock (Z * option (Z * Z)) :=
  let! s := gets start_tsc in
  when (s =? 0) (let! t := get_start_tsc in modify (fun s => s <| start_tsc := t |>)) ;;
  let! f := gets freq in
  when (f =? 0) (let! f := get_freq in modify (fun s => s <| freq := f |>)) ;;
  if tv then
    let! t := rdtsc in
    let! s := get in
    let diff := u64 (t - start_tsc s) in
    if freq s =? 0 then fail DivideByZero
    else
      let tv_sec := s64 (diff / freq s) in
      let tv_usec := s64 (u64 (u64 (diff - u64 (tv_sec * freq s)) * 1000000) / freq s) in
      ret (0, Some (tv_sec, tv_usec))
  else ret (0, None).

(** ** Ticks *)

(** [f[i]++] and the value of [f[i]]. *)
Definition bump (f : clock -> list Z) {H : SetField f} (i : Z) : M clock unit :=
  let! l := gets f in
  let! v := the OutOfBounds (nthZ l i) in
  modify (fun s => s <| f := updZ l i (u64 (v + 1)) |>).

Definition at_core (f : clock -> list Z) (i : Z) : M clock Z :=
  let! l := gets f in the OutOfBounds (nthZ l i).

(** The load of the last ticks, and the start of the next interval. *)
Definition publish_load (cid pid : Z) : M clock unit :=
  let! cc := at_core g_tick_cpu_curr cid in
  let! cp := at_core g_tick_cpu_prev cid in
  let! tc := at_core g_tick_total_curr cid in
  let! tp := at_core g_tick_total_prev cid in
  when (u64 (tc - tp) =? 0) (fail DivideByZero) ;;
  let cpu_load := u64 (u64 (cc - cp) * 100) / u64 (tc - tp) in
  zoom sys (zoom mem (zoom stat_area (set_cpu_load pid cpu_load))) ;;
  modify (fun s => s <| g_tick_cpu_prev := updZ (g_tick_cpu_prev s) cid cc |>) ;;
  modify (fun s => s <| g_tick_total_prev := updZ (g_tick_total_prev s) cid tc |>).

(** The accounting of one tick for thread [curr]. *)
Definition count_tick (cid pid curr : Z) : M clock unit :=
  bump g_tick_count cid ;;
  bump g_tick_total_curr cid ;;
  when (negb (curr <? MAX_PROCESSOR_COUNT)) (bump g_tick_cpu_curr cid) ;;
  let! count := at_core g_tick_count cid in
  when (count mod 100 =? 0) (publish_load cid pid) ;;
  zoom sys (zoom storage (store_timer_info cid count)).

(** On core [cpu], with [sp] the stack pointer the thread is left with.  [TRUE] when
    the interrupted thread goes on, as in [schedule]. *)
Definition timer_handler (cpu sp : Z) : M clock Z :=
  let! curr := zoom sys (get_current cpu) in
  zoom sys (on_lapic cpu lapic_send_eoi) ;;
  let! cid := get_apic_id cpu in
  let! pid := get_papic_id cpu in
  count_tick (s32 cid) (s32 pid) curr ;;
  let! consumed := zoom sys (adjust_time_slice cpu) in
  zoom sys (decrease_remaining_time_slice cpu consumed) ;;
  let! b := zoom sys (get_TCB curr) in
  if 0 <? remaining_time_slice b then zoom sys (start_slice cpu curr) ;; ret TRUE
  else zoom sys (schedule cpu sp THREAD_INTENTION_READY).

Definition sys_get_ticks (cpu : Z) : M clock Z :=
  let! id := get_apic_id cpu in at_core g_tick_count id.

(** ** The time of day *)

(** [d] cycles pass. *)
Definition run_for (d : Z) : M clock unit := modify (fun s => s <| tsc := u64 (tsc s + d) |>).

Lemma wp_rdtsc s (Q : Z -> clock -> Prop) : 0 <= tsc s < 2 ^ 64 -> Q (tsc s) s -> wp rdtsc Q s.
Proof. intros Ht HQ. unfold rdtsc. wp_steps. by rewrite msr_value. Qed.

Lemma wp_timer_init s d (Q : unit -> clock -> Prop) : 0 <= tsc s -> 0 <= d -> tsc s + d < 2 ^ 64 -> 20 * d < 2 ^ 64 ->
  (forall s', freq s' = 20 * d -> start_tsc s' = tsc s + d -> tsc s' = tsc s + d -> Q tt s') ->
  wp (timer_init (run_for d)) Q s.
Proof.
  intros Ht Hd Hsum Hf HQ. unfold timer_init. apply wp_bind.
  apply (wp_for_up (fun _ s' => tsc s' = tsc s)); [done|intros k t _ E; by apply wp_modify|]. intros t E.
  apply wp_bind. unfold detect_cpu_frequency. apply wp_bind, wp_rdtsc; [lia|]. apply wp_bind, wp_modify.
  cbn [tsc set_field]. rewrite E, (u64_small (tsc s + d)) by lia.
  apply wp_bind, wp_rdtsc; [cbn; lia|]. cbn [tsc set_field]. apply wp_ret, wp_bind, wp_modify, wp_bind, wp_rdtsc; [cbn; lia|].
  apply wp_modify, HQ; [cbn [freq set_field]|done|done].
  rewrite (u64_small (tsc s + d - tsc s)), u64_small by lia. lia.
Qed.

(** Whole seconds and the microseconds left, as the code computes them. *)
Lemma split_time e f : 0 <= e < 2 ^ 64 -> 2 <= f -> f * 1000000 < 2 ^ 64 ->
  let sec := s64 (e / f) in let usec := s64 (u64 (u64 (e - u64 (sec * f)) * 1000000) / f) in
  0 <= usec < 1000000 /\ sec * 1000000 + usec = e * 1000000 / f.
Proof.
  intros He Hf Hov sec usec.
  pose proof (Z.div_mod e f ltac:(lia)) as Hdm. pose proof (Z.mod_pos_bound e f ltac:(lia)) as Hm.
  assert (0 <= e / f <= 2 ^ 63 - 1) as Hs by (split; [apply Z.div_pos; lia|apply Z.lt_succ_r, Z.div_lt_upper_bound; lia]).
  assert (sec = e / f) as Es by (apply s64_small; lia). clearbody sec. subst sec.
  assert (usec = e mod f * 1000000 / f) as Eu.
  { unfold usec. rewrite (u64_small (e / f * f)) by nia. replace (e - e / f * f) with (e mod f) by lia.
    rewrite (u64_small (e mod f)), u64_small by nia. apply s64_small.
    split; [assert (0 <= e mod f * 1000000 / f) by (apply Z.div_pos; lia); lia|].
    apply Z.lt_trans with 1000000; [apply Z.div_lt_upper_bound; nia|lia]. }
  clearbody usec. subst usec. split.
  - split; [apply Z.div_pos; lia|apply Z.div_lt_upper_bound; nia].
  - rewrite <-Z.div_add_l by lia. f_equal. nia.
Qed.

(** C35: the clock is exact.  When [timer_init] has seen [d] cycles in fifty
    milliseconds, [e] cycles later [sys_gettimeofday] stores the whole seconds and
    the microseconds left of [e] cycles at that rate, rounded down to a microsecond,
    with fewer than a million microseconds, for every rate up to 18 THz at which
    the product with a million fits into 64 bits. *)
Theorem time_of_day_exact s d e :
  0 <= tsc s -> 1 <= d -> 0 <= e -> tsc s + d + e < 2 ^ 64 -> 20 * d * 1000000 < 2 ^ 64 ->
  wp (timer_init (run_for d) ;; run_for e ;; sys_gettimeofday true)
     (fun r _ => exists sec usec, r = (0, Some (sec, usec)) /\ 0 <= usec < 1000000 /\
        sec * 1000000 + usec = e * 1000000 / (20 * d)) s.
Proof.
  intros Ht Hd He Hsum Hf. apply wp_bind, wp_timer_init; [lia..|]. intros s1 Ef Es Et.
  apply wp_bind, wp_modify. unfold sys_gettimeofday. apply wp_bind, wp_gets, wp_bind.
  set (s2 := set_field tsc _ s1). assert (start_tsc s2 = tsc s + d /\ freq s2 = 20 * d /\ tsc s2 = tsc s + d + e) as (Es2 & Ef2 & Et2).
  { cbn. rewrite Et, u64_small by lia. done. }
  clearbody s2. apply wp_when; intros E0.
  { apply Z.eqb_eq in E0. lia. }
  apply wp_bind, wp_gets, wp_bind. rewrite Ef2. rewrite (proj2 (Z.eqb_neq (20 * d) 0)) by lia. apply wp_ret.
  apply wp_bind, wp_rdtsc; [lia|]. apply wp_bind, wp_get. rewrite Ef2, Es2, Et2, (proj2 (Z.eqb_neq (20 * d) 0)) by lia.
  apply wp_ret. eexists _, _. split; [done|]. replace (tsc s + d + e - (tsc s + d)) with e by lia.
  rewrite (u64_small e) by lia. apply split_time; lia.
Qed.

(** ** What the counters say *)

(** The ticks of a core, the last one first: whether it ran a thread other than
    its idle thread. *)
Definition busy (h : list bool) : Z := lenZ (filter Is_true h).

Definition since (h : list bool) : Z := lenZ h mod 100.

(** The last complete hundred. *)
Definition window (h : list bool) : list bool := take 100 (drop (Z.to_nat (since h)) h).

Record counts (s : clock) (cpu : Z) (h : list bool) : Prop := {
  co_ticks : nthZ (g_tick_count s) cpu = Some (lenZ h);
  co_total : nthZ (g_tick_total_curr s) cpu = Some (lenZ h);
  co_total_prev : nthZ (g_tick_total_prev s) cpu = Some (lenZ h - since h);
  co_cpu : nthZ (g_tick_cpu_curr s) cpu = Some (busy h);
  co_cpu_prev : nthZ (g_tick_cpu_prev s) cpu = Some (busy (drop (Z.to_nat (since h)) h))
}.

(** What the host reads of a core with physical number [p]. *)
Record publishes (k : kernel) (p cpu : Z) (h : list bool) : Prop := {
  pu_ticks : h <> [] -> nthZ (ss_timer (storage k)) cpu = Some (lenZ h);
  pu_load : 100 <= lenZ h -> nthZ (Stat.core_load (stat_area (mem k))) p = Some (busy (window h))
}.

Lemma busy_app h1 h2 : busy (h1 ++ h2) = busy h1 + busy h2.
Proof. unfold busy, lenZ. rewrite filter_app, length_app. lia. Qed.

Lemma busy_range h : 0 <= busy h <= lenZ h.
Proof. unfold busy, lenZ. pose proof (length_filter Is_true h). lia. Qed.

Lemma busy_cons b h : busy (b :: h) = busy h + (if b then 1 else 0).
Proof. change (b :: h) with ([b] ++ h). rewrite busy_app. destruct b; [change (busy [true]) with 1|change (busy [false]) with 0]; lia. Qed.

Lemma since_cons b h : since (b :: h) = if (lenZ h + 1) mod 100 =? 0 then 0 else since h + 1.
Proof. unfold since, lenZ. rewrite length_cons, Nat2Z.inj_succ. fold (lenZ h). unfold Z.succ. destruct (Z.eqb_spec ((lenZ h + 1) mod 100) 0); zdm. Qed.

Lemma since_range h : 0 <= since h < 100.
Proof. unfold since. zdm. Qed.

(** A tick inside an interval. *)
Lemma drop_since b h : (lenZ h + 1) mod 100 <> 0 ->
  drop (Z.to_nat (since (b :: h))) (b :: h) = drop (Z.to_nat (since h)) h.
Proof.
  intros Hn. rewrite since_cons, (proj2 (Z.eqb_neq _ _)) by done. pose proof (since_range h).
  by rewrite Z.add_1_r, Z2Nat.inj_succ by lia.
Qed.

(** The tick that completes one: the window is the whole interval. *)
Lemma window_full b h : (lenZ h + 1) mod 100 = 0 ->
  since h = 99 /\ since (b :: h) = 0 /\
  busy (window (b :: h)) = busy (b :: h) - busy (drop (Z.to_nat (since h)) h).
Proof.
  intros Hn. assert (since h = 99) as E by (unfold since; zdm).
  assert (since (b :: h) = 0) as E0 by (by rewrite since_cons, Hn). split_and!; [done|done|].
  unfold window. rewrite E0, E. change (drop (Z.to_nat 0) (b :: h)) with (b :: h).
  change (drop (Z.to_nat 99) h) with (drop 100 (b :: h)).
  rewrite <-(take_drop 100 (b :: h)) at 2. rewrite busy_app. lia.
Qed.

(** ** One tick *)

(** Entry [i] of an array has become [v], and no other has changed. *)
Definition changed (l l' : list Z) (i v : Z) : Prop :=
  lenZ l' = lenZ l /\ nthZ l' i = Some v /\ forall j, j <> i -> nthZ l' j = nthZ l j.

Lemma changed_updZ l i v : 0 <= i < lenZ l -> changed l (updZ l i v) i v.
Proof.
  intros Hi. split_and!; [apply lenZ_updZ|by apply nthZ_updZ_eq|]. intros j Hj. by apply nthZ_updZ_ne.
Qed.

Lemma changed_same l i v : nthZ l i = Some v -> changed l l i v.
Proof. done. Qed.

Lemma wp_bump (f : clock -> list Z) {H : SetField f} i v (Q : unit -> clock -> Prop) s :
  nthZ (f s) i = Some v -> 0 <= v -> v + 1 < 2 ^ 64 ->
  (forall l, changed (f s) l i (v + 1) -> Q tt (s <| f := l |>)) -> wp (bump f i) Q s.
Proof.
  intros Hv H0 H1 HQ. apply wp_bind, wp_gets, wp_bind, (wp_the _ _ v); [done|]. apply wp_modify, HQ.
  rewrite u64_small by lia. apply changed_updZ. by eapply nthZ_Some_range.
Qed.

Lemma wp_at_core f i v (Q : Z -> clock -> Prop) s : nthZ (f s) i = Some v -> Q v s -> wp (at_core f i) Q s.
Proof. intros Hv HQ. apply wp_bind, wp_gets. by apply (wp_the _ _ v). Qed.

(** The kernel with other published loads and ticks. *)
Definition with_public (l t : list Z) (k : kernel) : kernel :=
  k <| mem := mem k <| stat_area := stat_area (mem k) <| Stat.core_load := l |> |> |>
    <| storage := storage k <| ss_timer := t |> |>.

Lemma kinv_with_public sw lk l t k : kinv sw lk k -> kinv sw lk (with_public l t k).
Proof. intros Hk. constructor; try apply Hk. destruct (ki_mem _ _ _ Hk) as [[? ?] ? ?]. by constructor. Qed.

Lemma wp_set_cpu_load pid load s (Q : unit -> STAT_AREA -> Prop) :
  stat_lock s = FALSE -> 0 <= pid < lenZ (Stat.core_load s) -> 0 <= load < 2 ^ 31 ->
  (forall l, changed (Stat.core_load s) l pid load -> Q tt (s <| Stat.core_load := l |>)) ->
  wp (set_cpu_load pid load) Q s.
Proof.
  intros Hl Hr Hload HQ. destruct (nthZ_in_range _ _ Hr) as [x Hx]. unfold set_cpu_load.
  apply wp_bind, wp_zoom, wp_spinlock_lock; [done|]. apply wp_bind, wp_get, wp_bind, (wp_the _ _ x); [done|].
  apply wp_bind, wp_put, wp_zoom, wp_spinlock_unlock. rewrite s32_small by lia.
  specialize (HQ _ (changed_updZ _ pid load Hr)). destruct s. cbn in *. by subst.
Qed.

Definition loads (s : clock) : list Z := Stat.core_load (stat_area (mem (sys s))).

Definition ticks (s : clock) : list Z := ss_timer (storage (sys s)).

(** A hundred ticks make the share of the busy ones a percentage. *)
Lemma wp_publish_load cid pid cc cp tc s (Q : unit -> clock -> Prop) :
  stat_lock (stat_area (mem (sys s))) = FALSE -> 0 <= pid < lenZ (loads s) ->
  nthZ (g_tick_cpu_curr s) cid = Some cc -> nthZ (g_tick_cpu_prev s) cid = Some cp ->
  nthZ (g_tick_total_curr s) cid = Some tc -> nthZ (g_tick_total_prev s) cid = Some (tc - 100) ->
  0 <= cc - cp <= 100 ->
  (forall l p t, changed (loads s) l pid (cc - cp) -> changed (g_tick_cpu_prev s) p cid cc ->
     changed (g_tick_total_prev s) t cid tc ->
     Q tt (s <| sys := with_public l (ticks s) (sys s) |> <| g_tick_cpu_prev := p |> <| g_tick_total_prev := t |>)) ->
  wp (publish_load cid pid) Q s.
Proof.
  intros Hl Hp Hcc Hcp Htc Htp Hd HQ. unfold publish_load.
  apply wp_bind, (wp_at_core _ _ cc); [done|]. apply wp_bind, (wp_at_core _ _ cp); [done|].
  apply wp_bind, (wp_at_core _ _ tc); [done|]. apply wp_bind, (wp_at_core _ _ (tc - 100)); [done|].
  replace (tc - (tc - 100)) with 100 by lia. change (u64 100) with 100.
  rewrite (u64_small (cc - cp)), (u64_small (_ * 100)), Z.div_mul by lia. apply wp_bind, wp_ret.
  apply wp_bind, wp_zoom, wp_zoom, wp_zoom, wp_set_cpu_load; [done|done|lia|]. intros l Hch.
  apply wp_bind, wp_modify, wp_modify.
  assert (0 <= cid < lenZ (g_tick_cpu_prev s)) as Hcid by (by eapply nthZ_Some_range).
  assert (0 <= cid < lenZ (g_tick_total_prev s)) as Hcid' by (by eapply nthZ_Some_range).
  specialize (HQ _ _ _ Hch (changed_updZ _ _ cc Hcid) (changed_updZ _ _ tc Hcid')).
  by destruct s as [[? ? ? ? ? ? ? ? ? ? ? ? ? ? ? [] ? ?] ? ? ? ? ? ? ? ? ? ? ?].
Qed.

Record accounted (cpu p : Z) (h : list bool) (s s' : clock) : Prop := {
  ac_counts : counts s' cpu h;
  ac_publishes : publishes (sys s') p cpu h;
  ac_others : forall c l, c <> cpu -> counts s c l -> counts s' c l;
  ac_ids : list_apic_id s' = list_apic_id s;
  ac_sys : exists l t, sys s' = with_public l t (sys s);
  ac_loads : lenZ (loads s') = lenZ (loads s) /\ forall q, q <> p -> nthZ (loads s') q = nthZ (loads s) q;
  ac_ticks : lenZ (ticks s') = lenZ (ticks s) /\ forall c, c <> cpu -> nthZ (ticks s') c = nthZ (ticks s) c
}.

Lemma accounted_intro cpu p h s s' l t :
  list_apic_id s' = list_apic_id s -> sys s' = with_public l t (sys s) ->
  changed (g_tick_count s) (g_tick_count s') cpu (lenZ h) ->
  changed (g_tick_total_curr s) (g_tick_total_curr s') cpu (lenZ h) ->
  changed (g_tick_total_prev s) (g_tick_total_prev s') cpu (lenZ h - since h) ->
  changed (g_tick_cpu_curr s) (g_tick_cpu_curr s') cpu (busy h) ->
  changed (g_tick_cpu_prev s) (g_tick_cpu_prev s') cpu (busy (drop (Z.to_nat (since h)) h)) ->
  changed (ticks s) t cpu (lenZ h) ->
  lenZ l = lenZ (loads s) -> (forall q, q <> p -> nthZ l q = nthZ (loads s) q) ->
  (100 <= lenZ h -> nthZ l p = Some (busy (window h))) ->
  accounted cpu p h s s'.
Proof.
  intros Eid Esys (_ & V1 & O1) (_ & V2 & O2) (_ & V3 & O3) (_ & V4 & O4) (_ & V5 & O5) (Lt & Vt & Ot) Ll Ol Vl.
  constructor; unfold loads, ticks; rewrite ?Esys; cbn; eauto.
  - by constructor.
  - by constructor.
  - intros c h' Hc []. constructor; by rewrite ?O1, ?O2, ?O3, ?O4, ?O5.
Qed.

Lemma wp_store_ticks cid n k (Q : unit -> kernel -> Prop) : 0 <= cid < lenZ (ss_timer (storage k)) ->
  (forall t, changed (ss_timer (storage k)) t cid n -> Q tt (k <| storage := storage k <| ss_timer := t |> |>)) ->
  wp (zoom storage (store_timer_info cid n)) Q k.
Proof.
  intros Hr HQ. destruct (nthZ_in_range _ _ Hr) as [x Hx]. apply wp_zoom, wp_bind, wp_get, wp_bind, (wp_the _ _ x); [done|].
  apply wp_put, HQ. by apply changed_updZ.
Qed.

Lemma wp_count_tick cpu p curr h s :
  stat_lock (stat_area (mem (sys s))) = FALSE -> 0 <= p < lenZ (loads s) -> 0 <= cpu < lenZ (ticks s) ->
  counts s cpu h -> publishes (sys s) p cpu h -> lenZ h + 1 < 2 ^ 64 ->
  wp (count_tick cpu p curr)
     (fun _ s' => accounted cpu p (negb (curr <? MAX_PROCESSOR_COUNT) :: h) s s') s.
Proof.
  intros Hl Hp Hc [H1 H2 H3 H4 H5] [P1 P2] Hn. set (b := negb (curr <? MAX_PROCESSOR_COUNT)).
  pose proof (busy_range h) as Hbr. assert (0 <= lenZ h) as H0 by (unfold lenZ; lia).
  assert (lenZ (b :: h) = lenZ h + 1) as Elen by (unfold lenZ; rewrite length_cons; lia).
  unfold count_tick. apply wp_bind, (wp_bump g_tick_count _ (lenZ h)); [done|lia|lia|]. intros l1 Hl1.
  apply wp_bind, (wp_bump g_tick_total_curr _ (lenZ h)); [done|lia|lia|]. intros l2 Hl2. apply wp_bind. fold b.
  assert (forall Q s, nthZ (g_tick_cpu_curr s) cpu = Some (busy h) ->
    (forall l, changed (g_tick_cpu_curr s) l cpu (busy (b :: h)) -> Q tt (s <| g_tick_cpu_curr := l |>)) ->
    wp (when b (bump g_tick_cpu_curr cpu)) Q s) as Hwhen.
  { intros Q s0 Hs0 HQ. rewrite busy_cons in HQ. destruct b; cbn [when].
    - by apply (wp_bump g_tick_cpu_curr _ (busy h)); [done|lia|lia|].
    - apply wp_ret. rewrite Z.add_0_r in HQ. specialize (HQ _ (changed_same _ _ _ Hs0)). by destruct s0. }
  apply Hwhen; [done|]. clear Hwhen. intros l3 Hl3.
  apply wp_bind, (wp_at_core _ _ (lenZ h + 1)); [apply Hl1|]. apply wp_bind, wp_when; intros E.
  - apply Z.eqb_eq in E. destruct (window_full b h E) as (Es & Es' & Ew). rewrite Es in *.
    eapply wp_publish_load; [done|exact Hp|apply Hl3|exact H5|apply Hl2| | |].
    + cbn [g_tick_total_prev set_field]. rewrite H3. f_equal. lia.
    + rewrite <-Ew. pose proof (busy_range (window (b :: h))) as Hb2.
      assert (lenZ (window (b :: h)) <= 100) by (unfold window, lenZ; rewrite length_take; lia). lia.
    + rewrite <-Ew. intros l p0 t (Ll & Vl & Ol) Hp0 Ht. apply wp_zoom, wp_store_ticks; [exact Hc|]. intros t' Ht'.
      eapply (accounted_intro _ _ _ _ _ l t'); rewrite ?Elen, ?Es', ?Z.sub_0_r; done.
  - apply Z.eqb_neq in E. apply wp_zoom, wp_store_ticks; [exact Hc|]. intros t' Ht'.
    eapply (accounted_intro _ _ _ _ _ (loads s) t'); rewrite ?Elen, ?drop_since by done; try done.
    + unfold loads. cbn. clear. by destruct (sys s) as [? ? ? ? ? ? ? ? ? ? ? [? ? ? ? ? [] ?] ? ? ? ? ? ?].
    + apply changed_same. rewrite since_cons, (proj2 (Z.eqb_neq _ _)) by done. cbn. rewrite H3. f_equal. lia.
    + intros Hge. unfold window. rewrite drop_since by done. apply P2.
      destruct (Z.eq_dec (lenZ h) 99) as [E9|]; [rewrite E9 in E; by destruct E|lia].
Qed.

(** ** Any interleaving *)

(** [ps] are the physical numbers of the cores, in the order of their own numbers;
    [h] the ticks of each core. *)
Record clock_inv (ps : list Z) (s : clock) (h : Z -> list bool) : Prop := {
  ci_kinv : kinv None None (sys s);
  ci_loads : lenZ (loads s) = MAX_CORE;
  ci_ticks : lenZ (ticks s) = MAX_PROCESSOR_COUNT;
  ci_id : forall cpu p, nthZ ps cpu = Some p -> 0 <= p < MAX_CORE /\
    msrs (sys s) cpu APIC_REGISTER_APIC_ID = p /\ nthZ (list_apic_id s) p = Some cpu;
  ci_core : forall cpu p, nthZ ps cpu = Some p -> counts s cpu (h cpu) /\ publishes (sys s) p cpu (h cpu)
}.

(** The kernel does something that the timer does not see. *)
Lemma clock_inv_sys ps s h k : clock_inv ps s h -> kinv None None k ->
  (forall c, public c k = public c (sys s)) -> clock_inv ps (s <| sys := k |>) h.
Proof.
  intros [_ Hl Ht Hid Hco] Hk Hp. pose proof (Hp 0) as [= _ El Et].
  constructor; unfold loads, ticks in *; cbn; rewrite ?El, ?Et; try done.
  - intros cpu p Hcpu. pose proof (Hp cpu) as [= -> _ _]. by apply Hid.
  - intros cpu p Hcpu. destruct (Hco cpu p Hcpu) as [[] []]. split; constructor; cbn; rewrite ?El, ?Et; done.
Qed.

Lemma wp_sys {A} ps s h (m : M kernel A) (R : A -> kernel -> Prop) (Q : A -> clock -> Prop) :
  clock_inv ps s h -> (forall c, stays (public c) m) -> wp m (fun a k => kinv None None k /\ R a k) (sys s) ->
  (forall a k, R a k -> clock_inv ps (s <| sys := k |>) h -> Q a (s <| sys := k |>)) -> wp (zoom sys m) Q s.
Proof.
  intros Hs Hm Hw HQ. apply wp_zoom. unfold wp in *. destruct (m (sys s)) as [[a k]|] eqn:E; [|done].
  destruct Hw as [Hk HR]. apply HQ; [done|]. apply clock_inv_sys; [done|done|]. intros c. by apply (Hm c _ _ _ E).
Qed.

Lemma wp_sys_lapic {A} ps s h cpu (m : M lapic A) (R : A -> Prop) (Q : A -> clock -> Prop) :
  clock_inv ps s h -> stays apic_id_of m -> wp m (fun a l => lapic_ok l /\ R a) (lapic_of (sys s) cpu) ->
  (forall a k, R a -> running_thread k = running_thread (sys s) -> clock_inv ps (s <| sys := k |>) h ->
     Q a (s <| sys := k |>)) ->
  wp (zoom sys (on_lapic cpu m)) Q s.
Proof.
  intros Hs Hm Hw HQ.
  apply (wp_sys ps s h _ (fun a k => R a /\ running_thread k = running_thread (sys s))); [done| | |].
  - intros c. by apply on_lapic_stays.
  - apply wp_on_lapic. eapply wp_mono; [exact Hw|]. intros a l [Hl HR]. split_and!; [|done|done].
    by apply kinv_with_lapic; [apply Hs|].
  - intros a k [HR Er]. by apply HQ.
Qed.

Lemma wp_papic ps s h cpu p (Q : Z -> clock -> Prop) : clock_inv ps s h -> nthZ ps cpu = Some p ->
  (forall k, running_thread k = running_thread (sys s) -> clock_inv ps (s <| sys := k |>) h -> Q p (s <| sys := k |>)) ->
  wp (get_papic_id cpu) Q s.
Proof.
  intros Hs Hcpu HQ. destruct (ci_id _ _ _ Hs _ _ Hcpu) as (_ & Em & _).
  apply (wp_sys_lapic ps s h _ _ (fun a => a = p)); [done|apply stays_gets| |by intros ? k -> ? ?; apply HQ].
  apply wp_gets. split; [by eapply lapic_of_ok, ci_kinv|done].
Qed.

Lemma wp_apic ps s h cpu p (Q : Z -> clock -> Prop) : clock_inv ps s h -> nthZ ps cpu = Some p -> lenZ ps <= 256 ->
  (forall k, running_thread k = running_thread (sys s) -> clock_inv ps (s <| sys := k |>) h -> Q cpu (s <| sys := k |>)) ->
  wp (get_apic_id cpu) Q s.
Proof.
  intros Hs Hcpu Hlen HQ. apply wp_bind. eapply wp_papic; [exact Hs|exact Hcpu|]. intros k Er Hk.
  apply wp_bind, wp_gets, wp_bind, (wp_the _ _ cpu); [by apply (ci_id _ _ _ Hk)|].
  pose proof (nthZ_Some_range _ _ _ Hcpu). rewrite u64_small by lia. apply wp_ret. by apply HQ.
Qed.

Lemma clock_inv_accounted ps s s' h cpu p b : clock_inv ps s h -> nthZ ps cpu = Some p ->
  accounted cpu p (b :: h cpu) s s' -> clock_inv ps s' (fupd h cpu (b :: h cpu)).
Proof.
  intros [Hk Hl Ht Hid Hco] Hcpu [Ac Ap Ao Ei [l [t Es]] [Ll Ol] [Lt Ot]]. constructor; [| |by rewrite Lt| |].
  - rewrite Es. by apply kinv_with_public.
  - by rewrite Ll.
  - intros c q Hc. rewrite Ei, Es. by apply Hid.
  - intros c q Hc. destruct (decide (c = cpu)) as [->|Hne].
    + rewrite fupd_eq. rewrite Hcpu in Hc. by injection Hc as <-.
    + rewrite fupd_ne by done. destruct (Hco c q Hc) as [Hcc [P1 P2]]. split; [by apply Ao|].
      assert (q <> p) as Hq.
      { intros ->. destruct (Hid _ _ Hc) as (_ & _ & E1), (Hid _ _ Hcpu) as (_ & _ & E2). congruence. }
      constructor; [intros; unfold ticks in Ot; rewrite Ot by done; by apply P1|].
      intros; unfold loads in Ol; rewrite Ol by done; by apply P2.
Qed.

(** The rest of the handler: the thread is charged, and goes on or is preempted. *)
Lemma wp_charge_tick ps s h cpu cur sp : clock_inv ps s h -> 0 <= cpu < 256 ->
  running_thread (sys s) cpu = Some cur ->
  wp (let! consumed := zoom sys (adjust_time_slice cpu) in
      zoom sys (decrease_remaining_time_slice cpu consumed) ;;
      let! b := zoom sys (get_TCB cur) in
      if 0 <? remaining_time_slice b then zoom sys (start_slice cpu cur) ;; ret TRUE
      else zoom sys (schedule cpu sp THREAD_INTENTION_READY))
     (fun _ s' => clock_inv ps s' h) s.
Proof.
  intros Hs Hc Hcur. destruct (current_tcb cpu cur _ (ci_kinv _ _ _ Hs) Hcur) as (b0 & Ha & _).
  apply wp_bind, (wp_sys ps s h _ (fun _ k => charged cur (sys s) k /\ is_Some (tcbs k !! cur))); [done|intros c; apply adjust_stays| |].
  { eapply wp_mono; [apply (wp_adjust cpu cur (sys s)); [by apply charged_refl, Hs|done|by eexists; apply Ha]|].
    intros ? k [Hch ?]. split; [apply (ch_inv _ _ _ Hch)|done]. }
  intros n k1 [Hch1 Hb1] Hs1. apply wp_bind.
  apply (wp_sys ps (s <| sys := k1 |>) h _ (fun _ k => charged cur (sys s) k /\ is_Some (tcbs k !! cur))); [done|by intros c; apply decrease_stays| |].
  { eapply wp_mono; [by apply (wp_decrease cpu cur (sys s))|]. intros ? k [Hch ?]. split; [apply (ch_inv _ _ _ Hch)|done]. }
  intros _ k2 [Hch2 [b Hb]] Hs2. cbn in Hs2 |- *. apply wp_bind, wp_zoom, (wp_get_TCB _ b); [exact Hb|]. cbn.
  assert (running_thread k2 cpu = Some cur) as Hc2 by (by rewrite (ch_running _ _ _ Hch2)).
  destruct (0 <? remaining_time_slice b).
  - apply wp_bind. eapply (wp_sys ps _ h _ (fun _ _ => True)); [exact Hs2|by intros c; apply start_slice_stays| |].
    + eapply wp_start_slice; [apply (ch_inv _ _ _ Hch2)|exact Hb|]. intros k3 Ht. split; [|done].
      apply (ti_inv _ _ Ht), (ch_inv _ _ _ Hch2).
    + intros _ k3 _ Hs3. by apply wp_ret.
  - eapply (wp_sys ps _ h _ (fun _ _ => True)); [exact Hs2|by intros c; apply schedule_stays| |by intros].
    eapply wp_mono; [apply (wp_schedule cpu cur Hc); [apply (ch_inv _ _ _ Hch2)|exact Hc2|]|].
    + split; [done|]. intros _. done.
    + intros ? k3 [Hk3 _]. done.
Qed.

Lemma wp_timer_handler ps s h cpu p cur sp : clock_inv ps s h -> lenZ ps <= 256 -> nthZ ps cpu = Some p ->
  running_thread (sys s) cpu = Some cur -> lenZ (h cpu) + 1 < 2 ^ 64 ->
  wp (timer_handler cpu sp)
     (fun _ s' => clock_inv ps s' (fupd h cpu (negb (cur <? MAX_PROCESSOR_COUNT) :: h cpu))) s.
Proof.
  intros Hs Hlen Hcpu Hcur Hn. pose proof (nthZ_Some_range _ _ _ Hcpu) as Hr. assert (0 <= cpu < 256) as Hc by lia.
  unfold timer_handler. apply wp_bind, wp_zoom, wp_bind, wp_gets. rewrite Hcur. apply wp_ret.
  replace (s <| sys := sys s |>) with s by (by destruct s).
  apply wp_bind, (wp_sys_lapic ps s h _ _ (fun _ => True)); [done|auto with stays| |].
  { apply wp_write_ok; [by eapply lapic_of_ok, ci_kinv|done]. }
  intros _ k1 _ Er1 Hs1. apply wp_bind. eapply wp_apic; [exact Hs1|exact Hcpu|done|]. intros k2 Er2 Hs2.
  apply wp_bind. eapply wp_papic; [exact Hs2|exact Hcpu|]. intros k3 Er3 Hs3. cbn in Er2, Er3, Hs2, Hs3 |- *.
  destruct (ci_id _ _ _ Hs3 _ _ Hcpu) as (Hp & _), (ci_core _ _ _ Hs3 _ _ Hcpu) as [Hco Hpu].
  unfold MAX_CORE in Hp. rewrite !s32_small by lia. apply wp_bind.
  eapply wp_mono; [apply (wp_count_tick cpu p cur (h cpu)); try done|].
  { apply (mo_inv _ (ki_mem _ _ _ (ci_kinv _ _ _ Hs3))). }
  { rewrite (ci_loads _ _ _ Hs3). done. }
  { rewrite (ci_ticks _ _ _ Hs3). unfold MAX_PROCESSOR_COUNT. lia. }
  intros ? s4 Hac. pose proof (clock_inv_accounted _ _ _ _ _ _ _ Hs3 Hcpu Hac) as Hs4.
  assert (running_thread (sys s4) cpu = Some cur) as Hc4.
  { destruct (ac_sys _ _ _ _ _ Hac) as (l & t & Es). rewrite Es. cbn. congruence. }
  by apply wp_charge_tick.
Qed.

(** The cores enter the kernel one after the other. *)
Definition register (ps : list Z) : M clock unit := for_each ps (fun p => set_apic_id p ;; ret tt).

(** The cores [ps] have their numbers. *)
Definition registered (ps : list Z) (s : clock) : Prop :=
  curr_cpu s = lenZ ps /\ apic_lock s = FALSE /\ lenZ (list_apic_id s) = MAX_PAPIC_ID /\
  forall cpu p, nthZ ps cpu = Some p -> nthZ (list_apic_id s) p = Some cpu.

Definition same_but_ids (s s' : clock) : Prop :=
  s' = s <| list_apic_id := list_apic_id s' |> <| curr_cpu := curr_cpu s' |> <| apic_lock := apic_lock s' |>.

(** The number returned is one more than the one assigned. *)
Lemma wp_set_apic_id ps p s : registered ps s -> p ∉ ps -> 0 <= p < MAX_PAPIC_ID -> lenZ ps < 2 ^ 31 - 1 ->
  wp (set_apic_id p) (fun r s' => r = lenZ ps + 1 /\ registered (ps ++ [p]) s' /\ same_but_ids s s') s.
Proof.
  intros (Ec & El & Elen & Hids) Hp Hr Hn. rewrite <-Elen in Hr. assert (0 <= lenZ ps) by (unfold lenZ; lia).
  destruct (nthZ_in_range _ _ Hr) as [x Hx]. unfold set_apic_id.
  apply wp_bind, wp_zoom, wp_spinlock_lock; [done|]. apply wp_bind, wp_get, wp_bind, (wp_the _ _ x); [done|].
  apply wp_bind, wp_put, wp_bind, wp_zoom, wp_spinlock_unlock, wp_gets. cbn [curr_cpu set_field].
  rewrite s32_small by (rewrite Ec; lia). rewrite u64_small by (rewrite Ec; lia). split; [by rewrite Ec|].
  split; [|by destruct s]. split_and!; cbn [curr_cpu apic_lock list_apic_id set_field].
  - by rewrite Ec, lenZ_app.
  - done.
  - by rewrite lenZ_updZ.
  - intros cpu q Hq. destruct (Z.lt_ge_cases cpu (lenZ ps)) as [Hlt|Hge].
    + rewrite nthZ_app_l in Hq by done. rewrite nthZ_updZ_ne; [by apply Hids|].
      intros ->. apply Hp, nthZ_elem_of. by exists cpu.
    + pose proof (nthZ_Some_range _ _ _ Hq) as Hrange. rewrite lenZ_app in Hrange. change (lenZ [p]) with 1 in Hrange.
      assert (cpu = lenZ ps) as -> by lia. rewrite nthZ_app_r, Z.sub_diag in Hq by lia. injection Hq as <-.
      by rewrite nthZ_updZ_eq, Ec.
Qed.

Lemma wp_register ps : forall done s, registered done s -> NoDup (done ++ ps) ->
  Forall (fun p => 0 <= p < MAX_PAPIC_ID) ps -> lenZ (done ++ ps) < 2 ^ 31 ->
  wp (register ps) (fun _ s' => registered (done ++ ps) s' /\ same_but_ids s s') s.
Proof.
  induction ps as [|p ps IH]; intros done s Hs Hnd Hr Hlen; cbn.
  - apply wp_ret. rewrite app_nil_r. split; [done|by destruct s].
  - apply Forall_cons in Hr as [Hp Hr].
    assert (p ∉ done) as Hpd by (apply NoDup_app in Hnd as (_ & Hd & _); intros Hx; apply (Hd _ Hx); by left).
    assert (lenZ done < 2 ^ 31 - 1) as Hld by (rewrite lenZ_app in Hlen; unfold lenZ in *; cbn in Hlen; lia).
    apply wp_bind, wp_bind. eapply wp_mono; [by apply (wp_set_apic_id done)|]. intros r s1 (_ & Hs1 & Hsame).
    apply wp_ret. rewrite (cons_middle p done ps), app_assoc in Hnd, Hlen |- *.
    eapply wp_mono; [by apply (IH (done ++ [p]))|].
    intros ? s2 [Hs2 Hsame2]. split; [done|]. unfold same_but_ids in *. rewrite Hsame2. cbn. by rewrite Hsame.
Qed.

(** The kernel has booted, the counters of [timer.c] and the table of core numbers
    are as they are loaded, and core [cpu] has the physical number [ps[cpu]]. *)
Record clock_cold (ps : list Z) (s : clock) : Prop := {
  cc_booted : booted (sys s);
  cc_loads : lenZ (loads s) = MAX_CORE;
  cc_ticks : lenZ (ticks s) = MAX_PROCESSOR_COUNT;
  cc_distinct : NoDup ps;
  cc_papic : forall cpu p, nthZ ps cpu = Some p -> 0 <= p < MAX_CORE /\ msrs (sys s) cpu APIC_REGISTER_APIC_ID = p;
  cc_ids : list_apic_id s = no_apic_ids /\ curr_cpu s = 0 /\ apic_lock s = FALSE;
  cc_zero : forall f, In f [g_tick_count; g_tick_total_prev; g_tick_total_curr; g_tick_cpu_prev; g_tick_cpu_curr] ->
    f s = replicate (Z.to_nat MAX_PROCESSOR_COUNT) 0
}.

(** From [s0]: thread calls of any core, list locks taken by other cores, registers
    and the time stamp counter changed by the hardware, and timer interrupts of
    cores that run a thread, until a core has had 2^64 - 1 of them. *)
Inductive runs (c : code) (ps : list Z) (s0 : clock) : clock -> (Z -> list bool) -> Prop :=
| runs_start : runs c ps s0 s0 (fun _ => [])
| runs_call s h cpu sp call r k : runs c ps s0 s h -> 0 <= cpu < 256 -> permitted (sys s) cpu call ->
    do_kcall c cpu sp call (sys s) = Ok (r, k) -> runs c ps s0 (s <| sys := k |>) h
| runs_lock s h n held : runs c ps s0 s h -> valid n -> runs c ps s0 (s <| sys := contend n held (sys s) |>) h
| runs_hardware s h m t : runs c ps s0 s h ->
    (forall cpu, m cpu APIC_REGISTER_APIC_ID = msrs (sys s) cpu APIC_REGISTER_APIC_ID) ->
    runs c ps s0 (s <| sys := sys s <| msrs := m |> |> <| tsc := t |>) h
| runs_tick s h cpu sp cur r s' : runs c ps s0 s h -> is_Some (nthZ ps cpu) ->
    running_thread (sys s) cpu = Some cur -> lenZ (h cpu) + 1 < 2 ^ 64 -> timer_handler cpu sp s = Ok (r, s') ->
    runs c ps s0 s' (fupd h cpu (negb (cur <? MAX_PROCESSOR_COUNT) :: h cpu)).

Lemma runs_inv c ps s0 s h : lenZ ps <= 256 -> clock_inv ps s0 (fun _ => []) -> runs c ps s0 s h -> clock_inv ps s h.
Proof.
  intros Hlen H0. induction 1 as [|s h cpu sp call r k _ IH Hcpu Hp Hrun|s h n held _ IH Hn|s h m t _ IH Hm|s h cpu sp cur r s' _ IH [p Hcpu] Hcur Hn Hrun].
  - done.
  - apply clock_inv_sys; [done| |by intros i; apply (kcall_stays i _ _ _ _ _ _ _ Hrun)].
    pose proof (wp_kcall c cpu sp call _ (ci_kinv _ _ _ IH) Hcpu Hp) as Hw. unfold wp in Hw. by rewrite Hrun in Hw.
  - apply clock_inv_sys; [done| |done]. by apply kinv_contend; [apply IH|].
  - assert (clock_inv ps (s <| sys := sys s <| msrs := m |> |>) h) as Hs.
    { apply clock_inv_sys; [done| |intros i; unfold public; cbn; by rewrite Hm].
      pose proof (ci_kinv _ _ _ IH) as Hk. constructor; try apply Hk. destruct (ki_mem _ _ _ Hk). by constructor. }
    destruct Hs as [? ? ? ? Hco]. constructor; [done..|]. intros i p Hi. destruct (Hco i p Hi) as [[] ?].
    by split; [constructor|].
  - pose proof (wp_timer_handler ps s h cpu p cur sp IH Hlen Hcpu Hcur Hn) as Hw. unfold wp in Hw. by rewrite Hrun in Hw.
Qed.

(** Registration leads to the invariant. *)
Lemma cold_starts ps s : clock_cold ps s -> lenZ ps <= 100 /\
  wp (register ps) (fun _ s0 => sys s0 = sys s /\ clock_inv ps s0 (fun _ => [])) s.
Proof.
  intros [[Hk _] Hl Ht Hnd Hp (E1 & E2 & E3) Hz].
  assert (forall p, p ∈ ps -> 0 <= p < 100) as Hr by (intros p [i Hi]%nthZ_elem_of; apply (Hp i p Hi)).
  assert (lenZ ps <= 100) as Hlen by (apply (NoDup_range_length _ 0); [done|lia|exact Hr]). split; [done|].
  eapply wp_mono.
  - apply (wp_register ps []); [|done|apply Forall_forall; intros p ?%Hr; unfold MAX_PAPIC_ID; lia|cbn; lia].
    split_and!; [done|done|by rewrite E1|]. intros cpu p Hx. apply nthZ_Some_range in Hx. unfold lenZ in Hx. cbn in Hx. lia.
  - intros ? s0 [(_ & _ & _ & Hids) E]. cbn [app] in Hids. unfold same_but_ids in E.
    assert (sys s0 = sys s) as Es by (by rewrite E). split; [done|].
    assert (forall f, In f [g_tick_count; g_tick_total_prev; g_tick_total_curr; g_tick_cpu_prev; g_tick_cpu_curr] ->
      f s0 = replicate (Z.to_nat MAX_PROCESSOR_COUNT) 0) as Hz0.
    { intros f Hf. rewrite <-(Hz f Hf), E. by repeat destruct Hf as [<-|Hf]. }
    constructor; unfold loads, ticks; rewrite ?Es; try done.
    + intros cpu p Hcpu. destruct (Hp cpu p Hcpu). split_and!; [lia..|done|by apply Hids].
    + intros cpu p Hcpu. pose proof (nthZ_Some_range _ _ _ Hcpu) as Hc.
      assert (nthZ (replicate (Z.to_nat MAX_PROCESSOR_COUNT) 0) cpu = Some 0) as Hn.
      { apply nthZ_replicate. unfold MAX_PROCESSOR_COUNT. lia. }
      split; constructor; try (rewrite Hz0 by (cbn; tauto); exact Hn); [done|]. intros Hx. by destruct Hx.
Qed.

(** C2: ticks are accounted for, and preemption is safe.  On up to a hundred cores with
    different physical numbers below 100, which [set_apic_id] has numbered, through
    any interleaving of thread calls, locks held by other cores, whatever the
    hardware counts, and timer interrupts: the thread tables stay consistent;
    what [sys_get_ticks] returns on a core, and the figure in the shell storage area,
    is the number of its ticks; the load published for it is the number of ticks,
    among the last complete hundred, at which it ran a thread that is not its idle
    thread; and the next timer interrupt of a core that runs a thread is handled,
    whether the thread goes on or is preempted. *)
Theorem ticks_accounted c ps s : clock_cold ps s ->
  exists s0, register ps s = Ok (tt, s0) /\ forall s' h, runs c ps s0 s' h ->
    tables_safe (sys s') /\
    forall cpu p, nthZ ps cpu = Some p ->
      wp (sys_get_ticks cpu) (fun r _ => r = lenZ (h cpu)) s' /\ publishes (sys s') p cpu (h cpu) /\
      forall sp cur, running_thread (sys s') cpu = Some cur -> lenZ (h cpu) + 1 < 2 ^ 64 ->
        exists r s2, timer_handler cpu sp s' = Ok (r, s2) /\ tables_safe (sys s2) /\
          runs c ps s0 s2 (fupd h cpu (negb (cur <? MAX_PROCESSOR_COUNT) :: h cpu)).
Proof.
  intros [Hlen ([] & s0 & Hrun & _ & H0)%wp_Ok]%cold_starts. exists s0. split; [done|]. intros s' h Hr.
  pose proof (runs_inv c ps s0 s' h ltac:(lia) H0 Hr) as Hs. split; [by apply kinv_tables, Hs|].
  intros cpu p Hcpu. destruct (ci_core _ _ _ Hs _ _ Hcpu) as [Hco Hpu]. split_and!; [|done|].
  { apply wp_bind. eapply wp_apic; [exact Hs|exact Hcpu|lia|]. intros k _ _. eapply wp_at_core; [apply Hco|done]. }
  intros sp cur Hcur Hn.
  destruct (proj1 (wp_Ok _ _ _) (wp_timer_handler ps s' h cpu p cur sp Hs ltac:(lia) Hcpu Hcur Hn)) as (r & s2 & Hrun2 & H2).
  exists r, s2. split_and!; [done|by apply kinv_tables, H2|]. by eapply runs_tick.
Qed.

(** ** Instances *)

Definition zeros : list Z := replicate (Z.to_nat MAX_PROCESSOR_COUNT) 0.

(** Two cores, with the physical numbers 0 and 5. *)
Definition two_cores (k : kernel) : clock :=
  mkClock (with_public (replicate (Z.to_nat MAX_CORE) 0) zeros (k <| msrs := fun c _ => 5 * c |>))
    no_apic_ids 0 FALSE zeros zeros zeros zeros zeros 0 0 1000.

Lemma two_cores_cold k : booted k -> clock_cold [0; 5] (two_cores k).
Proof.
  intros (Hk & Hg & Ho & Hr). constructor; try done.
  - split_and!; [|done|done|done]. apply kinv_with_public. constructor; try apply Hk.
    destruct (ki_mem _ _ _ Hk). by constructor.
  - repeat constructor; set_solver.
  - intros cpu p Hp. pose proof (nthZ_Some_range _ _ _ Hp) as Hc. unfold lenZ in Hc. cbn in Hc.
    assert (cpu = 0 \/ cpu = 1) as [->| ->] by lia; injection Hp as <-; by split.
  - intros f Hf. by repeat destruct Hf as [<-|Hf].
Qed.

(** The first core starts its idle thread. *)
Lemma first_core_idles c ps s s0 : clock_cold ps s -> register ps s = Ok (tt, s0) ->
  exists s1, runs c ps s0 s1 (fun _ => []) /\ running_thread (sys s1) 0 = Some 0.
Proof.
  intros Hcold Hrun. destruct (cold_starts _ _ Hcold) as [_ Hw]. unfold wp in Hw. rewrite Hrun in Hw. destruct Hw as [Es H0].
  assert (running_thread (sys s0) 0 = None) as Hn by (rewrite Es; apply Hcold).
  destruct (proj1 (wp_Ok _ _ _) (wp_setup_idle 0 (sys s0) (ci_kinv _ _ _ H0) ltac:(done) Hn)) as ([] & k1 & Hstart & Hk1 & Er & _).
  exists (s0 <| sys := k1 |>). split; [|cbn; by rewrite Er, fupd_eq].
  eapply (runs_call _ _ _ s0 _ 0 0 KStart 0 k1); [constructor|lia|exact Hn|]. cbn [do_kcall]. unfold bind. by rewrite Hstart.
Qed.

(** It has a tick. *)
Lemma ticks_accounted_witness : exists s s0 s1, clock_cold [0; 5] s /\ register [0; 5] s = Ok (tt, s0) /\
  runs some_code [0; 5] s0 s1 (fun _ => []) /\ running_thread (sys s1) 0 = Some 0 /\ tables_safe (sys s1) /\
  exists r s2, timer_handler 0 0x1000 s1 = Ok (r, s2) /\ tables_safe (sys s2) /\
    runs some_code [0; 5] s0 s2 (fupd (fun _ => []) 0 [false]).
Proof.
  destruct booted_exists as [k Hb]. pose proof (two_cores_cold k Hb) as Hcold.
  destruct (ticks_accounted some_code [0; 5] (two_cores k) Hcold) as (s0 & Hrun & Hall).
  destruct (first_core_idles some_code _ _ _ Hcold Hrun) as (s1 & Hr1 & Hc1).
  destruct (Hall _ _ Hr1) as [Hs1 Hcore]. destruct (Hcore 0 0 eq_refl) as (_ & _ & Htick).
  exists (two_cores k), s0, s1.
  exact (conj Hcold (conj Hrun (conj Hr1 (conj Hc1 (conj Hs1 (Htick 0x1000 0 Hc1 eq_refl)))))).
Defined.

(** 3 GHz, and ten seconds and a half. *)
Lemma time_of_day_exact_witness :
  let s := mkClock cold no_apic_ids 0 FALSE zeros zeros zeros zeros zeros 0 0 1000 in
  wp (timer_init (run_for 150000000) ;; run_for 31500000000 ;; sys_gettimeofday true)
     (fun r _ => exists sec usec, r = (0, Some (sec, usec)) /\ 0 <= usec < 1000000 /\
        sec * 1000000 + usec = 31500000000 * 1000000 / (20 * 150000000)) s.
Proof.
  intros s. apply (time_of_day_exact s 150000000 31500000000); [cbn; lia|lia|lia|cbn; lia|lia].
Defined.
