(* ===== verification/Channel.v ===== *)
(** * The circular queues of the offload channels

    [kernel/offload/offload_channel.c] and its copy in
    [sideloader/offload_proxy/offload_channel.c] work on the same queue, mapped
    by the kernel and by a process of the host.  The queue is a ring of elements
    of two pages; an element holds a packet of ten words.  [head] and [tail] are
    C [int]s, [size] an [unsigned long], and the mixed arithmetic is written out.
    For a power-of-two size the ring is a first-in first-out list of at most
    [size - 1] packets. *)

From S2P Require Import Prelude.
From S2P Require Import Utility.
From S2P Require Import Lock.

(** ** The queue *)

Definition CQ_ELE_SIZE : Z := 2 * 4096.

(** [cq_data] is the memory from [data[0]] on; [slock] is the kernel's lock, and
    the ticket lock beside it is not used. *)
Record circular_queue := mkQueue {
  cq_head : Z;
  cq_tail : Z;
  cq_size : Z;
  slock : Z;
  cq_data : memory
}.

#[export] Instance eta_queue : Eta circular_queue := fun q =>
  mkQueue (cq_head q) (cq_tail q) (cq_size q) (slock q) (cq_data q).

(** [cq->data + i] *)
Definition element (i : Z) : Z := CQ_ELE_SIZE * i.

Definition cq_init (size : Z) (cq : circular_queue) : circular_queue :=
  cq <| cq_head := 0 |> <| cq_tail := 0 |> <| cq_size := size |>.

(** The [int] difference is converted to [unsigned long] for the mask. *)
Definition cq_avail_data (cq : circular_queue) : Z :=
  s32 (Z.land (u64 (s32 (cq_head cq - cq_tail cq))) (u64 (cq_size cq - 1))).

Definition cq_free_space (cq : circular_queue) : Z :=
  s32 (u64 (cq_size cq - 1 - cq_avail_data cq)).

(** [(i + 1) % cq->size], of an [int] and assigned to one *)
Definition cq_next (cq : circular_queue) (i : Z) : Z := s32 (u64 (s32 (i + 1)) mod cq_size cq).

Definition cq_is_full (cq : circular_queue) : bool :=
  u64 (s32 (cq_tail cq + 1)) mod cq_size cq =? u64 (cq_head cq).

Definition cq_is_empty (cq : circular_queue) : bool := cq_head cq =? cq_tail cq.

(** With no other side to make room, a full queue is waited for forever. *)
Definition cq_add_data (data : Z) : M circular_queue Z :=
  let! cq := get in
  if cq_free_space cq =? 0 then fail Spinning
  else
    modify (fun q => q <| cq_data := store8 (cq_data q) (element (cq_head q)) data |>) ;;
    if cq_size cq =? 0 then fail DivideByZero
    else
      modify (fun q => q <| cq_head := cq_next q (cq_head q) |>) ;;
      ret 1.

(** The byte removed and the result 1 *)
Definition cq_remove_data : M circular_queue (Z * Z) :=
  let! cq := get in
  if cq_avail_data cq =? 0 then fail Spinning
  else
    let data := cq_data cq (element (cq_tail cq)) in
    if cq_size cq =? 0 then fail DivideByZero
    else
      modify (fun q => q <| cq_tail := cq_next q (cq_tail q) |>) ;;
      ret (data, 1).

(** ** Packets *)

(** [io_packet_t]: ten words. *)
Definition io_packet_t : Type := list Z.

Definition PKT_WORDS : Z := 10.

Definition W_MAGIC : Z := 0.

Definition W_TID : Z := 1.

Definition W_TYPE : Z := 2.

(** [param1] to [param6] *)
Definition W_PARAM (i : Z) : Z := 2 + i.

Definition W_RET : Z := 9.

Definition pkt_word (p : io_packet_t) (k : Z) : Z := default 0 (nthZ p k).

(** The packet in an element, and the assignment of one of its words *)
Definition load_word (m : memory) (i k : Z) : Z := load64 m (element i + 8 * k).

Definition packet_at (m : memory) (i : Z) : io_packet_t := load_word m i <$> seqZ 0 PKT_WORDS.

Definition set_word (i k v : Z) (cq : circular_queue) : circular_queue :=
  cq <| cq_data := store64 (cq_data cq) (element i + 8 * k) (u64 v) |>.

(** ** The ring as a list *)

Record queue_ok (q : circular_queue) : Prop := {
  qo_size : exists b, 0 <= b <= 30 /\ cq_size q = 2 ^ b;
  qo_head : 0 <= cq_head q < cq_size q;
  qo_tail : 0 <= cq_tail q < cq_size q
}.

(** What [f] shows of the elements from [tail] up to [head] *)
Definition ring {A} (f : Z -> A) (q : circular_queue) : list A :=
  (fun k => f ((cq_tail q + k) mod cq_size q)) <$> seqZ 0 (cq_avail_data q).

Definition contents (q : circular_queue) : list io_packet_t := ring (packet_at (cq_data q)) q.

Lemma size_bounds q : queue_ok q -> 1 <= cq_size q <= 2 ^ 30.
Proof.
  intros [(b & Hb & ->) _ _]. pose proof (pow2_pos b). pose proof (pow2_mono b 30). lia.
Qed.

Lemma avail_mod q : queue_ok q -> cq_avail_data q = (cq_head q - cq_tail q) mod cq_size q.
Proof.
  intros Hq. pose proof (size_bounds q Hq). destruct Hq as [(b & Hb & E) Hh Ht].
  unfold cq_avail_data. rewrite (s32_small (_ - _)) by lia. rewrite (u64_small (_ - 1)) by lia.
  replace (cq_size q - 1) with (Z.ones b) by (rewrite Z.ones_equiv; lia).
  rewrite Z.land_ones by lia. unfold u64.
  rewrite <- Znumtheory.Zmod_div_mod.
  - rewrite E, s32_small; [done|].
    pose proof (Z.mod_pos_bound (cq_head q - cq_tail q) (2 ^ b)). lia.
  - pose proof (pow2_pos b). lia.
  - lia.
  - exists (2 ^ (64 - b)). rewrite <- Z.pow_add_r by lia. f_equal. lia.
Qed.

Lemma avail_bounds q : queue_ok q -> 0 <= cq_avail_data q < cq_size q.
Proof.
  intros Hq. rewrite avail_mod by done. pose proof (size_bounds q Hq).
  apply Z.mod_pos_bound. lia.
Qed.

Lemma free_space_avail q : queue_ok q -> cq_free_space q = cq_size q - 1 - cq_avail_data q.
Proof.
  intros Hq. pose proof (size_bounds q Hq). pose proof (avail_bounds q Hq).
  unfold cq_free_space. rewrite u64_small by lia. rewrite s32_small; lia.
Qed.

Lemma next_mod q i : queue_ok q -> 0 <= i < cq_size q -> cq_next q i = (i + 1) mod cq_size q.
Proof.
  intros Hq Hi. pose proof (size_bounds q Hq). unfold cq_next.
  rewrite (s32_small (i + 1)), u64_small by lia. apply s32_small.
  pose proof (Z.mod_pos_bound (i + 1) (cq_size q)). lia.
Qed.

Lemma length_ring {A} (f : Z -> A) q : queue_ok q -> lenZ (ring f q) = cq_avail_data q.
Proof.
  intros Hq. pose proof (avail_bounds q Hq). unfold lenZ, ring.
  rewrite length_fmap, length_seqZ. lia.
Qed.

(** The index after [i] in the ring, without the modulus *)
Lemma mod_next i n : 0 <= i < n ->
  (i + 1 < n /\ (i + 1) mod n = i + 1) \/ (i + 1 = n /\ (i + 1) mod n = 0).
Proof.
  intros Hi. destruct (decide (i + 1 < n)).
  - left. by rewrite Z.mod_small by lia.
  - right. assert (i + 1 = n) as -> by lia. by rewrite Z.mod_same by lia.
Qed.

Lemma mod_diff h t n : 0 <= h < n -> 0 <= t < n ->
  (t <= h /\ (h - t) mod n = h - t) \/ (h < t /\ (h - t) mod n = h - t + n).
Proof.
  intros Hh Ht. destruct (decide (t <= h)).
  - left. by rewrite Z.mod_small by lia.
  - right. split; [lia|]. rewrite <- (Z.mod_add _ 1), Z.mod_small by lia. lia.
Qed.

Lemma mod_sum i k n : 0 <= i < n -> 0 <= k < n ->
  (i + k < n /\ (i + k) mod n = i + k) \/ (n <= i + k /\ (i + k) mod n = i + k - n).
Proof.
  intros Hi Hk. destruct (decide (i + k < n)).
  - left. by rewrite Z.mod_small by lia.
  - right. split; [lia|]. rewrite <- (Z.mod_add _ (-1)), Z.mod_small by lia. lia.
Qed.

(** Nothing is read at [head]: elements written there do not show. *)
Lemma ring_ext {A} (f g : Z -> A) q q' : queue_ok q ->
  cq_head q' = cq_head q -> cq_tail q' = cq_tail q -> cq_size q' = cq_size q ->
  (forall i, 0 <= i < cq_size q -> i <> cq_head q -> f i = g i) ->
  ring f q' = ring g q.
Proof.
  intros Hq Hh Ht Hs Hd. pose proof (avail_mod q Hq) as Ha. pose proof (size_bounds q Hq).
  pose proof (avail_bounds q Hq). destruct Hq as [_ Hhr Htr].
  unfold ring. replace (cq_avail_data q') with (cq_avail_data q)
    by (unfold cq_avail_data; congruence).
  rewrite Ht, Hs. apply list_fmap_ext. intros ? k Hk%list_elem_of_lookup_2%elem_of_seqZ.
  pose proof (mod_sum (cq_tail q) k (cq_size q)).
  pose proof (mod_diff (cq_head q) (cq_tail q) (cq_size q)). apply Hd; lia.
Qed.

(** [head = (head + 1) % size] publishes the element at [head]. *)
Lemma ring_push {A} (f : Z -> A) q : queue_ok q -> cq_free_space q <> 0 ->
  let q' := q <| cq_head := cq_next q (cq_head q) |> in
  queue_ok q' /\ ring f q' = ring f q ++ [f (cq_head q)].
Proof.
  intros Hq Hf q'. rewrite free_space_avail in Hf by done. pose proof (size_bounds q Hq).
  pose proof (avail_bounds q Hq). pose proof (avail_mod q Hq) as Ha.
  pose proof (next_mod q (cq_head q) Hq (qo_head q Hq)) as Hn.
  destruct Hq as [Hb Hh Ht] eqn:E. clear E.
  pose proof (mod_next (cq_head q) (cq_size q) Hh) as Hc.
  pose proof (mod_diff (cq_head q) (cq_tail q) (cq_size q) Hh Ht) as Hd.
  assert (queue_ok q') as Hq'.
  { split; [done| |done]. cbn. lia. }
  split; [done|]. unfold ring.
  assert (cq_avail_data q' = cq_avail_data q + 1) as ->.
  { rewrite (avail_mod q'), Ha by done. cbn [cq_head cq_tail cq_size q' set_field].
    pose proof (mod_diff (cq_next q (cq_head q)) (cq_tail q) (cq_size q)). lia. }
  rewrite seqZ_app, fmap_app by lia. cbn [cq_tail cq_size q' set_field]. f_equal.
  rewrite seqZ_cons by lia. cbn. repeat f_equal. rewrite Z.add_0_l.
  pose proof (mod_sum (cq_tail q) (cq_avail_data q) (cq_size q)). lia.
Qed.

(** [tail = (tail + 1) % size] drops the element at [tail]. *)
Lemma ring_pop {A} (f : Z -> A) q : queue_ok q -> cq_avail_data q <> 0 ->
  let q' := q <| cq_tail := cq_next q (cq_tail q) |> in
  queue_ok q' /\ ring f q = f (cq_tail q) :: ring f q'.
Proof.
  intros Hq Hf q'. pose proof (size_bounds q Hq).
  pose proof (avail_bounds q Hq). pose proof (avail_mod q Hq) as Ha.
  pose proof (next_mod q (cq_tail q) Hq (qo_tail q Hq)) as Hn.
  destruct Hq as [Hb Hh Ht] eqn:E. clear E.
  pose proof (mod_next (cq_tail q) (cq_size q) Ht) as Hc.
  pose proof (mod_diff (cq_head q) (cq_tail q) (cq_size q) Hh Ht) as Hd.
  assert (queue_ok q') as Hq'.
  { split; [done|done|]. cbn. lia. }
  split; [done|]. unfold ring.
  assert (cq_avail_data q' = cq_avail_data q - 1) as ->.
  { rewrite (avail_mod q'), Ha by done. cbn [cq_head cq_tail cq_size q' set_field].
    pose proof (mod_diff (cq_head q) (cq_next q (cq_tail q)) (cq_size q)). lia. }
  rewrite seqZ_cons by lia. cbn [fmap list_fmap].
  rewrite Z.add_0_r, Z.mod_small by lia. f_equal.
  change (Z.succ 0) with (1 + 0). rewrite <- fmap_add_seqZ, <- list_fmap_compose.
  change (Z.pred (cq_avail_data q)) with (cq_avail_data q - 1). apply list_fmap_ext. intros ? k Hk%list_elem_of_lookup_2%elem_of_seqZ. cbn.
  rewrite Hn. f_equal. rewrite Z.add_mod_idemp_l by lia. f_equal. lia.
Qed.

(** The lock and the elements have no part in the arithmetic. *)
Section same.
Context (q q' : circular_queue).
Hypothesis same_head : cq_head q' = cq_head q.
Hypothesis same_tail : cq_tail q' = cq_tail q.
Hypothesis same_size : cq_size q' = cq_size q.

Lemma avail_same : cq_avail_data q' = cq_avail_data q.
Proof. unfold cq_avail_data. congruence. Qed.

Lemma free_same : cq_free_space q' = cq_free_space q.
Proof. unfold cq_free_space. rewrite avail_same. congruence. Qed.

Lemma ok_same : queue_ok q -> queue_ok q'.
Proof. intros [H1 H2 H3]. split; congruence || by rewrite same_size. Qed.

Lemma contents_same : cq_data q' = cq_data q -> contents q' = contents q.
Proof. intros E. unfold contents, ring. by rewrite avail_same, same_tail, same_size, E. Qed.
End same.

(** ** Packets in a queue *)

Lemma nthZ_packet m i k : nthZ (packet_at m i) k =
  if decide (0 <= k < PKT_WORDS) then Some (load_word m i k) else None.
Proof.
  unfold packet_at. rewrite nthZ_fmap. unfold nthZ. case_decide.
  - rewrite (proj2 (Z.leb_le 0 k)) by lia.
    rewrite (proj2 (lookup_seqZ 0 PKT_WORDS (Z.to_nat k) k)); [done|]. unfold PKT_WORDS in *. lia.
  - destruct (Z.leb_spec 0 k); [|done]. rewrite lookup_seqZ_ge; [done|]. unfold PKT_WORDS in *. lia.
Qed.

Lemma lenZ_packet m i : lenZ (packet_at m i) = PKT_WORDS.
Proof. unfold packet_at, lenZ. rewrite length_fmap, length_seqZ. done. Qed.

Lemma packet_set_word i k v q j : 0 <= k < PKT_WORDS ->
  packet_at (cq_data (set_word i k v q)) j =
  if decide (j = i) then updZ (packet_at (cq_data q) j) k (u64 v) else packet_at (cq_data q) j.
Proof.
  intros Hk. apply list_eq_nthZ. intros x. unfold PKT_WORDS in Hk.
  assert (forall x, 0 <= x < 10 -> load_word (cq_data (set_word i k v q)) j x =
    if decide (j = i /\ x = k) then u64 v else load_word (cq_data q) j x) as Hl.
  { intros y Hy. unfold load_word. cbn [cq_data set_word set_field]. unfold element, CQ_ELE_SIZE.
    case_decide as E; [destruct E as [-> ->]; apply load64_store64, u64_bound|].
    apply load64_store64_ne. lia. }
  rewrite nthZ_packet. unfold PKT_WORDS. destruct (decide (0 <= x < 10)).
  - rewrite Hl by lia. destruct (decide (j = i)) as [->|]; [destruct (decide (x = k)) as [->|]|].
    + rewrite decide_True by done. rewrite nthZ_updZ_eq; [done|by rewrite lenZ_packet].
    + rewrite decide_False by lia. rewrite nthZ_updZ_ne by done. by rewrite nthZ_packet, decide_True.
    + rewrite decide_False by lia. by rewrite nthZ_packet, decide_True.
  - symmetry. apply nthZ_None. destruct (decide (j = i)); rewrite ?lenZ_updZ, lenZ_packet; unfold PKT_WORDS; lia.
Qed.

Lemma ok_set_word i k v q : queue_ok q -> queue_ok (set_word i k v q).
Proof. by intros []. Qed.

(** The producer writes at [head]: the list does not change. *)
Lemma contents_set_word k v q : queue_ok q -> 0 <= k < PKT_WORDS ->
  contents (set_word (cq_head q) k v q) = contents q.
Proof.
  intros Hq Hk. apply ring_ext; try done. intros i _ Hi.
  by rewrite packet_set_word, decide_False.
Qed.

Lemma head_not_tail q : queue_ok q -> cq_avail_data q <> 0 -> cq_tail q <> cq_head q.
Proof.
  intros Hq Ha E. apply Ha. rewrite avail_mod, E, Z.sub_diag by done. done.
Qed.

(** What a reader at [tail] relies on while the producer works *)
Definition reads (q : circular_queue) (p : io_packet_t) : Prop :=
  cq_avail_data q <> 0 /\ packet_at (cq_data q) (cq_tail q) = p.

Lemma reads_set_word k v q p : queue_ok q -> 0 <= k < PKT_WORDS -> reads q p ->
  reads (set_word (cq_head q) k v q) p.
Proof.
  intros Hq Hk [Ha <-]. split; [done|]. rewrite packet_set_word by done.
  rewrite decide_False; [done|]. by apply (head_not_tail q).
Qed.

Lemma avail_contents q : queue_ok q -> cq_avail_data q <> 0 <-> contents q <> [].
Proof.
  intros Hq. pose proof (length_ring (packet_at (cq_data q)) q Hq) as Hl. fold (contents q) in Hl.
  rewrite <- Hl. destruct (contents q); unfold lenZ; cbn; split; intros; done || lia.
Qed.

(** The moves of [head] and [tail], on the list of packets *)
Definition push (q : circular_queue) : circular_queue := q <| cq_head := cq_next q (cq_head q) |>.

Definition pop (q : circular_queue) : circular_queue := q <| cq_tail := cq_next q (cq_tail q) |>.

Lemma contents_push q : queue_ok q -> cq_free_space q <> 0 ->
  queue_ok (push q) /\ contents (push q) = contents q ++ [packet_at (cq_data q) (cq_head q)].
Proof. intros Hq Hf. exact (ring_push (packet_at (cq_data q)) q Hq Hf). Qed.

Lemma contents_pop q : queue_ok q -> cq_avail_data q <> 0 ->
  queue_ok (pop q) /\ contents q = packet_at (cq_data q) (cq_tail q) :: contents (pop q).
Proof. intros Hq Hf. exact (ring_pop (packet_at (cq_data q)) q Hq Hf). Qed.

Lemma reads_push q p : queue_ok q -> cq_free_space q <> 0 -> reads q p -> reads (push q) p.
Proof.
  intros Hq Hf [Ha <-]. destruct (contents_push q Hq Hf) as [Hq' Hr].
  split; [|done]. apply avail_contents; [done|]. rewrite Hr. by destruct (contents q).
Qed.

(** What the writer at [head] relies on while the consumer works *)
Lemma free_pop q : queue_ok q -> cq_avail_data q <> 0 -> cq_free_space q <> 0 ->
  cq_free_space (pop q) <> 0.
Proof.
  intros Hq Ha Hf. destruct (contents_pop q Hq Ha) as [Hq' Hr].
  pose proof (length_ring (packet_at (cq_data q)) q Hq) as H1.
  pose proof (length_ring (packet_at (cq_data (pop q))) _ Hq') as H2.
  fold (contents q) in H1. fold (contents (pop q)) in H2. rewrite Hr in H1. unfold lenZ in *.
  cbn [length] in H1. rewrite free_space_avail in Hf by done. rewrite (free_space_avail _ Hq').
  change (cq_size (pop q)) with (cq_size q). pose proof (avail_bounds q Hq). lia.
Qed.

(** ** The byte interface

    [cq_add_data] and [cq_remove_data] use the first byte of an element. *)

Definition bytes (q : circular_queue) : list Z := ring (fun i => cq_data q (element i)) q.

Lemma store8_element m i j v :
  store8 m (element i) v (element j) = if decide (j = i) then u8 v else m (element j).
Proof.
  unfold store8, element, CQ_ELE_SIZE.
  case_decide; destruct (Z.eqb_spec (2 * 4096 * j) (2 * 4096 * i)); lia || done.
Qed.

Lemma add_data_spec q c : queue_ok q ->
  if lenZ (bytes q) =? cq_size q - 1 then cq_add_data c q = Fault Spinning
  else exists q', cq_add_data c q = Ok (1, q') /\ queue_ok q' /\ bytes q' = bytes q ++ [u8 c].
Proof.
  intros Hq. unfold bytes at 1. rewrite length_ring by done.
  pose proof (free_space_avail q Hq) as Hf. pose proof (size_bounds q Hq).
  destruct (Z.eqb_spec (cq_avail_data q) (cq_size q - 1)) as [E|E].
  - unfold cq_add_data, get, bind. rewrite (proj2 (Z.eqb_eq (cq_free_space q) 0)) by lia. done.
  - set (q1 := q <| cq_data := store8 (cq_data q) (element (cq_head q)) c |>).
    assert (queue_ok q1) as Hq1 by (by destruct Hq; split).
    destruct (ring_push (fun i => cq_data q1 (element i)) q1 Hq1) as [Hok Hr]; [rewrite (free_same q q1) by done; lia|].
    exists (q1 <| cq_head := cq_next q1 (cq_head q1) |>). split; [|split; [done|]].
    + unfold cq_add_data, get, bind. rewrite (proj2 (Z.eqb_neq (cq_free_space q) 0)) by lia.
      unfold modify. by rewrite (proj2 (Z.eqb_neq (cq_size q) 0)) by lia.
    + unfold bytes. cbn [cq_data set_field] in *. etrans; [apply Hr|]. f_equal.
      * apply ring_ext; try done. intros i _ Hi. cbn [q1 cq_data set_field].
        by rewrite store8_element, decide_False.
      * cbn [q1 cq_data cq_head set_field]. by rewrite store8_element, decide_True.
Qed.

Lemma remove_data_spec q : queue_ok q ->
  match bytes q with
  | [] => cq_remove_data q = Fault Spinning
  | b :: rest =>
      exists q', cq_remove_data q = Ok ((b, 1), q') /\ queue_ok q' /\ bytes q' = rest
  end.
Proof.
  intros Hq. pose proof (size_bounds q Hq). destruct (decide (cq_avail_data q = 0)) as [E|E].
  - unfold bytes, ring. rewrite E. cbn. unfold cq_remove_data, get, bind.
    by rewrite (proj2 (Z.eqb_eq _ _) E).
  - destruct (ring_pop (fun i => cq_data q (element i)) q Hq E) as [Hok Hr].
    unfold bytes at 1. rewrite Hr. eexists. split; [|split; [apply Hok|done]].
    unfold cq_remove_data, get, bind. rewrite (proj2 (Z.eqb_neq _ _) E).
    by rewrite (proj2 (Z.eqb_neq (cq_size q) 0)) by lia.
Qed.

(** C19: over a power-of-two size the circular queue is a bounded first-in
    first-out list of one element less than its size: [cq_add_data] appends to it
    and waits only on a full list, [cq_remove_data] takes the oldest element and
    waits only on an empty one, [cq_is_empty] tells the empty list.  [cq_is_full]
    does not tell the full one: it holds exactly of the lists of one element. *)
Theorem ring_is_fifo q c : queue_ok q ->
  (if lenZ (bytes q) =? cq_size q - 1 then cq_add_data c q = Fault Spinning
   else exists q', cq_add_data c q = Ok (1, q') /\ queue_ok q' /\ bytes q' = bytes q ++ [u8 c]) /\
  match bytes q with
  | [] => cq_remove_data q = Fault Spinning
  | b :: rest =>
      exists q', cq_remove_data q = Ok ((b, 1), q') /\ queue_ok q' /\ bytes q' = rest
  end /\
  (cq_is_empty q = true <-> bytes q = []) /\
  (cq_is_full q = true <-> lenZ (bytes q) = 1 mod cq_size q).
Proof.
  intros Hq. split_and!; [by apply add_data_spec|by apply remove_data_spec|..].
  all: pose proof (length_ring (fun i => cq_data q (element i)) q Hq) as Hl; fold (bytes q) in Hl.
  all: pose proof (size_bounds q Hq); pose proof (avail_mod q Hq) as Ha.
  all: pose proof (mod_diff _ _ _ (qo_head q Hq) (qo_tail q Hq)) as Hd.
  all: pose proof (qo_head q Hq); pose proof (qo_tail q Hq).
  - unfold cq_is_empty. rewrite Z.eqb_eq. split.
    + intros E. apply nil_length_inv. unfold lenZ in Hl. lia.
    + intros E. rewrite E in Hl. change (lenZ []) with 0 in Hl. lia.
  - unfold cq_is_full. rewrite Z.eqb_eq, s32_small, !u64_small by lia.
    pose proof (mod_next _ _ (qo_tail q Hq)). destruct (decide (cq_size q = 1)) as [E|].
    + rewrite E in *. rewrite !Z.mod_1_r in *. lia.
    + rewrite (Z.mod_small 1) by lia. lia.
Qed.

(** Three bytes through a queue of four *)
Lemma ring_is_fifo_witness :
  exists q, queue_ok q /\ bytes q = [5; 6; 7] /\ cq_is_full q = false /\
    cq_add_data 8 q = Fault Spinning.
Proof.
  pose (q := mkQueue 3 0 4 0 (fun a => 5 + a / 8192)).
  assert (queue_ok q) as Hq by (split; [exists 2; split; [lia|reflexivity]|cbn; lia|cbn; lia]).
  exists q. split; [exact Hq|]. split; [reflexivity|]. split; [reflexivity|].
  exact (proj1 (ring_is_fifo q 8 Hq)).
Defined.
