(* ===== verification/Pool.v ===== *)
(** * The thread pool of the offload proxy

    [sideloader/offload_proxy/offload_thread_pool.c]: a queue of jobs, worker
    threads that take them or sleep on a condition variable, and the calls that
    feed, grow, shrink, suspend and stop the pool.  Workers and callers interleave
    at the critical sections of the pool's mutexes.  [condmutex] is only held
    inside one critical section, so that section is one step; [queuemutex] is held
    over several by [add_job_to_pool] and by a worker that leaves, and has an
    owner in the state.  The job queue is linked through the blocks that [malloc]
    returned, from [FRONT] to [REAR]. *)

From S2P Require Import Prelude.

Inductive thread_pool_status :=
| MEMORY_UNAVAILABLE
| QUEUE_LOCK_FAILED
| QUEUE_UNLOCK_FAILED
| SIGNALLING_FAILED
| BROADCASTING_FAILED
| COND_WAIT_FAILED
| THREAD_CREATION_FAILED
| POOL_NOT_INITIALIZED
| POOL_STOPPED
| INVALID_NUMBER
| WAIT_ISSUED
| COMPLETED.

Section pool.
(** A job's arguments, and where a worker is while it runs one *)
Context {J L : Type} (enter : J -> L).

(** A worker: before its first step, at the test of the loop, at the lock of the
    queue, past it with nothing to do, in the conditional wait, woken up, in a
    job, leaving with [queuemutex] held, gone on request, gone with the pool. *)
Inductive worker :=
| Starting
| Top
| Locking
| Idle
| Sleeping
| Woken
| Running (l : L)
| Leaving
| Removed
| Exited.

(** The thread in [wait_to_complete]: none, past [run = 2], past the test, in
    the wait, signalled. *)
Inductive waiter :=
| NoWaiter
| WaitTest
| WaitLock
| WaitSleep
| WaitDone.

(** Who holds [queuemutex]: the thread in [add_job_to_pool] with the job
    inserted, the same about to signal, a worker that leaves. *)
Inductive queue_owner :=
| Inserted
| Signalling
| Leaver (i : Z).

(** [job_nodes] are the blocks of type [job_t] that are allocated, with their arguments
    and [next]; [present_job] is that variable of each worker that runs a job;
    [creating] counts the threads that [add_threads_to_pool] has announced and not
    yet created; [added] and [started] record the jobs in the order in which they
    were inserted and taken. *)
Record thread_pool_t := mkPool {
  FRONT : Z;
  REAR : Z;
  job_nodes : gmap Z (J * Z);
  present_job : gmap Z Z;
  job_count : Z;
  num_threads : Z;
  remove_threads : Z;
  waiting_threads : Z;
  thread_id : Z;
  is_initialized : bool;
  suspend : bool;
  run : Z;
  queuemutex : option queue_owner;
  workers : list worker;
  waiting : waiter;
  creating : Z;
  added : list J;
  started : list J
}.

#[export] Instance eta_pool : Eta thread_pool_t := fun p =>
  mkPool (FRONT p) (REAR p) (job_nodes p) (present_job p) (job_count p) (num_threads p) (remove_threads p) (waiting_threads p)
    (thread_id p) (is_initialized p) (suspend p) (run p) (queuemutex p) (workers p)
    (waiting p) (creating p) (added p) (started p).

Definition go (i : Z) (w : worker) (p : thread_pool_t) : thread_pool_t :=
  p <| workers := updZ (workers p) i w |>.

Definition queue_free (p : thread_pool_t) : bool :=
  match queuemutex p with None => true | Some _ => false end.

(** ** [thread_executor] *)

(** The section under [queuemutex] at the top of the loop *)
Definition take_job (i : Z) (p : thread_pool_t) : thread_pool_t :=
  if 0 <? remove_threads p then
    go i Leaving (p <| queuemutex := Some (Leaver i) |>
                    <| num_threads := u64 (num_threads p - 1) |>)
  else
    if (FRONT p =? 0) || suspend p then go i Idle p
    else
      match job_nodes p !! FRONT p with
      | Some (j, next) =>
          go i (Running (enter j))
            (p <| present_job := <[i := FRONT p]> (present_job p) |>
               <| FRONT := next |> <| job_count := u64 (job_count p - 1) |>
               <| REAR := if next =? 0 then 0 else REAR p |>
               <| started := started p ++ [j] |>)
      | None => p
      end.

(** The section under [condmutex] that ends in the wait *)
Definition go_to_sleep (i : Z) (p : thread_pool_t) : thread_pool_t :=
  let p := p <| waiting_threads := u64 (waiting_threads p + 1) |> in
  go i Sleeping
    (if negb (suspend p) && (waiting_threads p =? num_threads p) then
       if is_initialized p then
         match waiting p with
         | WaitSleep => p <| waiting := WaitDone |>
         | _ => p
         end
       else p <| is_initialized := true |>
     else p).

Definition thread_executor (i : Z) (p : thread_pool_t) : thread_pool_t :=
  match nthZ (workers p) i with
  | Some Starting =>
      if queue_free p then go i Top (p <| thread_id := u64 (thread_id p + 1) |>) else p
  | Some Top => if run p =? 0 then go i Exited p else go i Locking p
  | Some Locking => if queue_free p then take_job i p else p
  | Some Idle => go_to_sleep i p
  | Some Woken =>
      go i Top (if 0 <? waiting_threads p
                then p <| waiting_threads := u64 (waiting_threads p - 1) |> else p)
  | Some Leaving =>
      go i Removed
        (if run p =? 0 then p
         else p <| remove_threads := u64 (remove_threads p - 1) |> <| queuemutex := None |>)
  | _ => p
  end.

(** The job's function returns, and its block is freed. *)
Definition job_return (i : Z) (p : thread_pool_t) : thread_pool_t :=
  match nthZ (workers p) i, present_job p !! i with
  | Some (Running _), Some a =>
      go i Top (p <| job_nodes := delete a (job_nodes p) |> <| present_job := delete i (present_job p) |>)
  | _, _ => p
  end.

(** [pthread_cond_signal], or a wake-up without one, reaches worker [i]. *)
Definition wake (i : Z) (p : thread_pool_t) : thread_pool_t :=
  match nthZ (workers p) i with
  | Some Sleeping => go i Woken p
  | _ => p
  end.

Definition broadcast (p : thread_pool_t) : thread_pool_t :=
  p <| workers := (fun w => match w with Sleeping => Woken | _ => w end) <$> workers p |>.

(** ** The calls *)

(** The checks of [add_threads_to_pool] and the speculative increment *)
Definition add_threads_to_pool (threads : Z) (p : thread_pool_t) : thread_pool_status * thread_pool_t :=
  if run p =? 0 then (POOL_STOPPED, p)
  else if threads <? 1 then (INVALID_NUMBER, p)
  else (COMPLETED, p <| num_threads := u64 (num_threads p + threads) |>
                     <| creating := creating p + threads |>).

(** One round of its loop; [created] is what [pthread_create] answers. *)
Definition add_thread (created : bool) (p : thread_pool_t) : thread_pool_status * thread_pool_t :=
  if creating p =? 0 then (COMPLETED, p)
  else
    let p := p <| creating := creating p - 1 |> in
    if created then (COMPLETED, p <| workers := workers p ++ [Starting] |>)
    else (THREAD_CREATION_FAILED, p <| num_threads := u64 (num_threads p - 1) |>).

(** [create_pool] up to its wait for [is_initialized] *)
Definition create_pool (threads : Z) : thread_pool_t :=
  let p := mkPool 0 0 ∅ ∅ 0 0 0 0 0 false false 1 None [] NoWaiter 0 [] [] in
  if threads <? 1 then p <| is_initialized := true |> else snd (add_threads_to_pool threads p).

(** The signal that follows is a [wake] of some worker. *)
Definition remove_thread_from_pool (p : thread_pool_t) : thread_pool_t :=
  if negb (is_initialized p) then p
  else if run p =? 0 then p
  else if queue_free p then p <| remove_threads := u64 (remove_threads p + 1) |>
  else p.

(** [malloc] returns an address that is not in use. *)
Definition malloc_job (p : thread_pool_t) : Z := fresh ({[ 0 ]} ∪ dom (job_nodes p)).

(** [REAR->next = new_job], or the first job *)
Definition insert_job (new_job : Z) (j : J) (p : thread_pool_t) : thread_pool_t :=
  let p := p <| job_nodes := <[new_job := (j, 0)]> (job_nodes p) |> in
  (if FRONT p =? 0 then p <| FRONT := new_job |>
   else p <| job_nodes := alter (fun n => (fst n, new_job)) (REAR p) (job_nodes p) |>)
  <| REAR := new_job |>.

(** [add_job_to_pool] up to the insertion: [None] while it waits for the queue.
    [memory] is whether [malloc] finds room. *)
Definition add_job_to_pool (memory : bool) (j : J) (p : thread_pool_t) :
    option thread_pool_status * thread_pool_t :=
  if negb (is_initialized p) then (Some POOL_NOT_INITIALIZED, p)
  else if run p =? 0 then (Some POOL_STOPPED, p)
  else if run p =? 2 then (Some WAIT_ISSUED, p)
  else if negb memory then (Some MEMORY_UNAVAILABLE, p)
  else if queue_free p then
    (Some COMPLETED,
     insert_job (malloc_job p) j p <| job_count := u64 (job_count p + 1) |>
       <| added := added p ++ [j] |> <| queuemutex := Some Inserted |>)
  else (None, p).

(** Its test of [waiting_threads] and its signal, which wakes [w] if it sleeps *)
Definition add_job_notify (w : Z) (p : thread_pool_t) : thread_pool_t :=
  match queuemutex p with
  | Some Inserted =>
      p <| queuemutex := if 0 <? waiting_threads p then Some Signalling else None |>
  | Some Signalling => wake w p <| queuemutex := None |>
  | _ => p
  end.

Definition wait_to_complete (p : thread_pool_t) : thread_pool_t :=
  match waiting p with
  | NoWaiter =>
      if negb (is_initialized p) then p
      else if run p =? 0 then p
      else p <| run := 2 |> <| waiting := WaitTest |>
  | WaitTest =>
      if num_threads p =? waiting_threads p then p <| run := 1 |> <| waiting := NoWaiter |>
      else p <| waiting := WaitLock |>
  | WaitLock => p <| waiting := WaitSleep |>
  | WaitSleep => p
  | WaitDone => p <| run := 1 |> <| waiting := NoWaiter |>
  end.

(** [suspend_pool] then polls until [suspended]. *)
Definition suspend_pool (p : thread_pool_t) : thread_pool_t :=
  if negb (is_initialized p) || (run p =? 0) || suspend p then p
  else if queue_free p then p <| suspend := true |> else p.

Definition suspended (p : thread_pool_t) : bool := negb (waiting_threads p <? num_threads p).

Definition resume_pool (p : thread_pool_t) : thread_pool_t :=
  if negb (is_initialized p) || (run p =? 0) || negb (suspend p) then p
  else broadcast (p <| suspend := false |>).

Definition get_job_count (p : thread_pool_t) : Z := job_count p.

Definition get_thread_count (p : thread_pool_t) : Z := num_threads p.

(** [destroy_pool] up to the first [pthread_join] *)
Definition destroy_pool (p : thread_pool_t) : thread_pool_t :=
  if negb (is_initialized p) then p else broadcast (p <| run := 0 |>).

(** ** Interleavings *)

Inductive pool_event :=
| PWork (i : Z)
| PReturn (i : Z)
| PWake (i : Z)
| PThreads (n : Z)
| PThread (created : bool)
| PRemove
| PAdd (memory : bool) (j : J)
| PNotify (w : Z)
| PWait
| PSuspend
| PResume
| PDestroy.

Definition pool_step (p : thread_pool_t) (e : pool_event) : thread_pool_t :=
  match e with
  | PWork i => thread_executor i p
  | PReturn i => job_return i p
  | PWake i => wake i p
  | PThreads n => snd (add_threads_to_pool n p)
  | PThread created => snd (add_thread created p)
  | PRemove => remove_thread_from_pool p
  | PAdd memory j => snd (add_job_to_pool memory j p)
  | PNotify w => add_job_notify w p
  | PWait => wait_to_complete p
  | PSuspend => suspend_pool p
  | PResume => resume_pool p
  | PDestroy => destroy_pool p
  end.

Definition pool_run (es : list pool_event) (p : thread_pool_t) : thread_pool_t :=
  fold_left pool_step es p.

(** ** The job queue *)

(** The jobs from block [a] on, of at most [n] *)
Fixpoint follow (n : nat) (h : gmap Z (J * Z)) (a : Z) : list J :=
  match n with
  | O => []
  | S n' =>
      if a =? 0 then []
      else match h !! a with Some (j, next) => j :: follow n' h next | None => [] end
  end.

Definition jobs (p : thread_pool_t) : list J := follow (size (job_nodes p)) (job_nodes p) (FRONT p).

(** From [a] on, the blocks [ns] hold the jobs [js]. *)
Fixpoint chain (h : gmap Z (J * Z)) (a : Z) (ns : list Z) (js : list J) : Prop :=
  match ns, js with
  | [], [] => a = 0
  | n :: ns, j :: js => a = n /\ n <> 0 /\ exists next, h !! n = Some (j, next) /\ chain h next ns js
  | _, _ => False
  end.

(** The queue is linked from [FRONT] to [REAR], and no worker has one of its blocks. *)
Record queued (p : thread_pool_t) (ns : list Z) (js : list J) : Prop := {
  qd_chain : chain (job_nodes p) (FRONT p) ns js;
  qd_nodup : NoDup ns;
  qd_rear : REAR p = default 0 (last ns);
  qd_present i a : present_job p !! i = Some a -> a ∈ dom (job_nodes p) /\ a ∉ ns;
  qd_one i i' a : present_job p !! i = Some a -> present_job p !! i' = Some a -> i = i';
  qd_running i l : nthZ (workers p) i = Some (Running l) -> is_Some (present_job p !! i)
}.

Definition linked (p : thread_pool_t) : Prop := exists ns js, queued p ns js.

Lemma chain_dom h ns : forall a js, chain h a ns js -> forall n, n ∈ ns -> n ∈ dom h.
Proof.
  induction ns as [|n ns IH]; intros a js Hc x Hx; [by apply elem_of_nil in Hx|].
  destruct js as [|j js]; [done|]. destruct Hc as (_ & _ & next & Hn & Hc).
  apply elem_of_cons in Hx as [->|Hx]; [by eapply elem_of_dom_2|by eapply IH].
Qed.

Lemma chain_ext h h' ns : forall a js, (forall n, n ∈ ns -> h' !! n = h !! n) -> chain h a ns js -> chain h' a ns js.
Proof.
  induction ns as [|n ns IH]; intros a js Hh Hc; destruct js as [|j js]; try done.
  destruct Hc as (-> & Hn & next & Hx & Hc). split_and!; [done|done|]. exists next. split.
  - rewrite Hh; [done|by left].
  - apply IH; [|done]. intros x Hx'. apply Hh. by right.
Qed.

Lemma follow_chain h ns : forall k a js, chain h a ns js -> (length ns <= k)%nat -> follow k h a = js.
Proof.
  induction ns as [|n ns IH]; intros k a js Hc Hk; destruct js as [|j js]; try done.
  - cbn in Hc. subst a. by destruct k.
  - destruct Hc as (-> & Hn & next & Hx & Hc). destruct k as [|k]; [cbn in Hk; lia|]. cbn [follow].
    rewrite (proj2 (Z.eqb_neq _ _) Hn), Hx. f_equal. apply IH; [done|cbn in Hk; lia].
Qed.

Lemma queued_jobs p ns js : queued p ns js -> jobs p = js.
Proof.
  intros [Hc Hnd _ _ _ _]. eapply follow_chain; [exact Hc|]. rewrite <- size_dom, <- (size_list_to_set (C := gset Z) ns Hnd).
  apply subseteq_size. intros n Hn%elem_of_list_to_set. by eapply chain_dom.
Qed.

(** The last block gets a successor. *)
Lemma chain_snoc h new j ns : forall a js, chain h a ns js -> NoDup ns -> ns <> [] -> new <> 0 -> new ∉ dom h ->
  chain (alter (fun n => (fst n, new)) (default 0 (last ns)) (<[new := (j, 0)]> h)) a (ns ++ [new]) (js ++ [j]).
Proof.
  induction ns as [|n ns IH]; intros a js Hc Hnd Hne Hnew Hdom; [done|]. destruct js as [|x js]; [done|].
  assert (n <> new) as Hnn by (intros ->; by eapply Hdom, (chain_dom _ (new :: ns)); [exact Hc|left]).
  destruct Hc as (-> & Hn & next & Hx & Hc). apply NoDup_cons in Hnd as [Hni Hnd].
  split_and!; [done|done|]. destruct ns as [|m ns].
  - destruct js; [|done]. cbn in Hc. subst next. exists new. cbn [last default from_option id].
    rewrite lookup_alter_eq, lookup_insert_ne, Hx by done. split; [done|]. split_and!; [done|done|].
    exists 0. by rewrite lookup_alter_ne, lookup_insert_eq.
  - exists next. change (last (n :: m :: ns)) with (last (m :: ns)).
    assert (default 0 (last (m :: ns)) ∈ m :: ns) as Hl.
    { destruct (last (m :: ns)) as [y|] eqn:E; [by apply last_Some_elem_of in E|by apply last_None in E]. }
    split; [|by apply IH]. rewrite lookup_alter_ne, lookup_insert_ne by (done || (intros E; by rewrite E in Hl)). done.
Qed.

Lemma queued_insert p ns js j : queued p ns js -> exists ns', queued (insert_job (malloc_job p) j p) ns' (js ++ [j]).
Proof.
  clear enter. intros [Hc Hnd Hr Hp Ho Hw].
  pose proof (is_fresh ({[ 0 ]} ∪ dom (job_nodes p))) as Hf. fold (malloc_job p) in Hf. set (new := malloc_job p) in *.
  assert (new <> 0 /\ new ∉ dom (job_nodes p)) as [Hnew Hdom] by set_solver.
  assert (new ∉ ns) as Hns by (intros ?; by eapply Hdom, chain_dom).
  exists (ns ++ [new]). assert (NoDup (ns ++ [new])) as Hnd'.
  { apply NoDup_app. split_and!; [done|set_solver|apply NoDup_singleton]. }
  assert (forall h' : gmap Z (J * Z), dom h' = {[ new ]} ∪ dom (job_nodes p) -> forall i a, present_job p !! i = Some a ->
    a ∈ dom h' /\ a ∉ ns ++ [new]) as Hp'.
  { intros h' -> i a [Ha Hn]%Hp. set_solver. }
  unfold insert_job. destruct ns as [|n ns].
  - destruct js; [|done]. cbn in Hc. cbn [FRONT set_field]. rewrite Hc. cbn [Z.eqb].
    split; cbn; try done; [|by apply Hp'; rewrite dom_insert_L].
    split_and!; [done|done|]. exists 0. by rewrite lookup_insert_eq.
  - assert (FRONT p <> 0) as Hfr by (destruct js; [done|]; by destruct Hc as (-> & ? & _)).
    cbn [FRONT set_field]. rewrite (proj2 (Z.eqb_neq _ _) Hfr).
    split; cbn [FRONT REAR job_nodes present_job workers set_field]; try done.
    + rewrite Hr. by apply chain_snoc.
    + by rewrite last_snoc.
    + apply Hp'. by rewrite dom_alter_L, dom_insert_L.
Qed.

Lemma queued_front p ns js : queued p ns js -> FRONT p <> 0 -> exists ns' j js' next,
  ns = FRONT p :: ns' /\ js = j :: js' /\ job_nodes p !! FRONT p = Some (j, next) /\ chain (job_nodes p) next ns' js'.
Proof.
  intros Hq Hf. pose proof (qd_chain _ _ _ Hq) as Hc. destruct ns as [|n ns], js as [|j js]; try done.
  destruct Hc as (E & _ & next & Hn & Hc). exists ns, j, js, next. by rewrite E.
Qed.

(** What is kept when the queue and the workers' jobs are *)
Lemma queued_same p p' ns js : queued p ns js -> FRONT p' = FRONT p -> REAR p' = REAR p ->
  job_nodes p' = job_nodes p -> present_job p' = present_job p ->
  (forall i l, nthZ (workers p') i = Some (Running l) -> exists l', nthZ (workers p) i = Some (Running l')) ->
  queued p' ns js.
Proof.
  intros [Hc Hnd Hr Hp Ho Hw] Ef Er En Ep Ew. split; rewrite ?Ef, ?Er, ?En, ?Ep; try done.
  intros i l (l' & Hl)%Ew. by eapply Hw.
Qed.

Lemma running_go i w (p : thread_pool_t) k l : nthZ (updZ (workers p) i w) k = Some (Running l) ->
  (k = i /\ w = Running l) \/ (k <> i /\ nthZ (workers p) k = Some (Running l)).
Proof.
  rewrite nthZ_updZ. case_decide as E; [destruct E as [-> _]; intros [= ->]; by left|].
  intros Hk. right. split; [|done]. intros ->. apply E. split; [done|]. by eapply nthZ_Some_range.
Qed.

Lemma queued_go p ns js i w w' : queued p ns js -> nthZ (workers p) i = Some w ->
  (forall l, w' = Running l -> exists l', w = Running l') -> queued (go i w' p) ns js.
Proof.
  intros Hq Hi Hw. apply (queued_same p); try done. intros k l [[-> E]|[_ Hk]]%running_go; [|by exists l].
  destruct (Hw l E) as [l' ->]. by exists l'.
Qed.

Lemma queued_take p ns js i l j next : queued p ns js -> FRONT p <> 0 -> job_nodes p !! FRONT p = Some (j, next) ->
  exists ns' js', js = j :: js' /\
  queued (go i (Running l) (p <| present_job := <[i := FRONT p]> (present_job p) |> <| FRONT := next |>
     <| REAR := if next =? 0 then 0 else REAR p |>)) ns' js'.
Proof.
  clear enter. intros Hq Hf Hn. destruct (queued_front _ _ _ Hq Hf) as (ns' & j' & js' & next' & -> & -> & Hn' & Hc).
  rewrite Hn in Hn'. injection Hn' as <- <-. destruct Hq as [Hc0 Hnd Hr Hp Ho Hw]. apply NoDup_cons in Hnd as [Hfn Hnd].
  exists ns', js'. split; [done|]. split; cbn [FRONT REAR job_nodes present_job workers go set_field]; try done.
  - destruct ns' as [|n ns']; destruct js' as [|x js']; try done.
    + cbn in Hc. by rewrite Hc.
    + destruct Hc as (-> & Hnz & _). rewrite (proj2 (Z.eqb_neq _ _) Hnz), Hr. done.
  - intros k a. rewrite lookup_insert. case_decide; [|intros [? ?]%Hp; set_solver]. intros [= <-].
    split; [by eapply elem_of_dom_2|done].
  - intros k k' a. rewrite !lookup_insert. do 2 case_decide; try congruence; [| |apply Ho].
    + intros [= <-] [_ []]%Hp. by left.
    + intros [_ Hx]%Hp [= <-]. destruct Hx. by left.
  - intros k x [[-> _]|[Hk Hx]]%running_go; [by rewrite lookup_insert_eq|].
    rewrite lookup_insert_ne by done. by eapply Hw.
Qed.

Lemma queued_free p ns js i a : queued p ns js -> present_job p !! i = Some a ->
  queued (go i Top (p <| job_nodes := delete a (job_nodes p) |> <| present_job := delete i (present_job p) |>)) ns js.
Proof.
  intros [Hc Hnd Hr Hp Ho Hw] Ha. destruct (Hp _ _ Ha) as [_ Hans].
  split; cbn [FRONT REAR job_nodes present_job workers go set_field]; try done.
  - eapply chain_ext; [|exact Hc]. intros n Hn. rewrite lookup_delete_ne; [done|]. by intros ->.
  - intros k b [Hk Hb]%lookup_delete_Some. destruct (Hp _ _ Hb) as [Hd Hb']. split; [|done].
    rewrite dom_delete_L. apply elem_of_difference. split; [done|]. intros ->%elem_of_singleton. by apply Hk, (Ho i k a).
  - intros k k' b [_ Hk]%lookup_delete_Some [_ Hk']%lookup_delete_Some. by apply (Ho k k' b).
  - intros k l [[_ ?]|[Hk Hl]]%running_go; [done|]. rewrite lookup_delete_ne by done. by eapply Hw.
Qed.

(** ** Counting workers *)

Definition asleep (w : worker) : bool :=
  match w with Sleeping | Woken => true | _ => false end.

Definition counted (w : worker) : bool :=
  match w with Leaving | Removed => false | _ => true end.

Definition count (P : worker -> bool) (ws : list worker) : Z :=
  lenZ (ws ≫= fun w => if P w then [tt] else []).

Lemma count_app P ws ws' : count P (ws ++ ws') = count P ws + count P ws'.
Proof. unfold count. by rewrite bind_app, lenZ_app. Qed.

Lemma count_bound P ws : 0 <= count P ws <= lenZ ws.
Proof.
  induction ws as [|w ws IH]; [done|]. change (w :: ws) with ([w] ++ ws).
  rewrite count_app, lenZ_app. change (lenZ [w]) with 1.
  assert (0 <= count P [w] <= 1) by (unfold count; cbn; by destruct (P w)). lia.
Qed.

Lemma count_updZ P ws i w w' : nthZ ws i = Some w ->
  count P (updZ ws i w') = count P ws - Z.b2z (P w) + Z.b2z (P w').
Proof.
  intros Hi. destruct (bind_updZ (fun w => if P w then [tt] else []) ws i w Hi) as (rest & H1 & H2).
  unfold count, lenZ. rewrite H1, (H2 w'), !length_app. destruct (P w), (P w'); cbn; lia.
Qed.

Lemma count_broadcast P p : (P Sleeping = P Woken) ->
  count P (workers (broadcast p)) = count P (workers p).
Proof.
  intros E. cbn. unfold count. f_equal.
  induction (workers p) as [|w ws IH]; [done|]. cbn in *. f_equal; [|done]. by destruct w; rewrite ?E.
Qed.

(** The jobs taken and waiting are those added, in this order. *)
Definition jobs_ok (p : thread_pool_t) : Prop :=
  exists ns js, queued p ns js /\ added p = started p ++ js /\ job_count p = u64 (lenZ js).

Lemma jobs_ok_same p p' : jobs_ok p -> FRONT p' = FRONT p -> REAR p' = REAR p -> job_nodes p' = job_nodes p ->
  present_job p' = present_job p -> job_count p' = job_count p -> added p' = added p -> started p' = started p ->
  (forall i l, nthZ (workers p') i = Some (Running l) -> exists l', nthZ (workers p) i = Some (Running l')) ->
  jobs_ok p'.
Proof.
  intros (ns & js & Hq & Ha & Hc) ? ? ? ? Ec Ea Es ?. exists ns, js. rewrite Ec, Ea, Es. split; [|done].
  by apply (queued_same p).
Qed.

(** The jobs and the counters are right as long as these do not wrap around. *)
Record pool_inv (p : thread_pool_t) : Prop := {
  pi_jobs : jobs_ok p;
  pi_waiting : waiting_threads p = count asleep (workers p);
  pi_threads : num_threads p = u64 (count counted (workers p) + creating p)
}.

Lemma u64_add_l a b : u64 (u64 a + b) = u64 (a + b).
Proof. unfold u64. by rewrite Z.add_mod_idemp_l. Qed.

Lemma u64_sub_l a b : u64 (u64 a - b) = u64 (a - b).
Proof. unfold u64. by rewrite Zminus_mod_idemp_l. Qed.

Definition runs (w : worker) : bool := match w with Running _ => true | _ => false end.

(** Nobody starts a job. *)
Lemma runs_updZ i w (p : thread_pool_t) : runs w = false ->
  forall k l, nthZ (updZ (workers p) i w) k = Some (Running l) -> exists l', nthZ (workers p) k = Some (Running l').
Proof. intros Hw k l [[_ ->]|[_ Hk]]%running_go; [done|by exists l]. Qed.

(** A worker moves without touching the counters. *)
Lemma inv_go i w w' p : nthZ (workers p) i = Some w -> runs w' = false ->
  asleep w' = asleep w -> counted w' = counted w -> pool_inv p -> pool_inv (go i w' p).
Proof.
  intros Hi Hr Ha Hc [H1 H3 H4]. split.
  - eapply jobs_ok_same; [exact H1|done..|]. by apply (runs_updZ i _ p).
  - cbn. erewrite count_updZ by done. rewrite Ha. lia.
  - cbn. erewrite count_updZ by done. rewrite Hc, H4. f_equal. lia.
Qed.

Lemma inv_take_job i p : nthZ (workers p) i = Some Locking -> pool_inv p -> pool_inv (take_job i p).
Proof.
  intros Hi Hp. unfold take_job. destruct (0 <? remove_threads p).
  - destruct Hp as [H1 H3 H4]. split.
    + eapply jobs_ok_same; [exact H1|done..|]. by apply (runs_updZ i _ p).
    + cbn. erewrite count_updZ by done. cbn. lia.
    + cbn. erewrite count_updZ by done. cbn. rewrite H4, u64_sub_l. f_equal. lia.
  - destruct (Z.eqb_spec (FRONT p) 0) as [E|Hf]; [by eapply inv_go|]. destruct (suspend p); [by eapply inv_go|].
    cbn [orb]. destruct (job_nodes p !! FRONT p) as [[j next]|] eqn:Hn; [|done].
    destruct Hp as [(ns & js & Hq & Ha & Hc) H3 H4].
    destruct (queued_take p ns js i (enter j) j next Hq Hf Hn) as (ns' & js' & -> & Hq'). split.
    + exists ns', js'. split; [by eapply (queued_same _ _ _ _ Hq'); [done..|]; eauto|]. cbn. split.
      * by rewrite Ha, <- app_assoc.
      * rewrite Hc, u64_sub_l. f_equal. unfold lenZ. cbn. lia.
    + cbn. erewrite count_updZ by done. cbn. lia.
    + cbn. erewrite count_updZ by done. cbn. rewrite H4. f_equal. lia.
Qed.

(** Neither the queue nor the workers nor the counters change. *)
Lemma inv_same p p' : pool_inv p -> FRONT p' = FRONT p -> REAR p' = REAR p -> job_nodes p' = job_nodes p ->
  present_job p' = present_job p -> job_count p' = job_count p -> added p' = added p -> started p' = started p ->
  workers p' = workers p -> waiting_threads p' = waiting_threads p -> num_threads p' = num_threads p ->
  creating p' = creating p -> pool_inv p'.
Proof.
  intros [H1 H3 H4] ? ? ? ? ? ? ? Ew E1 E2 E3. split; [|by rewrite E1, Ew|by rewrite E2, E3, Ew].
  eapply jobs_ok_same; [exact H1|done..|]. rewrite Ew. eauto.
Qed.

Lemma inv_go_to_sleep i p : nthZ (workers p) i = Some Idle -> lenZ (workers p) < 2 ^ 64 ->
  pool_inv p -> pool_inv (go_to_sleep i p).
Proof.
  intros Hi Hl Hp. unfold go_to_sleep.
  set (p1 := p <| waiting_threads := u64 (waiting_threads p + 1) |>).
  assert (pool_inv (go i Sleeping p1)) as Hp1.
  { destruct Hp as [H1 H3 H4]. pose proof (count_bound asleep (updZ (workers p) i Sleeping)) as Hb.
    rewrite lenZ_updZ in Hb. split; [eapply jobs_ok_same; [exact H1|done..|]; by apply (runs_updZ i _ p)|..];
      cbn; erewrite count_updZ in * by done; cbn in *.
    - rewrite H3, u64_small; lia.
    - rewrite H4. f_equal. lia. }
  destruct (_ && _); [|done]. destruct (is_initialized p1); [|by apply (inv_same _ _ Hp1)].
  destruct (waiting p1); try done. by apply (inv_same _ _ Hp1).
Qed.

Lemma inv_executor i p : pool_inv p -> lenZ (workers p) < 2 ^ 64 -> pool_inv (thread_executor i p).
Proof.
  intros Hp Hl. unfold thread_executor.
  destruct (nthZ (workers p) i) as [[]|] eqn:Hi; try done.
  - destruct (queue_free p); [|done]. eapply inv_go; [done..|]. by apply (inv_same p).
  - destruct (run p =? 0); by eapply inv_go.
  - destruct (queue_free p); [by apply inv_take_job|done].
  - by apply inv_go_to_sleep.
  - destruct Hp as [H1 H3 H4].
    assert (1 <= count asleep (workers p) < 2 ^ 64) as Hb.
    { pose proof (count_bound asleep (updZ (workers p) i Top)) as Hb.
      pose proof (count_bound asleep (workers p)). erewrite count_updZ in Hb by done. cbn in Hb. lia. }
    rewrite (proj2 (Z.ltb_lt _ _)) by lia.
    split; [eapply jobs_ok_same; [exact H1|done..|]; by apply (runs_updZ i _ p)|..]; cbn; erewrite count_updZ by done; cbn.
    + rewrite H3, u64_small; lia.
    + rewrite H4. f_equal. lia.
  - eapply inv_go; [by destruct (run p =? 0)|done..|]. destruct (run p =? 0); [done|by apply (inv_same p)].
Qed.

Lemma inv_broadcast p : pool_inv p -> pool_inv (broadcast p).
Proof.
  intros [H1 H3 H4]. split; rewrite ?count_broadcast by done; try done. eapply jobs_ok_same; [exact H1|done..|].
  intros i l. cbn. unfold nthZ. destruct (0 <=? i); [|done]. rewrite list_lookup_fmap.
  destruct (workers p !! Z.to_nat i) as [[]|]; cbn; try done. eauto.
Qed.

Lemma inv_wake i p : pool_inv p -> pool_inv (wake i p).
Proof.
  intros Hp. unfold wake. destruct (nthZ (workers p) i) as [[]|] eqn:E; try done. by eapply inv_go.
Qed.

Lemma insert_job_rest a j p : let p' := insert_job a j p in
  workers p' = workers p /\ creating p' = creating p /\ started p' = started p /\
  waiting_threads p' = waiting_threads p /\ num_threads p' = num_threads p.
Proof. unfold insert_job. by destruct (FRONT _ =? 0). Qed.

Lemma inv_add_job memory j p : pool_inv p -> pool_inv (snd (add_job_to_pool memory j p)).
Proof.
  intros [(ns & js & Hq & Ha & Hc) H3 H4]. unfold add_job_to_pool. repeat (case_match; [by split; eauto; exists ns, js|]).
  destruct (queue_free p); [|by split; eauto; exists ns, js]. destruct (queued_insert p ns js j Hq) as [ns' Hq'].
  pose proof (insert_job_rest (malloc_job p) j p) as (Ew & Ec & Es & Et & En).
  set (p1 := insert_job (malloc_job p) j p) in *. clearbody p1. split; cbn [snd].
  - exists ns', (js ++ [j]). split; [by apply (queued_same _ _ _ _ Hq'); eauto|]. cbn. rewrite Es, Hc, u64_add_l, lenZ_app.
    by rewrite Ha, app_assoc.
  - cbn. by rewrite Ew, Et.
  - cbn. by rewrite Ew, Ec, En.
Qed.

Lemma inv_threads n p : pool_inv p -> pool_inv (snd (add_threads_to_pool n p)).
Proof.
  intros [H1 H3 H4]. unfold add_threads_to_pool. repeat case_match; try done.
  split; cbn; [by eapply jobs_ok_same; eauto|done|]. rewrite H4, u64_add_l. f_equal. lia.
Qed.

Lemma running_app (p : thread_pool_t) i l : nthZ (workers p ++ [Starting]) i = Some (Running l) ->
  nthZ (workers p) i = Some (Running l).
Proof.
  destruct (decide (i < lenZ (workers p))); [by rewrite nthZ_app_l|]. rewrite nthZ_app_r by lia.
  intros Hi. pose proof (nthZ_Some_range _ _ _ Hi) as Hr.
  replace (i - lenZ (workers p)) with 0 in Hi by (unfold lenZ in *; cbn in *; lia). done.
Qed.

Lemma inv_thread created p : pool_inv p -> pool_inv (snd (add_thread created p)).
Proof.
  intros [H1 H3 H4]. unfold add_thread. repeat case_match; try done.
  - split; cbn; rewrite ?count_app.
    + eapply jobs_ok_same; [exact H1|done..|]. cbn. intros i l Hi. exists l. by apply (running_app p).
    + change (count asleep [Starting]) with 0. lia.
    + change (count counted [Starting]) with 1. rewrite H4. f_equal. lia.
  - split; cbn; [by eapply jobs_ok_same; eauto|done|]. rewrite H4, u64_sub_l. f_equal. lia.
Qed.

Lemma inv_return i p : pool_inv p -> pool_inv (job_return i p).
Proof.
  intros Hp. unfold job_return. destruct (nthZ (workers p) i) as [[]|] eqn:Hi; try done.
  destruct (present_job p !! i) as [a|] eqn:Ha; [|done]. destruct Hp as [(ns & js & Hq & Hr) H3 H4]. split.
  - exists ns, js. split; [by apply queued_free|done].
  - cbn. erewrite count_updZ by done. cbn. lia.
  - cbn. erewrite count_updZ by done. cbn. rewrite H4. f_equal. lia.
Qed.

Lemma pool_inv_step p e : pool_inv p -> lenZ (workers p) < 2 ^ 64 -> pool_inv (pool_step p e).
Proof.
  intros Hp Hl. destruct e; cbn [pool_step].
  - by apply inv_executor.
  - by apply inv_return.
  - by apply inv_wake.
  - by apply inv_threads.
  - by apply inv_thread.
  - unfold remove_thread_from_pool. repeat case_match; try done. by apply (inv_same p).
  - by apply inv_add_job.
  - unfold add_job_notify. destruct (queuemutex p) as [[]|]; try done; [by apply (inv_same p)|].
    apply (inv_wake w) in Hp. by apply (inv_same _ _ Hp).
  - unfold wait_to_complete. repeat case_match; try done; by apply (inv_same p).
  - unfold suspend_pool. repeat case_match; try done. by apply (inv_same p).
  - unfold resume_pool. repeat case_match; try done. apply inv_broadcast. by apply (inv_same p).
  - unfold destroy_pool. repeat case_match; try done. apply inv_broadcast. by apply (inv_same p).
Qed.

Lemma length_go i w p : lenZ (workers (go i w p)) = lenZ (workers p).
Proof. apply lenZ_updZ. Qed.

Lemma length_broadcast p : lenZ (workers (broadcast p)) = lenZ (workers p).
Proof. unfold broadcast, lenZ. cbn. by rewrite length_fmap. Qed.

Lemma length_executor i p : lenZ (workers (thread_executor i p)) = lenZ (workers p).
Proof.
  unfold thread_executor, take_job, go_to_sleep.
  destruct (nthZ (workers p) i) as [[]|]; repeat case_match; by rewrite ?length_go.
Qed.

Lemma workers_grow p e : lenZ (workers p) <= lenZ (workers (pool_step p e)).
Proof.
  assert (forall i, lenZ (workers (wake i p)) = lenZ (workers p)) as Hw.
  { intros i. unfold wake. repeat case_match; by rewrite ?length_go. }
  destruct e; cbn [pool_step].
  - by rewrite length_executor.
  - unfold job_return. repeat case_match; by rewrite ?length_go.
  - by rewrite Hw.
  - unfold add_threads_to_pool. by repeat case_match.
  - unfold add_thread. repeat case_match; cbn; rewrite ?lenZ_app; unfold lenZ; cbn; lia.
  - unfold remove_thread_from_pool. by repeat case_match.
  - unfold add_job_to_pool. repeat (case_match; [done|]). destruct (queue_free p); [|done]. cbn [snd].
    change (lenZ (workers p) <= lenZ (workers (insert_job (malloc_job p) j p))).
    by destruct (insert_job_rest (malloc_job p) j p) as [-> _].
  - unfold add_job_notify. destruct (queuemutex p) as [[]|]; [done| |done..].
    cbn [workers set_field]. by rewrite Hw.
  - unfold wait_to_complete. by destruct (waiting p); repeat case_match.
  - unfold suspend_pool. by repeat case_match.
  - unfold resume_pool. case_match; by rewrite ?length_broadcast.
  - unfold destroy_pool. case_match; by rewrite ?length_broadcast.
Qed.

Lemma inv_create n : pool_inv (create_pool n).
Proof.
  assert (forall b, pool_inv (mkPool 0 0 ∅ ∅ 0 0 0 0 0 b false 1 None [] NoWaiter 0 [] [])) as H0.
  { intros b. split; [|done..]. exists [], []. split; [|done]. split; try done; [constructor|..].
    - intros i l. cbn. unfold nthZ. by destruct (0 <=? i). }
  unfold create_pool. destruct (n <? 1); [apply (H0 true)|]. apply inv_threads, (H0 false).
Qed.


(** A worker finds the queue empty and lets go of [queuemutex]; the job added
    before it counts itself as waiting is not signalled. *)
Definition missed_job (j : J) : list pool_event :=
  [PThread true; PThread true] ++
  (w ← [0; 1]; [PWork w; PWork w; PWork w]) ++ [PWork 0; PWork 1] ++
  [PWake 0; PWork 0; PWork 0; PWork 0] ++ [PWake 1; PWork 1; PWork 1; PWork 1] ++
  [PAdd true j; PNotify 0; PWork 0; PWork 1].

(** A job can be left in the queue with every worker asleep: both workers of a
    pool find the queue empty, the job is added, and no signal is sent since
    neither counts as waiting yet.  No step of the workers or of the caller of
    [add_job_to_pool] then changes the pool: the job waits for the next one. *)
Theorem job_can_be_slept_on j :
  let p := pool_run (missed_job j) (create_pool 2) in
  jobs p = [j] /\ workers p = [Sleeping; Sleeping] /\ run p = 1 /\ is_initialized p = true /\
  forall e, match e with PWork _ | PReturn _ | PNotify _ => True | _ => False end ->
    pool_step p e = p.
Proof.
  intros p. split_and!; [reflexivity..|]. intros e He.
  assert (forall i, nthZ (workers p) i = Some Sleeping \/ nthZ (workers p) i = None) as Hw.
  { intros i. destruct (nthZ (workers p) i) as [w|] eqn:E; [|by right]. left.
    pose proof (nthZ_Some_range _ _ _ E) as Hr. change (0 <= i < 2) in Hr.
    rewrite <- E. by destruct (decide (i = 0)) as [->|]; [|replace i with 1 by lia]. }
  assert (queuemutex p = None) as Hq by reflexivity. clearbody p.
  destruct e; try contradiction; cbn [pool_step].
  - unfold thread_executor. by destruct (Hw i) as [-> | ->].
  - unfold job_return. by destruct (Hw i) as [-> | ->].
  - unfold add_job_notify. by rewrite Hq.
Qed.
End pool.

