(* ===== verification/Offload.v ===== *)
(** * Remote calls over an offload channel

    Kernel threads ([kernel/offload/offload_message.c]) send requests into a
    channel's outgoing queue and wait for the reply in its incoming queue.  In the
    proxy, one watch thread per channel ([offload_local_proxy.c], [offload_watch])
    copies the packets out of the first queue and hands them to the channel's
    thread pool; a worker executes the call and sends the reply
    ([offload_message.c]).  Kernel threads, watch thread and workers interleave at
    their accesses to the shared memory, one word at a time. *)

From S2P Require Import Prelude.
From S2P Require Import Utility.
From S2P Require Import Lock.
From S2P Require Import Channel.
From S2P Require Import Pool.

(** ** The two sides *)

Definition OFFLOAD_MAGIC : Z := 0x5D4C3B2A.

(** [MAGIC] of the proxy *)
Definition MAGIC : Z := 0x4D3C2B1A.

(** The function type and the six parameters of a call *)
Record request := mkRequest {
  r_type : Z; r_param1 : Z; r_param2 : Z; r_param3 : Z; r_param4 : Z; r_param5 : Z; r_param6 : Z
}.

(** A kernel thread in [send_offload_message]: at the lock of the queue, at the
    test for room, with words of the packet left to write, about to unlock after
    sending or after 1000 tests; and in [receive_offload_message]: at the lock, at
    the test for data, at the comparison of the thread id, at the read of the
    result, at the advance of [tail], about to unlock with the result, with a
    reply for another thread at the front, or after 1000 tests. *)
Inductive kpc :=
| KIdle
| KSendLock (r : request) (check_count : Z)
| KSendCheck (r : request) (check_count : Z)
| KSendFill (r : request) (todo : list (Z * Z))
| KSendUnlock (r : request)
| KSendYield (r : request) (check_count : Z)
| KRecvLock (r : request)
| KRecvCheck (r : request) (check_count : Z)
| KRecvTid (r : request)
| KRecvRet (r : request)
| KRecvTail (r : request) (v : Z)
| KRecvUnlock (r : request) (v : Z)
| KRecvMiss (r : request)
| KRecvYield (r : request).

(** A worker in a handler: at the host's call, at the channel's mutex, waiting for
    room, with words of the packet left to write, about to unlock. *)
Inductive handler_pc :=
| HRun (pkt : io_packet_t)
| HLock (pkt : io_packet_t) (v : Z)
| HWait (pkt : io_packet_t) (v : Z)
| HFill (pkt : io_packet_t) (v : Z) (todo : list (Z * Z))
| HUnlock.

(** The watch thread: in [create_pool], at the test for data, copying the packet,
    at [add_job_to_pool], inside it. *)
Inductive watch_pc :=
| WCreate
| WLook
| WCopy (acc : io_packet_t)
| WAdd (pkt : io_packet_t)
| WNotify.

(** [served] records the calls as the host executes them, [finished] the results
    as the kernel threads return them, both with the thread they are for. *)
Record offload := mkOffload {
  out_q : circular_queue;
  in_q : circular_queue;
  kthreads : gmap Z kpc;
  watch : watch_pc;
  pool : thread_pool_t (J := io_packet_t) (L := handler_pc);
  ch_mutex : option Z;
  served : list (Z * request * Z);
  finished : list (Z * request * Z)
}.

#[export] Instance eta_offload : Eta offload := fun s =>
  mkOffload (out_q s) (in_q s) (kthreads s) (watch s) (pool s) (ch_mutex s) (served s) (finished s).

Section machine.
(** [g_ukid] *)
Context (g_ukid : Z).
(** The function types that the proxy dispatches *)
Context (offloaded : Z -> bool).

(** [int offload_tid = g_ukid * 10000 + tid] *)
Definition offload_tid (tid : Z) : Z := s32 (g_ukid * 10000 + tid).

Definition is_qword (z : Z) : bool := (0 <=? z) && (z <? 2 ^ 64).

Definition request_ok (r : request) : bool :=
  offloaded (r_type r) && is_qword (r_type r) && is_qword (r_param1 r) && is_qword (r_param2 r) &&
  is_qword (r_param3 r) && is_qword (r_param4 r) && is_qword (r_param5 r) && is_qword (r_param6 r).

(** The assignments that make a request packet, in order *)
Definition request_words (tid : Z) (r : request) : list (Z * Z) :=
  [(W_MAGIC, OFFLOAD_MAGIC); (W_TID, offload_tid tid); (W_TYPE, r_type r);
   (W_PARAM 1, r_param1 r); (W_PARAM 2, r_param2 r); (W_PARAM 3, r_param3 r);
   (W_PARAM 4, r_param4 r); (W_PARAM 5, r_param5 r); (W_PARAM 6, r_param6 r)].

(** The assignments that make a reply packet *)
Definition reply_words (pkt : io_packet_t) (v : Z) : list (Z * Z) :=
  [(W_MAGIC, MAGIC); (W_TID, s32 (pkt_word pkt W_TID)); (W_TYPE, s32 (pkt_word pkt W_TYPE));
   (W_RET, v)].

Definition kgo (t : Z) (pc : kpc) (s : offload) : offload :=
  s <| kthreads := <[t := pc]> (kthreads s) |>.

(** A [spinlock_lock] that gets the lock goes on; one that does not stays. *)
Definition acquire (w : Z) : option Z :=
  match spinlock_lock w with Ok (_, w') => Some w' | Fault _ => None end.

(** [send_offload_message], one access of thread [t] *)
Definition send_offload_message (t : Z) (pc : kpc) (s : offload) : offload :=
  match pc with
  | KSendLock r c =>
      match acquire (slock (out_q s)) with
      | Some w => kgo t (KSendCheck r c) (s <| out_q := out_q s <| slock := w |> |>)
      | None => s
      end
  | KSendCheck r c =>
      if negb (cq_free_space (out_q s) =? 0) then kgo t (KSendFill r (request_words t r)) s
      else if c <? 1000 then kgo t (KSendCheck r (c + 1)) s
      else kgo t (KSendYield r c) s
  | KSendFill r ((k, v) :: todo) =>
      kgo t (KSendFill r todo) (s <| out_q := set_word (cq_head (out_q s)) k v (out_q s) |>)
  | KSendFill r [] => kgo t (KSendUnlock r) (s <| out_q := push (out_q s) |>)
  | KSendUnlock r => kgo t (KRecvLock r) (s <| out_q := out_q s <| slock := FALSE |> |>)
  | KSendYield r c => kgo t (KSendLock r c) (s <| out_q := out_q s <| slock := FALSE |> |>)
  | _ => s
  end.

(** [receive_offload_message], one access of thread [t] *)
Definition receive_offload_message (t : Z) (pc : kpc) (s : offload) : offload :=
  let unlocked := s <| in_q := in_q s <| slock := FALSE |> |> in
  match pc with
  | KRecvLock r =>
      match acquire (slock (in_q s)) with
      | Some w => kgo t (KRecvCheck r 0) (s <| in_q := in_q s <| slock := w |> |>)
      | None => s
      end
  | KRecvCheck r c =>
      if negb (cq_avail_data (in_q s) =? 0) then kgo t (KRecvTid r) s
      else if c <? 1000 then kgo t (KRecvCheck r (c + 1)) s
      else kgo t (KRecvYield r) s
  | KRecvTid r =>
      if s32 (load_word (cq_data (in_q s)) (cq_tail (in_q s)) W_TID) =? offload_tid t
      then kgo t (KRecvRet r) s else kgo t (KRecvMiss r) s
  | KRecvRet r => kgo t (KRecvTail r (load_word (cq_data (in_q s)) (cq_tail (in_q s)) W_RET)) s
  | KRecvTail r v => kgo t (KRecvUnlock r v) (s <| in_q := pop (in_q s) |>)
  | KRecvUnlock r v =>
      kgo t KIdle (unlocked <| finished := finished s ++ [(offload_tid t, r, v)] |>)
  | KRecvMiss r => kgo t (KRecvLock r) unlocked
  | KRecvYield r => kgo t (KRecvLock r) unlocked
  | _ => s
  end.

(** A kernel thread outside these calls may make one, for a function that the
    proxy knows. *)
Definition kernel_step (t : Z) (new : request) (s : offload) : offload :=
  match kthreads s !! t with
  | None => s
  | Some KIdle => if request_ok new then kgo t (KSendLock new 0) s else s
  | Some ((KSendLock _ _ | KSendCheck _ _ | KSendFill _ _ | KSendUnlock _ | KSendYield _ _) as pc) =>
      send_offload_message t pc s
  | Some pc => receive_offload_message t pc s
  end.

(** [offload_watch], one access; [memory] is whether [malloc] finds room for the
    job, [w] the worker that a signal wakes. *)
Definition offload_watch (memory : bool) (w : Z) (s : offload) : offload :=
  match watch s with
  | WCreate => if is_initialized (pool s) then s <| watch := WLook |> else s
  | WLook => if negb (cq_avail_data (out_q s) =? 0) then s <| watch := WCopy [] |> else s
  | WCopy acc =>
      if lenZ acc <? PKT_WORDS then
        s <| watch := WCopy (acc ++ [load_word (cq_data (out_q s)) (cq_tail (out_q s)) (lenZ acc)]) |>
      else s <| out_q := pop (out_q s) |> <| watch := WAdd acc |>
  | WAdd pkt =>
      match add_job_to_pool memory pkt (pool s) with
      | (None, _) | (Some WAIT_ISSUED, _) => s
      | (Some COMPLETED, p) => s <| pool := p |> <| watch := WNotify |>
      | (Some _, _) => s <| watch := WLook |>
      end
  | WNotify =>
      let p := add_job_notify w (pool s) in
      s <| pool := p |> <| watch := if queue_free p then WLook else WNotify |>
  end.

Definition hgo (i : Z) (h : handler_pc) (s : offload) : offload :=
  s <| pool := go i (Running h) (pool s) |>.

(** The call that a packet asks for *)
Definition request_of (pkt : io_packet_t) : request :=
  mkRequest (pkt_word pkt W_TYPE) (pkt_word pkt (W_PARAM 1)) (pkt_word pkt (W_PARAM 2))
    (pkt_word pkt (W_PARAM 3)) (pkt_word pkt (W_PARAM 4)) (pkt_word pkt (W_PARAM 5))
    (pkt_word pkt (W_PARAM 6)).

(** [offload_local_proxy] and its handlers, one access of worker [i]; [v] is what
    the host's call returns. *)
Definition offload_local_proxy (i : Z) (h : handler_pc) (v : Z) (s : offload) : offload :=
  match h with
  | HRun pkt =>
      if offloaded (pkt_word pkt W_TYPE) then
        hgo i (HLock pkt (u64 v))
          (s <| served := served s ++ [(s32 (pkt_word pkt W_TID), request_of pkt, u64 v)] |>)
      else s <| pool := job_return i (pool s) |>
  | HLock pkt v =>
      match ch_mutex s with
      | None => hgo i (HWait pkt v) (s <| ch_mutex := Some i |>)
      | Some _ => s
      end
  | HWait pkt v =>
      if cq_free_space (in_q s) =? 0 then s else hgo i (HFill pkt v (reply_words pkt v)) s
  | HFill pkt v ((k, x) :: todo) =>
      hgo i (HFill pkt v todo) (s <| in_q := set_word (cq_head (in_q s)) k x (in_q s) |>)
  | HFill pkt v [] => hgo i HUnlock (s <| in_q := push (in_q s) |>)
  | HUnlock => s <| pool := job_return i (pool s) |> <| ch_mutex := None |>
  end.

Inductive event :=
| EKernel (t : Z) (new : request)
| EWatch (memory : bool) (w : Z)
| EWorker (i : Z) (v : Z)
| EThread (created : bool)
| EWake (i : Z).

Definition offload_step (s : offload) (e : event) : offload :=
  match e with
  | EKernel t new => kernel_step t new s
  | EWatch memory w => offload_watch memory w s
  | EWorker i v =>
      match nthZ (workers (pool s)) i with
      | Some (Running h) => offload_local_proxy i h v s
      | _ => s <| pool := thread_executor HRun i (pool s) |>
      end
  | EThread created => s <| pool := snd (add_thread created (pool s)) |>
  | EWake i => s <| pool := wake i (pool s) |>
  end.

Definition offload_run (es : list event) (s : offload) : offload := fold_left offload_step es s.

(** Both queues from [cq_init], the locks free, the threads [tids] outside any
    call, the watch thread in [create_pool]. *)
Definition offload_start (size : Z) (mem_out mem_in : memory) (tids : gset Z) (n_workers : Z) : offload :=
  mkOffload (cq_init size (mkQueue 0 0 0 FALSE mem_out)) (cq_init size (mkQueue 0 0 0 FALSE mem_in))
    (gset_to_gmap KIdle tids) WCreate (create_pool n_workers) None [] [].

(** ** Requests and replies on their way *)

Inductive token :=
| Asked (k : Z) (r : request)
| Answered (k : Z) (v : Z).

Definition token_tid (x : token) : Z :=
  match x with Asked k _ => k | Answered k _ => k end.

Definition asked (pkt : io_packet_t) : token := Asked (s32 (pkt_word pkt W_TID)) (request_of pkt).

Definition answered (pkt : io_packet_t) : token :=
  Answered (s32 (pkt_word pkt W_TID)) (pkt_word pkt W_RET).

Definition watch_tokens (w : watch_pc) : list token :=
  match w with WAdd pkt => [asked pkt] | _ => [] end.

Definition worker_tokens (w : worker (L := handler_pc)) : list token :=
  match w with
  | Running (HRun pkt) => [asked pkt]
  | Running (HLock pkt v | HWait pkt v | HFill pkt v _) => [Answered (s32 (pkt_word pkt W_TID)) v]
  | _ => []
  end.

Definition pool_tokens (p : thread_pool_t) : list token :=
  (asked <$> jobs p) ++ (workers p ≫= worker_tokens).

(** Everything between the publication of a request and the removal of its reply *)
Definition inflight (s : offload) : list token :=
  (asked <$> contents (out_q s)) ++ watch_tokens (watch s) ++ pool_tokens (pool s) ++
  (answered <$> contents (in_q s)).
End machine.
