(* ===== verification/OffloadInv.v ===== *)
(** * Every offloaded call is executed once and answered to its caller

    The invariant of the channel machine of [Offload]: what is on its way between
    the two sides is exactly one request or one reply per kernel thread that waits
    for one, whatever the interleaving of kernel threads, watch thread and
    workers. *)

From S2P Require Import Prelude.
From S2P Require Import Utility.
From S2P Require Import Lock.
From S2P Require Import Channel.
From S2P Require Import Pool.
From S2P Require Import Offload.

(** ** Packets word by word *)

(** The packet after the assignments that are left *)
Definition assign (todo : list (Z * Z)) (p : io_packet_t) : io_packet_t :=
  foldl (fun p kv => updZ p (fst kv) (u64 (snd kv))) p todo.

Definition in_packet (kv : Z * Z) : Prop := 0 <= fst kv < PKT_WORDS.

Lemma s32_u64_s32 z : s32 (u64 (s32 z)) = s32 z.
Proof. unfold s32, u64. zdm. Qed.

Section facts.
Context (g_ukid : Z) (offloaded : Z -> bool).
Local Notation offload_tid := (offload_tid g_ukid).
Local Notation request_ok := (request_ok offloaded).

Lemma asked_request t r p : request_ok r = true -> lenZ p = PKT_WORDS ->
  asked (assign (request_words g_ukid t r) p) = Asked (offload_tid t) r.
Proof.
  intros Hr Hp. unfold PKT_WORDS in Hp.
  destruct p as [|x0 [|x1 [|x2 [|x3 [|x4 [|x5 [|x6 [|x7 [|x8 [|x9 [|]]]]]]]]]]];
    try (unfold lenZ in Hp; cbn [length] in Hp; lia).
  unfold Offload.request_ok, is_qword in Hr. rewrite !andb_true_iff, !Z.leb_le, !Z.ltb_lt in Hr.
  trans (Asked (s32 (u64 (offload_tid t)))
    (mkRequest (u64 (r_type r)) (u64 (r_param1 r)) (u64 (r_param2 r)) (u64 (r_param3 r))
       (u64 (r_param4 r)) (u64 (r_param5 r)) (u64 (r_param6 r)))); [reflexivity|].
  unfold Offload.offload_tid. rewrite s32_u64_s32, !u64_small by lia. by destruct r.
Qed.

Lemma answered_reply pkt v p : 0 <= v < 2 ^ 64 -> lenZ p = PKT_WORDS ->
  answered (assign (reply_words pkt v) p) = Answered (s32 (pkt_word pkt W_TID)) v.
Proof.
  intros Hv Hp. unfold PKT_WORDS in Hp.
  destruct p as [|x0 [|x1 [|x2 [|x3 [|x4 [|x5 [|x6 [|x7 [|x8 [|x9 [|]]]]]]]]]]];
    try (unfold lenZ in Hp; cbn [length] in Hp; lia).
  trans (Answered (s32 (u64 (s32 (pkt_word pkt W_TID)))) (u64 v)); [reflexivity|].
  rewrite s32_u64_s32. by rewrite u64_small.
Qed.

(** ** The invariant *)

(** How far the call of a kernel thread is *)
Inductive stage :=
| NotSent (r : option request)
| Waiting (r : request)
| Got (r : request) (v : Z)
| Done (r : request) (v : Z).

Definition stage_of (pc : kpc) : stage :=
  match pc with
  | KIdle => NotSent None
  | KSendLock r _ | KSendCheck r _ | KSendFill r _ | KSendYield r _ => NotSent (Some r)
  | KSendUnlock r | KRecvLock r | KRecvCheck r _ | KRecvTid r | KRecvRet r
  | KRecvMiss r | KRecvYield r => Waiting r
  | KRecvTail r v => Got r v
  | KRecvUnlock r v => Done r v
  end.

Definition calls (k : Z) (log : list (Z * request * Z)) : list (Z * request * Z) :=
  filter (fun e => fst (fst e) = k) log.

(** What is on its way for thread [t] ([m]) and what the logs hold for it *)
Definition stage_ok (t : Z) (st : stage) (m : option token) (ex fin : list (Z * request * Z)) : Prop :=
  let k := offload_tid t in
  match st with
  | NotSent r => m = None /\ ex = fin /\ (forall r', r = Some r' -> request_ok r' = true)
  | Waiting r =>
      request_ok r = true /\
      ((m = Some (Asked k r) /\ ex = fin) \/
       (exists v, m = Some (Answered k v) /\ ex = fin ++ [(k, r, v)]))
  | Got r v => m = Some (Answered k v) /\ ex = fin ++ [(k, r, v)]
  | Done r v => m = None /\ ex = fin ++ [(k, r, v)]
  end.

Definition sending (pc : kpc) : bool :=
  match pc with
  | KSendCheck _ _ | KSendFill _ _ | KSendUnlock _ | KSendYield _ _ => true
  | _ => false
  end.

Definition receiving (pc : kpc) : bool :=
  match pc with
  | KRecvCheck _ _ | KRecvTid _ | KRecvRet _ | KRecvTail _ _ | KRecvUnlock _ _
  | KRecvMiss _ | KRecvYield _ => true
  | _ => false
  end.

(** A producer with [todo] left to write into the element at [head] *)
Definition writes (q : circular_queue) (todo : list (Z * Z)) (p : io_packet_t) : Prop :=
  cq_free_space q <> 0 /\ Forall in_packet todo /\
  assign todo (packet_at (cq_data q) (cq_head q)) = p.

Definition send_fact (q : circular_queue) (t : Z) (pc : kpc) : Prop :=
  match pc with
  | KSendFill r todo => exists p, writes q todo p /\ asked p = Asked (offload_tid t) r
  | _ => True
  end.

Definition recv_fact (q : circular_queue) (t : Z) (pc : kpc) : Prop :=
  match pc with
  | KRecvTid _ => exists p, reads q p
  | KRecvRet _ => exists p, reads q p /\ s32 (pkt_word p W_TID) = offload_tid t
  | KRecvTail _ v => exists p, reads q p /\ answered p = Answered (offload_tid t) v
  | _ => True
  end.

Definition watch_fact (q : circular_queue) (w : watch_pc) : Prop :=
  match w with
  | WCopy acc => exists p, reads q p /\ acc `prefix_of` p
  | _ => True
  end.

Definition replying (h : handler_pc) : bool :=
  match h with HWait _ _ | HFill _ _ _ | HUnlock => true | _ => false end.

Definition reply_fact (q : circular_queue) (h : handler_pc) : Prop :=
  match h with
  | HFill pkt v todo => exists p, writes q todo p /\ answered p = Answered (s32 (pkt_word pkt W_TID)) v
  | HLock _ v | HWait _ v => 0 <= v < 2 ^ 64
  | _ => True
  end.

(** At most one thread is inside the section of a lock, and [fact] holds of it. *)
Definition guarded (cs : kpc -> bool) (fact : Z -> kpc -> Prop) (w : Z) (kts : gmap Z kpc) : Prop :=
  exists h : option Z, w = (if h then TRUE else FALSE) /\
    forall t pc, kts !! t = Some pc -> cs pc = true -> h = Some t /\ fact t pc.

Definition mutex_ok (q : circular_queue) (m : option Z) (ws : list (worker (L := handler_pc))) : Prop :=
  forall i h, nthZ ws i = Some (Running h) ->
    (replying h = true -> m = Some i) /\ reply_fact q h.

(** [tids] are the kernel threads, [tk] gives the request or the reply on its way
    for each that waits. *)
Record oinv (tids : gset Z) (s : offload) (tk : gmap Z token) : Prop := {
  oi_out : queue_ok (out_q s);
  oi_in : queue_ok (in_q s);
  oi_tids : dom (kthreads s) = tids;
  oi_tokens : inflight s ≡ₚ (map_to_list tk).*2;
  oi_owner t x : tk !! t = Some x -> is_Some (kthreads s !! t);
  oi_stage t pc : kthreads s !! t = Some pc ->
    stage_ok t (stage_of pc) (tk !! t)
      (calls (offload_tid t) (served s)) (calls (offload_tid t) (finished s));
  oi_send : guarded sending (send_fact (out_q s)) (slock (out_q s)) (kthreads s);
  oi_recv : guarded receiving (recv_fact (in_q s)) (slock (in_q s)) (kthreads s);
  oi_watch : watch_fact (out_q s) (watch s);
  oi_reply : mutex_ok (in_q s) (ch_mutex s) (workers (pool s));
  oi_run : run (pool s) = 1;
  oi_init : watch s <> WCreate -> is_initialized (pool s) = true;
  oi_queue : linked (pool s)
}.

(** ** Locks *)

Section locks.
Context {cs : kpc -> bool} {fact fact' : Z -> kpc -> Prop} {w : Z} {kts : gmap Z kpc}.
Context (t : Z) (pc pc' : kpc).
Hypothesis Hg : guarded cs fact w kts.

Lemma guarded_outside : cs pc' = false -> guarded cs fact w (<[t := pc']> kts).
Proof.
  intros Hc. destruct Hg as (h & Hw & Hh). exists h. split; [done|]. intros t0 pc0.
  rewrite lookup_insert. case_decide; [intros [= <-]; congruence|apply Hh].
Qed.

Lemma guarded_enter : w = FALSE -> fact' t pc' -> guarded cs fact' TRUE (<[t := pc']> kts).
Proof.
  intros -> Hf. destruct Hg as (h & Hw & Hh). exists (Some t). split; [done|]. intros t0 pc0.
  rewrite lookup_insert. case_decide as E; [by intros [= <-]; subst|].
  intros H1 H2. destruct (Hh t0 pc0 H1 H2) as [-> _]. done.
Qed.

Lemma guarded_inside : kts !! t = Some pc -> cs pc = true -> fact' t pc' ->
  guarded cs fact' w (<[t := pc']> kts).
Proof.
  intros Hk Hc Hf. destruct Hg as (h & Hw & Hh). exists h. split; [done|]. intros t0 pc0.
  destruct (Hh t pc Hk Hc) as [-> _]. rewrite lookup_insert.
  case_decide as E; [by intros [= <-]; subst|]. intros H1 H2.
  destruct (Hh t0 pc0 H1 H2) as [[= ->] _]. done.
Qed.

Lemma guarded_leave : kts !! t = Some pc -> cs pc = true -> cs pc' = false ->
  guarded cs fact' FALSE (<[t := pc']> kts).
Proof.
  intros Hk Hc Hc'. destruct Hg as (h & Hw & Hh). exists None. split; [done|]. intros t0 pc0.
  destruct (Hh t pc Hk Hc) as [-> _]. rewrite lookup_insert.
  case_decide as E; [intros [= <-]; congruence|]. intros H1 H2.
  destruct (Hh t0 pc0 H1 H2) as [[= ->] _]. done.
Qed.

Lemma guarded_mono : (forall t pc, fact t pc -> fact' t pc) -> guarded cs fact' w kts.
Proof.
  intros Hm. destruct Hg as (h & Hw & Hh). exists h. split; [done|]. intros t0 pc0 H1 H2.
  destruct (Hh t0 pc0 H1 H2). auto.
Qed.

Lemma guarded_fact : kts !! t = Some pc -> cs pc = true -> fact t pc.
Proof. intros Hk Hc. destruct Hg as (h & _ & Hh). by apply Hh. Qed.
End locks.

(** ** Tokens *)

Section tokens.
Context (T : list token) (tk : gmap Z token) (t : Z).
Hypothesis HT : T ≡ₚ (map_to_list tk).*2.

Lemma token_owner x : x ∈ T -> exists t, tk !! t = Some x.
Proof.
  rewrite HT. intros ([t0 y] & -> & Hy)%list_elem_of_fmap. exists t0. by apply elem_of_map_to_list.
Qed.

Lemma token_add x : tk !! t = None -> x :: T ≡ₚ (map_to_list (<[t := x]> tk)).*2.
Proof. intros Hn. by rewrite map_to_list_insert, HT by done. Qed.

Lemma token_remove x rest : tk !! t = Some x -> T ≡ₚ x :: rest ->
  rest ≡ₚ (map_to_list (delete t tk)).*2.
Proof.
  intros Hx Hr. apply (Permutation_cons_inv (a := x)). rewrite <- Hr, HT.
  by rewrite <- (map_to_list_delete tk t x Hx).
Qed.

Lemma token_change x y rest : tk !! t = Some x -> T ≡ₚ x :: rest ->
  y :: rest ≡ₚ (map_to_list (<[t := y]> tk)).*2.
Proof.
  intros Hx Hr. rewrite (token_remove x rest Hx Hr).
  rewrite <- insert_delete_eq, map_to_list_insert; [done|]. apply lookup_delete_eq.
Qed.
End tokens.

(** ** Producer and consumer *)

Lemma lenZ_assign todo p : lenZ (assign todo p) = lenZ p.
Proof. revert p. induction todo as [|kv todo IH]; [done|]. intros p. etrans; [apply IH|apply lenZ_updZ]. Qed.

Lemma writes_start q todo : cq_free_space q <> 0 -> Forall in_packet todo ->
  writes q todo (assign todo (packet_at (cq_data q) (cq_head q))).
Proof. done. Qed.

Lemma writes_step q k v todo p : writes q ((k, v) :: todo) p ->
  0 <= k < PKT_WORDS /\ writes (set_word (cq_head q) k v q) todo p.
Proof.
  intros (Hf & Hr & <-). apply Forall_cons in Hr as [Hk Hr]. split; [done|].
  split; [by rewrite (free_same q)|]. split; [done|].
  cbn [cq_head]. rewrite packet_set_word, decide_True by done. done.
Qed.

Lemma writes_end q p : queue_ok q -> writes q [] p ->
  queue_ok (push q) /\ contents (push q) = contents q ++ [p].
Proof. intros Hq (Hf & _ & <-). by apply contents_push. Qed.

Lemma writes_pop q todo p : queue_ok q -> cq_avail_data q <> 0 -> writes q todo p -> writes (pop q) todo p.
Proof. intros Hq Ha (Hf & H1 & H2). split; [by apply free_pop|done]. Qed.

Lemma reads_end q p : queue_ok q -> reads q p ->
  queue_ok (pop q) /\ contents q = p :: contents (pop q).
Proof. intros Hq [Ha <-]. by apply contents_pop. Qed.

Lemma reads_word q p k : 0 <= k < PKT_WORDS -> reads q p ->
  load_word (cq_data q) (cq_tail q) k = pkt_word p k.
Proof. intros Hk [_ <-]. unfold pkt_word. by rewrite nthZ_packet, decide_True. Qed.

Lemma writes_lock q x todo p : writes q todo p -> writes (q <| slock := x |>) todo p.
Proof. intros (Hf & H1 & H2). split; [by rewrite (free_same q)|done]. Qed.

Lemma reads_lock q x p : reads q p -> reads (q <| slock := x |>) p.
Proof. intros (Hf & H1). split; [by rewrite (avail_same q)|done]. Qed.

(** The facts of one side survive the steps of the other. *)
Lemma recv_fact_mono q q' : (forall p, reads q p -> reads q' p) ->
  forall t pc, recv_fact q t pc -> recv_fact q' t pc.
Proof. intros Hr t pc. destruct pc; cbn; naive_solver. Qed.

Lemma watch_fact_mono q q' w : (forall p, reads q p -> reads q' p) -> watch_fact q w -> watch_fact q' w.
Proof. intros Hr. destruct w; cbn; naive_solver. Qed.

Lemma send_fact_mono q q' : (forall todo p, writes q todo p -> writes q' todo p) ->
  forall t pc, send_fact q t pc -> send_fact q' t pc.
Proof. intros Hr t pc. destruct pc; cbn; naive_solver. Qed.

Lemma mutex_ok_mono q q' m ws : (forall todo p, writes q todo p -> writes q' todo p) ->
  mutex_ok q m ws -> mutex_ok q' m ws.
Proof.
  intros Hr Hm i h Hi. destruct (Hm i h Hi) as [H1 H2]. split; [done|].
  destruct h; cbn in *; naive_solver.
Qed.

(** ** Steps of a kernel thread *)

Section kernel.
Context (tids : gset Z).
(** No two threads of a kernel have the same id in packets. *)
Hypothesis tids_apart : forall t t', t ∈ tids -> t' ∈ tids -> offload_tid t = offload_tid t' -> t = t'.

Section step.
Context (q1 q2 : circular_queue) (kts : gmap Z kpc) (w : watch_pc) (p : thread_pool_t (J := io_packet_t) (L := handler_pc)).
Context (m : option Z) (sv fn : list (Z * request * Z)) (tk : gmap Z token).
Hypothesis inv : oinv tids (mkOffload q1 q2 kts w p m sv fn) tk.

Lemma oinv_kstep t pc pc' q1' q2' fn' tk' : kts !! t = Some pc ->
  queue_ok q1' -> queue_ok q2' ->
  inflight (mkOffload q1' q2' (<[t := pc']> kts) w p m sv fn') ≡ₚ (map_to_list tk').*2 ->
  (forall t', t' <> t -> tk' !! t' = tk !! t') ->
  (forall t', t' <> t -> t' ∈ tids -> calls (offload_tid t') fn' = calls (offload_tid t') fn) ->
  stage_ok t (stage_of pc') (tk' !! t) (calls (offload_tid t) sv) (calls (offload_tid t) fn') ->
  guarded sending (send_fact q1') (slock q1') (<[t := pc']> kts) ->
  guarded receiving (recv_fact q2') (slock q2') (<[t := pc']> kts) ->
  watch_fact q1' w -> mutex_ok q2' m (workers p) ->
  oinv tids (mkOffload q1' q2' (<[t := pc']> kts) w p m sv fn') tk'.
Proof.
  intros Ht Hq1 Hq2 Hin Htk Hfn Hst Hs Hr Hw Hm. destruct inv as [H1 H2 H3 H4 H5 H6 H7 H8 H9 H10 H11 H12 H13].
  cbn [out_q in_q kthreads watch pool ch_mutex served finished] in *.
  split; cbn [out_q in_q kthreads watch pool ch_mutex served finished]; try done.
  - rewrite dom_insert_L, H3. apply elem_of_dom_2 in Ht. set_solver.
  - intros t0 x. rewrite lookup_insert. case_decide as E; [by eexists|]. rewrite Htk by done. apply H5.
  - intros t0 pc0. rewrite lookup_insert. case_decide as E; [by intros [= <-]; subst|].
    intros Hk. rewrite Htk, Hfn; [by apply H6|done| |done]. rewrite <- H3. by eapply elem_of_dom_2.
Qed.

(** A step that moves no packet *)
Lemma oinv_kmove t pc pc' : kts !! t = Some pc ->
  stage_ok t (stage_of pc') (tk !! t) (calls (offload_tid t) sv) (calls (offload_tid t) fn) ->
  guarded sending (send_fact q1) (slock q1) (<[t := pc']> kts) ->
  guarded receiving (recv_fact q2) (slock q2) (<[t := pc']> kts) ->
  oinv tids (mkOffload q1 q2 (<[t := pc']> kts) w p m sv fn) tk.
Proof.
  intros Ht Hst Hs Hr. destruct inv. by eapply oinv_kstep.
Qed.

(** A step that takes or releases one of the two locks *)
Lemma oinv_kout t pc pc' x : kts !! t = Some pc ->
  stage_ok t (stage_of pc') (tk !! t) (calls (offload_tid t) sv) (calls (offload_tid t) fn) ->
  guarded sending (send_fact q1) x (<[t := pc']> kts) ->
  guarded receiving (recv_fact q2) (slock q2) (<[t := pc']> kts) ->
  oinv tids (mkOffload (q1 <| slock := x |>) q2 (<[t := pc']> kts) w p m sv fn) tk.
Proof.
  intros Ht Hst Hs Hr. destruct inv as [H1 H2 H3 H4 H5 H6 H7 H8 H9 H10 H11 H12 H13].
  apply (oinv_kstep t pc pc' _ q2 fn tk); [done| |done| |done|done|done| |done| |done].
  - by apply (ok_same q1).
  - unfold inflight in *. cbn [out_q in_q watch pool] in *. by rewrite (contents_same q1).
  - eapply (guarded_mono (fact := send_fact q1)); [exact Hs|].
    intros ? ?. apply send_fact_mono. intros todo y. apply writes_lock.
  - eapply watch_fact_mono; [apply reads_lock|exact H9].
Qed.

Lemma oinv_kin t pc pc' x fn' : kts !! t = Some pc ->
  (forall t', t' <> t -> t' ∈ tids -> calls (offload_tid t') fn' = calls (offload_tid t') fn) ->
  stage_ok t (stage_of pc') (tk !! t) (calls (offload_tid t) sv) (calls (offload_tid t) fn') ->
  guarded sending (send_fact q1) (slock q1) (<[t := pc']> kts) ->
  guarded receiving (recv_fact q2) x (<[t := pc']> kts) ->
  oinv tids (mkOffload q1 (q2 <| slock := x |>) (<[t := pc']> kts) w p m sv fn') tk.
Proof.
  intros Ht Hfn Hst Hs Hr. destruct inv as [H1 H2 H3 H4 H5 H6 H7 H8 H9 H10 H11 H12 H13].
  apply (oinv_kstep t pc pc' q1 _ fn' tk); [done|done| | |done|done|done|done| |done|].
  - by apply (ok_same q2).
  - unfold inflight in *. cbn [out_q in_q watch pool] in *. by rewrite (contents_same q2 (q2 <| slock := x |>)).
  - eapply (guarded_mono (fact := recv_fact q2)); [exact Hr|].
    intros ? ?. apply recv_fact_mono. intros y. apply reads_lock.
  - eapply mutex_ok_mono; [apply writes_lock|exact H10].
Qed.
End step.

Lemma acquire_Some x w : acquire x = Some w -> x = FALSE /\ w = TRUE.
Proof.
  unfold acquire, spinlock_lock, cmpxchg, TRUE, FALSE. destruct (Z.eqb_spec x 1); [done|].
  destruct (Z.eqb_spec x 0) as [->|]; cbn; [by intros [= <-]|done].
Qed.

Lemma request_words_ok t r : Forall in_packet (request_words g_ukid t r).
Proof. unfold request_words. repeat (apply Forall_cons; split; [by split; vm_compute|]). apply Forall_nil_2. Qed.

(** The parts of the invariant, by name *)
Ltac open_inv Hi :=
  pose proof (oi_out _ _ _ Hi) as Hout; pose proof (oi_in _ _ _ Hi) as Hin;
  pose proof (oi_tokens _ _ _ Hi) as Htok; pose proof (oi_send _ _ _ Hi) as Hs;
  pose proof (oi_recv _ _ _ Hi) as Hr; pose proof (oi_watch _ _ _ Hi) as Hw;
  pose proof (oi_reply _ _ _ Hi) as Hm; unfold inflight in Htok;
  cbn [out_q in_q kthreads watch pool ch_mutex served finished] in Hout, Hin, Htok, Hs, Hr, Hw, Hm.

Lemma inv_send s tk t pc : oinv tids s tk -> kthreads s !! t = Some pc ->
  exists tk', oinv tids (send_offload_message g_ukid t pc s) tk'.
Proof.
  intros Hi Ht. destruct s as [q1 q2 kts w p m sv fn]. cbn [kthreads] in Ht.
  pose proof (oi_stage _ _ _ Hi t pc Ht) as Hst. cbn [served finished] in Hst. open_inv Hi.
  destruct pc as [|r c|r c|r [|[k v] todo]|r|r c| | | | | | | |]; try (exists tk; exact Hi).
  - cbn [send_offload_message out_q]. destruct (acquire (slock q1)) as [x|] eqn:E; [|by exists tk].
    apply acquire_Some in E as [E ->]. exists tk. eapply oinv_kout; try done.
    + by eapply guarded_enter.
    + by apply guarded_outside.
  - cbn [send_offload_message out_q]. destruct (Z.eqb_spec (cq_free_space q1) 0) as [E|E]; cbn [negb].
    + destruct (c <? 1000); exists tk; eapply oinv_kmove; try done;
        solve [by eapply guarded_inside|by apply guarded_outside].
    + exists tk. eapply oinv_kmove; try done; [|by apply guarded_outside].
      eapply guarded_inside; [done..|]. cbn [send_fact]. eexists.
      split; [by apply writes_start, request_words_ok|].
      apply asked_request; [by apply Hst|apply lenZ_packet].
  - destruct (guarded_fact _ _ Hs Ht eq_refl) as (x & Hx & Ha).
    destruct (writes_end _ _ Hout Hx) as [Hq Hc].
    exists (<[t := Asked (offload_tid t) r]> tk). destruct Hst as (Hn & He & Hok).
    apply (oinv_kstep _ _ _ _ _ _ _ _ _ Hi t _ (KSendUnlock r) (push q1) q2 fn _ Ht); try done.
    + unfold inflight. cbn [out_q in_q watch pool]. rewrite Hc, fmap_app. cbn [fmap list_fmap].
      rewrite Ha, <- app_assoc. cbn [app]. rewrite <- Permutation_middle. by apply token_add.
    + intros t' Ht'. by rewrite lookup_insert_ne.
    + rewrite lookup_insert_eq. split; [by apply Hok|]. by left.
    + by eapply guarded_inside.
    + by apply guarded_outside.
    + eapply watch_fact_mono; [|apply Hw]. intros y. apply reads_push; [done|apply Hx].
  - destruct (guarded_fact _ _ Hs Ht eq_refl) as (x & Hx & Ha). apply writes_step in Hx as [Hk Hx].
    exists tk. apply (oinv_kstep _ _ _ _ _ _ _ _ _ Hi t _ (KSendFill r todo)
      (set_word (cq_head q1) k v q1) q2 fn _ Ht); try done.
    + by apply ok_set_word.
    + unfold inflight. cbn [out_q in_q watch pool]. by rewrite contents_set_word.
    + eapply guarded_inside; [done..|]. by exists x.
    + by apply guarded_outside.
    + eapply watch_fact_mono; [|apply Hw]. intros y. by apply reads_set_word.
  - exists tk. eapply oinv_kout; try done; [by eapply guarded_leave|by apply guarded_outside].
  - exists tk. eapply oinv_kout; try done; [by eapply guarded_leave|by apply guarded_outside].
Qed.

Lemma owner_tid s tk t x : oinv tids s tk -> tk !! t = Some x -> t ∈ tids /\ token_tid x = offload_tid t.
Proof.
  intros Hi Hx. destruct (oi_owner _ _ _ Hi t x Hx) as [pc Hpc].
  split; [rewrite <- (oi_tids _ _ _ Hi); by eapply elem_of_dom_2|].
  pose proof (oi_stage _ _ _ Hi t pc Hpc) as Hst. rewrite Hx in Hst.
  destruct (stage_of pc); cbn in Hst; naive_solver.
Qed.

(** A token on its way is the one of the thread it names. *)
Lemma inflight_token s tk t x : oinv tids s tk -> t ∈ tids -> x ∈ inflight s ->
  token_tid x = offload_tid t -> tk !! t = Some x.
Proof.
  intros Hi Ht Hx E. destruct (token_owner _ _ (oi_tokens _ _ _ Hi) x Hx) as [t' Ht'].
  destruct (owner_tid s tk t' x Hi Ht') as [Hin Hx'].
  by rewrite (tids_apart t t' Ht Hin) by congruence.
Qed.

Lemma calls_app k l l' : calls k (l ++ l') = calls k l ++ calls k l'.
Proof. apply filter_app. Qed.

Lemma calls_one k r v : calls k [(k, r, v)] = [(k, r, v)].
Proof. unfold calls. by rewrite filter_cons_True. Qed.

Lemma calls_other k k' r v : k <> k' -> calls k' [(k, r, v)] = [].
Proof. intros E. unfold calls. by rewrite filter_cons_False. Qed.

Lemma inv_receive s tk t pc : oinv tids s tk -> kthreads s !! t = Some pc ->
  exists tk', oinv tids (receive_offload_message g_ukid t pc s) tk'.
Proof.
  intros Hi Ht. destruct s as [q1 q2 kts w p m sv fn]. cbn [kthreads] in Ht.
  pose proof (oi_stage _ _ _ Hi t pc Ht) as Hst. cbn [served finished] in Hst. open_inv Hi.
  assert (t ∈ tids) as Hdom by (rewrite <- (oi_tids _ _ _ Hi); by eapply elem_of_dom_2).
  destruct pc as [| | | | | |r|r c|r|r|r v|r v|r|r]; try (exists tk; exact Hi).
  - cbn [receive_offload_message in_q]. destruct (acquire (slock q2)) as [x|] eqn:E; [|by exists tk].
    apply acquire_Some in E as [E ->]. exists tk. eapply oinv_kin; try done.
    + by apply guarded_outside.
    + by eapply guarded_enter.
  - cbn [receive_offload_message in_q]. destruct (Z.eqb_spec (cq_avail_data q2) 0) as [E|E]; cbn [negb].
    + destruct (c <? 1000); exists tk; eapply oinv_kmove; try done;
        solve [by eapply guarded_inside|by apply guarded_outside].
    + exists tk. eapply oinv_kmove; try done; [by apply guarded_outside|].
      eapply guarded_inside; [done..|]. by eexists.
  - destruct (guarded_fact _ _ Hr Ht eq_refl) as (x & Hx). cbn [receive_offload_message in_q].
    rewrite (reads_word _ _ W_TID ltac:(done) Hx).
    destruct (Z.eqb_spec (s32 (pkt_word x W_TID)) (offload_tid t)) as [E|E]; exists tk;
      eapply oinv_kmove; try done; try (by apply guarded_outside); eapply guarded_inside; try done.
    by exists x.
  - destruct (guarded_fact _ _ Hr Ht eq_refl) as (x & Hx & E). cbn [receive_offload_message in_q].
    rewrite (reads_word _ _ W_RET ltac:(done) Hx). exists tk.
    destruct (reads_end _ _ Hin Hx) as [_ Hc].
    assert (tk !! t = Some (answered x)) as Htk.
    { eapply inflight_token; [done..| |by cbn]. unfold inflight. cbn [in_q]. rewrite Hc, !elem_of_app. do 3 right. left. }
    assert (answered x = Answered (offload_tid t) (pkt_word x W_RET)) as Ha by (unfold answered; congruence).
    eapply oinv_kmove; try done.
    + rewrite Htk, Ha in Hst |- *. destruct Hst as (_ & [[[=] _]|(v & [= <-] & He)]). done.
    + by apply guarded_outside.
    + eapply guarded_inside; [done..|]. by exists x.
  - destruct (guarded_fact _ _ Hr Ht eq_refl) as (x & Hx & E).
    destruct (reads_end _ _ Hin Hx) as [Hq Hc]. destruct Hst as [Htk He].
    exists (delete t tk).
    apply (oinv_kstep _ _ _ _ _ _ _ _ _ Hi t _ (KRecvUnlock r v) q1 (pop q2) fn _ Ht); try done.
    + unfold inflight. cbn [out_q in_q watch pool]. eapply token_remove; [done..|].
      rewrite Hc. cbn [fmap list_fmap]. rewrite E. by rewrite !app_assoc, <- Permutation_middle.
    + intros t' Ht'. by rewrite lookup_delete_ne.
    + by rewrite lookup_delete_eq.
    + by apply guarded_outside.
    + by eapply guarded_inside.
    + eapply mutex_ok_mono; [|apply Hm]. intros todo y. apply writes_pop; [done|apply Hx].
  - exists tk. cbn [receive_offload_message]. destruct Hst as [Htk He].
    eapply (oinv_kin _ _ _ _ _ _ _ _ _ Hi t _ KIdle FALSE (fn ++ [(offload_tid t, r, v)])); try done.
    + intros t' Hne Ht'. rewrite calls_app, calls_other, app_nil_r; [done|]. intros E. by apply Hne, tids_apart.
    + by rewrite calls_app, calls_one.
    + by apply guarded_outside.
    + by eapply guarded_leave.
  - exists tk. eapply oinv_kin; try done; [by apply guarded_outside|by eapply guarded_leave].
  - exists tk. eapply oinv_kin; try done; [by apply guarded_outside|by eapply guarded_leave].
Qed.

Lemma inv_kernel s tk t new : oinv tids s tk -> exists tk', oinv tids (kernel_step g_ukid offloaded t new s) tk'.
Proof.
  intros Hi. unfold kernel_step. destruct (kthreads s !! t) as [pc|] eqn:Ht; [|by exists tk].
  destruct pc; try (by eapply inv_send); try (by eapply inv_receive).
  destruct (Offload.request_ok offloaded new) eqn:Hnew; [|by exists tk]. exists tk.
  destruct s as [q1 q2 kts w p m sv fn]. pose proof (oi_stage _ _ _ Hi t _ Ht) as (Hn & He & _).
  open_inv Hi. eapply oinv_kmove; try done; try by apply guarded_outside.
  split; [done|]. split; [done|]. by intros ? [= <-].
Qed.

(** ** Steps of the pool *)

Definition idle_worker (w : worker (L := handler_pc)) : bool :=
  match w with Running _ => false | _ => true end.

(** The pool moves without touching a packet, except to start a job. *)
Definition quiet (p p' : thread_pool_t (J := io_packet_t) (L := handler_pc)) : Prop :=
  (linked p -> linked p' /\ pool_tokens p' ≡ₚ pool_tokens p) /\
  (forall i h, nthZ (workers p') i = Some (Running h) ->
     nthZ (workers p) i = Some (Running h) \/ exists pkt, h = HRun pkt) /\
  run p' = run p /\ (is_initialized p = true -> is_initialized p' = true).

Lemma idle_tokens w : idle_worker w = true -> worker_tokens w = [].
Proof. by destruct w. Qed.

Lemma quiet_go i w w' p p' : nthZ (workers p) i = Some w -> idle_worker w = true -> idle_worker w' = true ->
  FRONT p' = FRONT p -> REAR p' = REAR p -> job_nodes p' = job_nodes p -> present_job p' = present_job p ->
  workers p' = workers p -> run p' = run p ->
  (is_initialized p = true -> is_initialized p' = true) -> quiet p (go i w' p').
Proof.
  intros Hi Hw Hw' Hf Hre Hno Hpr Hws Hr Hin.
  destruct (bind_updZ worker_tokens (workers p) i w Hi) as (rest & H1 & H2).
  assert (forall k h, nthZ (workers (go i w' p')) k = Some (Running h) -> nthZ (workers p) k = Some (Running h)) as Hrun.
  { intros k h. cbn. rewrite Hws, nthZ_updZ. case_decide; [|done]. by intros [= ->]. }
  split_and!; [|by left; auto|done|done].
  intros (ns & js & Hq). split; [exists ns, js; apply (queued_same p); eauto|].
  unfold pool_tokens, jobs, go. cbn [FRONT job_nodes workers set_field]. rewrite Hf, Hno, Hws, (H2 w'), H1. by rewrite !idle_tokens.
Qed.

Lemma quiet_refl p : quiet p p.
Proof. split_and!; auto. Qed.

Lemma quiet_take_job i p : nthZ (workers p) i = Some Locking -> quiet p (take_job HRun i p).
Proof.
  intros Hi. unfold take_job. destruct (0 <? remove_threads p); [by eapply quiet_go|].
  destruct (Z.eqb_spec (FRONT p) 0) as [E|Hf]; [by eapply quiet_go|]. destruct (suspend p); [by eapply quiet_go|].
  cbn [orb]. destruct (job_nodes p !! FRONT p) as [[j next]|] eqn:Hn; [|apply quiet_refl].
  destruct (bind_updZ worker_tokens (workers p) i _ Hi) as (others & H1 & H2).
  split_and!; [|intros k h|done|done].
  - intros (ns & js & Hq). destruct (queued_take p ns js i (HRun j) j next Hq Hf Hn) as (ns' & js' & -> & Hq').
    match goal with |- linked ?x /\ _ => assert (queued x ns' js') as Hq2 by (apply (queued_same _ _ _ _ Hq'); eauto) end.
    split; [by exists ns', js'|]. unfold pool_tokens. rewrite (queued_jobs _ _ _ Hq2), (queued_jobs _ _ _ Hq).
    unfold go. cbn [workers set_field]. rewrite (H2 (Running (HRun j))), H1. cbn. by rewrite <- Permutation_middle.
  - unfold go. cbn [workers set_field]. rewrite nthZ_updZ. case_decide; [|by left]. intros [= <-]. right. by exists j.
Qed.

Lemma quiet_executor i p : (forall h, nthZ (workers p) i <> Some (Running h)) ->
  quiet p (thread_executor HRun i p).
Proof.
  intros Hn. unfold thread_executor. destruct (nthZ (workers p) i) as [[]|] eqn:Hi; try apply quiet_refl.
  - destruct (queue_free p); [by eapply quiet_go|apply quiet_refl].
  - destruct (run p =? 0); by eapply quiet_go.
  - destruct (queue_free p); [by apply quiet_take_job|apply quiet_refl].
  - unfold go_to_sleep. eapply quiet_go; try done; repeat case_match; done.
  - eapply quiet_go; try done; by case_match.
  - eapply quiet_go; try done; by case_match.
Qed.

Lemma quiet_wake i p : quiet p (wake i p).
Proof.
  unfold wake. destruct (nthZ (workers p) i) as [[]|] eqn:Hi; try apply quiet_refl. by eapply quiet_go.
Qed.

Lemma quiet_notify w p : quiet p (add_job_notify w p).
Proof.
  unfold add_job_notify. destruct (queuemutex p) as [[]|]; try apply quiet_refl.
  - split_and!; auto. intros (ns & js & Hq). split; [|done]. exists ns, js. apply (queued_same p); eauto.
  - destruct (quiet_wake w p) as (H1 & H2 & H3 & H4). split_and!; auto. intros Hl. destruct (H1 Hl) as [(ns & js & Hq) Ht].
    split; [|done]. exists ns, js. apply (queued_same (wake w p)); eauto.
Qed.

Lemma quiet_add_thread created p : quiet p (snd (add_thread created p)).
Proof.
  unfold add_thread. destruct (creating p =? 0); [apply quiet_refl|].
  destruct created.
  - split_and!; [|intros i h Hh; left; by apply (running_app p)|done|auto].
    intros (ns & js & Hq). split.
    + exists ns, js. apply (queued_same p); try done. intros i h Hh. exists h. by apply (running_app p).
    + unfold pool_tokens, jobs. cbn. rewrite bind_app. cbn. by rewrite app_nil_r.
  - split_and!; auto. intros (ns & js & Hq). split; [|done]. exists ns, js. apply (queued_same p); eauto.
Qed.

Section proxy.
Context (q1 q2 : circular_queue) (kts : gmap Z kpc) (w : watch_pc).
Context (p : thread_pool_t (J := io_packet_t) (L := handler_pc)).
Context (m : option Z) (sv fn : list (Z * request * Z)) (tk : gmap Z token).
Hypothesis inv : oinv tids (mkOffload q1 q2 kts w p m sv fn) tk.

(** A step that leaves the kernel's side alone *)
Lemma oinv_wstep q2' p' m' sv' tk' : queue_ok q2' ->
  inflight (mkOffload q1 q2' kts w p' m' sv' fn) ≡ₚ (map_to_list tk').*2 ->
  (forall t x, tk' !! t = Some x -> is_Some (kts !! t)) ->
  (forall t pc, kts !! t = Some pc ->
     stage_ok t (stage_of pc) (tk' !! t) (calls (offload_tid t) sv') (calls (offload_tid t) fn)) ->
  guarded receiving (recv_fact q2') (slock q2') kts ->
  mutex_ok q2' m' (workers p') -> run p' = run p ->
  (is_initialized p = true -> is_initialized p' = true) -> linked p' ->
  oinv tids (mkOffload q1 q2' kts w p' m' sv' fn) tk'.
Proof.
  intros Hq Htk Ho Hst Hr Hm Hrun Hini Hlk. destruct inv as [H1 H2 H3 H4 H5 H6 H7 H8 H9 H10 H11 H12 H13].
  cbn [out_q in_q kthreads watch pool ch_mutex served finished] in *.
  split; cbn [out_q in_q kthreads watch pool ch_mutex served finished]; try done; [congruence|auto].
Qed.

Lemma inv_quiet p' : quiet p p' -> oinv tids (mkOffload q1 q2 kts w p' m sv fn) tk.
Proof.
  intros (H1 & H2 & H3 & H4). destruct inv as [I1 I2 I3 I4 I5 I6 I7 I8 I9 I10 I11 I12 I13].
  destruct (H1 I13) as [Hlk Ht]. apply oinv_wstep; try done.
  - unfold inflight in *. cbn [out_q in_q watch pool] in *. by rewrite Ht.
  - intros i h Hh. destruct (H2 i h Hh) as [Ho|[pkt ->]]; [by apply I10|done].
Qed.

(** A step of the watch thread that moves no packet *)
Lemma oinv_wmove w' : watch_tokens w' = watch_tokens w -> watch_fact q1 w' -> is_initialized p = true ->
  oinv tids (mkOffload q1 q2 kts w' p m sv fn) tk.
Proof.
  intros Ht Hf Hp. destruct inv as [I1 I2 I3 I4 I5 I6 I7 I8 I9 I10 I11 I12 I13]. split; try done.
  unfold inflight in *. cbn [out_q in_q watch pool] in *. by rewrite Ht.
Qed.

(** What worker [i] holds, apart from the rest *)
Lemma inflight_worker i x q2' : nthZ (workers p) i = Some x ->
  exists rest,
    inflight (mkOffload q1 q2 kts w p m sv fn) ≡ₚ worker_tokens x ++ (answered <$> contents q2) ++ rest /\
    forall y m' sv', inflight (mkOffload q1 q2' kts w (go i y p) m' sv' fn) ≡ₚ
      worker_tokens y ++ (answered <$> contents q2') ++ rest.
Proof.
  intros Hi. destruct (bind_updZ worker_tokens (workers p) i x Hi) as (rest & H1 & H2).
  exists ((asked <$> contents q1) ++ watch_tokens w ++ (asked <$> jobs p) ++ rest).
  unfold inflight, pool_tokens. cbn [out_q in_q watch pool]. split.
  - rewrite H1. solve_Permutation.
  - intros y m' sv'. unfold jobs, go. cbn [FRONT job_nodes workers set_field]. rewrite (H2 y). solve_Permutation.
Qed.

Lemma linked_go i h h' : nthZ (workers p) i = Some (Running h) -> linked (go i (Running h') p).
Proof.
  intros Hi. destruct (oi_queue _ _ _ inv) as (ns & js & Hq). exists ns, js. eapply queued_go; [exact Hq|exact Hi|eauto].
Qed.

Lemma mutex_go q2' i h h' m' : nthZ (workers p) i = Some (Running h) ->
  (replying h' = true -> m' = Some i) -> reply_fact q2' h' ->
  (forall j x, j <> i -> nthZ (workers p) j = Some (Running x) ->
     (replying x = true -> m' = Some j) /\ reply_fact q2' x) ->
  mutex_ok q2' m' (workers (go i (Running h') p)).
Proof.
  intros Hi H1 H2 H3 j x. unfold go. cbn [workers set_field]. rewrite nthZ_updZ. case_decide as E.
  - destruct E as [-> _]. by intros [= <-].
  - intros Hj. apply H3; [|done]. intros ->. apply E. split; [done|by eapply nthZ_Some_range].
Qed.
End proxy.

(** ** Steps of the watch thread *)

Lemma prefix_snoc (acc pkt : io_packet_t) x : acc `prefix_of` pkt -> nthZ pkt (lenZ acc) = Some x ->
  acc ++ [x] `prefix_of` pkt.
Proof.
  intros [rest ->]. rewrite nthZ_app_r by lia. rewrite Z.sub_diag.
  destruct rest as [|y rest]; [done|]. intros [= ->]. exists rest. by rewrite <- app_assoc.
Qed.

Lemma prefix_full (acc pkt : io_packet_t) : acc `prefix_of` pkt -> lenZ pkt <= lenZ acc -> acc = pkt.
Proof.
  intros [rest ->]. rewrite lenZ_app. intros Hl. destruct rest; [by rewrite app_nil_r|].
  unfold lenZ in Hl. cbn in Hl. lia.
Qed.

Lemma reads_length q pkt : reads q pkt -> lenZ pkt = PKT_WORDS.
Proof. intros [_ <-]. apply lenZ_packet. Qed.

Lemma add_job_running j (p : thread_pool_t (J := io_packet_t) (L := handler_pc)) :
  is_initialized p = true -> run p = 1 ->
  add_job_to_pool true j p =
  if queue_free p then
    (Some COMPLETED,
     insert_job (malloc_job p) j p <| job_count := u64 (job_count p + 1) |>
       <| added := added p ++ [j] |> <| queuemutex := Some Inserted |>)
  else (None, p).
Proof. intros E Hr. unfold add_job_to_pool. by rewrite E, Hr. Qed.

(** The job added is the only change. *)
Lemma add_job_adds j (p p' : thread_pool_t (J := io_packet_t) (L := handler_pc)) :
  linked p -> is_initialized p = true -> run p = 1 -> queue_free p = true -> add_job_to_pool true j p = (Some COMPLETED, p') ->
  linked p' /\ jobs p' = jobs p ++ [j] /\ workers p' = workers p /\ run p' = run p /\ is_initialized p' = is_initialized p.
Proof.
  intros (ns & js & Hq) E Hr Hf. rewrite add_job_running, Hf by done. intros Ep%(f_equal snd). cbn [snd] in Ep. subst p'.
  destruct (queued_insert p ns js j Hq) as [ns' Hq']. destruct (insert_job_rest (malloc_job p) j p) as [Ew _].
  assert (run (insert_job (malloc_job p) j p) = run p /\ is_initialized (insert_job (malloc_job p) j p) = is_initialized p)
    as [Er Ei] by (unfold insert_job; by destruct (FRONT _ =? 0)).
  set (p1 := insert_job (malloc_job p) j p) in *. clearbody p1.
  match goal with |- linked ?x /\ _ => assert (queued x ns' (js ++ [j])) as Hq2 end.
  { apply (queued_same p1); try done. intros k l Hk. by exists l. }
  split; [by exists ns', (js ++ [j])|]. rewrite (queued_jobs _ _ _ Hq2), (queued_jobs _ _ _ Hq). done.
Qed.

Lemma inv_watch s tk wk : oinv tids s tk -> oinv tids (offload_watch true wk s) tk.
Proof.
  intros Hi. destruct s as [q1 q2 kts w p m sv fn]. open_inv Hi.
  pose proof (oi_init _ _ _ Hi) as Hinit. pose proof (oi_run _ _ _ Hi) as Hrun. cbn [watch pool] in *.
  destruct w as [| |acc|pkt|]; unfold offload_watch; cbn [watch pool out_q].
  - destruct (is_initialized p) eqn:E; [|done]. by eapply oinv_wmove.
  - destruct (Z.eqb_spec (cq_avail_data q1) 0); cbn [negb]; [done|]. eapply oinv_wmove; [done..| |by auto].
    eexists. split; [by split|]. apply prefix_nil.
  - destruct Hw as (x & Hx & Hp). pose proof (reads_length _ _ Hx) as Hl.
    destruct (Z.ltb_spec (lenZ acc) PKT_WORDS) as [Hlt|Hge].
    + eapply oinv_wmove; [done..| |by auto]. exists x. split; [done|]. eapply prefix_snoc; [done|].
      destruct (nthZ_in_range x (lenZ acc)) as [y Hy]; [unfold lenZ in *; lia|].
      rewrite Hy. cbn [out_q]. rewrite (reads_word _ _ (lenZ acc)) with (2 := Hx) by (unfold lenZ in *; lia).
      unfold pkt_word. by rewrite Hy.
    + apply prefix_full in Hp as ->; [|lia]. destruct (reads_end _ _ Hout Hx) as [Hq Hc].
      destruct Hi as [I1 I2 I3 I4 I5 I6 I7 I8 I9 I10 I11 I12 I13]. split; try done; [..|by auto].
      * unfold inflight. cbn [out_q in_q watch pool set_field]. rewrite <- I4. unfold inflight.
        cbn [out_q in_q watch pool]. rewrite Hc. cbn [fmap list_fmap app watch_tokens].
        by rewrite <- Permutation_middle.
      * cbn [out_q kthreads set_field]. eapply guarded_mono; [exact Hs|]. intros ? ?. apply send_fact_mono.
        intros todo y. apply writes_pop; [done|apply Hx].
  - assert (is_initialized p = true) as E by (by apply Hinit).
    pose proof (oi_queue _ _ _ Hi) as Hlk. cbn [pool] in Hlk.
    destruct (queue_free p) eqn:Hfree; [|by rewrite add_job_running, Hfree].
    destruct (add_job_to_pool true pkt p) as [st p'] eqn:Ha.
    assert (st = Some COMPLETED) as -> by (rewrite add_job_running, Hfree in Ha by done; congruence).
    destruct (add_job_adds pkt p p' Hlk E Hrun Hfree Ha) as (Hlk' & Ej & Ew & Er & Ei).
    destruct Hi as [I1 I2 I3 I4 I5 I6 I7 I8 I9 I10 I11 I12 I13].
    split; try done; cbn [in_q ch_mutex pool watch set_field]; rewrite ?Ew, ?Er, ?Ei; try done.
    unfold inflight in *. cbn [out_q in_q watch pool set_field] in *. rewrite <- I4.
    unfold pool_tokens. rewrite Ej, Ew. cbn [watch_tokens]. rewrite fmap_app. solve_Permutation.
  - pose proof (quiet_notify wk p) as Hn. pose proof Hn as (_ & _ & _ & Hini).
    assert (is_initialized p = true) as E by (by apply Hinit).
    pose proof (inv_quiet _ _ _ _ _ _ _ _ _ Hi _ Hn) as Hi'.
    destruct (queue_free (add_job_notify wk p)); eapply (oinv_wmove _ _ _ _ _ _ _ _ _ Hi'); by auto.
Qed.

(** ** Steps of a handler *)

(** The call in a packet is the one its thread waits for. *)
Lemma asked_waiting s tk t pkt : oinv tids s tk -> tk !! t = Some (asked pkt) ->
  exists pc, kthreads s !! t = Some pc /\ stage_of pc = Waiting (request_of pkt) /\
    request_ok (request_of pkt) = true /\ s32 (pkt_word pkt W_TID) = offload_tid t /\
    calls (offload_tid t) (served s) = calls (offload_tid t) (finished s).
Proof.
  intros Hi Ht. destruct (oi_owner _ _ _ Hi _ _ Ht) as [pc Hpc]. exists pc. split; [done|].
  pose proof (oi_stage _ _ _ Hi _ _ Hpc) as Hst. rewrite Ht in Hst. unfold asked in Hst.
  destruct (stage_of pc); cbn [stage_ok] in Hst; [by destruct Hst as [[=] _]| |by destruct Hst..].
  destruct Hst as (Hok & [[[= Hk <-] He]|(v & [=] & _)]). done.
Qed.

Lemma reply_words_ok pkt v : Forall in_packet (reply_words pkt v).
Proof. unfold reply_words. repeat (apply Forall_cons; split; [by split; vm_compute|]). apply Forall_nil_2. Qed.

Lemma inv_execute s tk i pkt v : oinv tids s tk -> nthZ (workers (pool s)) i = Some (Running (HRun pkt)) ->
  exists tk', oinv tids (offload_local_proxy offloaded i (HRun pkt) v s) tk'.
Proof.
  intros Hi Hw. destruct s as [q1 q2 kts w p m sv fn]. cbn [pool] in Hw.
  destruct (inflight_worker q1 q2 kts w p m sv fn i _ q2 Hw) as (rest & H1 & H2).
  destruct (token_owner _ _ (oi_tokens _ _ _ Hi) (asked pkt)) as [t Ht]; [rewrite H1; left|].
  destruct (asked_waiting _ _ _ _ Hi Ht) as (pc & Hpc & Hst & Hok & Hk & He).
  cbn [kthreads served finished] in Hpc, He. unfold offload_local_proxy.
  assert (offloaded (pkt_word pkt W_TYPE) = true) as ->.
  { unfold Offload.request_ok in Hok. rewrite !andb_true_iff in Hok. apply Hok. }
  pose proof (token_change _ _ t (oi_tokens _ _ _ Hi) _
    (Answered (s32 (pkt_word pkt W_TID)) (u64 v)) _ Ht H1) as Htk.
  exists (<[t := Answered (s32 (pkt_word pkt W_TID)) (u64 v)]> tk).
  pose proof Hi as [I1 I2 I3 I4 I5 I6 I7 I8 I9 I10 I11 I12 I13].
  cbn [out_q in_q kthreads watch pool ch_mutex served finished] in *.
  apply (oinv_wstep _ _ _ _ _ _ _ _ _ Hi q2 (go i (Running (HLock pkt (u64 v))) p) m
    (sv ++ [(s32 (pkt_word pkt W_TID), request_of pkt, u64 v)])); try done.
  - by rewrite H2.
  - intros t' x. rewrite lookup_insert. case_decide as E; [subst; by eexists|apply I5].
  - intros t' pc' Ht'. rewrite lookup_insert. case_decide as E.
    + subst t'. simplify_eq. rewrite Hst. split; [done|]. right. exists (u64 v).
      by rewrite Hk, calls_app, calls_one, He.
    + rewrite calls_app, calls_other, app_nil_r; [by apply I6|]. rewrite Hk. intros E'.
      apply E, tids_apart; [rewrite <- I3; by eapply elem_of_dom_2..|done].
  - eapply mutex_go; [done|done|apply u64_bound|]. intros j x _ Hj. by apply I10.
  - by eapply linked_go.
Qed.

(** A handler's step that changes no token *)
Lemma inv_handler q1 q2 kts w p m sv fn tk i h h' q2' m' :
  oinv tids (mkOffload q1 q2 kts w p m sv fn) tk -> nthZ (workers p) i = Some (Running h) ->
  queue_ok q2' -> slock q2' = slock q2 ->
  worker_tokens (Running h') ++ (answered <$> contents q2') ≡ₚ
    worker_tokens (Running h) ++ (answered <$> contents q2) ->
  (forall y, reads q2 y -> reads q2' y) ->
  (replying h' = true -> m' = Some i) -> reply_fact q2' h' ->
  (forall j x, j <> i -> nthZ (workers p) j = Some (Running x) ->
     (replying x = true -> m' = Some j) /\ reply_fact q2' x) ->
  oinv tids (mkOffload q1 q2' kts w (go i (Running h') p) m' sv fn) tk.
Proof.
  intros Hi Hw Hq Hl Ht Hr H1 H2 H3. pose proof Hi as [I1 I2 I3 I4 I5 I6 I7 I8 I9 I10 I11 I12 I13].
  destruct (inflight_worker q1 q2 kts w p m sv fn i _ q2' Hw) as (rest & J1 & J2).
  cbn [out_q in_q kthreads watch pool ch_mutex served finished] in *.
  apply (oinv_wstep _ _ _ _ _ _ _ _ _ Hi); try done.
  - rewrite J2, app_assoc, Ht, <- app_assoc, <- J1. done.
  - rewrite Hl. eapply guarded_mono; [exact I8|]. intros ? ?. by apply recv_fact_mono.
  - by eapply mutex_go.
  - by eapply linked_go.
Qed.

(** Nobody else replies while [i] holds the channel's mutex. *)
Lemma alone q q' m i ws m' : mutex_ok q m ws -> (m = None \/ m = Some i) ->
  (forall x, replying x = false -> reply_fact q x -> reply_fact q' x) ->
  forall j x, j <> i -> nthZ ws j = Some (Running x) ->
    (replying x = true -> m' = Some j) /\ reply_fact q' x.
Proof.
  intros Hm Hi Hf j x Hj Hx. destruct (Hm j x Hx) as [H1 H2].
  destruct (replying x) eqn:E; [pose proof (H1 eq_refl); destruct Hi; congruence|]. split; [done|by apply Hf].
Qed.

Lemma reply_fact_idle q q' x : replying x = false -> reply_fact q x -> reply_fact q' x.
Proof. by destruct x. Qed.

Lemma inv_handle s tk i h v : oinv tids s tk -> nthZ (workers (pool s)) i = Some (Running h) ->
  exists tk', oinv tids (offload_local_proxy offloaded i h v s) tk'.
Proof.
  intros Hi Hwk. destruct h as [pkt|pkt x|pkt x|pkt x [|[k y] todo]|]; [by eapply inv_execute|..]; exists tk;
    destruct s as [q1 q2 kts w p m sv fn]; open_inv Hi; cbn [pool] in Hwk;
    destruct (Hm i _ Hwk) as [Hmu Hf]; unfold offload_local_proxy; cbn [ch_mutex in_q].
  - destruct m as [j|]; [done|]. eapply (inv_handler _ _ _ _ _ _ _ _ _ i _ (HWait pkt x) q2 (Some i) Hi Hwk); try done.
    eapply alone; [done|by left|apply reply_fact_idle].
  - destruct (Z.eqb_spec (cq_free_space q2) 0) as [E|E]; [done|].
    eapply (inv_handler _ _ _ _ _ _ _ _ _ i _ (HFill pkt x (reply_words pkt x)) q2 m Hi Hwk); try done.
    + eexists. split; [by apply writes_start, reply_words_ok|]. apply answered_reply; [done|apply lenZ_packet].
    + intros j z _ Hz. by apply Hm.
  - destruct Hf as (z & Hz & Ha). destruct (writes_end _ _ Hin Hz) as [Hq Hc].
    eapply (inv_handler _ _ _ _ _ _ _ _ _ i _ HUnlock (push q2) m Hi Hwk); try done.
    + rewrite Hc, fmap_app. cbn [fmap list_fmap worker_tokens]. rewrite Ha. solve_Permutation.
    + intros u. apply reads_push; [done|apply Hz].
    + eapply alone; [done|right; by apply Hmu|apply reply_fact_idle].
  - destruct Hf as (z & Hz & Ha). apply writes_step in Hz as [Hk Hz].
    eapply (inv_handler _ _ _ _ _ _ _ _ _ i _ (HFill pkt x todo) (set_word (cq_head q2) k y q2) m Hi Hwk); try done.
    + by apply ok_set_word.
    + by rewrite contents_set_word.
    + intros u. by apply reads_set_word.
    + by exists z.
    + eapply alone; [done|right; by apply Hmu|apply reply_fact_idle].
  - destruct (oi_queue _ _ _ Hi) as (ns & js & Hq). cbn [pool] in Hq.
    destruct (qd_running _ _ _ Hq _ _ Hwk) as [a Ha]. pose proof (queued_free p ns js i a Hq Ha) as Hq'.
    unfold job_return. cbn [pool set_field]. rewrite Hwk, Ha. set (p' := go i Top _) in *.
    destruct (inflight_worker q1 q2 kts w p m sv fn i _ q2 Hwk) as (rest & J1 & J2).
    apply (oinv_wstep _ _ _ _ _ _ _ _ _ Hi q2 p' None sv); try apply Hi; try done; [..|by exists ns, js].
    + rewrite <- (oi_tokens _ _ _ Hi), J1, <- (J2 Top None sv). unfold inflight, pool_tokens. cbn [out_q in_q watch pool].
      rewrite (queued_jobs _ _ _ Hq'), (queued_jobs (go i Top p) ns js) by (by eapply queued_go). done.
    + intros j z. unfold p', go. cbn [workers set_field]. rewrite nthZ_updZ. case_decide as E; [done|].
      apply (alone q2 q2 m i (workers p) None); [done|right; by apply Hmu|apply reply_fact_idle|].
      intros ->. apply E. split; [done|by eapply nthZ_Some_range].
Qed.

(** ** All steps *)

(** The proxy's [malloc] finds room for the jobs. *)
Definition has_memory (e : event) : Prop :=
  match e with EWatch memory _ => memory = true | _ => True end.

Lemma oinv_step s tk e : has_memory e -> oinv tids s tk ->
  exists tk', oinv tids (offload_step g_ukid offloaded s e) tk'.
Proof.
  intros He Hi. destruct e as [t new|memory wk|i v|created|i]; cbn [offload_step].
  - by eapply inv_kernel.
  - cbn in He. subst memory. exists tk. by apply inv_watch.
  - destruct (nthZ (workers (pool s)) i) as [x|] eqn:Hx.
    + destruct x; try (exists tk; destruct s; apply (inv_quiet _ _ _ _ _ _ _ _ _ Hi), quiet_executor; congruence).
      by eapply inv_handle.
    + exists tk. destruct s. apply (inv_quiet _ _ _ _ _ _ _ _ _ Hi), quiet_executor. congruence.
  - exists tk. destruct s. apply (inv_quiet _ _ _ _ _ _ _ _ _ Hi), quiet_add_thread.
  - exists tk. destruct s. apply (inv_quiet _ _ _ _ _ _ _ _ _ Hi), quiet_wake.
Qed.

Lemma oinv_start b m1 m2 n : 0 <= b <= 30 -> oinv tids (offload_start (2 ^ b) m1 m2 tids n) ∅.
Proof.
  intros Hb. pose proof (pow2_pos b).
  assert (forall m, queue_ok (cq_init (2 ^ b) (mkQueue 0 0 0 FALSE m))) as Hq.
  { intros mm. split; cbn; [by exists b|lia|lia]. }
  assert (forall m, contents (cq_init (2 ^ b) (mkQueue 0 0 0 FALSE m)) = []) as Hc.
  { intros mm. pose proof (avail_contents _ (Hq mm)) as [_ Ha].
    destruct (contents _); [done|]. exfalso. by apply Ha. }
  assert (run (create_pool (J := io_packet_t) (L := handler_pc) n) = 1 /\
    workers (create_pool (J := io_packet_t) (L := handler_pc) n) = [] /\
    linked (create_pool (J := io_packet_t) (L := handler_pc) n) /\
    jobs (create_pool (J := io_packet_t) (L := handler_pc) n) = []) as (P1 & P2 & P4 & P3).
  { destruct (inv_create (J := io_packet_t) (L := handler_pc) n) as [(ns & js & Hqd & _) _ _].
    split_and!; [..|by exists ns, js|]; unfold create_pool, add_threads_to_pool; by destruct (n <? 1). }
  assert (forall t pc, gset_to_gmap KIdle tids !! t = Some pc -> pc = KIdle) as Hk.
  { intros t pc. rewrite lookup_gset_to_gmap_Some. by intros [_ <-]. }
  split; cbn [offload_start out_q in_q kthreads watch pool ch_mutex served finished]; try done.
  - apply dom_gset_to_gmap.
  - unfold inflight, pool_tokens. cbn [out_q in_q watch pool offload_start]. by rewrite !Hc, P2, P3.
  - by intros t pc ->%Hk.
  - exists None. split; [done|]. by intros t pc ->%Hk.
  - exists None. split; [done|]. by intros t pc ->%Hk.
  - intros i h. rewrite P2. unfold nthZ. by destruct (0 <=? i).
Qed.

Lemma oinv_run b m1 m2 n es : 0 <= b <= 30 -> Forall has_memory es ->
  exists tk, oinv tids (offload_run g_ukid offloaded es (offload_start (2 ^ b) m1 m2 tids n)) tk.
Proof.
  intros Hb Hes. assert (exists tk, oinv tids (offload_start (2 ^ b) m1 m2 tids n) tk) as Hs
    by (eexists; by apply oinv_start).
  revert Hs. generalize (offload_start (2 ^ b) m1 m2 tids n). unfold offload_run.
  induction Hes as [|e es He Hes IH]; [done|]. intros s [tk Hi]. cbn [fold_left]. apply IH.
  by eapply oinv_step.
Qed.

(** The tokens of one thread, among all *)
Lemma inflight_of s tk t x : oinv tids s tk -> tk !! t = Some x ->
  filter (fun y => token_tid y = offload_tid t) (inflight s) = [x].
Proof.
  intros Hi Hx. destruct (owner_tid _ _ _ _ Hi Hx) as [Ht Hk].
  apply Permutation_singleton_r. rewrite (oi_tokens _ _ _ Hi), <- (map_to_list_delete tk t x Hx).
  rewrite fmap_cons, filter_cons_True by done. f_equiv. apply Permutation_nil_r.
  apply elem_of_nil_inv. intros y [Hy ([t' z] & -> & Hz)%list_elem_of_fmap]%list_elem_of_filter.
  apply elem_of_map_to_list, lookup_delete_Some in Hz as [Hne Hz]. cbn in Hy.
  destruct (owner_tid _ _ _ _ Hi Hz) as [Ht' Hk']. apply Hne, tids_apart; congruence.
Qed.
End kernel.

(** C3: whatever the interleaving of the kernel threads that call out over a
    channel, of the watch thread and of the pool's workers, every call of a kernel
    thread is executed by the host once, with the function and the parameters it
    was made with, and its result is returned to that thread: the results a
    thread has got are those of the calls executed for it, in order, with at most
    one call executed and not yet returned; a thread that is back from its calls
    has none; and for a thread that waits there is exactly one packet on its way,
    its request or its reply. *)
Theorem calls_answered_once b m1 m2 (tids : gset Z) n es :
  0 <= b <= 30 ->
  (forall t, t ∈ tids -> - 2 ^ 31 <= g_ukid * 10000 + t < 2 ^ 31) ->
  Forall has_memory es ->
  let s := offload_run g_ukid offloaded es (offload_start (2 ^ b) m1 m2 tids n) in
  forall t pc, kthreads s !! t = Some pc ->
    let k := offload_tid t in
    let ex := calls k (served s) in
    let fin := calls k (finished s) in
    match stage_of pc with
    | NotSent _ => ex = fin
    | Waiting r =>
        (filter (fun x => token_tid x = k) (inflight s) = [Asked k r] /\ ex = fin) \/
        (exists v, filter (fun x => token_tid x = k) (inflight s) = [Answered k v] /\
           ex = fin ++ [(k, r, v)])
    | Got r v | Done r v => ex = fin ++ [(k, r, v)]
    end.
Proof.
  intros Hb Hr Hes s t pc Ht k ex fin.
  assert (forall t t', t ∈ tids -> t' ∈ tids -> offload_tid t = offload_tid t' -> t = t') as Hap.
  { intros x y Hx%Hr Hy%Hr. unfold Offload.offload_tid. rewrite !s32_small by done. lia. }
  destruct (oinv_run tids Hap b m1 m2 n es Hb Hes) as [tk Hi].
  pose proof (oi_stage _ _ _ Hi t pc Ht) as Hst. fold s in Hst. fold k ex fin in Hst.
  destruct (stage_of pc); cbn [stage_ok] in Hst; [by apply Hst| |by apply Hst..].
  destruct Hst as (_ & [[Hx He]|(v & Hx & He)]); [left|right; exists v]; split; try done;
    by apply (inflight_of tids Hap s tk t).
Qed.
End facts.

(** One call of one thread, from the call to its return *)
Definition one_call : request := mkRequest 5 3 0x1000 64 0 0 0.

Definition one_round : list event :=
  EThread true :: replicate 4 (EWorker 0 0) ++ replicate 14 (EKernel 7 one_call) ++
  replicate 16 (EWatch true 0) ++ replicate 12 (EWorker 0 64) ++ replicate 6 (EKernel 7 one_call).

Definition one_end : offload :=
  offload_run 1 (Z.eqb 5) one_round (offload_start (2 ^ 2) (fun _ => 0) (fun _ => 0) {[7]} 1).

Lemma calls_answered_once_witness :
  finished one_end = [(10007, one_call, 64)] /\
  calls (offload_tid 1 7) (served one_end) = calls (offload_tid 1 7) (finished one_end).
Proof.
  split; [vm_compute; reflexivity|].
  refine (calls_answered_once 1 (Z.eqb 5) 2 (fun _ => 0) (fun _ => 0) {[7]} 1 one_round _ _ _ 7 KIdle _).
  - lia.
  - intros t ->%elem_of_singleton. lia.
  - apply Forall_forall. intros e He. repeat (apply elem_of_cons in He as [->|He]; [exact I || reflexivity|]).
    by apply not_elem_of_nil in He.
  - vm_compute. reflexivity.
Defined.
