(* ===== verification/Paging.v ===== *)
(** * The kernel's page tables ([kernel/page.c], [kernel/page.h])

    The tables are pages of physical memory that the kernel writes through its
    linear map ([va]) and the processor walks by physical address.  [translate] is
    the processor's walk of four levels with pages of 4 KiB, 2 MiB and 1 GiB; the
    theorems say which addresses the tables that [kernel_pagetables_init] builds
    map, and to what. *)

From S2P Require Import Prelude.
From S2P Require Import Utility.
From S2P Require Import Memory.
From S2P Require Import ShmPool.

(** ** Constants *)

Definition PAGE_FLAGS_P : Z := 0x1.

Definition PAGE_FLAGS_RW : Z := 0x2.

Definition PAGE_FLAGS_US : Z := 0x4.

Definition PAGE_FLAGS_PCD : Z := 0x10.

Definition PAGE_FLAGS_PS : Z := 0x80.

Definition PAGE_FLAGS_DEFAULT : Z := Z.lor PAGE_FLAGS_P PAGE_FLAGS_RW.

Definition PAGE_FLAGS_NOCACHE : Z := Z.lor (Z.lor PAGE_FLAGS_P PAGE_FLAGS_RW) PAGE_FLAGS_PCD.

Definition PAGE_MAX_ENTRY_COUNT : Z := 512.

Definition PAGE_SIZE_2M : Z := 0x200000.

Definition PAGE_SIZE_1G : Z := 0x40000000.

Section paging.
(** [g_memory_start], [g_memory_end] and [g_shared_memory] *)
Context (g_memory_start g_memory_end g_shared_memory : Z).

Definition CONFIG_KERNEL_PAGETABLE_ADDRESS : Z := u64 (0x200000 + g_memory_start).

Local Notation va := (va g_memory_start).

(** [pa(v)] *)
Definition pa (v : Z) : Z := u64 (v - CONFIG_PAGE_OFFSET + g_memory_start).

(** ** The operations *)

(** Entry [i] of the table at the virtual address [table] *)
Definition set_page_entry_data (table i base_address flags : Z) (m : memory) : memory :=
  store64 m (table + 8 * i) (Z.lor base_address flags).

(** Consecutive entries from [i] on for consecutive pages of [step] bytes: the
    memory and the address after the last *)
Fixpoint map_pages (n : nat) (table i mapping_address step flags : Z) (m : memory) : memory * Z :=
  match n with
  | O => (m, mapping_address)
  | S n' =>
      map_pages n' table (i + 1) (u64 (mapping_address + step)) step flags
        (set_page_entry_data table i mapping_address flags m)
  end.

Definition clear_table (table : Z) (m : memory) : memory :=
  fst (map_pages (Z.to_nat PAGE_MAX_ENTRY_COUNT) table 0 0 0 0 m).

Definition kernel_pagetables_init (address : Z) (m : memory) : memory :=
  let table_flags := Z.lor PAGE_FLAGS_DEFAULT PAGE_FLAGS_US in
  let page_flags := Z.lor PAGE_FLAGS_DEFAULT PAGE_FLAGS_PS in
  let giant_flags := Z.lor page_flags PAGE_FLAGS_US in
  let pml4t_entry := va address in
  let m := clear_table pml4t_entry m in
  let m := set_page_entry_data pml4t_entry 0 (u64 (address + 0x1000)) table_flags m in
  let m := set_page_entry_data pml4t_entry 256 (u64 (address + 0x1000)) table_flags m in
  let pdpt_entry := va (address + 0x1000) in
  let m := clear_table pdpt_entry m in
  let m := set_page_entry_data pdpt_entry 0 (u64 (address + 0x2000)) table_flags m in
  let m := set_page_entry_data pdpt_entry 3 (u64 (address + 0x3000)) table_flags m in
  let pd_entry := va (address + 0x2000) in
  let m := set_page_entry_data pd_entry 0 0 page_flags m in
  let '(m, mapping_address) :=
    map_pages (Z.to_nat (PAGE_MAX_ENTRY_COUNT - 1)) pd_entry 1 (u64 (g_shared_memory + PAGE_SIZE_2M))
      PAGE_SIZE_2M page_flags m in
  let '(m, _) := map_pages 2 pdpt_entry 1 mapping_address PAGE_SIZE_1G giant_flags m in
  let pd_entry := va (address + 0x3000) in
  let m := set_page_entry_data pd_entry 0 0 page_flags m in
  let '(m, mapping_address) :=
    map_pages (Z.to_nat (PAGE_MAX_ENTRY_COUNT - 1)) pd_entry 1 address PAGE_SIZE_2M page_flags m in
  let n := Z.shiftr (u64 (g_memory_end - g_memory_start)) 30 in
  fst (map_pages (Z.to_nat n) pdpt_entry 4 mapping_address PAGE_SIZE_1G giant_flags m).

Definition remove_low_identical_mapping (pgd : Z) (m : memory) : memory :=
  let m := clear_table (va (pgd + 0x2000)) m in
  store64 m (va pgd + 8 * 0) 0.

(** ** The processor's walk *)

(** The QWORD at physical address [p + 8 * i], read through the linear map *)
Definition entry (m : memory) (p i : Z) : Z := load64 m (va p + 8 * i).

Definition present (e : Z) : bool := Z.testbit e 0.

Definition large (e : Z) : bool := Z.testbit e 7.

(** Bits [s] to 51 of an entry: the address of a table or of a page *)
Definition frame (s e : Z) : Z := Z.shiftl (Z.land (Z.shiftr e s) (Z.ones (52 - s))) s.

Definition index (v s : Z) : Z := Z.land (Z.shiftr v s) 511.

Definition offset (v s : Z) : Z := Z.land v (Z.ones s).

Definition translate (m : memory) (cr3 v : Z) : option Z :=
  let e4 := entry m cr3 (index v 39) in
  if negb (present e4) then None
  else
    let e3 := entry m (frame 12 e4) (index v 30) in
    if negb (present e3) then None
    else if large e3 then Some (frame 30 e3 + offset v 30)
    else
      let e2 := entry m (frame 12 e3) (index v 21) in
      if negb (present e2) then None
      else if large e2 then Some (frame 21 e2 + offset v 21)
      else
        let e1 := entry m (frame 12 e2) (index v 12) in
        if negb (present e1) then None else Some (frame 12 e1 + offset v 12).

(** ** Entries *)

Lemma testbit_multiple s base i : (2 ^ s | base) -> 0 <= i < s -> Z.testbit base i = false.
Proof. intros [k ->] Hi. apply Z.mul_pow2_bits_low. lia. Qed.

Lemma lor_flags s base f : 0 <= s -> (2 ^ s | base) -> 0 <= f < 2 ^ s -> Z.lor base f = base + f.
Proof.
  intros Hs Hb Hf. pose proof (Z.add_lor_land base f) as E.
  assert (Z.land base f = 0) as E0; [|lia]. apply Z.bits_inj'. intros i Hi.
  rewrite Z.land_spec, Z.bits_0. destruct (decide (i < s)).
  - by rewrite (testbit_multiple s).
  - rewrite (lt_pow2_bits f s) by lia. apply andb_false_r.
Qed.

Lemma frame_entry s base f : 0 <= s <= 52 -> (2 ^ s | base) -> 0 <= base < 2 ^ 52 -> 0 <= f < 2 ^ s ->
  frame s (Z.lor base f) = base.
Proof.
  intros Hs Hb Hr Hf. unfold frame. rewrite (lor_flags s) by (done || lia).
  pose proof (pow2_pos s). destruct Hb as [k ->].
  rewrite shiftr_pow2, Z.land_ones, shiftl_pow2, Z.div_add_l, (Z.div_small f) by lia.
  rewrite Z.add_0_r, Z.mod_small; [done|]. split; [nia|].
  apply (Z.mul_lt_mono_pos_r (2 ^ s)); [lia|]. rewrite <- Z.pow_add_r by lia.
  replace (52 - s + s) with 52 by lia. lia.
Qed.

Lemma testbit_entry s base f i : (2 ^ s | base) -> 0 <= i < s -> Z.testbit (Z.lor base f) i = Z.testbit f i.
Proof. intros Hb Hi. by rewrite Z.lor_spec, (testbit_multiple s). Qed.

(** ** Writes *)

Definition aligned (t : Z) : Prop := (4096 | t).

Lemma read_set t i base f m t' j : aligned t -> aligned t' -> 0 <= i < 512 -> 0 <= j < 512 ->
  0 <= Z.lor base f < 2 ^ 64 ->
  load64 (set_page_entry_data t i base f m) (t' + 8 * j) =
  if decide (t' = t /\ j = i) then Z.lor base f else load64 m (t' + 8 * j).
Proof.
  intros [a ->] [b ->] Hi Hj Hv. unfold set_page_entry_data. case_decide as E.
  - destruct E as [E ->]. rewrite E. by apply load64_store64.
  - apply load64_store64_ne. lia.
Qed.

Lemma read_map_pages n t i a step f m t' j : aligned t -> aligned t' -> 0 <= i -> i + Z.of_nat n <= 512 ->
  0 <= j < 512 -> 0 <= step -> 0 <= a -> a + Z.of_nat n * step < 2 ^ 64 -> 0 <= f < 2 ^ 12 ->
  (2 ^ 12 | a) -> (2 ^ 12 | step) ->
  load64 (fst (map_pages n t i a step f m)) (t' + 8 * j) =
    (if decide (t' = t /\ i <= j < i + Z.of_nat n) then Z.lor (a + (j - i) * step) f
     else load64 m (t' + 8 * j)) /\
  snd (map_pages n t i a step f m) = a + Z.of_nat n * step.
Proof.
  intros Ht Ht' Hi Hn Hj Hs. revert i a m Hi Hn. induction n as [|n IH]; intros i a m Hi Hn Ha Hb Hf Da Ds.
  - cbn [map_pages fst snd]. rewrite decide_False by lia. split; [done|lia].
  - cbn [map_pages]. assert (0 <= Z.lor a f < 2 ^ 64) as Hv.
    { rewrite (lor_flags 12) by (done || lia). destruct Da as [k ->]. lia. }
    rewrite u64_small by lia.
    destruct (IH (i + 1) (a + step) (set_page_entry_data t i a f m)) as [-> ->]; try lia;
      [by apply Z.divide_add_r|done|]. split; [|lia].
    rewrite read_set by (done || lia). destruct (decide (t' = t)) as [->|Hne].
    + destruct (decide (j = i)) as [->|].
      * rewrite decide_False by lia. rewrite !decide_True by lia. f_equal. lia.
      * destruct (decide (i + 1 <= j < i + 1 + Z.of_nat n)).
        -- rewrite !decide_True by lia. f_equal. lia.
        -- rewrite !decide_False by lia. done.
    + by rewrite !decide_False by tauto.
Qed.

(** ** The tables that [kernel_pagetables_init] builds *)

(** Memory comes in gigabytes, as [Main] shifts it, and fits the tables and the
    52 bits of a physical address. *)
Record layout_ok : Prop := {
  lo_start : 0 <= g_memory_start;
  lo_start_gb : (2 ^ 30 | g_memory_start);
  lo_end : g_memory_start <= g_memory_end;
  lo_size : (g_memory_end - g_memory_start) / 2 ^ 30 <= 508;
  lo_fits : g_memory_end + 2 ^ 30 < 2 ^ 51;
  lo_shared : 0 <= g_shared_memory < 2 ^ 51;
  lo_shared_gb : (2 ^ 30 | g_shared_memory)
}.

Hypothesis layout : layout_ok.

Local Notation A := CONFIG_KERNEL_PAGETABLE_ADDRESS.

(** The number of gigabytes *)
Local Notation n_gb := ((g_memory_end - g_memory_start) / 2 ^ 30).

(** The table at [A + k], as the kernel addresses it *)
Definition table (k : Z) : Z := CONFIG_PAGE_OFFSET + 0x200000 + k.

Lemma address_eq : A = 0x200000 + g_memory_start.
Proof. destruct layout. unfold CONFIG_KERNEL_PAGETABLE_ADDRESS. apply u64_small. lia. Qed.

Lemma va_table k : 0 <= k < 0x10000 -> va (A + k) = table k.
Proof.
  intros Hk. rewrite address_eq. destruct layout. unfold Memory.va, table, CONFIG_PAGE_OFFSET.
  rewrite u64_small; lia.
Qed.

Lemma table_aligned k : (4096 | k) -> aligned (table k).
Proof. intros [x ->]. exists (0xFFFF8000C0200 + x). unfold table, CONFIG_PAGE_OFFSET. lia. Qed.

(** What entry [j] of the table at offset [k] holds *)
Definition built (k j : Z) : Z :=
  if k =? 0 then
    if (j =? 0) || (j =? 256) then Z.lor (A + 0x1000) 0x7 else 0
  else if k =? 0x1000 then
    if j =? 0 then Z.lor (A + 0x2000) 0x7
    else if j =? 3 then Z.lor (A + 0x3000) 0x7
    else if j <? 3 then Z.lor (g_shared_memory + j * 2 ^ 30) 0x87
    else if j <? 4 + n_gb then Z.lor (g_memory_start + (j - 3) * 2 ^ 30) 0x87
    else 0
  else if j =? 0 then 0x83
  else if k =? 0x2000 then Z.lor (g_shared_memory + j * 2 ^ 21) 0x83
  else Z.lor (g_memory_start + j * 2 ^ 21) 0x83.

(** Reads of the table at [k] after writes to the one at [k0] *)
Lemma read_set_table k0 i base f m k j : (4096 | k0) -> (4096 | k) -> 0 <= i < 512 -> 0 <= j < 512 ->
  0 <= Z.lor base f < 2 ^ 64 ->
  load64 (set_page_entry_data (table k0) i base f m) (table k + 8 * j) =
  if decide (k = k0 /\ j = i) then Z.lor base f else load64 m (table k + 8 * j).
Proof.
  intros H1 H2 Hi Hj Hv. rewrite read_set by (done || by apply table_aligned).
  apply decide_ext. unfold table. lia.
Qed.

Lemma read_map_table n k0 i a step f m m' a' k j : map_pages n (table k0) i a step f m = (m', a') ->
  (4096 | k0) -> (4096 | k) -> 0 <= i -> i + Z.of_nat n <= 512 -> 0 <= j < 512 ->
  0 <= step -> 0 <= a -> a + Z.of_nat n * step < 2 ^ 64 -> 0 <= f < 2 ^ 12 ->
  (2 ^ 12 | a) -> (2 ^ 12 | step) ->
  load64 m' (table k + 8 * j) =
    (if decide (k = k0 /\ i <= j < i + Z.of_nat n) then Z.lor (a + (j - i) * step) f
     else load64 m (table k + 8 * j)) /\
  a' = a + Z.of_nat n * step.
Proof.
  intros E H1 H2 Hi Hn Hj Hs Ha Hb Hf Da Ds.
  destruct (read_map_pages n (table k0) i a step f m (table k) j) as [R1 R2];
    try done; try by apply table_aligned. rewrite E in R1, R2. split; [|done]. etrans; [exact R1|].
  apply decide_ext. unfold table. lia.
Qed.

Lemma read_clear_table k0 m k j : (4096 | k0) -> (4096 | k) -> 0 <= j < 512 ->
  load64 (clear_table (table k0) m) (table k + 8 * j) =
  if decide (k = k0) then 0 else load64 m (table k + 8 * j).
Proof.
  intros H1 H2 Hj. unfold clear_table. destruct (map_pages _ (table k0) 0 0 0 0 m) as [m' a'] eqn:E.
  destruct (read_map_table _ _ _ _ _ _ _ _ _ k j E) as [R _];
    try (unfold PAGE_MAX_ENTRY_COUNT; assumption || lia); try apply Z.divide_0_r. cbn [fst]. rewrite R.
  clear E R. unfold PAGE_MAX_ENTRY_COUNT. destruct (decide (k = k0)) as [->|].
  - rewrite decide_True by lia. by rewrite Z.mul_0_r.
  - by rewrite decide_False by tauto.
Qed.

Lemma table_flags_ok base f : 0 <= base < 2 ^ 52 -> 0 <= f < 2 ^ 12 -> 0 <= Z.lor base f < 2 ^ 64.
Proof.
  intros Hb Hf. assert (0 <= Z.lor base f) by (apply Z.lor_nonneg; lia). split; [done|].
  apply bits_lt_pow2; [done|lia|]. intros i Hi. rewrite Z.lor_spec.
  rewrite (lt_pow2_bits base 52), (lt_pow2_bits f 12); done || lia.
Qed.

Lemma n_gb_eq : Z.shiftr (u64 (g_memory_end - g_memory_start)) 30 = n_gb /\ 0 <= n_gb.
Proof.
  destruct layout. rewrite u64_small, shiftr_pow2 by lia. split; [done|].
  apply Z.div_pos; lia.
Qed.

(** Decides the conditions that arithmetic decides, and splits on the others. *)
Ltac resolve :=
  repeat match goal with
  | |- context [decide ?P] =>
      first [rewrite (decide_False (P := P)) by lia | rewrite (decide_True (P := P)) by lia
            | destruct (decide P)]
  | |- context [?a =? ?b] => destruct (Z.eqb_spec a b); try lia
  | |- context [?a <? ?b] => destruct (Z.ltb_spec a b); try lia
  end.

Lemma built_spec m k j : k ∈ [0; 0x1000; 0x2000; 0x3000] -> 0 <= j < 512 ->
  load64 (kernel_pagetables_init A m) (table k + 8 * j) = built k j.
Proof.
  intros Hk Hj. assert (4096 | k) as Dk.
  { repeat (apply elem_of_cons in Hk as [->|Hk]; [by apply Znumtheory.Zmod_divide|]).
    by apply not_elem_of_nil in Hk. }
  pose proof layout as [L1 L2 L3 L4 L5 L6 L7]. destruct n_gb_eq as [En Hn]. pose proof address_eq as EA.
  assert ((2 ^ 12 | g_memory_start) /\ (2 ^ 12 | g_shared_memory)) as [D1 D2].
  { split; (eapply Z.divide_trans; [|done]); by apply Znumtheory.Zmod_divide. }
  assert (va A = table 0) as E0 by (rewrite <- (Z.add_0_r A); by apply va_table).
  unfold kernel_pagetables_init. rewrite E0, !va_table, En by lia.
  rewrite (u64_small (A + 0x1000)), (u64_small (A + 0x2000)), (u64_small (A + 0x3000)),
    (u64_small (g_shared_memory + _)) by (unfold PAGE_SIZE_2M; lia).
  change (Z.lor (Z.lor PAGE_FLAGS_DEFAULT PAGE_FLAGS_PS) PAGE_FLAGS_US) with 0x87.
  change (Z.lor PAGE_FLAGS_DEFAULT PAGE_FLAGS_PS) with 0x83.
  change (Z.lor PAGE_FLAGS_DEFAULT PAGE_FLAGS_US) with 0x7.
  assert (forall x c, (2 ^ 12 | x) -> c mod 2 ^ 12 = 0 -> (2 ^ 12 | x + c)) as Dc.
  { intros x c Hx Hc. apply Z.divide_add_r; [done|by apply Znumtheory.Zmod_divide]. }
  assert ((2 ^ 12 | PAGE_SIZE_2M) /\ (2 ^ 12 | PAGE_SIZE_1G)) as [D3 D4]
    by (split; by apply Znumtheory.Zmod_divide).
  match goal with |- context [map_pages ?n ?t 1 ?a ?s ?f ?x] =>
    destruct (map_pages n t 1 a s f x) as [m1 a1] eqn:E1 end.
  match goal with |- context [map_pages ?n ?t 1 ?a ?s ?f ?x] =>
    destruct (map_pages n t 1 a s f x) as [m2 a2] eqn:E2 end.
  match goal with |- context [map_pages ?n ?t 1 ?a ?s ?f ?x] =>
    destruct (map_pages n t 1 a s f x) as [m3 a3] eqn:E3 end.
  match goal with |- context [map_pages ?n ?t 4 ?a ?s ?f ?x] =>
    destruct (map_pages n t 4 a s f x) as [m4 a4] eqn:E4 end.
  cbn [fst]. unfold PAGE_MAX_ENTRY_COUNT, PAGE_SIZE_2M, PAGE_SIZE_1G in *.
  destruct (read_map_table _ _ _ _ _ _ _ _ _ k j E1) as [R1 Ea1]; try (assumption || lia);
    [by apply Znumtheory.Zmod_divide|apply Dc; [assumption|reflexivity]|].
  destruct (read_map_table _ _ _ _ _ _ _ _ _ k j E2) as [R2 _]; try (assumption || lia);
    [by apply Znumtheory.Zmod_divide|rewrite Ea1; repeat (apply Dc; [|reflexivity]); assumption|].
  destruct (read_map_table _ _ _ _ _ _ _ _ _ k j E3) as [R3 Ea3]; try (assumption || lia);
    [by apply Znumtheory.Zmod_divide|rewrite EA, Z.add_comm; apply Dc; [assumption|reflexivity]|].
  destruct (read_map_table _ _ _ _ _ _ _ _ _ k j E4) as [R4 _]; try (assumption || lia);
    [by apply Znumtheory.Zmod_divide|rewrite Ea3, EA, (Z.add_comm _ g_memory_start);
     repeat (apply Dc; [|reflexivity]); assumption|].
  clear E1 E2 E3 E4.
  repeat rewrite ?R4, ?R3, ?R2, ?R1, ?read_set_table, ?read_clear_table
    by first [assumption|lia|by apply Znumtheory.Zmod_divide|apply table_flags_ok; lia].
  clear R1 R2 R3 R4. subst a1 a3.
  repeat (apply elem_of_cons in Hk as [->|Hk]); try (by apply not_elem_of_nil in Hk);
    unfold built; cbn [Z.eqb Pos.eqb]; resolve; cbn [orb]; try reflexivity; f_equal; lia.
Qed.

(** ** What the tables map *)

(** The tables [ks] of [m] hold what [kernel_pagetables_init] writes, the root at
    least in its entry for the upper half. *)
Definition tables (ks : list Z) (m : memory) : Prop :=
  forall k j, k ∈ ks -> 0 <= j < 512 -> (k = 0 -> j = 256) -> load64 m (table k + 8 * j) = built k j.

Lemma index_eq v s : 0 <= s -> index v s = (v / 2 ^ s) mod 512.
Proof. intros Hs. unfold index. change 511 with (Z.ones 9). by rewrite Z.land_ones, shiftr_pow2 by lia. Qed.

Lemma offset_eq v s : 0 <= s -> offset v s = v mod 2 ^ s.
Proof. intros Hs. unfold offset. by rewrite Z.land_ones by lia. Qed.

(** The upper half: [y] bytes above [CONFIG_SHARED_MEMORY] *)
Lemma high_index y s : 0 <= s <= 30 -> 0 <= y -> index (CONFIG_SHARED_MEMORY + y) s = (y / 2 ^ s) mod 512.
Proof.
  intros Hs Hy. rewrite index_eq by lia. pose proof (pow2_pos s).
  replace (CONFIG_SHARED_MEMORY + y) with (y + 0x1FFFF00 * 2 ^ 9 * 2 ^ (30 - s) * 2 ^ s).
  - rewrite Z.div_add by lia. replace (0x1FFFF00 * 2 ^ 9 * 2 ^ (30 - s)) with (0x1FFFF00 * 2 ^ (30 - s) * 512) by lia.
    by rewrite Z.mod_add.
  - rewrite <- Z.mul_assoc, <- Z.pow_add_r by lia. replace (30 - s + s) with 30 by lia.
    unfold CONFIG_SHARED_MEMORY. lia.
Qed.

Lemma high_offset y s : 0 <= s <= 30 -> offset (CONFIG_SHARED_MEMORY + y) s = y mod 2 ^ s.
Proof.
  intros Hs. rewrite offset_eq by lia. pose proof (pow2_pos s).
  replace (CONFIG_SHARED_MEMORY + y) with (y + 0x1FFFF00 * 2 ^ 9 * 2 ^ (30 - s) * 2 ^ s).
  - by rewrite Z.mod_add by lia.
  - rewrite <- Z.mul_assoc, <- Z.pow_add_r by lia. replace (30 - s + s) with 30 by lia.
    unfold CONFIG_SHARED_MEMORY. lia.
Qed.

Lemma high_pml4 y : 0 <= y < 2 ^ 39 -> index (CONFIG_SHARED_MEMORY + y) 39 = 256.
Proof.
  intros Hy. rewrite index_eq by lia. unfold CONFIG_SHARED_MEMORY.
  replace (0xFFFF800000000000 + y) with (y + 0x1FFFF00 * 2 ^ 39) by lia.
  rewrite Z.div_add, Z.div_small by lia. done.
Qed.

Lemma entry_table m k j : 0 <= k < 0x10000 -> entry m (A + k) j = load64 m (table k + 8 * j).
Proof. intros Hk. unfold entry. by rewrite va_table. Qed.

Lemma entry_root m j : entry m A j = load64 m (table 0 + 8 * j).
Proof. rewrite <- (entry_table m 0) by lia. by rewrite Z.add_0_r. Qed.

(** An entry for the table at [A + k], and one for a page of [2 ^ s] bytes *)
Lemma table_entry k : k ∈ [0x1000; 0x2000; 0x3000] ->
  present (Z.lor (A + k) 0x7) = true /\ large (Z.lor (A + k) 0x7) = false /\
  frame 12 (Z.lor (A + k) 0x7) = A + k.
Proof.
  intros Hk. pose proof address_eq as EA. pose proof layout as [L1 L2 L3 L4 L5 L6 L7].
  assert (0 <= k < 0x10000 /\ (2 ^ 12 | A + k)) as [Hr D].
  { rewrite EA. assert (2 ^ 12 | g_memory_start) by (eapply Z.divide_trans; [|done]; by apply Znumtheory.Zmod_divide).
    repeat (apply elem_of_cons in Hk as [->|Hk]); try (by apply not_elem_of_nil in Hk);
      (split; [lia|]); repeat apply Z.divide_add_r; try done; by apply Znumtheory.Zmod_divide. }
  unfold present, large. rewrite !(testbit_entry 12) by (done || lia).
  rewrite frame_entry by (done || lia). done.
Qed.

Lemma page_entry s base f : 12 <= s <= 30 -> (2 ^ s | base) -> 0 <= base < 2 ^ 52 -> f = 0x83 \/ f = 0x87 ->
  present (Z.lor base f) = true /\ large (Z.lor base f) = true /\ frame s (Z.lor base f) = base.
Proof.
  intros Hs D Hb Hf. pose proof (pow2_mono 12 s). unfold present, large.
  rewrite !(testbit_entry s) by (done || lia). rewrite frame_entry by (done || lia).
  by destruct Hf as [-> | ->].
Qed.

Section walk.
Context (m : memory) (y : Z).
Hypothesis y_range : 0 <= y < 2 ^ 39.
Local Notation v := (CONFIG_SHARED_MEMORY + y).
Local Notation g := (y / 2 ^ 30).

(** The walk reaches the level of the gigabytes. *)
Lemma walk_root : tables [0; 0x1000] m ->
  translate m A v =
  let e3 := built 0x1000 g in
  if negb (present e3) then None
  else if large e3 then Some (frame 30 e3 + offset v 30)
  else
    let e2 := entry m (frame 12 e3) (index v 21) in
    if negb (present e2) then None
    else if large e2 then Some (frame 21 e2 + offset v 21)
    else
      let e1 := entry m (frame 12 e2) (index v 12) in
      if negb (present e1) then None else Some (frame 12 e1 + offset v 12).
Proof.
  intros Ht. assert (0 <= g < 512) as Hg by (split; [apply Z.div_pos|apply Z.div_lt_upper_bound]; lia).
  assert (entry m A 256 = Z.lor (A + 0x1000) 0x7) as E4.
  { rewrite entry_root. apply (Ht 0 256); [set_solver|lia|done]. }
  assert (entry m (A + 0x1000) g = built 0x1000 g) as E3.
  { rewrite entry_table by lia. apply Ht; [set_solver|lia..]. }
  unfold translate. cbv zeta. rewrite high_pml4, E4 by done.
  destruct (table_entry 0x1000) as (-> & _ & ->); [set_solver|]. cbn [negb].
  by rewrite (high_index y 30), (Z.mod_small g), E3 by lia.
Qed.

(** Gigabyte pages *)
Lemma walk_1G base f : tables [0; 0x1000] m -> built 0x1000 g = Z.lor base f ->
  (2 ^ 30 | base) -> 0 <= base < 2 ^ 52 -> f = 0x83 \/ f = 0x87 ->
  translate m A v = Some (base + y mod 2 ^ 30).
Proof.
  intros Ht E D Hb Hf. rewrite walk_root by done. cbv zeta. rewrite E.
  destruct (page_entry 30 base f) as (-> & -> & ->); try (done || lia).
  cbn. by rewrite high_offset by lia.
Qed.

(** A page directory of 2 MiB pages *)
Lemma walk_2M k base f : tables [0; 0x1000; k] m -> k ∈ [0x2000; 0x3000] ->
  built 0x1000 g = Z.lor (A + k) 0x7 -> built k ((y / 2 ^ 21) mod 512) = Z.lor base f ->
  (2 ^ 21 | base) -> 0 <= base < 2 ^ 52 -> f = 0x83 \/ f = 0x87 ->
  translate m A v = Some (base + y mod 2 ^ 21).
Proof.
  intros Ht Hk E E2 D Hb Hf.
  assert (tables [0; 0x1000] m) as Ht' by (intros ? ? H; apply Ht; set_solver).
  assert (0 < k < 0x10000) as Hr by (repeat (apply elem_of_cons in Hk as [->|Hk]; [lia|]); by apply not_elem_of_nil in Hk).
  rewrite walk_root by done. cbv zeta. rewrite E. destruct (table_entry k) as (-> & -> & ->); [set_solver|]. cbn [negb].
  rewrite high_index by lia.
  assert (entry m (A + k) ((y / 2 ^ 21) mod 512) = Z.lor base f) as ->.
  { rewrite entry_table, <- E2 by lia. apply Ht; [set_solver|apply Z.mod_pos_bound; lia|lia]. }
  destruct (page_entry 21 base f) as (-> & -> & ->); try (done || lia).
  cbn. by rewrite high_offset by lia.
Qed.
End walk.

Lemma kernel_walk m y : tables [0; 0x1000; 0x3000] m -> 3 * 2 ^ 30 + 2 ^ 21 <= y < (4 + n_gb) * 2 ^ 30 ->
  translate m A (CONFIG_SHARED_MEMORY + y) = Some (g_memory_start + y - 3 * 2 ^ 30).
Proof.
  intros Ht Hy. pose proof layout as [L1 L2 L3 L4 L5 L6 L7]. destruct n_gb_eq as [_ Hn].
  pose proof (Z.mul_div_le (g_memory_end - g_memory_start) (2 ^ 30) ltac:(lia)) as Hd.
  pose proof (Z.div_mod y (2 ^ 30) ltac:(lia)) as Eg. pose proof (Z.mod_pos_bound y (2 ^ 30) ltac:(lia)).
  assert (3 <= y / 2 ^ 30 < 4 + n_gb) as Hg by (split; [apply Z.div_le_lower_bound|apply Z.div_lt_upper_bound]; lia).
  assert (tables [0; 0x1000] m) as Ht' by (intros ? ? Hk; apply Ht; set_solver).
  destruct (decide (y / 2 ^ 30 = 3)) as [E|E].
  - pose proof (Z.div_mod y (2 ^ 21) ltac:(lia)) as Ep. pose proof (Z.mod_pos_bound y (2 ^ 21) ltac:(lia)).
    assert ((y / 2 ^ 21) mod 512 = y / 2 ^ 21 - 3 * 512) as Ej.
    { symmetry. apply (Z.mod_unique _ _ 3); lia. }
    erewrite (walk_2M m y ltac:(lia) 0x3000 (g_memory_start + (y / 2 ^ 21 - 3 * 512) * 2 ^ 21) 0x83); try done.
    + f_equal. lia.
    + set_solver.
    + unfold built. by rewrite E.
    + rewrite Ej. unfold built. cbn [Z.eqb Pos.eqb]. rewrite (proj2 (Z.eqb_neq _ 0)) by lia. done.
    + apply Z.divide_add_r; [|by apply Z.divide_factor_r]. eapply Z.divide_trans; [|done].
      by apply Znumtheory.Zmod_divide.
    + lia.
    + by left.
  - erewrite (walk_1G m y ltac:(lia) (g_memory_start + (y / 2 ^ 30 - 3) * 2 ^ 30) 0x87); try done.
    + f_equal. lia.
    + unfold built. cbn [Z.eqb Pos.eqb]. rewrite !(proj2 (Z.eqb_neq _ _)) by lia.
      rewrite (proj2 (Z.ltb_ge _ 3)), (proj2 (Z.ltb_lt _ _)) by lia. done.
    + apply Z.divide_add_r; [done|by apply Z.divide_factor_r].
    + lia.
    + by right.
Qed.

Lemma shared_walk m y : tables [0; 0x1000] m -> (y < 2 ^ 30 -> tables [0; 0x1000; 0x2000] m) ->
  2 ^ 21 <= y < 3 * 2 ^ 30 ->
  translate m A (CONFIG_SHARED_MEMORY + y) = Some (g_shared_memory + y).
Proof.
  intros Ht Ht' Hy. pose proof layout as [L1 L2 L3 L4 L5 L6 L7].
  pose proof (Z.div_mod y (2 ^ 30) ltac:(lia)) as Eg. pose proof (Z.mod_pos_bound y (2 ^ 30) ltac:(lia)).
  assert (0 <= y / 2 ^ 30 < 3) as Hg by (split; [apply Z.div_pos|apply Z.div_lt_upper_bound]; lia).
  destruct (decide (y / 2 ^ 30 = 0)) as [E|E].
  - pose proof (Z.div_mod y (2 ^ 21) ltac:(lia)) as Ep. pose proof (Z.mod_pos_bound y (2 ^ 21) ltac:(lia)).
    assert ((y / 2 ^ 21) mod 512 = y / 2 ^ 21) as Ej by (apply Z.mod_small; lia).
    erewrite (walk_2M m y ltac:(lia) 0x2000 (g_shared_memory + y / 2 ^ 21 * 2 ^ 21) 0x83); try done.
    + f_equal. lia.
    + apply Ht'. lia.
    + set_solver.
    + unfold built. by rewrite E.
    + rewrite Ej. unfold built. cbn [Z.eqb Pos.eqb]. rewrite (proj2 (Z.eqb_neq _ 0)) by lia. done.
    + apply Z.divide_add_r; [|by apply Z.divide_factor_r]. eapply Z.divide_trans; [|done].
      by apply Znumtheory.Zmod_divide.
    + lia.
    + by left.
  - erewrite (walk_1G m y ltac:(lia) (g_shared_memory + y / 2 ^ 30 * 2 ^ 30) 0x87); try done.
    + f_equal. lia.
    + unfold built. cbn [Z.eqb Pos.eqb]. rewrite !(proj2 (Z.eqb_neq _ _)) by lia.
      by rewrite (proj2 (Z.ltb_lt _ 3)) by lia.
    + apply Z.divide_add_r; [done|by apply Z.divide_factor_r].
    + lia.
    + by right.
Qed.

Lemma beyond_walk m y : tables [0; 0x1000] m -> (4 + n_gb) * 2 ^ 30 <= y < 2 ^ 39 ->
  translate m A (CONFIG_SHARED_MEMORY + y) = None.
Proof.
  intros Ht Hy. destruct n_gb_eq as [_ Hn]. rewrite walk_root by (done || lia). cbv zeta.
  assert (4 + n_gb <= y / 2 ^ 30) by (apply Z.div_le_lower_bound; lia).
  assert (built 0x1000 (y / 2 ^ 30) = 0) as ->; [|done].
  unfold built. cbn [Z.eqb Pos.eqb]. rewrite !(proj2 (Z.eqb_neq _ _)) by lia.
  by rewrite !(proj2 (Z.ltb_ge _ _)) by lia.
Qed.

(** In terms of addresses *)
Lemma above_shared v : v = CONFIG_SHARED_MEMORY + (v - CONFIG_SHARED_MEMORY).
Proof. lia. Qed.

Lemma kernel_linear m v : tables [0; 0x1000; 0x3000] m ->
  CONFIG_PAGE_OFFSET + PAGE_SIZE_2M <= v < CONFIG_PAGE_OFFSET + (n_gb + 1) * 2 ^ 30 ->
  translate m A v = Some (pa v).
Proof.
  intros Ht Hv. pose proof layout as [L1 L2 L3 L4 L5 L6 L7]. unfold PAGE_SIZE_2M, CONFIG_PAGE_OFFSET in Hv.
  rewrite (above_shared v), kernel_walk; [|done|unfold CONFIG_SHARED_MEMORY; lia].
  f_equal. unfold pa, CONFIG_PAGE_OFFSET, CONFIG_SHARED_MEMORY. rewrite u64_small; [lia|].
  pose proof (Z.mul_div_le (g_memory_end - g_memory_start) (2 ^ 30) ltac:(lia)). lia.
Qed.

Lemma shared_linear m v : tables [0; 0x1000] m ->
  (v < CONFIG_SHARED_MEMORY + PAGE_SIZE_1G -> tables [0; 0x1000; 0x2000] m) ->
  CONFIG_SHARED_MEMORY + PAGE_SIZE_2M <= v < CONFIG_PAGE_OFFSET ->
  translate m A v = Some (g_shared_memory + (v - CONFIG_SHARED_MEMORY)).
Proof.
  intros Ht Ht' Hv. unfold PAGE_SIZE_2M, PAGE_SIZE_1G, CONFIG_PAGE_OFFSET in *.
  rewrite (above_shared v), shared_walk; [f_equal; lia|done|..];
    [intros ?; apply Ht'; lia|unfold CONFIG_SHARED_MEMORY in *; lia].
Qed.

(** C10: with the page tables of [kernel_pagetables_init] the processor maps the
    kernel and the free memory, from 2 MiB above [CONFIG_PAGE_OFFSET] on, as [pa]
    computes, to the unikernel's physical memory and the gigabyte after its end;
    it maps the three gigabytes below, from 2 MiB on, to the shared memory in
    order; and it maps nothing above. *)
Theorem kernel_map_is_linear m :
  let m' := kernel_pagetables_init A m in
  (forall v, CONFIG_PAGE_OFFSET + PAGE_SIZE_2M <= v < CONFIG_PAGE_OFFSET + (n_gb + 1) * 2 ^ 30 ->
     translate m' A v = Some (pa v)) /\
  (forall v, CONFIG_SHARED_MEMORY + PAGE_SIZE_2M <= v < CONFIG_PAGE_OFFSET ->
     translate m' A v = Some (g_shared_memory + (v - CONFIG_SHARED_MEMORY))) /\
  (forall v, CONFIG_PAGE_OFFSET + (n_gb + 1) * 2 ^ 30 <= v < CONFIG_SHARED_MEMORY + 2 ^ 39 ->
     translate m' A v = None).
Proof.
  intros m'. assert (forall ks, ks ⊆ [0; 0x1000; 0x2000; 0x3000] -> tables ks m') as Hks.
  { intros ks Hs k j Hk Hj _. apply built_spec; [by apply Hs|done]. }
  split_and!; intros v Hv.
  - apply kernel_linear; [apply Hks; set_solver|done].
  - apply shared_linear; [apply Hks; set_solver|intros _; apply Hks; set_solver|done].
  - destruct n_gb_eq as [_ Hn]. unfold CONFIG_PAGE_OFFSET in Hv. rewrite (above_shared v).
    apply beyond_walk; [apply Hks; set_solver|unfold CONFIG_SHARED_MEMORY in *; lia].
Qed.

Lemma removed_spec m k j : k ∈ [0; 0x1000; 0x2000; 0x3000] -> 0 <= j < 512 ->
  load64 (remove_low_identical_mapping A (kernel_pagetables_init A m)) (table k + 8 * j) =
  if decide (k = 0x2000 \/ (k = 0 /\ j = 0)) then 0 else built k j.
Proof.
  intros Hk Hj. assert (4096 | k) as Dk.
  { clear -Hk. repeat (apply elem_of_cons in Hk as [->|Hk]; [by apply Znumtheory.Zmod_divide|]).
    by apply not_elem_of_nil in Hk. }
  assert (va A = table 0) as E0 by (rewrite <- (Z.add_0_r A); by apply va_table).
  unfold remove_low_identical_mapping. rewrite E0, va_table by lia.
  assert (forall x, store64 x (table 0 + 8 * 0) 0 = set_page_entry_data (table 0) 0 0 0 x) as Es by done.
  rewrite Es, read_set_table, read_clear_table, built_spec
    by first [done|lia|by apply Znumtheory.Zmod_divide].
  destruct (decide (k = 0x2000)) as [->|]; [by rewrite !decide_False by lia|].
  destruct (decide (k = 0 /\ j = 0)); [by rewrite decide_True by tauto|].
  by rewrite decide_False by tauto.
Qed.

Lemma removed_tables m ks : ks ⊆ [0; 0x1000; 0x3000] ->
  tables ks (remove_low_identical_mapping A (kernel_pagetables_init A m)).
Proof.
  intros Hs k j Hk Hj Hr. apply Hs in Hk. rewrite removed_spec; [|set_solver|done].
  rewrite decide_False; [done|]. intros [->|[-> ->]]; [set_solver|by specialize (Hr eq_refl)].
Qed.

(** What stays mapped *)
Lemma low_removal_areas m :
  let m' := remove_low_identical_mapping A (kernel_pagetables_init A m) in
  (forall v, 0 <= v < 2 ^ 47 -> translate m' A v = None) /\
  (forall v, CONFIG_PAGE_OFFSET + PAGE_SIZE_2M <= v < CONFIG_PAGE_OFFSET + (n_gb + 1) * 2 ^ 30 ->
     translate m' A v = Some (pa v)) /\
  (forall v, CONFIG_SHARED_MEMORY + PAGE_SIZE_1G <= v < CONFIG_PAGE_OFFSET ->
     translate m' A v = Some (g_shared_memory + (v - CONFIG_SHARED_MEMORY))).
Proof.
  intros m'. split_and!.
  - intros v Hv. unfold translate. rewrite entry_root, index_eq by lia.
    assert (0 <= v / 2 ^ 39 < 256) by (split; [apply Z.div_pos|apply Z.div_lt_upper_bound]; lia).
    rewrite (Z.mod_small (v / 2 ^ 39)) by lia. unfold m'. rewrite removed_spec by (lia || set_solver).
    destruct (decide (v / 2 ^ 39 = 0)) as [E|E]; [by rewrite decide_True by lia|].
    rewrite decide_False by lia. unfold built. cbn [Z.eqb]. by rewrite !(proj2 (Z.eqb_neq _ _)) by lia.
  - intros v Hv. apply kernel_linear; [apply removed_tables; set_solver|done].
  - intros v Hv. unfold PAGE_SIZE_1G in Hv.
    apply shared_linear; [apply removed_tables; set_solver|unfold PAGE_SIZE_1G; lia|unfold PAGE_SIZE_2M; lia].
Qed.

(** C36: [remove_low_identical_mapping] leaves the lower half unmapped and the
    kernel, the free memory and the shared memory from its second gigabyte on
    mapped as before.  The page directory that it clears also serves the upper
    half: the first gigabyte of the shared memory, where the IPC segments are, is
    unmapped as well. *)
Theorem low_removal_unmaps_shared m :
  let m' := remove_low_identical_mapping A (kernel_pagetables_init A m) in
  (forall v, 0 <= v < 2 ^ 47 -> translate m' A v = None) /\
  (forall v, CONFIG_PAGE_OFFSET + PAGE_SIZE_2M <= v < CONFIG_PAGE_OFFSET + (n_gb + 1) * 2 ^ 30 ->
     translate m' A v = Some (pa v)) /\
  (forall v, CONFIG_SHARED_MEMORY + PAGE_SIZE_1G <= v < CONFIG_PAGE_OFFSET ->
     translate m' A v = Some (g_shared_memory + (v - CONFIG_SHARED_MEMORY))) /\
  (forall v, CONFIG_SHARED_MEMORY <= v < CONFIG_SHARED_MEMORY + PAGE_SIZE_1G ->
     translate m' A v = None) /\
  translate m' A CONFIG_SHM_SHARED_MEMORY = None.
Proof.
  intros m'. assert (forall v, CONFIG_SHARED_MEMORY <= v < CONFIG_SHARED_MEMORY + PAGE_SIZE_1G ->
    translate m' A v = None) as Hfirst.
  { unfold PAGE_SIZE_1G. intros v Hv.
    rewrite (above_shared v), walk_root; [|lia|apply removed_tables; set_solver].
    rewrite (Z.div_small (v - _)) by lia. change (built 0x1000 0) with (Z.lor (A + 0x2000) 0x7). cbv zeta.
    destruct (table_entry 0x2000) as (-> & -> & ->); [set_solver|]. cbn [negb].
    rewrite high_index, entry_table by lia. unfold m'.
    by rewrite removed_spec, decide_True by first [lia|set_solver|apply Z.mod_pos_bound; lia]. }
  destruct (low_removal_areas m) as (H1 & H2 & H3).
  split_and!; [exact H1|exact H2|exact H3|exact Hfirst|apply Hfirst; done].
Qed.
End paging.

(** The layout of [include/knl/arch.h] for the first unikernel: shared memory from
    125 GiB, ten gigabytes from 128 GiB *)
Lemma knl_layout : layout_ok (128 * 2 ^ 30) (138 * 2 ^ 30) (125 * 2 ^ 30).
Proof. split; first [by apply Z.divide_factor_r|lia|by vm_compute]. Qed.

Lemma kernel_map_is_linear_witness :
  let A := CONFIG_KERNEL_PAGETABLE_ADDRESS (128 * 2 ^ 30) in
  let m := kernel_pagetables_init (128 * 2 ^ 30) (138 * 2 ^ 30) (125 * 2 ^ 30) A (fun _ => 0) in
  translate (128 * 2 ^ 30) m A 0xFFFF8000C0300000 = Some (128 * 2 ^ 30 + 0x300000).
Proof.
  intros A m. destruct (kernel_map_is_linear _ _ _ knl_layout (fun _ => 0)) as [H _].
  refine (eq_trans (H _ _) _); [|reflexivity].
  unfold CONFIG_PAGE_OFFSET, PAGE_SIZE_2M. split; [lia|reflexivity].
Defined.

Lemma low_removal_unmaps_shared_witness :
  let A := CONFIG_KERNEL_PAGETABLE_ADDRESS (128 * 2 ^ 30) in
  let m := kernel_pagetables_init (128 * 2 ^ 30) (138 * 2 ^ 30) (125 * 2 ^ 30) A (fun _ => 0) in
  translate (128 * 2 ^ 30) (remove_low_identical_mapping (128 * 2 ^ 30) A m) A CONFIG_SHM_SHARED_MEMORY = None.
Proof. intros A m. apply (low_removal_unmaps_shared _ _ _ knl_layout (fun _ => 0)). Defined.
