(* ===== verification/Mapping.v ===== *)
(** * Mapping pages ([kernel/map.c], [kernel/offload/offload_page.c], page faults)

    [lk_map], [lk_unmap] and [get_pa] walk the page tables from the root by way of
    the kernel's linear map, with new tables from the page allocator.  The
    invariant [tables_ok] says that the tables form a tree; the theorems relate
    what these functions do to [translate], the processor's walk. *)

From S2P Require Import Prelude.
From S2P Require Import Utility.
From S2P Require Import Lock.
From S2P Require Import Stat.
From S2P Require Import Memory.
From S2P Require Import MemoryBits.
From S2P Require Import Buddy.
From S2P Require Import PageAlloc.
From S2P Require Import PoolInit.
From S2P Require Import Allocator.
From S2P Require Import ShmPool.
From S2P Require Import ShellStorage.
From S2P Require Import Paging.

(** ** Constants ([page.h], [memory_config.h], [offload_page.h]) *)

Definition PAGE_PML4_MASK : Z := 0xff8000000000.

Definition PAGE_PDPT_MASK : Z := 0x007fc0000000.

Definition PAGE_PDE_MASK : Z := 0x00003fe00000.

Definition PAGE_PTE_MASK : Z := 0x0000001ff000.

Definition PAGE_OFFSET_MASK : Z := 0x000000000fff.

Definition PAGE_PTE_OFFSET_MASK : Z := PAGE_PTE_MASK + PAGE_OFFSET_MASK.

Definition PAGE_ATTR_MASK : Z := 0xFFF.

Definition CONFIG_HIGH_HALF_LIMIT : Z := 0xFFFF800000000000.

(** ** State and operations *)

Record mapping := mkMapping {
  mp_mem : kmem;
  map_lock : Z
}.

#[export] Instance eta_mapping : Eta mapping := fun s => mkMapping (mp_mem s) (map_lock s).

Section mapping.
(** [g_memory_start] and [g_shared_memory] *)
Context (g_memory_start g_shared_memory : Z).

Local Notation va := (va g_memory_start).
Local Notation pa := (pa g_memory_start).
Local Notation A := (CONFIG_KERNEL_PAGETABLE_ADDRESS g_memory_start).

Definition map_init : M mapping unit := modify (fun s => s <| map_lock := FALSE |>).

Definition lock_map : M mapping unit := zoom map_lock spinlock_lock.

Definition unlock_map : M mapping unit := zoom map_lock spinlock_unlock.

(** [table[i].entry] *)
Definition get_entry (table i : Z) : M mapping Z :=
  gets (fun s => load64 (ram (mp_mem s)) (table + 8 * i)).

Definition set_entry (table i base_address flags : Z) : M mapping unit :=
  modify (fun s => s <| mp_mem := mp_mem s <| ram :=
    set_page_entry_data table i base_address flags (ram (mp_mem s)) |> |>).

(** [(virtual_address & MASK) >> SHIFT] *)
Definition level_index (virtual_address mask shift : Z) : Z :=
  Z.shiftr (Z.land virtual_address mask) shift.

(** [va(entry & (~PAGE_ATTR_MASK))] *)
Definition table_of (entry : Z) : Z := va (Z.land entry (Z.lnot PAGE_ATTR_MASK)).

(** [if (table[index].entry == 0)]: enter a new page; FALSE without memory, the
    lock then being released. *)
Definition fill_entry (table index : Z) : M mapping Z :=
  let! e := get_entry table index in
  if e =? 0 then
    let! new_pt_page := zoom mp_mem (az_alloc PAGE_SIZE_4K) in
    if new_pt_page =? 0 then unlock_map ;; ret FALSE
    else
      set_entry table index (pa new_pt_page) (Z.lor PAGE_FLAGS_DEFAULT PAGE_FLAGS_US) ;;
      ret TRUE
  else ret TRUE.

(** From the root to the entry for [virtual_address] in its page directory: the
    directory and the index, none without memory *)
Definition walk_to_pd (virtual_address : Z) : M mapping (option (Z * Z)) :=
  let pgd := A in
  let pml4t_entry := va pgd in
  let index := level_index virtual_address PAGE_PML4_MASK 39 in
  let! ok := fill_entry pml4t_entry index in
  if ok =? FALSE then ret None
  else
    let! e := get_entry pml4t_entry index in
    let pdpt_entry := table_of e in
    let index := level_index virtual_address PAGE_PDPT_MASK 30 in
    let! ok := fill_entry pdpt_entry index in
    if ok =? FALSE then ret None
    else
      let! e := get_entry pdpt_entry index in
      ret (Some (table_of e, level_index virtual_address PAGE_PDE_MASK 21)).

Definition lk_map (virtual_address physical_address page_size cache : Z) : M mapping Z :=
  lock_map ;;
  let! pd := walk_to_pd virtual_address in
  match pd with
  | None => ret FALSE
  | Some (pd_entry, index) =>
      let! ok := fill_entry pd_entry index in
      if ok =? FALSE then ret FALSE
      else
        let flags := if cache =? 0 then PAGE_FLAGS_DEFAULT else PAGE_FLAGS_NOCACHE in
        (if page_size =? PAGE_SIZE_4K then
           let! e := get_entry pd_entry index in
           set_entry (table_of e) (level_index virtual_address PAGE_PTE_MASK 12)
             physical_address (Z.lor flags PAGE_FLAGS_US)
         else if page_size =? PAGE_SIZE_2M then
           set_entry pd_entry index physical_address
             (Z.lor flags (Z.lor PAGE_FLAGS_US PAGE_FLAGS_PS))
         else ret tt) ;;
        unlock_map ;;
        ret TRUE
  end.

Definition lk_unmap (virtual_address : Z) : M mapping Z :=
  lock_map ;;
  let pgd := A in
  let! e := get_entry (va pgd) (level_index virtual_address PAGE_PML4_MASK 39) in
  let! e := get_entry (table_of e) (level_index virtual_address PAGE_PDPT_MASK 30) in
  let pd_entry := table_of e in
  let index_pd := level_index virtual_address PAGE_PDE_MASK 21 in
  let! e := get_entry pd_entry index_pd in
  (if negb (Z.land e PAGE_FLAGS_PS =? 0) then set_entry pd_entry index_pd 0 0
   else set_entry (table_of e) (level_index virtual_address PAGE_PTE_MASK 12) 0 0) ;;
  unlock_map ;;
  ret TRUE.

Definition shared_memory_pa (v : Z) : Z := u64 (v - CONFIG_SHARED_MEMORY + g_shared_memory).

(** The part of [get_pa] below the high half *)
Definition get_pa_walk (virtual_address : Z) : M mapping Z :=
  lock_map ;;
  let! pd := walk_to_pd virtual_address in
  match pd with
  | None => ret FALSE
  | Some (pd_entry, index) =>
      let! e := get_entry pd_entry index in
      if negb (e =? 0) && (Z.land e PAGE_FLAGS_PS =? PAGE_FLAGS_PS) then
        unlock_map ;;
        ret (u64 (Z.land e (Z.lnot PAGE_ATTR_MASK) + Z.land virtual_address PAGE_PTE_OFFSET_MASK))
      else
        let! ok := fill_entry pd_entry index in
        if ok =? FALSE then ret FALSE
        else
          let! e := get_entry pd_entry index in
          let pt_entry := table_of e in
          let index := level_index virtual_address PAGE_PTE_MASK 12 in
          let! ok := fill_entry pt_entry index in
          if ok =? FALSE then ret FALSE
          else
            unlock_map ;;
            let! e := get_entry pt_entry index in
            ret (u64 (Z.land e (Z.lnot PAGE_ATTR_MASK) + Z.land virtual_address PAGE_OFFSET_MASK))
  end.

Definition get_pa (virtual_address : Z) : M mapping Z :=
  if virtual_address =? 0 then ret 0
  else if CONFIG_HIGH_HALF_LIMIT <? virtual_address then
    ret (if virtual_address <? CONFIG_PAGE_OFFSET then shared_memory_pa virtual_address
         else pa virtual_address)
  else get_pa_walk virtual_address.

(** ** Page faults ([interrupthandler.c]) *)

Record faulting := mkFaulting {
  f_mapping : mapping;
  f_shell : SHELL_STORAGE_AREA
}.

#[export] Instance eta_faulting : Eta faulting := fun s => mkFaulting (f_mapping s) (f_shell s).

(** [id] is the current thread's; the lines on the screen are not modelled. *)
Definition pagefault_handler (id fault_address error_code rip : Z) : M faulting unit :=
  zoom f_shell (store_pagefault_info id fault_address error_code rip) ;;
  let! new_page := zoom f_mapping (zoom mp_mem (az_alloc PAGE_SIZE_4K)) in
  if new_page =? 0 then fail KernelHalt
  else
    let! r := zoom f_mapping (lk_map fault_address (pa new_page) PAGE_SIZE_4K 0) in
    if r =? -1 then fail KernelHalt else ret tt.
End mapping.

(** ** The processor's walk, level by level *)

Section walking.
Context (g_memory_start : Z).
Local Notation va := (va g_memory_start).
Local Notation pa := (pa g_memory_start).
Local Notation A := (CONFIG_KERNEL_PAGETABLE_ADDRESS g_memory_start).
Local Notation translate := (translate g_memory_start).

(** The indices of an address in the tables of levels 4 to 1 *)
Definition indices (v : Z) : list Z := [index v 39; index v 30; index v 21; index v 12].

(** A walk from a table of level [n] at the virtual address [t] *)
Fixpoint walk (n : nat) (m : memory) (t v : Z) : option Z :=
  match n with
  | O => None
  | S n' =>
      let s := 12 + 9 * Z.of_nat n' in
      let e := load64 m (t + 8 * index v s) in
      if negb (present e) then None
      else if (n' =? 0)%nat || ((n' <=? 2)%nat && large e) then Some (frame s e + offset v s)
      else walk n' m (va (frame 12 e)) v
  end.

Lemma translate_walk m v : translate m A v = walk 4 m (va A) v.
Proof.
  unfold Paging.translate, entry. cbn [walk Nat.eqb Nat.leb orb andb].
  change (12 + 9 * Z.of_nat 3) with 39. change (12 + 9 * Z.of_nat 2) with 30.
  change (12 + 9 * Z.of_nat 1) with 21. change (12 + 9 * Z.of_nat 0) with 12. cbv zeta.
  repeat case_match; reflexivity || congruence.
Qed.

(** ** Addresses of tables and the entries that point to them *)

Definition table_addr (t : Z) : Prop :=
  (4096 | t) /\ CONFIG_PAGE_OFFSET <= t < 2 ^ 64 /\ t - CONFIG_PAGE_OFFSET + g_memory_start < 2 ^ 51.

Hypothesis start_pos : 0 <= g_memory_start.
Hypothesis start_aligned : (4096 | g_memory_start).

Lemma index_range v s : 0 <= index v s < 512.
Proof.
  unfold index. change 511 with (Z.ones 9). rewrite Z.land_ones by lia. apply Z.mod_pos_bound. lia.
Qed.

Lemma pa_table t : table_addr t ->
  pa t = t - CONFIG_PAGE_OFFSET + g_memory_start /\ 0 <= pa t < 2 ^ 51 /\ (2 ^ 12 | pa t) /\ va (pa t) = t.
Proof.
  intros (Ha & Hl & Hh).
  assert (pa t = t - CONFIG_PAGE_OFFSET + g_memory_start) as E by (apply u64_small; lia).
  rewrite E. split_and!; [done|lia|lia| |].
  - change (2 ^ 12) with 4096. apply Z.divide_add_r; [|done]. apply Z.divide_sub_r; [done|].
    by apply Z.mod_divide.
  - unfold Memory.va. replace (_ + _ - _) with t by lia. apply u64_small.
    unfold CONFIG_PAGE_OFFSET in *. lia.
Qed.

Lemma land_attr e : 0 <= e < 2 ^ 52 -> Z.land e (Z.lnot PAGE_ATTR_MASK) = frame 12 e.
Proof.
  intros He. unfold frame. apply Z.bits_inj'. intros i Hi.
  rewrite Z.land_spec, Z.lnot_spec by done. change PAGE_ATTR_MASK with (Z.ones 12).
  rewrite Z.testbit_ones_nonneg by lia. destruct (Z.ltb_spec i 12).
  - rewrite Z.shiftl_spec_low by lia. by rewrite andb_false_r.
  - rewrite Z.shiftl_spec, Z.land_spec, Z.shiftr_spec, Z.testbit_ones_nonneg by lia.
    replace (i - 12 + 12) with i by lia. destruct (Z.ltb_spec (i - 12) (52 - 12)); [done|].
    by rewrite (lt_pow2_bits e 52) by lia.
Qed.

(** An entry that points to the table at [t] *)
Definition link (t : Z) : Z := Z.lor (pa t) 0x7.

Lemma link_spec t : table_addr t ->
  present (link t) = true /\ large (link t) = false /\ va (frame 12 (link t)) = t /\
  table_of g_memory_start (link t) = t /\ 0 < link t < 2 ^ 52.
Proof.
  intros Ht. destruct (pa_table t Ht) as (_ & Hr & Hd & Hva).
  assert (link t = pa t + 7) as E by (apply (lor_flags 12); done || lia).
  assert (frame 12 (link t) = pa t) as Ef by (apply frame_entry; done || lia).
  unfold present, large, link. rewrite !(testbit_entry 12) by (done || lia). fold (link t).
  rewrite Ef. split_and!; [done|done|done| |lia|lia].
  unfold table_of. rewrite land_attr by lia. by rewrite Ef.
Qed.

(** The masks and shifts of the code are the indices of the walk. *)
Lemma level_index_eq v s mask : 0 <= s -> mask = Z.shiftl 511 s -> level_index v mask s = index v s.
Proof.
  intros Hs ->. unfold level_index, index. apply Z.bits_inj'. intros i Hi.
  rewrite Z.shiftr_spec, !Z.land_spec, Z.shiftl_spec, Z.shiftr_spec by lia. do 2 f_equal. lia.
Qed.

(** ** The tree of tables

    [T] gives for the address of a table the indices that lead to it from the
    root.  An entry is empty, a page, or the only link to a table of [T]; pages
    larger than 4 KiB are found in the kernel's half only. *)

Definition level (p : list Z) : Z := 4 - lenZ p.

(** An entry of level [l] that ends the walk *)
Definition page_ok (l e : Z) : Prop :=
  present e = true /\ 0 <= e < 2 ^ 52 /\
  (l = 1 \/ ((l = 2 \/ l = 3) /\ large e = true /\ (2 ^ (12 + 9 * (l - 1)) | frame 12 e))).

Definition entry_at (k : kmem) (t i : Z) : Z := load64 (ram k) (t + 8 * i).

Record tables_ok (k : kmem) (T : gmap Z (list Z)) : Prop := {
  to_root : T !! va A = Some [];
  to_len : forall t p, T !! t = Some p -> (length p <= 3)%nat;
  to_addr : forall t p, T !! t = Some p -> table_addr t;
  to_home : forall t p, T !! t = Some p ->
    t + 4096 <= start_addr (g_free_memory k) \/ kernel_block k t 4096;
  to_inj : forall t t' p, T !! t = Some p -> T !! t' = Some p -> t = t';
  to_entry : forall t p i, T !! t = Some p -> 0 <= i < 512 ->
    entry_at k t i = 0 \/ page_ok (level p) (entry_at k t i) \/
    exists t', T !! t' = Some (p ++ [i]) /\ entry_at k t i = link t';
  to_parent : forall t' p i, T !! t' = Some (p ++ [i]) ->
    exists t, T !! t = Some p /\ 0 <= i < 512 /\ entry_at k t i = link t';
  to_user : forall t p i, T !! t = Some p -> 0 <= i < 512 -> (length p <= 2)%nat ->
    page_ok (level p) (entry_at k t i) -> head p = Some 256
}.

(** The pool lies in the kernel's linear map. *)
Record pool_fits (k : kmem) : Prop := {
  fi_inv : kmem_inv k;
  fi_aligned : (4096 | start_addr (g_free_memory k));
  fi_low : CONFIG_PAGE_OFFSET <= start_addr (g_free_memory k);
  fi_high : end_addr (g_free_memory k) - CONFIG_PAGE_OFFSET + g_memory_start < 2 ^ 51
}.

(** [v] passes through the table with the indices [p], at the entry [step_index]. *)
Definition along (v : Z) (p : list Z) : Prop := p = take (length p) (indices v).

#[local] Instance along_dec v p : Decision (along v p) := decide (p = take (length p) (indices v)).

Definition step_index (v : Z) (p : list Z) : Z := default 0 (indices v !! length p).

Lemma along_nil v : along v [].
Proof. done. Qed.

Lemma along_snoc v p i : (length p <= 3)%nat ->
  along v (p ++ [i]) <-> along v p /\ i = step_index v p.
Proof.
  intros Hl. unfold along, step_index. rewrite length_app, Nat.add_1_r.
  destruct (lookup_lt_is_Some_2 (indices v) (length p)) as [x Hx]; [cbn; lia|].
  rewrite (take_S_r _ _ _ Hx), Hx. cbn. split.
  - intros E. apply app_inj_2 in E as [E1 E2]; [|done]. injection E2 as ->. done.
  - intros [E ->]. by rewrite <- E.
Qed.

Lemma step_index_range v p : (length p <= 3)%nat -> 0 <= step_index v p < 512.
Proof.
  intros Hl. unfold step_index, indices.
  destruct p as [|? [|? [|? [|? ?]]]]; cbn in *; lia || apply index_range.
Qed.

(** One step of the walk, from the table with the indices [p] *)
Lemma walk_step m t v p : (length p <= 3)%nat ->
  walk (4 - length p) m t v =
  let s := 12 + 9 * (level p - 1) in
  let e := load64 m (t + 8 * step_index v p) in
  if negb (present e) then None
  else if (level p =? 1) || ((level p <=? 3) && large e) then Some (frame s e + offset v s)
  else walk (3 - length p) m (va (frame 12 e)) v.
Proof.
  intros Hl. destruct p as [|? [|? [|? [|? ?]]]]; cbn [length] in Hl; try lia; reflexivity.
Qed.

Lemma level_len p : (length p <= 3)%nat -> level p = 4 - Z.of_nat (length p).
Proof. done. Qed.

Lemma walk_link m t v p t' : (length p <= 2)%nat -> table_addr t' ->
  load64 m (t + 8 * step_index v p) = link t' ->
  walk (4 - length p) m t v = walk (4 - length (p ++ [step_index v p])) m t' v.
Proof.
  intros Hl Ht' E. rewrite walk_step by lia. cbv zeta. rewrite E.
  destruct (link_spec t' Ht') as (-> & -> & -> & _). cbn [negb].
  rewrite andb_false_r, (proj2 (Z.eqb_neq _ 1)) by (rewrite level_len; lia). cbn [orb].
  rewrite length_app, Nat.add_1_r. by destruct (length p) as [|[|[|?]]]; [..|lia].
Qed.

Section tree.
Context (k : kmem) (T : gmap Z (list Z)).
Hypothesis ok : tables_ok k T.

(** The walk of an address passes through every table whose indices it has. *)
Lemma walk_reach t p v : T !! t = Some p -> along v p ->
  translate (ram k) A v = walk (4 - length p) (ram k) t v.
Proof.
  rewrite translate_walk. revert t. induction p as [|i p IH] using rev_ind; intros t Ht Hv.
  - by rewrite (to_inj _ _ ok _ _ _ Ht (to_root _ _ ok)).
  - pose proof (to_len _ _ ok _ _ Ht) as Hl. rewrite length_app in Hl. cbn in Hl.
    destruct (to_parent _ _ ok _ _ _ Ht) as (t0 & Ht0 & Hi & He).
    apply along_snoc in Hv as [Hv ->]; [|lia]. rewrite (IH t0 Ht0 Hv).
    apply walk_link; [lia|by eapply to_addr|done].
Qed.

(** What the walk finds at one table *)
Lemma walk_cases t p v : T !! t = Some p -> along v p ->
  let e := entry_at k t (step_index v p) in
  (e = 0 /\ translate (ram k) A v = None) \/
  (page_ok (level p) e /\
   translate (ram k) A v =
     Some (frame (12 + 9 * (level p - 1)) e + offset v (12 + 9 * (level p - 1)))) \/
  (exists t', T !! t' = Some (p ++ [step_index v p]) /\ e = link t' /\ along v (p ++ [step_index v p])).
Proof.
  intros Ht Hv e. pose proof (to_len _ _ ok _ _ Ht) as Hl.
  pose proof (step_index_range v p Hl) as Hi.
  pose proof (walk_reach t p v Ht Hv) as Hw. rewrite walk_step in Hw by done.
  cbv zeta in Hw. fold (entry_at k t (step_index v p)) in Hw. fold e in Hw.
  destruct (to_entry _ _ ok t p _ Ht Hi) as [E|[E|(t' & Ht' & E)]]; fold e in E.
  - left. split; [done|]. by rewrite Hw, E.
  - right. left. split; [done|]. rewrite Hw. destruct E as (-> & _ & E). cbn [negb].
    destruct E as [-> |([-> | ->] & -> & _)]; done.
  - right. right. exists t'. split_and!; [done|done|]. by apply along_snoc.
Qed.
End tree.

(** Two states whose tables agree on the entries that [v] passes translate it alike. *)
Lemma walk_same k T m v t p : tables_ok k T -> T !! t = Some p -> along v p ->
  (forall t p, T !! t = Some p -> along v p ->
    load64 m (t + 8 * step_index v p) = entry_at k t (step_index v p)) ->
  walk (4 - length p) m t v = walk (4 - length p) (ram k) t v.
Proof.
  intros Hok Ht Hv Hsame. remember (4 - length p)%nat as n eqn:En.
  revert t p Ht Hv En. induction n as [|n IH]; intros t p Ht Hv En; [done|]. rewrite En.
  pose proof (to_len _ _ Hok _ _ Ht) as Hl. rewrite !walk_step by done. cbv zeta.
  rewrite (Hsame t p Ht Hv). fold (entry_at k t (step_index v p)).
  destruct (to_entry _ _ Hok t p (step_index v p) Ht) as [->|[E|(t' & Ht' & E)]];
    [by apply step_index_range|done| |].
  - destruct E as (-> & _ & E). destruct E as [-> |([-> | ->] & -> & _)]; done.
  - pose proof (to_len _ _ Hok _ _ Ht') as Hl'. rewrite length_app in Hl'. cbn in Hl'.
    rewrite E. destruct (link_spec t' (to_addr _ _ Hok _ _ Ht')) as (-> & -> & -> & _).
    replace (3 - length p)%nat with n by lia. rewrite (IH t' _ Ht'); [done| |].
    + by apply along_snoc.
    + rewrite length_app. cbn. lia.
Qed.

Lemma translate_same k T m v : tables_ok k T ->
  (forall t p, T !! t = Some p -> along v p ->
    load64 m (t + 8 * step_index v p) = entry_at k t (step_index v p)) ->
  translate m A v = translate (ram k) A v.
Proof.
  intros Hok Hs. rewrite !translate_walk.
  apply (walk_same k T m v (va A) []); [done|exact (to_root _ _ Hok)|done|done].
Qed.

(** ** Writing one entry *)

(** [k'] differs from [k] in the tables of [T] by entry [i] of [t] only. *)
Definition entry_set (k k' : kmem) (T : gmap Z (list Z)) (t i : Z) : Prop :=
  forall t0 p0 j, T !! t0 = Some p0 -> 0 <= j < 512 -> ~ (t0 = t /\ j = i) ->
    entry_at k' t0 j = entry_at k t0 j.

Lemma translate_other k k' T t p i v : tables_ok k T -> entry_set k k' T t i -> T !! t = Some p ->
  (length p <= 3)%nat -> ~ along v (p ++ [i]) ->
  translate (ram k') A v = translate (ram k) A v.
Proof.
  intros Hok Hs Ht Hl Hv. apply (translate_same k T); [done|]. intros t0 p0 Ht0 Hv0.
  apply (Hs t0 p0); [done|by apply step_index_range, (to_len _ _ Hok _ _ Ht0)|].
  intros [-> E]. rewrite Ht in Ht0. injection Ht0 as <-. apply Hv. by apply along_snoc.
Qed.

(** The homes of the tables stay. *)
Definition homes_kept (k k' : kmem) : Prop :=
  start_addr (g_free_memory k') = start_addr (g_free_memory k) /\
  forall a b, kernel_block k a b -> kernel_block k' a b.

Section link.
Context (k k' : kmem) (T : gmap Z (list Z)) (t i r : Z) (p : list Z).
Hypothesis ok : tables_ok k T.
Hypothesis at_t : T !! t = Some p.
Hypothesis inner : (length p <= 2)%nat.
Hypothesis i_range : 0 <= i < 512.
Hypothesis was_empty : entry_at k t i = 0.
Hypothesis homes : homes_kept k k'.
Hypothesis r_new : T !! r = None.
Hypothesis r_addr : table_addr r.
Hypothesis r_home : kernel_block k' r 4096.
Hypothesis others : entry_set k k' T t i.
Hypothesis linked : entry_at k' t i = link r.
Hypothesis r_zero : forall j, 0 <= j < 512 -> entry_at k' r j = 0.

Local Notation T' := (<[r := p ++ [i]]> T).

Lemma no_child t' : T !! t' <> Some (p ++ [i]).
Proof.
  intros Ht'. destruct (to_parent _ _ ok _ _ _ Ht') as (t0 & Ht0 & _ & E).
  rewrite (to_inj _ _ ok _ _ _ Ht0 at_t), was_empty in E.
  pose proof (link_spec t' (to_addr _ _ ok _ _ Ht')). lia.
Qed.

Lemma old_entry t0 p0 j : T !! t0 = Some p0 -> 0 <= j < 512 ->
  (t0 = t /\ p0 = p /\ j = i) \/ entry_at k' t0 j = entry_at k t0 j.
Proof.
  intros Ht0 Hj. destruct (decide (t0 = t /\ j = i)) as [[-> ->]|Hne].
  - left. rewrite at_t in Ht0. by injection Ht0 as <-.
  - right. by apply (others t0 p0).
Qed.

Lemma tables_ok_link : tables_ok k' T'.
Proof.
  assert (forall t0 p0, T' !! t0 = Some p0 -> (t0 = r /\ p0 = p ++ [i]) \/ T !! t0 = Some p0) as Hin
    by (intros ? ?; rewrite lookup_insert_Some; naive_solver).
  assert (forall t0 p0, T !! t0 = Some p0 -> T' !! t0 = Some p0) as Hup
    by (intros ? ?; rewrite lookup_insert_Some; naive_solver).
  destruct homes as [Hst Hbl]. pose proof no_child as Hno. constructor.
  - apply Hup, (to_root _ _ ok).
  - intros t0 p0 [[-> ->]|H]%Hin; [rewrite length_app; cbn; lia|by eapply to_len].
  - intros t0 p0 [[-> ->]|H]%Hin; [done|by eapply to_addr].
  - intros t0 p0 [[-> ->]|H]%Hin; [by right|]. rewrite Hst.
    destruct (to_home _ _ ok _ _ H); [by left|right; by apply Hbl].
  - intros t0 t1 p0 [[-> ->]|H0]%Hin [[-> E]|H1]%Hin; [done|by apply Hno in H1|subst; by apply Hno in H0|].
    by eapply to_inj.
  - intros t0 p0 j [[-> ->]|H]%Hin Hj; [left; by apply r_zero|].
    destruct (old_entry _ _ _ H Hj) as [(-> & -> & ->)| ->].
    + right. right. exists r. rewrite lookup_insert. by rewrite decide_True.
    + destruct (to_entry _ _ ok _ _ _ H Hj) as [?|[?|(t' & Ht' & E)]]; eauto.
      right. right. exists t'. eauto.
  - intros t' p0 j [[-> E]|H]%Hin.
    + apply app_inj_2 in E as [-> E]; [|done]. injection E as ->. exists t. eauto.
    + destruct (to_parent _ _ ok _ _ _ H) as (t0 & Ht0 & Hj & E). exists t0.
      destruct (old_entry _ _ _ Ht0 Hj) as [(-> & -> & ->)| ->]; [by apply Hno in H|eauto].
  - intros t0 p0 j [[-> ->]|H]%Hin Hj Hl Hpg.
    + rewrite r_zero in Hpg by done. by destruct Hpg as [? _].
    + destruct (old_entry _ _ _ H Hj) as [(-> & -> & ->)|E].
      * rewrite linked in Hpg. destruct (link_spec r r_addr) as (_ & Hlg & _).
        destruct Hpg as (_ & _ & [Hp1|(_ & Hlg' & _)]); [|congruence].
        rewrite level_len in Hp1; lia.
      * rewrite E in Hpg. by eapply to_user.
Qed.

Lemma translate_link v : translate (ram k') A v = translate (ram k) A v.
Proof.
  destruct (decide (along v (p ++ [i]))) as [Hv|Hv].
  - assert (T' !! r = Some (p ++ [i])) as Hr by (rewrite lookup_insert; by rewrite decide_True).
    assert (entry_at k' r (step_index v (p ++ [i])) = 0) as Hz
      by (apply r_zero, step_index_range; rewrite length_app; cbn; lia).
    destruct (walk_cases k' T' tables_ok_link r _ v Hr Hv) as [[_ ->]|[[Hp _]|(t' & Ht' & E & _)]].
    + apply along_snoc in Hv as [Hv E]; [|lia].
      pose proof was_empty as Hw. rewrite E in Hw.
      destruct (walk_cases k T ok t p v at_t Hv) as [[_ ->]|[[Hp _]|(t' & Ht' & _)]]; [done| |].
      * rewrite Hw in Hp. by destruct Hp.
      * rewrite <- E in Ht'. by apply no_child in Ht'.
    + rewrite Hz in Hp. by destruct Hp.
    + rewrite Hz in E. pose proof (link_spec t' (to_addr _ _ tables_ok_link _ _ Ht')). lia.
  - apply (translate_other k k' T t p i); [done..|lia|done].
Qed.
End link.

(** An entry of the last level *)
Section leaf.
Context (k k' : kmem) (T : gmap Z (list Z)) (t i e : Z) (p : list Z).
Hypothesis ok : tables_ok k T.
Hypothesis at_t : T !! t = Some p.
Hypothesis last : length p = 3%nat.
Hypothesis i_range : 0 <= i < 512.
Hypothesis homes : homes_kept k k'.
Hypothesis others : entry_set k k' T t i.
Hypothesis written : entry_at k' t i = e.
Hypothesis e_ok : e = 0 \/ page_ok 1 e.

Lemma leaf_level : level p = 1.
Proof. rewrite level_len, last; done || lia. Qed.

Lemma tables_ok_leaf : tables_ok k' T.
Proof.
  destruct homes as [Hst Hbl]. pose proof leaf_level as Hlv. pose proof (to_len _ _ ok) as Hlen. constructor.
  - apply (to_root _ _ ok).
  - done.
  - apply (to_addr _ _ ok).
  - intros t0 p0 H. rewrite Hst. destruct (to_home _ _ ok _ _ H); [by left|right; by apply Hbl].
  - apply (to_inj _ _ ok).
  - intros t0 p0 j H Hj. destruct (decide (t0 = t /\ j = i)) as [[-> ->]|Hne].
    + rewrite at_t in H. injection H as <-. rewrite written, Hlv. tauto.
    + rewrite (others _ _ _ H Hj Hne). by apply (to_entry _ _ ok).
  - intros t' p0 j H. destruct (to_parent _ _ ok _ _ _ H) as (t0 & Ht0 & Hj & E).
    exists t0. split_and!; [done|lia|lia|]. rewrite (others _ _ _ Ht0 Hj); [done|]. intros [-> ->].
    rewrite at_t in Ht0. injection Ht0 as <-. apply Hlen in H. rewrite length_app in H. cbn in H. lia.
  - intros t0 p0 j H Hj Hl Hpg. rewrite (others _ _ _ H Hj) in Hpg; [by eapply to_user|].
    intros [-> ->]. rewrite at_t in H. injection H as <-. lia.
Qed.

Lemma translate_leaf v :
  translate (ram k') A v =
  if decide (along v (p ++ [i])) then
    if decide (e = 0) then None else Some (frame 12 e + offset v 12)
  else translate (ram k) A v.
Proof.
  destruct (decide _) as [Hv|Hv]; [|apply (translate_other k k' T t p i); [done..|lia|done]].
  apply along_snoc in Hv as [Hv Ei]; [|lia].
  pose proof (walk_cases k' T tables_ok_leaf t p v at_t Hv) as Hc. cbv zeta in Hc.
  rewrite <- Ei, written, leaf_level in Hc. destruct Hc as [[-> ->]|[[Hp ->]|(t' & Ht' & _)]].
  - done.
  - rewrite decide_False; [done|]. intros ->. by destruct Hp.
  - apply (to_len _ _ ok) in Ht'. rewrite length_app in Ht'. cbn in Ht'. lia.
Qed.
End leaf.

(** ** A page from the allocator *)

Record fresh_page (k k' : kmem) (r : Z) : Prop := {
  fp_start : start_addr (g_free_memory k') = start_addr (g_free_memory k);
  fp_end : end_addr (g_free_memory k') = end_addr (g_free_memory k);
  fp_addr : exists q, 0 <= q /\ r = start_addr (g_free_memory k) + 4096 * q;
  fp_inside : r + 4096 <= end_addr (g_free_memory k);
  fp_apart : forall a b, kernel_block k a b -> r + 4096 <= a \/ a + b <= r;
  fp_blocks : forall a b, kernel_block k' a b <-> kernel_block k a b \/ (a = r /\ b = 4096);
  fp_ram : forall a, ram k' a = if decide (r <= a < r + 4096) then 0 else ram k a
}.

Definition no_memory (k : kmem) : Prop := az_alloc PAGE_SIZE_4K k = Ok (0, k).

Lemma wp_alloc_page k : kmem_inv k ->
  wp (az_alloc PAGE_SIZE_4K) (fun r k' => kmem_inv k' /\
    ((r = 0 /\ k' = k /\ no_memory k) \/ (r <> 0 /\ fresh_page k k' r))) k.
Proof.
  intros Hk. pose proof (pa_alloc_spec k PAGE_SIZE_4K Hk ltac:(unfold PAGE_SIZE_4K; lia)) as H1.
  pose proof (wp_az_alloc k PAGE_SIZE_4K Hk ltac:(unfold PAGE_SIZE_4K; lia)) as H2.
  apply wp_Ok in H1 as (r & k' & E & Hk' & H1). unfold wp in H2 |- *. rewrite E in H2 |- *.
  split; [done|]. destruct H2 as [_ [(-> & -> & _)|(l & q & Hl & _ & Hal)]]; [by left|right].
  assert (l = 0) as -> by (eapply level_for_unique; [exact Hl|]; apply (level_for_block 0); lia).
  pose proof (al_range _ _ _ _ _ Hal) as Hq. pose proof (pi_end _ (proj1 Hk)) as He.
  pose proof (al_addr _ _ _ _ _ Hal) as Hr. pose proof (pi_start _ (proj1 Hk)).
  assert (r <> 0) as Hr0 by lia. destruct H1 as [[? _]|(_ & bytes & _ & Hap & Hbl)]; [done|].
  split; [done|]. destruct (al_frame _ _ _ _ _ Hal) as (bms & _ & Ef).
  assert (bytes = 4096) as ->.
  { assert (kernel_block k' r bytes) as (q' & x & E1 & -> & E2 & _) by (apply Hbl; by right).
    rewrite Ef in E1. cbn in E1. replace q' with q in E2 by lia.
    rewrite (al_index _ _ _ _ _ Hal), nthZ_updZ_eq in E2; [by injection E2 as <-|].
    pose proof (sh_index _ (bi_shape _ _ (pi_buddy _ (proj1 Hk)))). lia. }
  constructor; try (by rewrite Ef); try done; [exists q; lia|lia|].
  intros a. rewrite (al_ram _ _ _ _ _ Hal). done.
Qed.

Lemma fits_fresh k k' r : pool_fits k -> kmem_inv k' -> fresh_page k k' r -> pool_fits k'.
Proof.
  intros [Hi Ha Hl Hh] Hi' Hf. constructor; rewrite ?(fp_start _ _ _ Hf), ?(fp_end _ _ _ Hf); done.
Qed.

Lemma fits_ram k m : pool_fits k -> pool_fits (k <| ram := m |>).
Proof. by intros [? ? ? ?]. Qed.

Lemma fresh_addr k k' r : pool_fits k -> fresh_page k k' r -> table_addr r.
Proof.
  intros [Hi Ha Hl Hh] Hf. destruct (fp_addr _ _ _ Hf) as (q & Hq & ->).
  pose proof (fp_inside _ _ _ Hf). pose proof (pi_end _ (proj1 Hi)). split_and!; [|lia..].
  apply Z.divide_add_r; [done|by apply Z.divide_factor_l].
Qed.

Lemma load64_ext m m' a : (forall x, a <= x < a + 8 -> m x = m' x) -> load64 m a = load64 m' a.
Proof. intros H. apply load_bytes_ext. intros j Hj. rewrite H by lia. done. Qed.

(** Entry [i] of [t] points to [page]. *)
Definition enter_page (m : kmem) (t i page : Z) : kmem :=
  m <| ram := set_page_entry_data t i (pa page) 0x7 (ram m) |>.

Lemma kernel_blocks_apart k a b a' b' : kmem_inv k -> kernel_block k a b -> kernel_block k a' b' ->
  a <> a' -> a + b <= a' \/ a' + b' <= a.
Proof.
  intros Hk (p & e & -> & -> & Hp & He) (q & f & -> & -> & Hq & Hf) Hne.
  pose proof (pi_buddy _ (proj1 Hk)) as Hb.
  destruct (buddy_entries_apart _ _ Hb p e Hp He) as (_ & _ & H1).
  destruct (buddy_entries_apart _ _ Hb q f Hq Hf) as (_ & _ & H2).
  destruct (Z.lt_trichotomy p q) as [H|[H|H]]; [left|lia|right].
  - pose proof (H1 q f H Hq Hf). lia.
  - pose proof (H2 p e H Hp He). lia.
Qed.

Lemma kernel_block_low k a b : kmem_inv k -> kernel_block k a b -> start_addr (g_free_memory k) <= a.
Proof. intros Hk (p & e & -> & _ & Hp & _). apply nthZ_Some_range in Hp. lia. Qed.

Lemma kernel_block_size k a b : kmem_inv k -> kernel_block k a b -> 0 < b.
Proof. intros Hk Hb. exact (proj2 (@pa_block_pos _ _ _ kernel_allocator _ _ _ Hk Hb)). Qed.

(** A write into a table leaves the live blocks that are not tables alone. *)
Lemma table_apart k T t p x b : kmem_inv k -> tables_ok k T -> T !! t = Some p ->
  kernel_block k x b -> T !! x = None -> t + 4096 <= x \/ x + b <= t.
Proof.
  intros Hk Hok Ht Hb Hx. destruct (to_home _ _ Hok _ _ Ht) as [H|H].
  - pose proof (kernel_block_low _ _ _ Hk Hb). lia.
  - apply (kernel_blocks_apart k); [done..|]. congruence.
Qed.

Section fresh.
Context (k k' : kmem) (r : Z) (T : gmap Z (list Z)).
Hypothesis inv : kmem_inv k.
Hypothesis ok : tables_ok k T.
Hypothesis fresh : fresh_page k k' r.

Lemma fresh_apart t p : T !! t = Some p -> t + 4096 <= r \/ r + 4096 <= t.
Proof.
  intros Ht. destruct (fp_addr _ _ _ fresh) as (q & Hq & ->).
  destruct (to_home _ _ ok _ _ Ht) as [H|H]; [left; lia|]. destruct (fp_apart _ _ _ fresh _ _ H); lia.
Qed.

Lemma fresh_untouched t p j : T !! t = Some p -> 0 <= j < 512 -> entry_at k' t j = entry_at k t j.
Proof.
  intros Ht Hj. apply load64_ext. intros x Hx. rewrite (fp_ram _ _ _ fresh), decide_False; [done|].
  destruct (fresh_apart t p Ht); lia.
Qed.

Lemma fresh_not_table : T !! r = None.
Proof.
  destruct (T !! r) as [p|] eqn:E; [|done]. destruct (fresh_apart r p E); lia.
Qed.

Lemma fresh_zero j : 0 <= j < 512 -> entry_at k' r j = 0.
Proof.
  intros Hj. transitivity (load64 (fun _ => 0) (r + 8 * j)); [|done]. apply load64_ext.
  intros x Hx. rewrite (fp_ram _ _ _ fresh), decide_True by lia. done.
Qed.

Lemma fresh_homes : homes_kept k k'.
Proof. split; [apply (fp_start _ _ _ fresh)|]. intros a b H. apply (fp_blocks _ _ _ fresh). by left. Qed.

Context (t i : Z) (p : list Z).
Hypothesis at_t : T !! t = Some p.
Hypothesis i_range : 0 <= i < 512.
Hypothesis r_addr : table_addr r.

Local Notation entered := (enter_page k' t i r).

Lemma table_align t0 p0 : T !! t0 = Some p0 -> aligned t0.
Proof. intros H. apply (to_addr _ _ ok _ _ H). Qed.

Lemma entered_read t0 j : aligned t0 -> 0 <= j < 512 ->
  entry_at entered t0 j = if decide (t0 = t /\ j = i) then link r else entry_at k' t0 j.
Proof.
  intros H0 Hj. unfold entry_at, enter_page. cbn [ram set_field]. pose proof (link_spec r r_addr).
  rewrite read_set; [done|by eapply table_align|done|done|done|]. unfold link in *. lia.
Qed.

Lemma entered_others : entry_set k entered T t i.
Proof.
  intros t0 p0 j H0 Hj Hne. rewrite entered_read, decide_False by (done || by eapply table_align).
  by eapply fresh_untouched.
Qed.

Lemma entered_at : entry_at entered t i = link r.
Proof. rewrite entered_read, decide_True by (done || by eapply table_align). done. Qed.

Lemma entered_zero j : 0 <= j < 512 -> entry_at entered r j = 0.
Proof.
  intros Hj. rewrite entered_read by (done || apply r_addr). rewrite decide_False; [by apply fresh_zero|].
  intros [E _]. pose proof fresh_not_table. pose proof at_t. congruence.
Qed.

(** Live blocks that are not tables keep their content. *)
Lemma entered_data x b a : kernel_block k x b -> T !! x = None -> x <= a < x + b -> ram entered a = ram k a.
Proof.
  intros Hb Hx Ha. unfold enter_page, set_page_entry_data. cbn [ram set_field]. rewrite store64_spec, decide_False.
  - rewrite (fp_ram _ _ _ fresh), decide_False; [done|]. destruct (fp_apart _ _ _ fresh _ _ Hb); lia.
  - pose proof (table_apart k T t p x b inv ok at_t Hb Hx). lia.
Qed.
End fresh.

(** A page that goes elsewhere *)
Lemma tables_ok_fresh k k' r T : tables_ok k T -> fresh_page k k' r ->
  tables_ok k' T /\ forall v, translate (ram k') A v = translate (ram k) A v.
Proof.
  intros Hok Hfr. pose proof (fresh_untouched k k' r T Hok Hfr) as Hsame.
  destruct (fresh_homes k k' r Hfr) as [Hst Hbl]. split.
  - constructor; try apply Hok.
    + intros t p Ht. rewrite Hst. destruct (to_home _ _ Hok _ _ Ht); [by left|right; by apply Hbl].
    + intros t p i Ht Hi. rewrite (Hsame t p) by done. by apply (to_entry _ _ Hok).
    + intros t' p i Ht'. destruct (to_parent _ _ Hok _ _ _ Ht') as (t & Ht & Hi & E).
      exists t. by rewrite (Hsame t p).
    + intros t p i Ht Hi. rewrite (Hsame t p) by done. by apply (to_user _ _ Hok).
  - intros v. apply (translate_same k T); [done|]. intros t p Ht Hv.
    by apply (Hsame t p), step_index_range, (to_len _ _ Hok _ _ Ht).
Qed.

(** ** Growing the tree *)

(** More tables, and the data of live blocks unchanged *)
Record extends (k : kmem) (T : gmap Z (list Z)) (k' : kmem) (T' : gmap Z (list Z)) : Prop := {
  ex_sub : T ⊆ T';
  ex_homes : homes_kept k k';
  ex_data : forall x b, kernel_block k x b -> T !! x = None ->
    T' !! x = None /\ forall a, x <= a < x + b -> ram k' a = ram k a
}.

(** The same translations *)
Definition same_map (k k' : kmem) : Prop :=
  forall v, translate (ram k') A v = translate (ram k) A v.

Lemma extends_refl k T : extends k T k T.
Proof. by split. Qed.

Lemma extends_trans k T k1 T1 k2 T2 : extends k T k1 T1 -> extends k1 T1 k2 T2 -> extends k T k2 T2.
Proof.
  intros [S1 [E1 B1] D1] [S2 [E2 B2] D2]. split.
  - by etrans.
  - split; [congruence|auto].
  - intros x b Hb Hx. destruct (D1 x b Hb Hx) as [Hx1 Hd1]. destruct (D2 x b (B1 _ _ Hb) Hx1) as [? Hd2].
    split; [done|]. intros a Ha. by rewrite Hd2, Hd1.
Qed.

(** The state of the kernel's mapping, the lock being [lk] *)
Record mapping_ok (s : mapping) (T : gmap Z (list Z)) (lk : Z) : Prop := {
  mo_lock : map_lock s = lk;
  mo_fits : pool_fits (mp_mem s);
  mo_tables : tables_ok (mp_mem s) T
}.

(** An inner entry on the way to a 4 KiB page: afterwards there is a table below. *)
Lemma wp_fill_link s T t p i Q : mapping_ok s T TRUE -> T !! t = Some p -> (length p <= 2)%nat ->
  0 <= i < 512 -> ~ page_ok (level p) (entry_at (mp_mem s) t i) ->
  (no_memory (mp_mem s) -> Q FALSE (s <| map_lock := FALSE |>)) ->
  (forall s' T' t', mapping_ok s' T' TRUE -> extends (mp_mem s) T (mp_mem s') T' ->
    same_map (mp_mem s) (mp_mem s') -> T' !! t' = Some (p ++ [i]) -> entry_at (mp_mem s') t i = link t' -> Q TRUE s') ->
  wp (fill_entry g_memory_start t i) Q s.
Proof.
  intros [Hl Hf Hok] Ht Hlen Hi Hnp Hno Hyes. unfold fill_entry. apply wp_bind, wp_gets.
  fold (entry_at (mp_mem s) t i). destruct (Z.eqb_spec (entry_at (mp_mem s) t i) 0) as [E|E].
  - apply wp_bind, wp_zoom. eapply wp_mono; [apply wp_alloc_page, Hf|].
    intros r k' [Hk' [(-> & -> & Hnm)|[Hr Hfr]]].
    + exact (Hno Hnm).
    + rewrite (proj2 (Z.eqb_neq r 0)) by done.
      pose proof (fresh_addr _ _ _ Hf Hfr) as Hra. pose proof (fi_inv _ Hf) as Hinv.
      apply wp_bind, wp_modify, wp_ret. change (Z.lor PAGE_FLAGS_DEFAULT PAGE_FLAGS_US) with 0x7.
      pose proof (entered_others _ _ _ _ Hok Hfr t i p Ht Hi Hra) as Hoth.
      pose proof (entered_at _ k' _ _ Hok t i p Ht Hi Hra) as Hat.
      pose proof (entered_zero _ _ _ _ Hok Hfr t i p Ht Hi Hra) as Hz.
      pose proof (fresh_not_table _ _ _ _ Hok Hfr) as Hnt.
      assert (kernel_block (enter_page k' t i r) r 4096) as Hb
        by (apply (fp_blocks _ _ _ Hfr); by right).
      pose proof (fresh_homes _ _ _ Hfr) as Hh.
      eapply (Hyes _ (<[r := p ++ [i]]> T) r).
      * split; [done|by apply fits_ram; eapply fits_fresh|].
        by apply (tables_ok_link (mp_mem s) (enter_page k' t i r) T t i r p).
      * split.
        -- by apply insert_subseteq.
        -- done.
        -- intros x b Hx Hnx. split; [|intros a; by apply (entered_data _ _ _ _ Hinv Hok Hfr t i p Ht Hi x b)].
           rewrite lookup_insert_ne; [done|]. intros ->.
           destruct (fp_apart _ _ _ Hfr _ _ Hx); [lia|]. pose proof (kernel_block_size _ _ _ Hinv Hx). lia.
      * intros v. by apply (translate_link (mp_mem s) (enter_page k' t i r) T t i r p).
      * rewrite lookup_insert. by rewrite decide_True.
      * done.
  - apply wp_ret. destruct (to_entry _ _ Hok _ _ _ Ht Hi) as [?|[?|(t' & Ht' & E')]]; [done..|].
    by eapply (Hyes s T t'); [|apply extends_refl| | |].
Qed.

(** ** The walk of the kernel *)

(** Addresses outside the kernel's part of the map *)
Definition user (v : Z) : Prop := index v 39 <> 256.

Lemma user_small k T t p v : tables_ok k T -> user v -> T !! t = Some p -> along v p -> (length p <= 2)%nat ->
  ~ page_ok (level p) (entry_at k t (step_index v p)).
Proof.
  intros Hok Hu Ht Hv Hl Hp.
  pose proof (to_user _ _ Hok t p _ Ht (step_index_range v p ltac:(lia)) Hl Hp) as Hh.
  destruct p as [|x p]; [done|]. unfold along in Hv. cbn in Hh, Hv. injection Hh as ->.
  injection Hv as Hv _. by apply Hu.
Qed.

Lemma wp_fill_step s T t p v Q : mapping_ok s T TRUE -> user v -> T !! t = Some p -> along v p ->
  (length p <= 2)%nat ->
  (forall s', mapping_ok s' T FALSE -> mp_mem s' = mp_mem s -> no_memory (mp_mem s') -> Q FALSE s') ->
  (forall s' T' t', mapping_ok s' T' TRUE -> extends (mp_mem s) T (mp_mem s') T' ->
    same_map (mp_mem s) (mp_mem s') -> T' !! t' = Some (p ++ [step_index v p]) ->
    along v (p ++ [step_index v p]) ->
    table_of g_memory_start (entry_at (mp_mem s') t (step_index v p)) = t' -> Q TRUE s') ->
  wp (fill_entry g_memory_start t (step_index v p)) Q s.
Proof.
  intros Hs Hu Ht Hv Hl Hno Hyes. apply (wp_fill_link s T t p); [done..|by apply step_index_range; lia| | |].
  - eapply user_small; [apply Hs|done..].
  - intros Hnm. apply Hno; [|done|done]. destruct Hs as [? ? ?]. by split.
  - intros s' T' t' Hs' He Hm Ht' E. apply (Hyes s' T' t'); try done; [by apply along_snoc; [lia|]|].
    rewrite E. apply link_spec. eapply to_addr; [apply Hs'|done].
Qed.

Lemma same_map_trans k k1 k2 : same_map k k1 -> same_map k1 k2 -> same_map k k2.
Proof. intros H1 H2 v. by rewrite H2. Qed.

Lemma level_indices v :
  level_index v PAGE_PML4_MASK 39 = step_index v [] /\
  (forall a, level_index v PAGE_PDPT_MASK 30 = step_index v [a]) /\
  (forall a b, level_index v PAGE_PDE_MASK 21 = step_index v [a; b]) /\
  (forall a b c, level_index v PAGE_PTE_MASK 12 = step_index v [a; b; c]).
Proof. by split_and!; intros; apply level_index_eq. Qed.

Lemma wp_walk_to_pd s T v Q : mapping_ok s T TRUE -> user v ->
  (forall s' T', mapping_ok s' T' FALSE -> extends (mp_mem s) T (mp_mem s') T' ->
    same_map (mp_mem s) (mp_mem s') -> no_memory (mp_mem s') -> Q None s') ->
  (forall s' T' t p, mapping_ok s' T' TRUE -> extends (mp_mem s) T (mp_mem s') T' ->
    same_map (mp_mem s) (mp_mem s') -> T' !! t = Some p -> along v p -> length p = 2%nat ->
    Q (Some (t, step_index v p)) s') ->
  wp (walk_to_pd g_memory_start v) Q s.
Proof.
  intros Hs Hu Hno Hyes. destruct (level_indices v) as (I1 & I2 & I3 & _).
  unfold walk_to_pd. rewrite I1. apply wp_bind.
  apply (wp_fill_step s T _ [] v); [done|done|apply (to_root _ _ (mo_tables _ _ _ Hs))|apply along_nil|cbn; lia| |].
  { intros s' Hs' E Hnm. apply wp_ret. apply (Hno s' T); [done|rewrite E; apply extends_refl|by rewrite E|done]. }
  intros s1 T1 t1 Hs1 He1 Hm1 Ht1 Hv1 E1. apply wp_bind, wp_gets.
  fold (entry_at (mp_mem s1) (va A) (step_index v [])). cbv zeta. rewrite E1.
  rewrite (I2 (step_index v [])). apply wp_bind.
  apply (wp_fill_step s1 T1 _ _ v); [done|done|exact Ht1|done|cbn; lia| |].
  { intros s' Hs' E Hnm. apply wp_ret. apply (Hno s' T1); [done|by rewrite E|by rewrite E|done]. }
  intros s2 T2 t2 Hs2 He2 Hm2 Ht2 Hv2 E2. apply wp_bind, wp_gets.
  match goal with |- context [load64 (ram (mp_mem s2)) (?t + 8 * ?i)] => fold (entry_at (mp_mem s2) t i) end.
  rewrite E2, (I3 (step_index v []) (step_index v [step_index v []])). apply wp_ret.
  apply (Hyes s2 T2); [done|by eapply extends_trans|by eapply same_map_trans|exact Ht2|done|done].
Qed.

(** ** The last level *)

(** The page of [v] is mapped by the entry [e], every other page as before. *)
Definition remapped (k k' : kmem) (v e : Z) : Prop :=
  forall w, translate (ram k') A w =
    if decide (indices w = indices v) then
      if decide (e = 0) then None else Some (frame 12 e + offset w 12)
    else translate (ram k) A w.

Lemma along_full w v p : (length p = 3)%nat -> along v p ->
  along w (p ++ [step_index v p]) <-> indices w = indices v.
Proof.
  intros Hl Hv. assert (p ++ [step_index v p] = indices v) as ->.
  { assert (along v (p ++ [step_index v p])) as H by (apply along_snoc; [lia|done]).
    unfold along in H. rewrite length_app, Hl in H. exact H. }
  unfold along. by cbn.
Qed.

Lemma wp_set_leaf s T t p v base f Q lk : mapping_ok s T lk -> T !! t = Some p -> along v p ->
  length p = 3%nat -> Z.lor base f = 0 \/ page_ok 1 (Z.lor base f) ->
  (forall s', mapping_ok s' T lk -> extends (mp_mem s) T (mp_mem s') T ->
    remapped (mp_mem s) (mp_mem s') v (Z.lor base f) -> Q tt s') ->
  wp (set_entry t (step_index v p) base f) Q s.
Proof.
  intros [Hl Hf Hok] Ht Hv Hlen He HQ. apply wp_modify. set (e := Z.lor base f) in *.
  pose proof (step_index_range v p ltac:(lia)) as Hi. set (i := step_index v p) in *.
  set (k' := mp_mem s <| ram := set_page_entry_data t i base f (ram (mp_mem s)) |>).
  assert (0 <= e < 2 ^ 64) as Hr by (destruct He as [-> |(_ & ? & _)]; lia).
  assert (forall t0 p0 j, T !! t0 = Some p0 -> 0 <= j < 512 -> entry_at k' t0 j =
    if decide (t0 = t /\ j = i) then e else entry_at (mp_mem s) t0 j) as Hrd.
  { intros t0 p0 j H0 Hj. by apply read_set;
      [apply (to_addr _ _ Hok _ _ Ht)|apply (to_addr _ _ Hok _ _ H0)|..]. }
  assert (entry_set (mp_mem s) k' T t i) as Hoth.
  { intros t0 p0 j H0 Hj Hne. by rewrite (Hrd t0 p0), decide_False. }
  assert (entry_at k' t i = e) as Hat by (rewrite (Hrd t p) by done; by rewrite decide_True).
  assert (homes_kept (mp_mem s) k') as Hh by done.
  apply HQ.
  - split; [done|by apply fits_ram|]. by apply (tables_ok_leaf (mp_mem s) k' T t i e p).
  - split; [done|done|]. intros x b Hb Hx. split; [done|]. intros a Ha.
    change (store64 (ram (mp_mem s)) (t + 8 * i) e a = ram (mp_mem s) a).
    rewrite store64_spec, decide_False; [done|].
    pose proof (table_apart _ T t p x b (fi_inv _ Hf) Hok Ht Hb Hx). lia.
  - change (remapped (mp_mem s) k' v e). intros w.
    rewrite (translate_leaf (mp_mem s) k' T t i e p Hok Ht Hlen Hi Hh Hoth Hat He w).
    apply decide_ext. by apply along_full.
Qed.

(** ** [lk_map], [lk_unmap], [get_pa] *)

Lemma wp_lock_map s Q : map_lock s = FALSE -> Q tt (s <| map_lock := TRUE |>) -> wp lock_map Q s.
Proof. intros E HQ. apply wp_zoom. by apply wp_spinlock_lock. Qed.

Lemma wp_unlock_map s Q : Q tt (s <| map_lock := FALSE |>) -> wp unlock_map Q s.
Proof. intros HQ. by apply wp_zoom, wp_spinlock_unlock. Qed.

Lemma mapping_relock s T lk lk' : mapping_ok s T lk -> mapping_ok (s <| map_lock := lk' |>) T lk'.
Proof. intros [? ? ?]. by split. Qed.

Lemma leaf_page phys f : (4096 | phys) -> 0 <= phys < 2 ^ 51 -> f = 0x7 \/ f = 0x17 ->
  page_ok 1 (Z.lor phys f) /\ frame 12 (Z.lor phys f) = phys /\ Z.lor phys f <> 0.
Proof.
  intros Hd Hp Hf. assert (0 <= f < 2 ^ 12) by lia.
  assert (Z.lor phys f = phys + f) as E by (apply (lor_flags 12); done || lia).
  split_and!; [split_and!|apply frame_entry; done || lia|lia].
  - unfold present. rewrite (testbit_entry 12) by (done || lia). by destruct Hf as [-> | ->].
  - lia.
  - destruct Hd as [x ->]. lia.
  - by left.
Qed.

Lemma wp_lk_map s T v phys cache Q : mapping_ok s T FALSE -> user v ->
  (4096 | phys) -> 0 <= phys < 2 ^ 51 ->
  (forall s' T', mapping_ok s' T' FALSE -> extends (mp_mem s) T (mp_mem s') T' ->
    same_map (mp_mem s) (mp_mem s') -> no_memory (mp_mem s') -> Q FALSE s') ->
  (forall s' T' e, mapping_ok s' T' FALSE -> extends (mp_mem s) T (mp_mem s') T' ->
    e <> 0 -> frame 12 e = phys -> remapped (mp_mem s) (mp_mem s') v e -> Q TRUE s') ->
  wp (lk_map g_memory_start v phys PAGE_SIZE_4K cache) Q s.
Proof.
  intros Hs Hu Hd Hp Hno Hyes. unfold lk_map. destruct (level_indices v) as (_ & _ & _ & I4).
  apply wp_bind, wp_lock_map; [apply Hs|]. apply wp_bind.
  apply (wp_walk_to_pd _ T); [by eapply mapping_relock|done| |].
  { intros s' T' Hs' He Hm Hnm. by apply wp_ret, (Hno s' T'). }
  intros s1 T1 t1 p1 Hs1 He1 Hm1 Ht1 Hv1 Hl1. apply wp_bind.
  apply (wp_fill_step s1 T1 t1 p1 v); [done|done|done|done|lia| |].
  { intros s' Hs' E Hnm. apply wp_ret, (Hno s' T1); [done|by rewrite E|by rewrite E|done]. }
  intros s2 T2 t2 Hs2 He2 Hm2 Ht2 Hv2 E2. change (TRUE =? FALSE) with false. cbv zeta iota.
  change (PAGE_SIZE_4K =? PAGE_SIZE_4K) with true. cbv iota.
  set (fl := Z.lor _ PAGE_FLAGS_US).
  assert (fl = 0x7 \/ fl = 0x17) as Hfl by (subst fl; destruct (cache =? 0); [by left|by right]).
  destruct (leaf_page phys fl Hd Hp Hfl) as (Hpg & Hfr & Hnz).
  apply wp_bind, wp_bind, wp_gets.
  match goal with |- context [load64 (ram (mp_mem s2)) (?t + 8 * ?i)] => fold (entry_at (mp_mem s2) t i) end.
  rewrite E2. assert (exists a b c, p1 ++ [step_index v p1] = [a; b; c]) as (a & b & c & Ep).
  { destruct p1 as [|a [|b [|? ?]]]; try done. eexists _, _, _. reflexivity. }
  rewrite (I4 a b c), <- Ep.
  apply (wp_set_leaf s2 T2 t2 _ v _ _ _ TRUE); [done..|by rewrite Ep|by right|].
  intros s3 Hs3 He3 Hr3. apply wp_bind, wp_unlock_map, wp_ret.
  apply (Hyes _ T2 (Z.lor phys fl)); [by eapply mapping_relock| |done|done|].
  - eapply extends_trans; [exact He1|]. by eapply extends_trans.
  - intros w. cbn. rewrite Hr3. case_decide; [done|]. by rewrite Hm2, Hm1.
Qed.

(** The tables of a mapped address *)
Lemma step_down k T t p v r : tables_ok k T -> user v -> T !! t = Some p -> along v p ->
  (length p <= 2)%nat -> translate (ram k) A v = Some r ->
  exists t', T !! t' = Some (p ++ [step_index v p]) /\ along v (p ++ [step_index v p]) /\
    entry_at k t (step_index v p) = link t' /\ table_of g_memory_start (link t') = t'.
Proof.
  intros Hok Hu Ht Hv Hl Htr.
  destruct (walk_cases k T Hok t p v Ht Hv) as [[_ E]|[[Hp _]|(t' & Ht' & E & Hv')]].
  - congruence.
  - by apply (user_small k T t p v) in Hp.
  - exists t'. split_and!; [done..|]. apply link_spec. by eapply to_addr.
Qed.

Lemma link_small t : table_addr t -> Z.land (link t) PAGE_FLAGS_PS = 0.
Proof.
  intros Ht. change PAGE_FLAGS_PS with (2 ^ 7). apply Z.bits_inj'. intros i Hi.
  rewrite Z.land_spec, Z.bits_0, Z.pow2_bits_eqb by lia. destruct (Z.eqb_spec 7 i) as [<-|]; [|apply andb_false_r].
  destruct (link_spec t Ht) as (_ & E & _). unfold large in E. by rewrite E.
Qed.

Lemma wp_lk_unmap s T v r Q : mapping_ok s T FALSE -> user v ->
  translate (ram (mp_mem s)) A v = Some r ->
  (forall s', mapping_ok s' T FALSE -> extends (mp_mem s) T (mp_mem s') T ->
    remapped (mp_mem s) (mp_mem s') v 0 -> Q TRUE s') ->
  wp (lk_unmap g_memory_start v) Q s.
Proof.
  intros Hs Hu Htr HQ. pose proof (mo_tables _ _ _ Hs) as Hok.
  destruct (level_indices v) as (I1 & I2 & I3 & I4). unfold lk_unmap.
  destruct (step_down _ _ _ [] v r Hok Hu (to_root _ _ Hok) (along_nil v) ltac:(cbn; lia) Htr)
    as (t1 & Ht1 & Hv1 & E1 & F1).
  destruct (step_down _ _ _ _ v r Hok Hu Ht1 Hv1 ltac:(cbn; lia) Htr) as (t2 & Ht2 & Hv2 & E2 & F2).
  destruct (step_down _ _ _ _ v r Hok Hu Ht2 Hv2 ltac:(cbn; lia) Htr) as (t3 & Ht3 & Hv3 & E3 & F3).
  unfold entry_at in E1, E2, E3. cbn [app] in E2, E3, Ht3, Hv3. apply wp_bind, wp_lock_map; [apply Hs|].
  apply wp_bind, wp_gets. rewrite I1. cbn [mp_mem set_field]. rewrite E1, F1.
  apply wp_bind, wp_gets. rewrite (I2 (step_index v [])). cbn [mp_mem set_field].
  rewrite E2, F2. apply wp_bind, wp_gets.
  rewrite (I3 (step_index v []) (step_index v [step_index v []])). cbn [mp_mem set_field].
  rewrite E3, F3, link_small by (by eapply to_addr). cbn [Z.eqb negb].
  apply wp_bind. erewrite I4.
  eapply (wp_set_leaf _ T t3 _ v _ _ _ TRUE); [by eapply mapping_relock|exact Ht3|done|done|by left|].
  intros s' Hs' He Hr. apply wp_bind, wp_unlock_map, wp_ret. apply HQ; [by eapply mapping_relock|done|done].
Qed.

(** No address loses or changes its translation. *)
Definition keeps_map (k k' : kmem) : Prop :=
  forall w x, translate (ram k) A w = Some x -> translate (ram k') A w = Some x.

Lemma wp_fill_leaf s T t p v Q : mapping_ok s T TRUE -> T !! t = Some p -> along v p ->
  length p = 3%nat ->
  (forall s', mapping_ok s' T FALSE -> mp_mem s' = mp_mem s -> no_memory (mp_mem s') -> Q FALSE s') ->
  (forall s', mapping_ok s' T TRUE -> extends (mp_mem s) T (mp_mem s') T ->
    keeps_map (mp_mem s) (mp_mem s') ->
    (exists e, entry_at (mp_mem s') t (step_index v p) = e /\ 0 <= e < 2 ^ 52 /\
      translate (ram (mp_mem s')) A v = Some (frame 12 e + offset v 12)) -> Q TRUE s') ->
  wp (fill_entry g_memory_start t (step_index v p)) Q s.
Proof.
  intros [Hl Hf Hok] Ht Hv Hlen Hno Hyes. pose proof (fi_inv _ Hf) as Hinv.
  pose proof (step_index_range v p ltac:(lia)) as Hi.
  assert (level p = 1) as Hlv by (rewrite level_len; lia).
  unfold fill_entry. apply wp_bind, wp_gets. fold (entry_at (mp_mem s) t (step_index v p)).
  destruct (walk_cases _ T Hok t p v Ht Hv) as [[E Htr]|[[Hp Htr]|(t' & Ht' & _)]].
  - rewrite E. cbn [Z.eqb]. apply wp_bind, wp_zoom. eapply wp_mono; [apply wp_alloc_page, Hf|].
    intros r k' [Hk' [(-> & -> & Hnm)|[Hr Hfr]]]; [by apply Hno|].
    rewrite (proj2 (Z.eqb_neq r 0)) by done. pose proof (fresh_addr _ _ _ Hf Hfr) as Hra.
    apply wp_bind, wp_modify, wp_ret. change (Z.lor PAGE_FLAGS_DEFAULT PAGE_FLAGS_US) with 0x7.
    destruct (pa_table r Hra) as (_ & Hpr & Hpd & _).
    destruct (leaf_page (pa r) 0x7 Hpd Hpr ltac:(by left)) as (Hpg & _ & Hnz). fold (link r) in Hpg, Hnz.
    set (i := step_index v p) in *. set (k2 := enter_page k' t i r).
    pose proof (entered_others _ _ _ _ Hok Hfr t i p Ht Hi Hra) as Hoth.
    pose proof (entered_at _ k' _ _ Hok t i p Ht Hi Hra) as Hat. fold k2 in Hoth, Hat.
    assert (homes_kept (mp_mem s) k2) as Hh by apply (fresh_homes _ _ _ Hfr).
    pose proof (translate_leaf _ k2 T t i _ p Hok Ht Hlen Hi Hh Hoth Hat (or_intror Hpg)) as Htl.
    apply Hyes.
    + split; [done|by apply fits_ram; eapply fits_fresh|].
      by apply (tables_ok_leaf (mp_mem s) k2 T t i (link r) p); try right.
    + split; [done|done|]. intros x b Hb Hx. split; [done|]. intros a.
      by apply (entered_data _ _ _ _ Hinv Hok Hfr t i p Ht Hi x b).
    + intros w x Hw. change (translate (ram k2) A w = Some x). rewrite Htl. destruct (decide (along w (p ++ [i]))) as [Hd|]; [|done].
      apply along_snoc in Hd as [Hd Ei]; [|lia]. subst i.
      destruct (walk_cases _ T Hok t p w Ht Hd) as [[_ E']|[[Hp' _]|(t' & Ht' & _)]]; [congruence| |].
      * rewrite <- Ei, E in Hp'. by destruct Hp'.
      * apply (to_len _ _ Hok) in Ht'. rewrite length_app in Ht'. cbn in Ht'. lia.
    + exists (link r). split_and!; [exact Hat|apply Hpg..|]. change (translate (ram k2) A v = Some (frame 12 (link r) + offset v 12)).
      rewrite Htl, decide_True, decide_False; [done|done|]. apply along_snoc; [lia|done].
  - rewrite (proj2 (Z.eqb_neq _ 0)) by (intros E; rewrite E in Hp; by destruct Hp).
    apply wp_ret, Hyes; [by split|apply extends_refl|by intros ? ?|].
    eexists. split_and!; [done|apply Hp..|]. by rewrite Htr, Hlv.
  - apply (to_len _ _ Hok) in Ht'. rewrite length_app in Ht'. cbn in Ht'. lia.
Qed.

Lemma wp_get_pa_walk s T v Q : mapping_ok s T FALSE -> user v ->
  (forall s' T', mapping_ok s' T' FALSE -> extends (mp_mem s) T (mp_mem s') T' ->
    same_map (mp_mem s) (mp_mem s') -> no_memory (mp_mem s') -> Q FALSE s') ->
  (forall s' T' r, mapping_ok s' T' FALSE -> extends (mp_mem s) T (mp_mem s') T' ->
    keeps_map (mp_mem s) (mp_mem s') -> translate (ram (mp_mem s')) A v = Some r -> Q r s') ->
  wp (get_pa_walk g_memory_start v) Q s.
Proof.
  intros Hs Hu Hno Hyes. unfold get_pa_walk. destruct (level_indices v) as (_ & _ & _ & I4).
  apply wp_bind, wp_lock_map; [apply Hs|]. apply wp_bind.
  apply (wp_walk_to_pd _ T); [by eapply mapping_relock|done| |].
  { intros s' T' Hs' He Hm Hnm. by apply wp_ret, (Hno s' T'). }
  intros s1 T1 t1 p1 Hs1 He1 Hm1 Ht1 Hv1 Hl1. apply wp_bind, wp_gets.
  fold (entry_at (mp_mem s1) t1 (step_index v p1)).
  pose proof (mo_tables _ _ _ Hs1) as Hok1.
  assert (negb (entry_at (mp_mem s1) t1 (step_index v p1) =? 0) &&
    (Z.land (entry_at (mp_mem s1) t1 (step_index v p1)) PAGE_FLAGS_PS =? PAGE_FLAGS_PS) = false) as ->.
  { destruct (walk_cases _ T1 Hok1 t1 p1 v Ht1 Hv1) as [[-> _]|[[Hp _]|(t' & Ht' & -> & _)]]; [done| |].
    - apply (user_small _ T1 t1 p1 v) in Hp; [done..|lia].
    - rewrite link_small by (by eapply to_addr). apply andb_false_r. }
  apply wp_bind. apply (wp_fill_step s1 T1 t1 p1 v); [done|done|done|done|lia| |].
  { intros s' Hs' E Hnm. apply wp_ret, (Hno s' T1); [done|by rewrite E|by rewrite E|done]. }
  intros s2 T2 t2 Hs2 He2 Hm2 Ht2 Hv2 E2. change (TRUE =? FALSE) with false. cbv iota.
  apply wp_bind, wp_gets. fold (entry_at (mp_mem s2) t1 (step_index v p1)). cbv zeta. rewrite E2.
  assert (exists a b c, p1 ++ [step_index v p1] = [a; b; c]) as (a & b & c & Ep).
  { destruct p1 as [|a [|b [|? ?]]]; try done. eexists _, _, _. reflexivity. }
  rewrite (I4 a b c), <- Ep. apply wp_bind.
  apply (wp_fill_leaf s2 T2 t2 _ v); [done..|by rewrite Ep| |].
  { intros s' Hs' E Hnm. apply wp_ret, (Hno s' T2); [done| | |done].
    - rewrite E. by eapply extends_trans.
    - rewrite E. by eapply same_map_trans. }
  intros s3 Hs3 He3 Hk3 (e & Ee & Her & Htr). change (TRUE =? FALSE) with false. cbv iota.
  apply wp_bind, wp_unlock_map. apply wp_bind, wp_gets.
  change (mp_mem (s3 <| map_lock := FALSE |>)) with (mp_mem s3).
  match goal with |- context [load64 (ram (mp_mem s3)) (?t + 8 * ?i)] => fold (entry_at (mp_mem s3) t i) end.
  rewrite Ee. apply wp_ret, (Hyes _ T2); [by eapply mapping_relock| | |].
  - eapply extends_trans; [exact He1|]. by eapply extends_trans.
  - intros w x Hw. apply Hk3. by rewrite Hm2, Hm1.
  - change (mp_mem (s3 <| map_lock := FALSE |>)) with (mp_mem s3). rewrite Htr, land_attr by done.
    f_equal. symmetry. apply u64_small. change PAGE_OFFSET_MASK with (Z.ones 12).
    fold (offset v 12). unfold frame, offset. rewrite !Z.land_ones, shiftl_pow2, shiftr_pow2 by lia.
    pose proof (Z.mod_pos_bound v (2 ^ 12) ltac:(lia)).
    pose proof (Z.mod_pos_bound (e / 2 ^ 12) (2 ^ (52 - 12)) ltac:(lia)). lia.
Qed.
End walking.

(** ** The tables at the end of the boot *)

(** The calls of [Main] that set memory up (lines 78, 102, 143 and 177 of [main.c];
    those in between only use it): the page tables, the free memory, the lock of
    the map, the removal of the identical mapping *)
Definition memory_init (g_memory_start g_memory_end g_shared_memory : Z) : M mapping unit :=
  let address := CONFIG_KERNEL_PAGETABLE_ADDRESS g_memory_start in
  modify (fun s => s <| mp_mem := mp_mem s <| ram :=
    kernel_pagetables_init g_memory_start g_memory_end g_shared_memory address (ram (mp_mem s)) |> |>) ;;
  zoom mp_mem (free_mem_init g_memory_start g_memory_end) ;;
  map_init ;;
  modify (fun s => s <| mp_mem := mp_mem s <| ram :=
    remove_low_identical_mapping g_memory_start address (ram (mp_mem s)) |> |>).

Section boot.
Context (g_memory_start g_memory_end g_shared_memory : Z).
Hypothesis layout : layout_ok g_memory_start g_memory_end g_shared_memory.
Local Notation A := (CONFIG_KERNEL_PAGETABLE_ADDRESS g_memory_start).
Local Notation va := (va g_memory_start).
Local Notation built := (built g_memory_start g_memory_end g_shared_memory).
Local Notation link := (link g_memory_start).

Definition boot_tables : gmap Z (list Z) :=
  {[ table 0 := []; table 0x1000 := [256]; table 0x2000 := [256; 0]; table 0x3000 := [256; 3] ]}.

Lemma boot_tables_Some t p : boot_tables !! t = Some p <->
  (t = table 0 /\ p = []) \/ (t = table 0x1000 /\ p = [256]) \/
  (t = table 0x2000 /\ p = [256; 0]) \/ (t = table 0x3000 /\ p = [256; 3]).
Proof.
  unfold boot_tables. rewrite !lookup_insert_Some, lookup_singleton_Some. unfold table. lia || naive_solver lia.
Qed.

Lemma start_ok : 0 <= g_memory_start /\ (4096 | g_memory_start).
Proof.
  destruct layout as [L1 L2 _ _ _ _ _]. split; [done|]. eapply Z.divide_trans; [|exact L2].
  by apply Z.mod_divide.
Qed.

Lemma boot_addr k : k ∈ [0; 0x1000; 0x2000; 0x3000] -> table_addr g_memory_start (table k).
Proof.
  intros Hk. destruct layout. split_and!.
  - apply table_aligned. repeat (apply elem_of_cons in Hk as [->|Hk]; [by apply Z.mod_divide|]).
    by apply not_elem_of_nil in Hk.
  - unfold table. set_unfold. lia.
  - unfold table, CONFIG_PAGE_OFFSET. set_unfold. lia.
  - unfold table, CONFIG_PAGE_OFFSET. set_unfold. lia.
Qed.

Lemma boot_link k : k ∈ [0; 0x1000; 0x2000; 0x3000] -> link (table k) = Z.lor (A + k) 0x7.
Proof.
  intros Hk. unfold Mapping.link. f_equal. destruct start_ok as [S1 S2].
  destruct (pa_table _ S1 S2 _ (boot_addr k Hk)) as (-> & _).
  rewrite (address_eq g_memory_start g_memory_end g_shared_memory layout). unfold table. lia.
Qed.

Lemma page_big l base f : l = 2 \/ l = 3 -> (2 ^ (12 + 9 * (l - 1)) | base) -> 0 <= base < 2 ^ 52 ->
  f = 0x83 \/ f = 0x87 -> page_ok l (Z.lor base f).
Proof.
  intros Hl Hd Hb Hf. assert (0 <= f < 2 ^ 12) by lia.
  assert (2 ^ 12 | base) as Hd'.
  { eapply Z.divide_trans; [|exact Hd]. by destruct Hl as [-> | ->]; apply Z.mod_divide. }
  assert (Z.lor base f = base + f) as E by (apply (lor_flags 12); done || lia).
  unfold page_ok, present, large. rewrite !(testbit_entry 12) by (done || lia).
  rewrite frame_entry by (done || lia).
  split_and!; [by destruct Hf as [-> | ->]|lia| |].
  - destruct Hd' as [x ->]. lia.
  - right. split_and!; [done|by destruct Hf as [-> | ->]|done].
Qed.

(** The entries that are left of the two halves *)
Definition booted (k j : Z) : Z := if decide (k = 0x2000 \/ (k = 0 /\ j = 0)) then 0 else built k j.

Lemma booted_root j : 0 <= j < 512 -> booted 0 j = if decide (j = 256) then link (table 0x1000) else 0.
Proof.
  intros Hj. unfold booted, Paging.built. rewrite boot_link by set_solver. cbn [Z.eqb].
  destruct (decide (j = 256)) as [->|]; [done|]. case_decide; [done|].
  by rewrite !(proj2 (Z.eqb_neq _ _)) by lia.
Qed.

Lemma booted_pdpt j : 0 <= j < 512 ->
  (j = 0 /\ booted 0x1000 j = link (table 0x2000)) \/ (j = 3 /\ booted 0x1000 j = link (table 0x3000)) \/
  booted 0x1000 j = 0 \/ page_ok 3 (booted 0x1000 j).
Proof.
  intros Hj. pose proof layout as [L1 L2 L3 L4 L5 L6 L7]. unfold booted, Paging.built. rewrite !boot_link by set_solver.
  rewrite decide_False by lia. cbn [Z.eqb Pos.eqb].
  pose proof (Z.mul_div_le (g_memory_end - g_memory_start) (2 ^ 30) ltac:(lia)).
  destruct (Z.eqb_spec j 0) as [->|]; [by left|]. destruct (Z.eqb_spec j 3) as [->|]; [right; by left|].
  destruct (Z.ltb_spec j 3); [|destruct (Z.ltb_spec j (4 + (g_memory_end - g_memory_start) / 2 ^ 30))];
    [right; right; right|right; right; right|right; right; by left].
  - apply page_big; [by right| |lia|by right]. apply Z.divide_add_r; [done|by apply Z.divide_factor_r].
  - apply page_big; [by right| |lia|by right]. apply Z.divide_add_r; [done|by apply Z.divide_factor_r].
Qed.

Lemma booted_pd j : 0 <= j < 512 -> page_ok 2 (booted 0x3000 j).
Proof.
  intros Hj. pose proof layout as [L1 L2 L3 L4 L5 L6 L7]. unfold booted, Paging.built.
  rewrite decide_False by lia. cbn [Z.eqb Pos.eqb]. destruct (Z.eqb_spec j 0).
  - apply (page_big 2 0 0x83); [by left|apply Z.divide_0_r|lia|by left].
  - apply page_big; [by left| |lia|by left]. apply Z.divide_add_r; [|by apply Z.divide_factor_r].
    eapply Z.divide_trans; [|exact L2]. by apply Z.mod_divide.
Qed.

Section booted.
Context (k : kmem).
Hypothesis room_below : pool_base <= start_addr (g_free_memory k).
Hypothesis holds : forall t j, t ∈ [0; 0x1000; 0x2000; 0x3000] -> 0 <= j < 512 ->
  entry_at k (table t) j = booted t j.

Lemma boot_entry t p i : boot_tables !! t = Some p -> 0 <= i < 512 ->
  entry_at k t i = 0 \/ (page_ok (level p) (entry_at k t i) /\ head p = Some 256) \/
  exists t', boot_tables !! t' = Some (p ++ [i]) /\ entry_at k t i = link t'.
Proof.
  intros [[-> ->]|[[-> ->]|[[-> ->]|[-> ->]]]]%boot_tables_Some Hi; rewrite holds by (done || set_solver).
  - rewrite booted_root by done. case_decide as E; [subst i|by left].
    right. right. exists (table 0x1000). split; [|done]. apply boot_tables_Some. auto.
  - destruct (booted_pdpt i Hi) as [[-> ->]|[[-> ->]|[->|Hp]]].
    + right. right. exists (table 0x2000). split; [|done]. apply boot_tables_Some. auto.
    + right. right. exists (table 0x3000). split; [|done]. apply boot_tables_Some. auto 6.
    + by left.
    + right. by left.
  - left. unfold booted. by rewrite decide_True by lia.
  - right. left. split; [|done]. by apply booted_pd.
Qed.

Lemma boot_parent t' p i : boot_tables !! t' = Some (p ++ [i]) ->
  exists t, boot_tables !! t = Some p /\ 0 <= i < 512 /\ entry_at k t i = link t'.
Proof.
  intros [[_ E]|[[-> E]|[[-> E]|[-> E]]]]%boot_tables_Some.
  - by apply app_nil in E as [_ ?].
  - apply (app_inj_tail p [] i 256) in E as [-> ->]. exists (table 0).
    split_and!; [apply boot_tables_Some; auto|lia..|]. rewrite holds, booted_root by (lia || set_solver). done.
  - apply (app_inj_tail p [256] i 0) in E as [-> ->]. exists (table 0x1000).
    split_and!; [apply boot_tables_Some; auto|lia..|]. rewrite holds by (lia || set_solver).
    unfold booted. rewrite boot_link by set_solver. by rewrite decide_False by lia.
  - apply (app_inj_tail p [256] i 3) in E as [-> ->]. exists (table 0x1000).
    split_and!; [apply boot_tables_Some; auto|lia..|]. rewrite holds by (lia || set_solver).
    unfold booted. rewrite boot_link by set_solver. by rewrite decide_False by lia.
Qed.

Lemma boot_elem t p : boot_tables !! t = Some p ->
  exists x, t = table x /\ x ∈ [0; 0x1000; 0x2000; 0x3000] /\ (length p <= 3)%nat.
Proof.
  intros [[-> ->]|[[-> ->]|[[-> ->]|[-> ->]]]]%boot_tables_Some; eexists; (split_and!; [reflexivity|set_solver|cbn; lia]).
Qed.

Lemma boot_tables_ok : tables_ok g_memory_start k boot_tables.
Proof.
  constructor.
  - apply boot_tables_Some. left. split; [|done].
    rewrite <- (Z.add_0_r A). by apply (va_table _ _ _ layout).
  - intros t p (x & _ & _ & Hl)%boot_elem. done.
  - intros t p (x & -> & Hx & _)%boot_elem. by apply boot_addr.
  - intros t p (x & -> & Hx & _)%boot_elem. left.
    unfold pool_base, CONFIG_KERNEL_SIZE, table in *. set_unfold. lia.
  - intros t t' p Ht Ht'. apply boot_tables_Some in Ht, Ht'. naive_solver.
  - intros t p i Ht Hi. destruct (boot_entry t p i Ht Hi) as [?|[[? _]|?]]; auto.
  - apply boot_parent.
  - intros t p i Ht Hi Hl Hp. destruct (boot_entry t p i Ht Hi) as [E|[[_ ?]|(t' & Ht' & E)]]; [|done|].
    + rewrite E in Hp. by destruct Hp.
    + destruct start_ok as [S1 S2].
      destruct (link_spec _ S1 S2 t') as (_ & Hlg & _); [destruct (boot_elem _ _ Ht') as (x & -> & Hx & _); by apply boot_addr|].
      rewrite E in Hp. destruct Hp as (_ & _ & [H1|(_ & H1 & _)]); [|congruence].
      rewrite level_len in H1; lia.
Qed.
End booted.
End boot.

(** ** What the component promises *)

Lemma indices_page w v : indices w = indices v <-> (w / 4096) mod 2 ^ 36 = (v / 4096) mod 2 ^ 36.
Proof.
  unfold indices. rewrite !index_eq by lia.
  assert (forall x, (x / 4096) mod 2 ^ 36 = (x / 2 ^ 12) mod 512 + 512 * ((x / 2 ^ 21) mod 512) +
    2 ^ 18 * ((x / 2 ^ 30) mod 512) + 2 ^ 27 * ((x / 2 ^ 39) mod 512)) as E by (intros x; zdm).
  rewrite !E. split; [by intros [= -> -> -> ->]|]. intros Ev.
  pose proof (Z.mod_pos_bound (w / 2 ^ 12) 512 ltac:(lia)). pose proof (Z.mod_pos_bound (v / 2 ^ 12) 512 ltac:(lia)).
  pose proof (Z.mod_pos_bound (w / 2 ^ 21) 512 ltac:(lia)). pose proof (Z.mod_pos_bound (v / 2 ^ 21) 512 ltac:(lia)).
  pose proof (Z.mod_pos_bound (w / 2 ^ 30) 512 ltac:(lia)). pose proof (Z.mod_pos_bound (v / 2 ^ 30) 512 ltac:(lia)).
  pose proof (Z.mod_pos_bound (w / 2 ^ 39) 512 ltac:(lia)). pose proof (Z.mod_pos_bound (v / 2 ^ 39) 512 ltac:(lia)).
  f_equal; [lia|]. f_equal; [lia|]. f_equal; [lia|]. f_equal; lia.
Qed.

(** The lower half of the address space is not the kernel's. *)
Lemma user_low v : 0 <= v < 2 ^ 47 -> user v.
Proof. intros Hv. unfold user. rewrite index_eq by lia. zdm. Qed.

(** The whole page is mapped or none of it. *)
Lemma unmapped_page g m cr3 v w : indices w = indices v -> translate g m cr3 v = None -> translate g m cr3 w = None.
Proof.
  intros [= E4 E3 E2 E1]. unfold translate. cbv zeta. rewrite E4, E3, E2, E1. by repeat case_match.
Qed.

Lemma store_pagefault_returns id v err rip s : exists s', store_pagefault_info id v err rip s = Ok (tt, s').
Proof.
  unfold store_pagefault_info, bind, get, modify, ret.
  destruct (MAX_PAGEFAULT_SIZE <? _); [by eexists|]. by destruct (_ =? MAX_PAGEFAULT_SIZE); eexists.
Qed.

Section promises.
Context (g_memory_start g_memory_end g_shared_memory : Z).
Hypothesis layout : layout_ok g_memory_start g_memory_end g_shared_memory.
Local Notation A := (CONFIG_KERNEL_PAGETABLE_ADDRESS g_memory_start).
Local Notation pa := (pa g_memory_start).
Local Notation mapped s v := (translate g_memory_start (ram (mp_mem s)) A v).

(** Addresses of the kernel and of shared memory that the boot has mapped for good *)
Definition kernel_area (v : Z) : Prop :=
  CONFIG_PAGE_OFFSET + PAGE_SIZE_2M <= v < CONFIG_PAGE_OFFSET + ((g_memory_end - g_memory_start) / 2 ^ 30 + 1) * 2 ^ 30.

Definition shared_area (v : Z) : Prop := CONFIG_SHARED_MEMORY + PAGE_SIZE_1G <= v < CONFIG_PAGE_OFFSET.

(** The tables form a tree, the lock is free, and the fixed areas are linear. *)
Record map_inv (s : mapping) : Prop := {
  mi_tree : exists T, mapping_ok g_memory_start s T FALSE;
  mi_kernel : forall v, kernel_area v -> mapped s v = Some (pa v);
  mi_shared : forall v, shared_area v -> mapped s v = Some (shared_memory_pa g_shared_memory v)
}.

(** The two areas are not in the lower half. *)
Lemma area_high v w : kernel_area v \/ shared_area v -> user w -> indices v <> indices w.
Proof.
  intros Hv Hw [= E _ _ _]. apply Hw. rewrite <- E. pose proof layout as [L1 L2 L3 L4 L5 L6 L7].
  rewrite (above_shared v). apply high_pml4.
  unfold kernel_area, shared_area, CONFIG_PAGE_OFFSET, CONFIG_SHARED_MEMORY, PAGE_SIZE_2M, PAGE_SIZE_1G in *. lia.
Qed.

Lemma map_inv_keeps s s' T' : map_inv s -> mapping_ok g_memory_start s' T' FALSE ->
  (forall v, kernel_area v \/ shared_area v -> mapped s' v = mapped s v) -> map_inv s'.
Proof.
  intros [Ht Hk Hs] Hok Hsame. split; [by exists T'|..]; intros v Hv; rewrite Hsame by tauto; auto.
Qed.

Lemma map_inv_remapped s s' T' v e : map_inv s -> mapping_ok g_memory_start s' T' FALSE -> user v ->
  remapped g_memory_start (mp_mem s) (mp_mem s') v e -> map_inv s'.
Proof.
  intros Hs Hok Hu Hr. apply (map_inv_keeps s s' T'); [done..|]. intros w Hw. rewrite Hr.
  rewrite decide_False; [done|]. by apply area_high.
Qed.

Lemma map_inv_same s s' T' : map_inv s -> mapping_ok g_memory_start s' T' FALSE ->
  same_map g_memory_start (mp_mem s) (mp_mem s') -> map_inv s'.
Proof. intros Hs Hok Hm. apply (map_inv_keeps s s' T'); [done..|]. intros v _. apply Hm. Qed.

Lemma map_inv_keeps_map s s' T' : map_inv s -> mapping_ok g_memory_start s' T' FALSE ->
  keeps_map g_memory_start (mp_mem s) (mp_mem s') -> map_inv s'.
Proof.
  intros Hs Hok Hm. apply (map_inv_keeps s s' T'); [done..|]. intros v Hv.
  destruct Hs as [_ Hk Hsh]. destruct Hv as [Hv|Hv]; [rewrite (Hk v Hv)|rewrite (Hsh v Hv)]; apply Hm; auto.
Qed.

Local Notation page v := ((v / 4096) mod 2 ^ 36).

(** C6: mapping a page and unmapping it.  For an address of the lower half that is
    not mapped, [lk_map] either returns FALSE because the memory is used up, with
    every translation as before, or returns TRUE, and then the processor finds the
    given physical page at the address, and at every other page what it found
    before; [lk_unmap] brings all the translations back.  The tables remain a
    tree. *)
Theorem map_unmap_roundtrip s v phys cache :
  map_inv s -> 0 <= v < 2 ^ 47 -> (4096 | phys) -> 0 <= phys < 2 ^ 51 -> mapped s v = None ->
  exists r s1, lk_map g_memory_start v phys PAGE_SIZE_4K cache s = Ok (r, s1) /\ map_inv s1 /\
    ((r = FALSE /\ no_memory (mp_mem s1) /\ forall w, mapped s1 w = mapped s w) \/
     (r = TRUE /\
      (forall w, mapped s1 w = if decide (page w = page v) then Some (phys + w mod 4096) else mapped s w) /\
      exists s2, lk_unmap g_memory_start v s1 = Ok (TRUE, s2) /\ map_inv s2 /\
        forall w, mapped s2 w = mapped s w)).
Proof.
  intros Hs Hv Hd Hp Hnone. destruct (start_ok _ _ _ layout) as [S1 S2]. pose proof (user_low v Hv) as Hu.
  pose proof Hs as [(T & Hok) _ _].
  apply wp_Ok, (wp_lk_map _ S1 S2 s T); [done..| |].
  { intros s1 T1 Hs1 He Hm Hnm. split; [by eapply map_inv_same|]. by left. }
  intros s1 T1 e Hs1 He Hnz Hfr Hr. split; [by eapply map_inv_remapped|]. right. split; [done|].
  assert (forall w, mapped s1 w = if decide (page w = page v) then Some (phys + w mod 4096) else mapped s w) as Hw.
  { intros w. rewrite Hr, (decide_False (P := e = 0)), Hfr, (offset_eq w 12) by (done || lia).
    apply decide_ext, indices_page. }
  split; [done|].
  assert (wp (lk_unmap g_memory_start v) (fun r s2 => r = TRUE /\ map_inv s2 /\
    forall w, mapped s2 w = mapped s w) s1) as (r & s2 & E & -> & H)%wp_Ok; [|by exists s2].
  eapply (wp_lk_unmap _ S1 S2 s1 T1); [done|done|by rewrite Hw, decide_True|].
  intros s2 Hs2 He2 Hr2. split; [done|]. split; [eapply (map_inv_remapped s1); [by eapply map_inv_remapped|done..]|].
  intros w. rewrite Hr2. destruct (decide (indices w = indices v)) as [E|E].
  - rewrite decide_True by done. symmetry. by eapply unmapped_page.
  - rewrite Hw, decide_False; [done|]. by rewrite <- indices_page.
Qed.

Lemma wp_get_pa s v Q : map_inv s -> 0 < v < 2 ^ 47 \/ kernel_area v \/ shared_area v ->
  (forall r s', map_inv s' -> (forall w x, mapped s w = Some x -> mapped s' w = Some x) ->
    mapped s' v = Some r \/ (r = 0 /\ no_memory (mp_mem s')) -> Q r s') ->
  wp (get_pa g_memory_start g_shared_memory v) Q s.
Proof.
  intros Hs Hv HQ. destruct (start_ok _ _ _ layout) as [S1 S2]. pose proof layout as [L1 L2 L3 L4 L5 L6 L7].
  unfold get_pa. destruct Hv as [Hv|Hv].
  - rewrite (proj2 (Z.eqb_neq v 0)), (proj2 (Z.ltb_ge _ v)) by (unfold CONFIG_HIGH_HALF_LIMIT; lia).
    pose proof Hs as [(T & Hok) _ _].
    apply (wp_get_pa_walk _ S1 S2 s T); [done|apply user_low; lia|..].
    + intros s' T' Hok' _ Hm Hnm. apply HQ; [by eapply map_inv_same| |by right].
      intros w x Hw. by rewrite Hm.
    + intros s' T' r Hok' _ Hm Hr. apply HQ; [by eapply map_inv_keeps_map|exact Hm|by left].
  - unfold kernel_area, shared_area, CONFIG_HIGH_HALF_LIMIT in *.
    change CONFIG_SHARED_MEMORY with 0xFFFF800000000000 in *.
    change CONFIG_PAGE_OFFSET with 0xFFFF8000C0000000 in *.
    unfold PAGE_SIZE_2M, PAGE_SIZE_1G in *.
    rewrite (proj2 (Z.eqb_neq v 0)), (proj2 (Z.ltb_lt _ v)) by lia.
    apply HQ; [done|done|left]. destruct Hv as [Hv|Hv].
    + rewrite (proj2 (Z.ltb_ge v _)) by lia. by apply (mi_kernel _ Hs).
    + rewrite (proj2 (Z.ltb_lt v _)) by lia. by apply (mi_shared _ Hs).
Qed.

(** C11: [get_pa] gives the address that the processor would use.  For an address of
    the lower half, of the kernel's area or of the shared area it returns, keeps
    every translation there is, and its result is the translation of the address,
    for which it may have entered a new page; only with the memory used up is the
    result 0 instead. *)
Theorem get_pa_is_translation s v :
  map_inv s -> 0 < v < 2 ^ 47 \/ kernel_area v \/ shared_area v ->
  exists r s', get_pa g_memory_start g_shared_memory v s = Ok (r, s') /\ map_inv s' /\
    (forall w x, mapped s w = Some x -> mapped s' w = Some x) /\
    (mapped s' v = Some r \/ (r = 0 /\ no_memory (mp_mem s'))).
Proof. intros Hs Hv. apply wp_Ok, wp_get_pa; [done..|]. by intros. Qed.

(** What the page fault handler does in the lower half *)
Lemma pagefault_cases s id v err rip :
  map_inv (f_mapping s) -> 0 <= v < 2 ^ 47 ->
  let m := f_mapping s in
  (no_memory (mp_mem m) /\ pagefault_handler g_memory_start id v err rip s = Fault KernelHalt) \/
  exists s', pagefault_handler g_memory_start id v err rip s = Ok (tt, s') /\
    let m' := f_mapping s' in
    map_inv m' /\
    ((no_memory (mp_mem m') /\ forall w, mapped m' w = mapped m w) \/
     exists new_page, kernel_block (mp_mem m') new_page 4096 /\
       (forall a b, kernel_block (mp_mem m) a b -> new_page + 4096 <= a \/ a + b <= new_page) /\
       (forall a, new_page <= a < new_page + 4096 -> ram (mp_mem m') a = 0) /\
       forall w, mapped m' w =
         if decide (page w = page v) then Some (pa new_page + w mod 4096) else mapped m w).
Proof.
  intros Hs Hv m. destruct (start_ok _ _ _ layout) as [S1 S2]. pose proof (user_low v Hv) as Hu.
  pose proof Hs as [(T & Hok) _ _]. fold m in Hs, Hok. pose proof Hok as [Hl Hf Ht].
  destruct (store_pagefault_returns id v err rip (f_shell s)) as (sh & Esh).
  pose proof (wp_alloc_page _ (fi_inv _ _ Hf)) as (r & k & Er & Hk & Hr)%wp_Ok.
  unfold pagefault_handler, zoom, bind. rewrite Esh. cbn [f_mapping set_field]. fold m. rewrite Er.
  destruct Hr as [(-> & -> & Hnm)|[Hr Hfr]]; [by left|right]. rewrite (proj2 (Z.eqb_neq r 0)) by done.
  pose proof (fits_fresh _ _ _ _ Hf Hk Hfr) as Hf1. pose proof (fresh_addr _ _ _ _ Hf Hfr) as Hra.
  destruct (tables_ok_fresh _ S1 S2 _ _ _ _ Ht Hfr) as [Ht1 Hsame].
  pose proof (fresh_not_table _ _ _ _ _ Ht Hfr) as Hnt. pose proof (proj2 (fp_blocks _ _ _ Hfr r 4096)) as Hb.
  destruct (pa_table _ S1 S2 r Hra) as (_ & Hpr & Hpd & _).
  set (m1 := m <| mp_mem := k |>). assert (mapping_ok g_memory_start m1 T FALSE) as Hok1 by by split.
  assert (map_inv m1) as Hs1 by (by eapply (map_inv_same m)).
  assert (wp (lk_map g_memory_start v (pa r) PAGE_SIZE_4K 0) (fun x m' => (x =? -1) = false /\ map_inv m' /\
    ((no_memory (mp_mem m') /\ forall w, mapped m' w = mapped m w) \/
     (kernel_block (mp_mem m') r 4096 /\ (forall a, r <= a < r + 4096 -> ram (mp_mem m') a = 0) /\
      forall w, mapped m' w = if decide (page w = page v) then Some (pa r + w mod 4096) else mapped m w))) m1)
    as (x & m2 & E & Hx & Hm2 & Hc)%wp_Ok.
  - apply (wp_lk_map _ S1 S2 m1 T); [done..| |].
    + intros s' T' Hok' _ Hm Hnm. split_and!; [done|by eapply (map_inv_same m1)|left].
      split; [done|]. intros w. by rewrite Hm, <- Hsame.
    + intros s' T' e Hok' [_ [_ Hbl] Hdat] Hnz Hfr' Hrm. split_and!; [done|by eapply (map_inv_remapped m1)|right].
      split_and!; [apply Hbl; auto| |].
      * intros a Ha. destruct (Hdat r 4096 (Hb (or_intror (conj eq_refl eq_refl))) Hnt) as [_ Hd].
        rewrite Hd by done. cbn. rewrite (fp_ram _ _ _ Hfr), decide_True by done. done.
      * intros w. rewrite Hrm, (decide_False (P := e = 0)), Hfr', (offset_eq w 12) by (done || lia).
        change (mp_mem m1) with k. rewrite Hsame. apply decide_ext, indices_page.
  - cbn [f_mapping]. fold m1. change {| mp_mem := k; map_lock := map_lock m |} with m1. rewrite E, Hx.
    eexists. split; [reflexivity|]. cbn [f_mapping].
    split; [done|]. destruct Hc as [Hc|(Hb2 & Hz & Hw)]; [by left|right]. exists r.
    split_and!; [done|apply (fp_apart _ _ _ Hfr)|done|done].
Qed.

Lemma pagefault_halts s id v err rip : no_memory (mp_mem (f_mapping s)) ->
  pagefault_handler g_memory_start id v err rip s = Fault KernelHalt.
Proof.
  intros Hno. destruct (store_pagefault_returns id v err rip (f_shell s)) as (sh & Esh).
  unfold pagefault_handler, zoom, bind. rewrite Esh. cbn [f_mapping set_field]. rewrite Hno. done.
Qed.

(** C12: a page fault in the lower half gives the thread a page.  The handler halts
    the kernel when there is no page left.  Otherwise it returns, and either the
    tables could not grow, the memory is used up and every translation is as
    before, or the page of the faulting address is now a page that was not in use
    before, filled with zeros, all other pages being mapped as before. *)
Theorem page_fault_maps_zero_page s id v err rip :
  map_inv (f_mapping s) -> 0 <= v < 2 ^ 47 ->
  let m := f_mapping s in
  (no_memory (mp_mem m) /\ pagefault_handler g_memory_start id v err rip s = Fault KernelHalt) \/
  exists s', pagefault_handler g_memory_start id v err rip s = Ok (tt, s') /\
    let m' := f_mapping s' in
    map_inv m' /\
    ((no_memory (mp_mem m') /\ forall w, mapped m' w = mapped m w) \/
     exists new_page, kernel_block (mp_mem m') new_page 4096 /\
       (forall a b, kernel_block (mp_mem m) a b -> new_page + 4096 <= a \/ a + b <= new_page) /\
       (forall a, new_page <= a < new_page + 4096 -> ram (mp_mem m') a = 0) /\
       forall w, mapped m' w =
         if decide (page w = page v) then Some (pa new_page + w mod 4096) else mapped m w).
Proof. apply pagefault_cases. Qed.

(** The state after the setup *)
Lemma memory_init_inv s :
  2 ^ 22 <= free_area g_memory_start g_memory_end <= 2 ^ 42 -> stat_ok (stat_area (mp_mem s)) ->
  exists s', memory_init g_memory_start g_memory_end g_shared_memory s = Ok (tt, s') /\ map_inv s' /\
    forall v, 0 <= v < 2 ^ 47 -> mapped s' v = None.
Proof.
  intros Hfa Hst. pose proof layout as [L1 L2 L3 L4 L5 L6 L7]. destruct (start_ok _ _ _ layout) as [S1 S2].
  destruct (mm_init_spec g_memory_start g_memory_end L1 ltac:(lia) Hfa)
    as (mm & Em & Hinv & _ & _ & _ & Hend & (Hlow & Hstart) & _).
  unfold memory_init, bind, modify, zoom, free_mem_init, map_init. cbn [mp_mem set_field].
  rewrite Em. eexists. split; [reflexivity|]. cbn [mp_mem set_field ram].
  match goal with |- map_inv ?x /\ _ => set (s' := x) end.
  assert (forall t j, t ∈ [0; 0x1000; 0x2000; 0x3000] -> 0 <= j < 512 ->
    entry_at (mp_mem s') (table t) j = booted g_memory_start g_memory_end g_shared_memory t j) as Hb.
  { intros t j Ht Hj. by apply (removed_spec _ _ _ layout). }
  assert (pool_fits g_memory_start (mp_mem s')) as Hf.
  { split; [by split|..]; change (g_free_memory (mp_mem s')) with mm; rewrite ?Hend.
    - rewrite Hstart. exists (0xFFFF800100000 + (free_area g_memory_start g_memory_end / 4096 - smallest_block mm)).
      change pool_base with (0xFFFF800100000 * 4096). lia.
    - unfold pool_base, CONFIG_KERNEL_SIZE in *. lia.
    - unfold free_area, pool_base, CONFIG_KERNEL_SIZE in *. lia. }
  assert (tables_ok g_memory_start (mp_mem s') boot_tables) as Ht by (by apply (boot_tables_ok _ _ _ layout)).
  assert (mapping_ok g_memory_start s' boot_tables FALSE) as Hok by by split.
  pose proof (low_removal_areas _ _ _ layout (ram (mp_mem s))) as (Hno & Hk & Hsh). cbv zeta in Hno, Hk, Hsh.
  split; [split|]; [by exists boot_tables|exact Hk| |exact Hno].
  intros v Hv. refine (eq_trans (Hsh v Hv) _). f_equal. unfold shared_memory_pa.
  unfold shared_area, PAGE_SIZE_1G, CONFIG_PAGE_OFFSET, CONFIG_SHARED_MEMORY in *. rewrite u64_small; lia.
Qed.

(** C15: after the setup of memory by [Main] the page tables form a tree that the
    operations above can grow, the kernel's area is mapped linearly to its own
    memory and the shared area to the shared memory, the lower half is free, and
    the page allocator is ready. *)
Theorem memory_boots s :
  2 ^ 22 <= free_area g_memory_start g_memory_end <= 2 ^ 42 -> stat_ok (stat_area (mp_mem s)) ->
  exists s', memory_init g_memory_start g_memory_end g_shared_memory s = Ok (tt, s') /\ map_inv s' /\
    kmem_inv (mp_mem s') /\
    (forall v, kernel_area v -> mapped s' v = Some (v - CONFIG_PAGE_OFFSET + g_memory_start)) /\
    forall v, 0 <= v < 2 ^ 47 -> mapped s' v = None.
Proof.
  intros Hfa Hst. destruct (memory_init_inv s Hfa Hst) as (s' & E & Hs & Hno). exists s'.
  split_and!; [done|done| | |done].
  - destruct Hs as [(T & Hok) _ _]. apply Hok.
  - intros v Hv. rewrite (mi_kernel _ Hs v Hv). f_equal. apply u64_small.
    pose proof layout as [L1 L2 L3 L4 L5 L6 L7]. unfold kernel_area, PAGE_SIZE_2M in Hv.
    pose proof (Z.mul_div_le (g_memory_end - g_memory_start) (2 ^ 30) ltac:(lia)). lia.
Qed.
End promises.

(** ** The first unikernel of [include/knl/arch.h] *)

Definition unbooted : mapping := mkMapping small_kmem FALSE.

Lemma booted_mapping :
  exists s, map_inv (128 * 2 ^ 30) (138 * 2 ^ 30) (125 * 2 ^ 30) s /\
    forall v, 0 <= v < 2 ^ 47 ->
      translate (128 * 2 ^ 30) (ram (mp_mem s)) (CONFIG_KERNEL_PAGETABLE_ADDRESS (128 * 2 ^ 30)) v = None.
Proof.
  destruct (memory_init_inv _ _ _ knl_layout unbooted) as (s & _ & Hs & Hno);
    [vm_compute; split; congruence|by split|].
  exists s. exact (conj Hs Hno).
Qed.

Lemma memory_boots_witness :
  exists s', memory_init (128 * 2 ^ 30) (138 * 2 ^ 30) (125 * 2 ^ 30) unbooted = Ok (tt, s') /\
    kmem_inv (mp_mem s').
Proof.
  destruct (memory_boots _ _ _ knl_layout unbooted) as (s' & E & _ & Hk & _);
    [vm_compute; split; congruence|by split|].
  exists s'. exact (conj E Hk).
Defined.

Lemma map_unmap_roundtrip_witness :
  exists s r s1, lk_map (128 * 2 ^ 30) 0x400000 (130 * 2 ^ 30) PAGE_SIZE_4K 0 s = Ok (r, s1).
Proof.
  destruct booted_mapping as (s & Hs & Hno). exists s.
  destruct (map_unmap_roundtrip _ _ _ knl_layout s 0x400000 (130 * 2 ^ 30) 0 Hs) as (r & s1 & E & _);
    [lia|by apply Z.mod_divide|lia|apply Hno; lia|]. exists r, s1. exact E.
Defined.

Lemma get_pa_is_translation_witness :
  exists s r s', get_pa (128 * 2 ^ 30) (125 * 2 ^ 30) 0x40001234 s = Ok (r, s').
Proof.
  destruct booted_mapping as (s & Hs & Hno). exists s.
  destruct (get_pa_is_translation _ _ _ knl_layout s 0x40001234 Hs) as (r & s1 & E & _); [lia|].
  exists r, s1. exact E.
Defined.

Lemma page_fault_maps_zero_page_witness :
  exists s, let h := pagefault_handler (128 * 2 ^ 30) 300 0x40000008 2 0x401000 in
    h s = Fault KernelHalt \/ exists s', h s = Ok (tt, s').
Proof.
  destruct booted_mapping as (m & Hm & Hno). exists (mkFaulting m zero_area). intros h.
  destruct (page_fault_maps_zero_page _ _ _ knl_layout (mkFaulting m zero_area) 300 0x40000008 2 0x401000 Hm)
    as [[_ E]|(s' & E & _)]; [lia|left; exact E|right; exists s'; exact E].
Defined.
