(* ===== verification/OffloadProxy.v ===== *)
(** * The handlers of the offload proxy

    [sideloader/offload_proxy/offload_fio.c], [offload_network.c] and the dispatch
    of [offload_local_proxy.c]: a request is turned into calls of the host's C
    library, whose state and functions are parameters.  [get_va] of
    [offload_mmap.c] turns the physical addresses of a request into addresses of
    the proxy. *)

From S2P Require Import Prelude.
From S2P Require Import ShmPool.
From S2P Require Import Offload.

(** ** Function types ([kernel/systemcalllist.h]) *)

Definition SYSCALL_sys_read : Z := 507.

Definition SYSCALL_sys_write : Z := 508.

Definition SYSCALL_sys_open : Z := 510.

Definition SYSCALL_sys_close : Z := 511.

Definition SYSCALL_sys_lseek : Z := 520.

Definition SYSCALL_sys_creat : Z := 528.

Definition SYSCALL_sys_unlink : Z := 530.

Definition SYSCALL_sys_stat : Z := 531.

Definition SYSCALL_sys_chdir : Z := 533.

Definition SYSCALL_sys_link : Z := 534.

Definition SYSCALL_sys_gethostname : Z := 601.

Definition SYSCALL_sys_gethostbyname : Z := 602.

Definition SYSCALL_sys_getsockname : Z := 603.

Definition SYSCALL_sys_socket : Z := 604.

Definition SYSCALL_sys_bind : Z := 605.

Definition SYSCALL_sys_listen : Z := 606.

Definition SYSCALL_sys_connect : Z := 607.

Definition SYSCALL_sys_accept : Z := 608.

Definition SYSCALL_sys3_getcwd : Z := 903.

Definition SYSCALL_sys3_system : Z := 904.

Definition SYSCALL_sys3_opendir : Z := 905.

Definition SYSCALL_sys3_closedir : Z := 906.

Definition SYSCALL_sys3_readdir : Z := 907.

Definition SYSCALL_sys3_rewinddir : Z := 908.

(** [switch] over numbered cases *)
Fixpoint switch {A} (cases : list (Z * A)) (no : Z) : option A :=
  match cases with
  | [] => None
  | (n, a) :: rest => if no =? n then Some a else switch rest no
  end.

(** ** The host *)

(** The calls of the C library, with the arguments that the proxy passes *)
Inductive host_call :=
| h_open (path oflag : Z)
| h_open_mode (path oflag mode : Z)
| h_creat (path mode : Z)
| h_read (fd buf count : Z)
| h_write (fd buf count : Z)
| h_close (fd : Z)
| h_lseek (fd offset whence : Z)
| h_link (oldpath newpath : Z)
| h_access (path mode : Z)
| h_unlink (path : Z)
| h_stat (pathname buf : Z)
| h_getcwd (buf size : Z)
| h_system (command : Z)
| h_chdir (path : Z)
| h_opendir (name : Z)
| h_closedir (dirp : Z)
| h_readdir (dirp : Z)
| h_rewinddir (dirp : Z)
| h_gethostname (name len : Z)
| h_gethostbyname (name : Z)
| h_getsockname (sockfd addr addrlen : Z)
| h_socket (domain type protocol : Z)
| h_bind (sockfd addr addrlen : Z)
| h_listen (sockfd backlog : Z)
| h_connect (sockfd addr addrlen : Z)
| h_accept (sockfd addr addrlen : Z)
| h_strcpy (dst src : Z)
| h_memcpy (dst src n : Z).

(** The state of the host: what a call returns and leaves, [errno], and the memory
    of the proxy as words and [int]s *)
Class Host (W : Type) := {
  host : host_call -> W -> Z * W;
  errno : W -> Z;
  set_errno : Z -> W -> W;
  load_ptr : W -> Z -> Z;
  load_int : W -> Z -> Z;
  store_int : Z -> Z -> W -> W
}.

(** The globals of [offload_mmap.c] that [mmap_unikernels_memory] sets *)
Record maps := mkMaps {
  g_mmap_unikernels_mem_base_va : Z;
  g_kernels_mem_base_pa : Z;
  g_mmap_channel_mem_base_va : Z;
  g_channel_mem_base_pa : Z
}.

#[export] Instance eta_maps : Eta maps := fun m =>
  mkMaps (g_mmap_unikernels_mem_base_va m) (g_kernels_mem_base_pa m)
    (g_mmap_channel_mem_base_va m) (g_channel_mem_base_pa m).

(** [include/knl/arch.h] *)
Definition UNIKERNEL_START : Z := 128.

Definition SHARED_MEMORY_SIZE : Z := 3.

Definition MEMORYS_PER_NODE : Z := 10.

Definition SHARED_MEMORY_START : Z := Z.shiftl (UNIKERNEL_START - SHARED_MEMORY_SIZE) 30.

Definition CHANNEL_START_OFFSET : Z := IPC_START_OFFSET + IPC_SIZE.

Definition CHANNEL_SIZE : Z := Z.shiftl 1 30.

Definition UNIKERNELS_MEM_BASE_PA : Z := Z.shiftl UNIKERNEL_START 30.

Definition CONFIG_CHANNEL_PA : Z := SHARED_MEMORY_START + CHANNEL_START_OFFSET.

Definition MAP_FAILED : Z := u64 (-1).

(** [mmap len off] is the address at which the host maps [len] bytes of the device
    from physical address [off], or [MAP_FAILED]; [opened] is whether the device
    could be opened. *)
Definition mmap_unikernels_memory (mmap : Z -> Z -> Z) (opened : bool) (n_unikernels : Z) : M maps Z :=
  if negb opened then ret 1
  else
    modify (fun m => m <| g_kernels_mem_base_pa := UNIKERNELS_MEM_BASE_PA |>) ;;
    let kernels_mem_base_pa_len := u64 (Z.shiftl (s32 (MEMORYS_PER_NODE * n_unikernels)) 30) in
    let va := mmap kernels_mem_base_pa_len UNIKERNELS_MEM_BASE_PA in
    modify (fun m => m <| g_mmap_unikernels_mem_base_va := va |>) ;;
    if va =? MAP_FAILED then ret 0
    else
      modify (fun m => m <| g_channel_mem_base_pa := CONFIG_CHANNEL_PA |>) ;;
      let va := mmap CHANNEL_SIZE CONFIG_CHANNEL_PA in
      modify (fun m => m <| g_mmap_channel_mem_base_va := va |>) ;;
      if va =? MAP_FAILED then ret 0
      else ret kernels_mem_base_pa_len.

Definition F_OK : Z := 0.

Section proxy.
Context {W : Type} `{Host W} (mm : maps).

Definition get_va (pa : Z) : Z :=
  if pa =? 0 then 0
  else if UNIKERNELS_MEM_BASE_PA <=? pa then
    u64 (g_mmap_unikernels_mem_base_va mm + u64 (pa - g_kernels_mem_base_pa mm))
  else u64 (g_mmap_channel_mem_base_va mm + u64 (pa - g_channel_mem_base_pa mm)).

(** A function of the host that returns an [int], one that returns a [long], one
    that returns a pointer *)
Definition call_int (c : host_call) : M W Z := fun w => let '(r, w') := host c w in Ok (s32 r, w').

Definition call_long (c : host_call) : M W Z := fun w => let '(r, w') := host c w in Ok (s64 r, w').

Definition call_ptr (c : host_call) : M W Z := fun w => let '(r, w') := host c w in Ok (u64 r, w').

(** ** Files *)

(** What a handler returns here is what it passes to [send_offload_message] as
    [ret], an [unsigned long]. *)
Definition sys_off_open (r : request) : M W Z :=
  let path := get_va (r_param1 r) in
  let oflag := s32 (r_param2 r) in
  let mode := u32 (r_param3 r) in
  let! iret := (if mode =? 0 then call_int (h_open path oflag)
                else call_int (h_open_mode path oflag mode)) in
  ret (u64 iret).

Definition sys_off_creat (r : request) : M W Z :=
  let path := get_va (r_param1 r) in
  let mode := u32 (r_param2 r) in
  let! iret := call_int (h_creat path mode) in
  ret (u64 iret).

(** [count] is an [int], converted to [size_t] for the call. *)
Definition sys_off_read (r : request) : M W Z :=
  let fd := s32 (r_param1 r) in
  let pa := r_param2 r in
  let count := s32 (r_param3 r) in
  let! sret := call_long (h_read fd (get_va pa) (u64 count)) in
  ret (u64 sret).

Definition sys_off_write (r : request) : M W Z :=
  let fd := s32 (r_param1 r) in
  let pa := r_param2 r in
  let count := s32 (r_param3 r) in
  let! sret := call_long (h_write fd (get_va pa) (u64 count)) in
  ret (u64 sret).

Definition sys_off_close (r : request) : M W Z :=
  let fd := s32 (r_param1 r) in
  let! iret := (if 2 <? fd then call_int (h_close fd) else ret (-1)) in
  ret (u64 iret).

Definition sys_off_lseek (r : request) : M W Z :=
  let fd := s32 (r_param1 r) in
  let offset := s64 (r_param2 r) in
  let whence := s32 (r_param3 r) in
  let! oret := call_long (h_lseek fd offset whence) in
  ret (u64 oret).

Definition sys_off_link (r : request) : M W Z :=
  let oldpath := get_va (r_param1 r) in
  let newpath := get_va (r_param2 r) in
  let! iret := call_int (h_link oldpath newpath) in
  ret (u64 iret).

Definition sys_off_unlink (r : request) : M W Z :=
  let path := get_va (r_param1 r) in
  let! a := call_int (h_access path F_OK) in
  let! iret := (if a =? 0 then call_int (h_unlink path) else ret 0) in
  ret (u64 iret).

Definition sys_off_stat (r : request) : M W Z :=
  let pathname := get_va (r_param1 r) in
  let buf := get_va (r_param2 r) in
  let! iret := call_int (h_stat pathname buf) in
  ret (u64 iret).

Definition sys3_off_getcwd (r : request) : M W Z :=
  let buf := get_va (r_param1 r) in
  let size := r_param2 r in
  let! pret := call_ptr (h_getcwd buf size) in
  ret pret.

Definition sys3_off_system (r : request) : M W Z :=
  let command := get_va (r_param1 r) in
  let! iret := call_int (h_system command) in
  ret (u64 iret).

Definition sys_off_chdir (r : request) : M W Z :=
  let path := get_va (r_param1 r) in
  let! iret := call_int (h_chdir path) in
  ret (u64 iret).

Definition sys3_off_opendir (r : request) : M W Z :=
  let name := get_va (r_param1 r) in
  let! pret := call_ptr (h_opendir name) in
  ret pret.

Definition sys3_off_closedir (r : request) : M W Z :=
  let dirp := r_param1 r in
  let! iret := call_int (h_closedir dirp) in
  ret (u64 iret).

Definition sys3_off_readdir (r : request) : M W Z :=
  let dirp := r_param1 r in
  modify (set_errno 0) ;;
  let! pret := call_ptr (h_readdir dirp) in
  let! e := gets errno in
  ret (if (pret =? 0) && negb (e =? 0) then u64 (-1) else pret).

Definition sys3_off_rewinddir (r : request) : M W Z :=
  let dirp := r_param1 r in
  let! _ := call_int (h_rewinddir dirp) in
  ret 0.

(** ** Network *)

Definition sys_off_gethostname (r : request) : M W Z :=
  let name := get_va (r_param1 r) in
  let len := s32 (r_param2 r) in
  let! iret := call_int (h_gethostname name (u64 len)) in
  ret (u64 iret).

(** [struct hostent]: [h_name], [h_aliases], [h_addrtype], [h_length],
    [h_addr_list] at offsets 0, 8, 16, 20 and 24; [h_addr] is [h_addr_list[0]]. *)
Definition sys_off_gethostbyname (r : request) : M W Z :=
  let name := get_va (r_param1 r) in
  let h_name := get_va (r_param2 r) in
  let h_aliase := get_va (r_param3 r) in
  let h_addrtype := get_va (r_param4 r) in
  let h_length := get_va (r_param5 r) in
  let h_addr := get_va (r_param6 r) in
  let! p := call_ptr (h_gethostbyname name) in
  when (negb (p =? 0))
    (let! n := gets (fun w => load_ptr w p) in
     when (negb (n =? 0)) (let! _ := call_ptr (h_strcpy h_name n) in ret tt) ;;
     let! a := gets (fun w => load_ptr w (load_ptr w (p + 8))) in
     when (negb (a =? 0)) (let! _ := call_ptr (h_strcpy h_aliase a) in ret tt) ;;
     modify (fun w => store_int h_addrtype (load_int w (p + 16)) w) ;;
     modify (fun w => store_int h_length (load_int w (p + 20)) w) ;;
     let! a := gets (fun w => load_ptr w (load_ptr w (p + 24))) in
     let! l := gets (fun w => load_int w (p + 20)) in
     when (negb (a =? 0) && (0 <? l)) (let! _ := call_ptr (h_memcpy h_addr a (u64 l)) in ret tt)) ;;
  ret p.

Definition sys_off_getsockname (r : request) : M W Z :=
  let sockfd := s32 (r_param1 r) in
  let addr := get_va (r_param2 r) in
  let addrlen := get_va (r_param3 r) in
  let! iret := call_int (h_getsockname sockfd addr addrlen) in
  ret (u64 iret).

Definition sys_off_socket (r : request) : M W Z :=
  let domain := s32 (r_param1 r) in
  let type := s32 (r_param2 r) in
  let protocol := s32 (r_param3 r) in
  let! iret := call_int (h_socket domain type protocol) in
  ret (u64 iret).

Definition sys_off_bind (r : request) : M W Z :=
  let sockfd := s32 (r_param1 r) in
  let addr := get_va (r_param2 r) in
  let addrlen := u32 (r_param3 r) in
  let! iret := call_int (h_bind sockfd addr addrlen) in
  ret (u64 iret).

Definition sys_off_listen (r : request) : M W Z :=
  let sockfd := s32 (r_param1 r) in
  let backlog := s32 (r_param2 r) in
  let! iret := call_int (h_listen sockfd backlog) in
  ret (u64 iret).

Definition sys_off_connect (r : request) : M W Z :=
  let sockfd := s32 (r_param1 r) in
  let addr := get_va (r_param2 r) in
  let addrlen := u32 (r_param3 r) in
  let! iret := call_int (h_connect sockfd addr addrlen) in
  ret (u64 iret).

Definition sys_off_accept (r : request) : M W Z :=
  let sockfd := s32 (r_param1 r) in
  let addr := get_va (r_param2 r) in
  let addrlen := get_va (r_param3 r) in
  let! iret := call_int (h_accept sockfd addr addrlen) in
  ret (u64 iret).

(** ** The dispatch of [offload_local_proxy] *)

Definition handlers : list (Z * (request -> M W Z)) :=
  [(SYSCALL_sys_read, sys_off_read); (SYSCALL_sys_write, sys_off_write);
   (SYSCALL_sys_lseek, sys_off_lseek); (SYSCALL_sys_open, sys_off_open);
   (SYSCALL_sys_creat, sys_off_creat); (SYSCALL_sys_close, sys_off_close);
   (SYSCALL_sys_link, sys_off_link); (SYSCALL_sys_unlink, sys_off_unlink);
   (SYSCALL_sys_gethostname, sys_off_gethostname); (SYSCALL_sys_gethostbyname, sys_off_gethostbyname);
   (SYSCALL_sys_getsockname, sys_off_getsockname); (SYSCALL_sys_socket, sys_off_socket);
   (SYSCALL_sys_bind, sys_off_bind); (SYSCALL_sys_listen, sys_off_listen);
   (SYSCALL_sys_connect, sys_off_connect); (SYSCALL_sys_accept, sys_off_accept);
   (SYSCALL_sys_stat, sys_off_stat); (SYSCALL_sys3_getcwd, sys3_off_getcwd);
   (SYSCALL_sys3_system, sys3_off_system); (SYSCALL_sys_chdir, sys_off_chdir);
   (SYSCALL_sys3_opendir, sys3_off_opendir); (SYSCALL_sys3_closedir, sys3_off_closedir);
   (SYSCALL_sys3_readdir, sys3_off_readdir); (SYSCALL_sys3_rewinddir, sys3_off_rewinddir)].

(** The reply to a request; a request of an unknown type gets none, and its sender
    waits for ever. *)
Definition dispatch (r : request) : M W Z :=
  match switch handlers (r_type r) with
  | Some h => h r
  | None => fail Spinning
  end.

Definition dispatched (type : Z) : bool :=
  match switch handlers type with Some _ => true | None => false end.
End proxy.
