(* ===== verification/OffloadCalls.v ===== *)
(** * The offloaded system calls

    [kernel/systemcall/offload_fio.c], [offload_network.c] and the cases of
    [process_systemcall] that call them: a call checks its arguments, translates
    its pointers to physical addresses, sends a request to the proxy and waits for
    the reply.  Exchanging request and reply is a parameter, [remote], which
    [OffloadInv] justifies: every request is executed once and its reply reaches
    the thread that sent it.  The theorems put the calls, the page tables
    ([Mapping]) and the proxy's handlers ([OffloadProxy]) together.

    Where a call translates two pointers in the arguments of one function call, C
    does not fix the order; the model takes the first one first. *)

From S2P Require Import Prelude.
From S2P Require Import Utility.
From S2P Require Import Memory.
From S2P Require Import Allocator.
From S2P Require Import ShellStorage.
From S2P Require Import Paging.
From S2P Require Import Mapping.
From S2P Require Import Offload.
From S2P Require Import OffloadInv.
From S2P Require Import OffloadProxy.

(** The fields of [g_hp], a [struct hostent], that the kernel uses; the host writes
    [h_addrtype] and [h_length], at offsets 16 and 20, and nobody sets [h_aliases]. *)
Record hostent := mkHostent {
  h_name : Z;
  h_aliases : Z;
  h_addr : Z
}.

#[export] Instance eta_hostent : Eta hostent := fun h => mkHostent (h_name h) (h_aliases h) (h_addr h).

(** The kernel's memory and page tables, what it records of page faults, the globals
    of [offload_network.c], and the host *)
Record kernel_and_host (W : Type) := mkKH {
  ks_map : mapping;
  ks_shell : SHELL_STORAGE_AREA;
  g_hp : hostent;
  hostent_init_flag : Z;
  ks_host : W
}.
Arguments mkKH {W}. Arguments ks_map {W}. Arguments ks_shell {W}. Arguments g_hp {W}.
Arguments hostent_init_flag {W}. Arguments ks_host {W}.

#[export] Instance eta_kernel_and_host W : Eta (kernel_and_host W) := fun s =>
  mkKH (ks_map s) (ks_shell s) (g_hp s) (hostent_init_flag s) (ks_host s).

(** What the linker and the scheduler fix: the addresses of [ret] of [sys3_off_readdir]
    and of [g_hp], the current thread, and the instruction that accesses an address. *)
Record image := mkImage {
  dirent_at : Z;
  g_hp_at : Z;
  current_id : Z;
  rip_at : Z -> Z
}.

Section calls.
Context {W : Type} (g_memory_start g_shared_memory : Z) (im : image).
Local Notation kst := (kernel_and_host W).
(** [send_offload_message] and [receive_offload_message] on the channel of the
    current core ([get_offload_channel] never returns NULL) *)
Context (remote : request -> M kst Z).
(** [cs_write] *)
Context (cs_write : Z -> Z -> Z -> M kst Z).
Local Notation get_pa v := (zoom ks_map (Mapping.get_pa g_memory_start g_shared_memory v)).
Local Notation kmem_ram := (fun s : kst => ram (mp_mem (ks_map s))).

(** ** Accesses by way of the page tables

    The kernel's own memory is mapped linearly and is accessed as [ram] everywhere; the
    two calls that follow pointers to other places go through the processor's walk. *)

Definition on_fault {A} (m : M faulting A) : M kst A := fun s =>
  match m (mkFaulting (ks_map s) (ks_shell s)) with
  | Ok (a, f) => Ok (a, s <| ks_map := f_mapping f |> <| ks_shell := f_shell f |>)
  | Fault e => Fault e
  end.

Definition upd_ram (f : memory -> memory) : M kst unit :=
  zoom ks_map (zoom mp_mem (modify (fun k => k <| ram := f (ram k) |>))).

(** Bits 47 to 63 are equal. *)
Definition canonical (v : Z) : bool := (v <? 2 ^ 47) || (2 ^ 64 - 2 ^ 47 <=? v).

(** Where the byte at address [v] is, after at most [n] page faults with error code
    [err]; an address that is not canonical ends in [lk_common_exception_handler]. *)
Fixpoint reach (n : nat) (err v : Z) : M kst Z :=
  if negb (canonical v) then fail Spinning
  else
    let! m := gets kmem_ram in
    match translate g_memory_start m (CONFIG_KERNEL_PAGETABLE_ADDRESS g_memory_start) v with
    | Some p => ret (va g_memory_start p)
    | None =>
        match n with
        | O => fail NoFuel
        | S n' =>
            on_fault (pagefault_handler g_memory_start (current_id im) v err (rip_at im v)) ;;
            reach n' err v
        end
    end.

(** After the first fault the page is there, or the memory is used up and the second
    one halts the kernel. *)
Definition FAULTS : nat := 2.

Fixpoint load_at (n : nat) (v : Z) : M kst Z :=
  match n with
  | O => ret 0
  | S n' =>
      let! a := reach FAULTS 0 v in
      let! b := gets (fun s => kmem_ram s a) in
      let! rest := load_at n' (u64 (v + 1)) in
      ret (Z.lor (u8 b) (Z.shiftl rest 8))
  end.

Fixpoint store_at (n : nat) (v x : Z) : M kst unit :=
  match n with
  | O => ret tt
  | S n' =>
      let! a := reach FAULTS 2 v in
      upd_ram (fun m => store8 m a x) ;;
      store_at n' (u64 (v + 1)) (Z.shiftr x 8)
  end.

(** [lk_memcpy] to memory of the kernel from anywhere *)
Fixpoint copy_words (n : nat) (i dst src : Z) : M kst unit :=
  match n with
  | O => ret tt
  | S n' =>
      let! w := load_at 8 (u64 (src + 8 * i)) in
      upd_ram (fun m => store64 m (dst + 8 * i) w) ;;
      copy_words n' (i + 1) dst src
  end.

Fixpoint copy_bytes (n : nat) (remain_byte dst src : Z) : M kst unit :=
  match n with
  | O => ret tt
  | S n' =>
      let! b := load_at 1 (u64 (src + remain_byte)) in
      upd_ram (fun m => store8 m (dst + remain_byte) b) ;;
      copy_bytes n' (remain_byte + 1) dst src
  end.

Definition copy_in (dst src size : Z) : M kst unit :=
  let words := Z.to_nat (Z.quot size 8) in
  copy_words words 0 dst src ;;
  copy_bytes (Z.to_nat (Z.rem size 8)) (Z.of_nat words * 8) dst src.

Definition alloc (bytes : Z) : M kst Z := zoom ks_map (zoom mp_mem (az_alloc bytes)).

(** ** Files *)

Definition sys_off_open (path oflag mode : Z) : M kst Z :=
  if path =? 0 then ret (-1)
  else
    let! path' := get_pa path in
    let! v := remote (mkRequest SYSCALL_sys_open path' (u64 oflag) mode 0 0 0) in
    ret (s32 v).

Definition sys_off_creat (path mode : Z) : M kst Z :=
  if path =? 0 then ret (-1)
  else
    let! path' := get_pa path in
    let! v := remote (mkRequest SYSCALL_sys_creat path' mode 0 0 0 0) in
    ret (s32 v).

Definition sys_off_read (fd buf count : Z) : M kst Z :=
  if count <=? 0 then ret (-1)
  else
    let! buf' := get_pa buf in
    let! v := remote (mkRequest SYSCALL_sys_read (u64 fd) buf' count 0 0 0) in
    ret (s64 v).

Definition sys_off_write (fd buf count : Z) : M kst Z :=
  if count <=? 0 then ret (-1)
  else
    let! buf' := get_pa buf in
    let! v := remote (mkRequest SYSCALL_sys_write (u64 fd) buf' count 0 0 0) in
    ret (s64 v).

Definition sys_off_close (fd : Z) : M kst Z :=
  if fd <? 3 then ret (-1)
  else
    let! v := remote (mkRequest SYSCALL_sys_close (u64 fd) 0 0 0 0 0) in
    ret (s32 v).

Definition sys_off_lseek (fd offset whence : Z) : M kst Z :=
  if fd <? 3 then ret (-1)
  else
    let! v := remote (mkRequest SYSCALL_sys_lseek (u64 fd) (u64 offset) (u64 whence) 0 0 0) in
    ret (s64 v).

Definition sys_off_link (oldpath newpath : Z) : M kst Z :=
  let! oldpath' := get_pa oldpath in
  let! newpath' := get_pa newpath in
  let! v := remote (mkRequest SYSCALL_sys_link oldpath' newpath' 0 0 0 0) in
  ret (s32 v).

Definition sys_off_unlink (path : Z) : M kst Z :=
  let! path' := get_pa path in
  let! v := remote (mkRequest SYSCALL_sys_unlink path' 0 0 0 0 0) in
  ret (s32 v).

Definition sys_off_stat (pathname buf : Z) : M kst Z :=
  if (pathname =? 0) || (buf =? 0) then ret (-1)
  else
    let! pathname' := get_pa pathname in
    let! buf' := get_pa buf in
    let! v := remote (mkRequest SYSCALL_sys_stat pathname' buf' 0 0 0 0) in
    ret (s32 v).

Definition sys3_off_getcwd (buf size : Z) : M kst Z :=
  if (buf =? 0) && (size =? 0) then ret 0
  else
    let az_alloc_flag := buf =? 0 in
    let! buf := (if az_alloc_flag then alloc PAGE_SIZE_4K else ret buf) in
    let! buf' := get_pa buf in
    let! pret := remote (mkRequest SYSCALL_sys3_getcwd buf' size 0 0 0 0) in
    if pret =? 0 then
      when az_alloc_flag (let! _ := zoom ks_map (zoom mp_mem (az_free buf)) in ret tt) ;;
      ret 0
    else ret buf.

Definition sys3_off_system (command : Z) : M kst Z :=
  if command =? 0 then ret (-1)
  else
    let! command' := get_pa command in
    let! v := remote (mkRequest SYSCALL_sys3_system command' 0 0 0 0 0) in
    ret (s32 v).

Definition sys_off_chdir (path : Z) : M kst Z :=
  if path =? 0 then ret (-1)
  else
    let! path' := get_pa path in
    let! v := remote (mkRequest SYSCALL_sys_chdir path' 0 0 0 0 0) in
    ret (s32 v).

Definition sys3_off_opendir (name : Z) : M kst Z :=
  if name =? 0 then ret 0
  else
    let! name' := get_pa name in
    let! v := remote (mkRequest SYSCALL_sys3_opendir name' 0 0 0 0 0) in
    ret v.

Definition sys3_off_closedir (dirp : Z) : M kst Z :=
  if dirp =? 0 then ret (-1)
  else
    let! v := remote (mkRequest SYSCALL_sys3_closedir dirp 0 0 0 0 0) in
    ret (s32 v).

(** [sizeof(struct dirent)]: two QWORDs, three bytes, a name of 256, and padding *)
Definition SIZEOF_DIRENT : Z := 280.

(** The reply is an address of the proxy; [lk_memcpy] takes it for one of the kernel. *)
Definition sys3_off_readdir (dirp : Z) : M kst Z :=
  if dirp =? 0 then ret 0
  else
    let! pret := remote (mkRequest SYSCALL_sys3_readdir dirp 0 0 0 0 0) in
    if negb (pret =? 0) && negb (pret =? u64 (-1)) then
      copy_in (dirent_at im) pret SIZEOF_DIRENT ;;
      ret (dirent_at im)
    else ret 0.

(** Returns nothing; 0 stands for the [ret_code] that [process_systemcall] keeps. *)
Definition sys3_off_rewinddir (dirp : Z) : M kst Z :=
  if dirp =? 0 then ret 0
  else
    let! _ := remote (mkRequest SYSCALL_sys3_rewinddir dirp 0 0 0 0 0) in
    ret 0.

(** ** Network *)

Definition sys_off_gethostname (name len : Z) : M kst Z :=
  if (name =? 0) || (len =? 0) then ret (-1)
  else
    let! name' := get_pa name in
    let! v := remote (mkRequest SYSCALL_sys_gethostname name' len 0 0 0 0) in
    ret (s32 v).

(** [h_aliases] is NULL when the first call stores through it. *)
Definition hostent_init : M kst unit :=
  let! p := alloc 256 in
  modify (fun s => s <| g_hp := g_hp s <| h_name := p |> |>) ;;
  let! p := alloc 256 in
  let! s := get in
  store_at 8 (h_aliases (g_hp s)) p ;;
  let! p := alloc 256 in
  modify (fun s => s <| g_hp := g_hp s <| h_addr := p |> |>) ;;
  let! s := get in
  when (negb (h_name (g_hp s) =? 0)) (upd_ram (fun m => lk_memset m (h_name (g_hp s)) 0 256)) ;;
  let! a := load_at 8 (h_aliases (g_hp s)) in
  when (negb (a =? 0)) (upd_ram (fun m => lk_memset m a 0 256)) ;;
  when (negb (h_addr (g_hp s) =? 0)) (upd_ram (fun m => lk_memset m (h_addr (g_hp s)) 0 256)) ;;
  modify (fun s => s <| hostent_init_flag := 1 |>).

(** The reply is not looked at. *)
Definition sys_off_gethostbyname (name : Z) : M kst Z :=
  if name =? 0 then ret 0
  else
    let! flag := gets hostent_init_flag in
    when (flag =? 0) hostent_init ;;
    let! name' := get_pa name in
    let! hp := gets g_hp in
    let! h_name' := get_pa (h_name hp) in
    let! a := load_at 8 (h_aliases hp) in
    let! h_aliase' := get_pa a in
    let! h_addrtype' := get_pa (g_hp_at im + 16) in
    let! h_length' := get_pa (g_hp_at im + 20) in
    let! h_addr' := get_pa (h_addr hp) in
    let! _ := remote (mkRequest SYSCALL_sys_gethostbyname name' h_name' h_aliase' h_addrtype' h_length' h_addr') in
    ret (g_hp_at im).

Definition sys_off_getsockname (sockfd addr addrlen : Z) : M kst Z :=
  if (addr =? 0) || (addrlen =? 0) then ret (-1)
  else
    let! addr' := get_pa addr in
    let! addrlen' := get_pa addrlen in
    let! v := remote (mkRequest SYSCALL_sys_getsockname (u64 sockfd) addr' addrlen' 0 0 0) in
    ret (s32 v).

Definition sys_off_socket (domain type protocol : Z) : M kst Z :=
  let! v := remote (mkRequest SYSCALL_sys_socket (u64 domain) (u64 type) (u64 protocol) 0 0 0) in
  ret (s32 v).

Definition sys_off_bind (sockfd addr addrlen : Z) : M kst Z :=
  if addr =? 0 then ret (-1)
  else
    let! addr' := get_pa addr in
    let! v := remote (mkRequest SYSCALL_sys_bind (u64 sockfd) addr' addrlen 0 0 0) in
    ret (s32 v).

Definition sys_off_listen (sockfd backlog : Z) : M kst Z :=
  let! v := remote (mkRequest SYSCALL_sys_listen (u64 sockfd) (u64 backlog) 0 0 0 0) in
  ret (s32 v).

Definition sys_off_connect (sockfd addr addrlen : Z) : M kst Z :=
  if addr =? 0 then ret (-1)
  else
    let! addr' := get_pa addr in
    let! v := remote (mkRequest SYSCALL_sys_connect (u64 sockfd) addr' addrlen 0 0 0) in
    ret (s32 v).

Definition sys_off_accept (sockfd addr addrlen : Z) : M kst Z :=
  if (addr =? 0) || (addrlen =? 0) then ret (-1)
  else
    let! addr' := get_pa addr in
    let! addrlen' := get_pa addrlen in
    let! v := remote (mkRequest SYSCALL_sys_accept (u64 sockfd) addr' addrlen' 0 0 0) in
    ret (s32 v).

(** ** The cases of [process_systemcall] *)

Definition sys_write (param1 param2 param3 : Z) : M kst Z :=
  if (param1 =? 1) || (param1 =? 2) then cs_write (s32 param1) param2 param3
  else sys_off_write (s32 param1) param2 param3.

Definition rw_cases (param1 param2 param3 : Z) : list (Z * M kst Z) :=
  [(SYSCALL_sys_read, sys_off_read (s32 param1) param2 param3);
   (SYSCALL_sys_write, sys_write param1 param2 param3)].

Definition open_cases (param1 param2 param3 : Z) : list (Z * M kst Z) :=
  [(SYSCALL_sys_open, sys_off_open param1 (s32 param2) (u32 param3));
   (SYSCALL_sys_creat, sys_off_creat param1 (u32 param2));
   (SYSCALL_sys_close, sys_off_close (s32 param1))].

Definition lseek_case (param1 param2 param3 : Z) : list (Z * M kst Z) :=
  [(SYSCALL_sys_lseek, sys_off_lseek (s32 param1) (s64 param2) (s32 param3))].

Definition link_cases (param1 param2 : Z) : list (Z * M kst Z) :=
  [(SYSCALL_sys_link, sys_off_link param1 param2);
   (SYSCALL_sys_unlink, sys_off_unlink param1);
   (SYSCALL_sys_stat, sys_off_stat param1 param2)].

Definition hostname_cases (param1 param2 : Z) : list (Z * M kst Z) :=
  [(SYSCALL_sys_gethostname, sys_off_gethostname param1 param2);
   (SYSCALL_sys_gethostbyname, sys_off_gethostbyname param1)].

Definition socket_cases (param1 param2 param3 : Z) : list (Z * M kst Z) :=
  [(SYSCALL_sys_getsockname, sys_off_getsockname (s32 param1) param2 param3);
   (SYSCALL_sys_socket, sys_off_socket (s32 param1) (s32 param2) (s32 param3));
   (SYSCALL_sys_bind, sys_off_bind (s32 param1) param2 (u32 param3));
   (SYSCALL_sys_listen, sys_off_listen (s32 param1) (s32 param2));
   (SYSCALL_sys_connect, sys_off_connect (s32 param1) param2 (u32 param3));
   (SYSCALL_sys_accept, sys_off_accept (s32 param1) param2 param3)].

Definition directory_cases (param1 param2 : Z) : list (Z * M kst Z) :=
  [(SYSCALL_sys3_getcwd, sys3_off_getcwd param1 param2);
   (SYSCALL_sys3_system, sys3_off_system param1);
   (SYSCALL_sys_chdir, sys_off_chdir param1);
   (SYSCALL_sys3_opendir, sys3_off_opendir param1);
   (SYSCALL_sys3_closedir, sys3_off_closedir param1);
   (SYSCALL_sys3_readdir, sys3_off_readdir param1);
   (SYSCALL_sys3_rewinddir, sys3_off_rewinddir param1)].

(** The cases of the offloaded calls; the numbers are distinct, so their order does
    not matter. *)
Definition offload_cases (a b c : Z) : list (Z * M kst Z) :=
  rw_cases a b c ++ open_cases a b c ++ lseek_case a b c ++ link_cases a b ++ hostname_cases a b ++
  socket_cases a b c ++ directory_cases a b.

(** The [ret_code], a QWORD; [None] for the numbers of other calls *)
Definition process_systemcall (param1 param2 param3 no : Z) : option (M kst Z) :=
  match switch (offload_cases param1 param2 param3) no with
  | Some c => Some (let! ret_code := c in ret (u64 ret_code))
  | None => None
  end.
End calls.

(** ** What the calls promise

    A call as a C library on the host would make it: refused by the kernel, or a
    call of the host with no, one or two pointers. *)

Inductive native (W : Type) :=
| Refused (v : Z)
| Direct (c : M W Z)
| With1 (p : Z) (c : Z -> M W Z)
| With2 (p q : Z) (c : Z -> Z -> M W Z).
Arguments Refused {W}. Arguments Direct {W}. Arguments With1 {W}. Arguments With2 {W}.

Definition checked {W} (refuse : bool) (v : Z) (n : native W) : native W := if refuse then Refused v else n.

Section promises.
Context {W : Type} `{Host W} (mm : maps) (g_memory_start g_shared_memory : Z) (im : image).
Local Notation kst := (kernel_and_host W).

(** A pointer of the kernel as a pointer of the proxy *)
Definition host_pointer (v : Z) : M kst Z :=
  let! p := zoom ks_map (Mapping.get_pa g_memory_start g_shared_memory v) in
  ret (get_va mm p).

Definition natively (n : native W) : M kst Z :=
  match n with
  | Refused v => ret (u64 v)
  | Direct c => let! v := zoom ks_host c in ret (u64 v)
  | With1 p c =>
      let! p' := host_pointer p in
      let! v := zoom ks_host (c p') in
      ret (u64 v)
  | With2 p q c =>
      let! p' := host_pointer p in
      let! q' := host_pointer q in
      let! v := zoom ks_host (c p' q') in
      ret (u64 v)
  end.

(** ** Where they differ from the host's

    A count of 2^31 or more reaches the host with its low half sign-extended. *)
Definition as_int (n : Z) : Z := u64 (s32 n).

(** A call of the host with one pointer *)
Definition on_host (p : Z) (c : Z -> M W Z) : M kst Z :=
  let! p' := host_pointer p in
  zoom ks_host (c p').

(** [access] comes first, and a file that it does not find counts as removed. *)
Definition unlink_if_found (path : Z) : M W Z :=
  let! missing := call_int (h_access path F_OK) in
  if missing =? 0 then call_int (h_unlink path) else ret 0.

(** [getcwd(NULL, size)] has a page of the kernel for its result, if the host succeeds. *)
Definition getcwd_page (size : Z) : M kst Z :=
  let! page := alloc PAGE_SIZE_4K in
  let! p := on_host page (fun buf => call_ptr (h_getcwd buf size)) in
  if p =? 0 then
    let! _ := zoom ks_map (zoom mp_mem (az_free page)) in
    ret 0
  else ret page.

(** What the caller of [readdir] gets is what the kernel finds at the host's address. *)
Definition readdir_elsewhere (dirp : Z) : M kst Z :=
  let! p := zoom ks_host (modify (set_errno 0) ;; call_ptr (h_readdir dirp)) in
  if (p =? 0) || (p =? u64 (-1)) then ret 0
  else
    copy_in g_memory_start im (dirent_at im) p SIZEOF_DIRENT ;;
    ret (dirent_at im).

(** The proxy writes what it finds into [g_hp], and [gethostbyname] succeeds whatever
    it finds. *)
Definition gethostbyname_always (name : Z) : M kst Z :=
  let! flag := gets hostent_init_flag in
  when (flag =? 0) (hostent_init g_memory_start im) ;;
  let pointer v := zoom ks_map (Mapping.get_pa g_memory_start g_shared_memory v) in
  let! n := pointer name in
  let! hp := gets g_hp in
  let! hn := pointer (h_name hp) in
  let! alias := load_at g_memory_start im 8 (h_aliases hp) in
  let! al := pointer alias in
  let! ty := pointer (g_hp_at im + 16) in
  let! len := pointer (g_hp_at im + 20) in
  let! ad := pointer (h_addr hp) in
  let! _ := zoom ks_host (OffloadProxy.sys_off_gethostbyname mm
    (mkRequest SYSCALL_sys_gethostbyname n hn al ty len ad)) in
  ret (g_hp_at im).

(** ** The contract *)

Inductive promise :=
| AsHost (n : native W)
| Differs (m : M kst Z).

Definition kept (p : promise) : M kst Z :=
  match p with
  | AsHost n => natively n
  | Differs m => let! v := m in ret (u64 v)
  end.

Context (cs_write : Z -> Z -> Z -> M kst Z).

Definition contract (a b c : Z) : list (Z * promise) :=
  [(SYSCALL_sys_read,
    if 2 ^ 31 <=? c then Differs (on_host b (fun buf => call_long (h_read (s32 a) buf (as_int c))))
    else AsHost (checked (c =? 0) (-1) (With1 b (fun buf => call_long (h_read (s32 a) buf c)))));
   (SYSCALL_sys_write,
    if (a =? 1) || (a =? 2) then Differs (cs_write (s32 a) b c)
    else if 2 ^ 31 <=? c then Differs (on_host b (fun buf => call_long (h_write (s32 a) buf (as_int c))))
    else AsHost (checked (c =? 0) (-1) (With1 b (fun buf => call_long (h_write (s32 a) buf c)))));
   (SYSCALL_sys_open, AsHost (checked (a =? 0) (-1) (With1 a (fun path =>
      call_int (if u32 c =? 0 then h_open path (s32 b) else h_open_mode path (s32 b) (u32 c))))));
   (SYSCALL_sys_creat, AsHost (checked (a =? 0) (-1) (With1 a (fun path => call_int (h_creat path (u32 b))))));
   (SYSCALL_sys_close, AsHost (checked (s32 a <? 3) (-1) (Direct (call_int (h_close (s32 a))))));
   (SYSCALL_sys_lseek, AsHost (checked (s32 a <? 3) (-1)
      (Direct (call_long (h_lseek (s32 a) (s64 b) (s32 c))))));
   (SYSCALL_sys_link, AsHost (With2 a b (fun old new => call_int (h_link old new))));
   (SYSCALL_sys_unlink, Differs (on_host a unlink_if_found));
   (SYSCALL_sys_stat, AsHost (checked ((a =? 0) || (b =? 0)) (-1)
      (With2 a b (fun path buf => call_int (h_stat path buf)))));
   (SYSCALL_sys_gethostname,
    if negb (a =? 0) && (2 ^ 31 <=? b)
    then Differs (on_host a (fun name => call_int (h_gethostname name (as_int b))))
    else AsHost (checked ((a =? 0) || (b =? 0)) (-1)
      (With1 a (fun name => call_int (h_gethostname name b)))));
   (SYSCALL_sys_gethostbyname,
    if a =? 0 then AsHost (Refused 0) else Differs (gethostbyname_always a));
   (SYSCALL_sys_getsockname, AsHost (checked ((b =? 0) || (c =? 0)) (-1)
      (With2 b c (fun addr len => call_int (h_getsockname (s32 a) addr len)))));
   (SYSCALL_sys_socket, AsHost (Direct (call_int (h_socket (s32 a) (s32 b) (s32 c)))));
   (SYSCALL_sys_bind, AsHost (checked (b =? 0) (-1)
      (With1 b (fun addr => call_int (h_bind (s32 a) addr (u32 c))))));
   (SYSCALL_sys_listen, AsHost (Direct (call_int (h_listen (s32 a) (s32 b)))));
   (SYSCALL_sys_connect, AsHost (checked (b =? 0) (-1)
      (With1 b (fun addr => call_int (h_connect (s32 a) addr (u32 c))))));
   (SYSCALL_sys_accept, AsHost (checked ((b =? 0) || (c =? 0)) (-1)
      (With2 b c (fun addr len => call_int (h_accept (s32 a) addr len)))));
   (SYSCALL_sys3_getcwd,
    if (a =? 0) && negb (b =? 0) then Differs (getcwd_page b)
    else AsHost (checked (a =? 0) 0 (With1 a (fun buf =>
      let! p := call_ptr (h_getcwd buf b) in
      ret (if p =? 0 then 0 else a)))));
   (SYSCALL_sys3_system, AsHost (checked (a =? 0) (-1) (With1 a (fun command => call_int (h_system command)))));
   (SYSCALL_sys_chdir, AsHost (checked (a =? 0) (-1) (With1 a (fun path => call_int (h_chdir path)))));
   (SYSCALL_sys3_opendir, AsHost (checked (a =? 0) 0 (With1 a (fun name => call_ptr (h_opendir name)))));
   (SYSCALL_sys3_closedir, AsHost (checked (a =? 0) (-1) (Direct (call_int (h_closedir a)))));
   (SYSCALL_sys3_readdir,
    if a =? 0 then AsHost (Refused 0) else Differs (readdir_elsewhere a));
   (SYSCALL_sys3_rewinddir, AsHost (checked (a =? 0) 0
      (Direct (let! _ := call_int (h_rewinddir a) in ret 0))))].

(** The calls, and the arguments, with which an offloaded call is not the host's *)
Definition differs (a b c no : Z) : Prop :=
  (no = SYSCALL_sys_read /\ 2 ^ 31 <= c) \/
  (no = SYSCALL_sys_write /\ (a = 1 \/ a = 2 \/ 2 ^ 31 <= c)) \/
  (no = SYSCALL_sys_gethostname /\ a <> 0 /\ 2 ^ 31 <= b) \/
  (no = SYSCALL_sys3_getcwd /\ a = 0 /\ b <> 0) \/
  no = SYSCALL_sys_unlink \/
  (no = SYSCALL_sys_gethostbyname /\ a <> 0) \/
  (no = SYSCALL_sys3_readdir /\ a <> 0).

Definition offload_call (a b c no : Z) : option (M kst Z) :=
  process_systemcall g_memory_start g_shared_memory im (fun r => zoom ks_host (dispatch mm r)) cs_write a b c no.

Lemma u32_u32 z : u32 (u32 z) = u32 z.
Proof. unfold u32. zdm. Qed.

Lemma s64_u64_s64 z : s64 (u64 (s64 z)) = s64 z.
Proof. unfold s64, u64. zdm. Qed.

Lemma u64_s32_small z : 0 <= z < 2 ^ 31 -> u64 (s32 z) = z.
Proof. intros Hz. unfold u64, s32. zdm. Qed.

Lemma u64_s32_s32 z : u64 (s32 (u64 (s32 z))) = u64 (s32 z).
Proof. by rewrite s32_u64_s32. Qed.

Lemma unsigned_le z : 0 <= z -> (z <=? 0) = (z =? 0).
Proof. intros Hz. destruct (Z.eqb_spec z 0), (Z.leb_spec z 0); lia || done. Qed.

Lemma switch_Forall2 {A B} (R : A -> B -> Prop) l1 l2 no :
  Forall2 (fun x y => fst x = fst y /\ (no = fst x -> R (snd x) (snd y))) l1 l2 ->
  option_Forall2 R (switch l1 no) (switch l2 no).
Proof.
  induction 1 as [|[n x] [n' y] l1 l2 [E Hx] _ IH]; cbn; [constructor|]. cbn in E, Hx. subst n'.
  destruct (Z.eqb_spec no n); [constructor; auto|done].
Qed.

(** Casts on the way to the proxy and back *)
Ltac casts := rewrite ?s32_u64_s32, ?s64_u64_s64, ?u32_u32, ?u64_s32_small by lia.

(** The dispatch of a request of a known type *)
Ltac dispatching :=
  cbn [dispatch handlers switch r_type Z.eqb Pos.eqb
    SYSCALL_sys_read SYSCALL_sys_write SYSCALL_sys_open SYSCALL_sys_close
    SYSCALL_sys_lseek SYSCALL_sys_creat SYSCALL_sys_unlink SYSCALL_sys_stat
    SYSCALL_sys_chdir SYSCALL_sys_link SYSCALL_sys_gethostname SYSCALL_sys_gethostbyname
    SYSCALL_sys_getsockname SYSCALL_sys_socket SYSCALL_sys_bind SYSCALL_sys_listen
    SYSCALL_sys_connect SYSCALL_sys_accept SYSCALL_sys3_getcwd SYSCALL_sys3_system
    SYSCALL_sys3_opendir SYSCALL_sys3_closedir SYSCALL_sys3_readdir SYSCALL_sys3_rewinddir];
  cbv [OffloadProxy.sys_off_open OffloadProxy.sys_off_creat OffloadProxy.sys_off_read
    OffloadProxy.sys_off_write OffloadProxy.sys_off_close OffloadProxy.sys_off_lseek
    OffloadProxy.sys_off_link OffloadProxy.sys_off_unlink OffloadProxy.sys_off_stat
    OffloadProxy.sys3_off_getcwd OffloadProxy.sys3_off_system OffloadProxy.sys_off_chdir
    OffloadProxy.sys3_off_opendir OffloadProxy.sys3_off_closedir OffloadProxy.sys3_off_readdir
    OffloadProxy.sys3_off_rewinddir OffloadProxy.sys_off_gethostname OffloadProxy.sys_off_gethostbyname
    OffloadProxy.sys_off_getsockname OffloadProxy.sys_off_socket OffloadProxy.sys_off_bind
    OffloadProxy.sys_off_listen OffloadProxy.sys_off_connect OffloadProxy.sys_off_accept
    r_param1 r_param2 r_param3].

(** A case: the checks agree, the pointers are translated by the same calls, and the
    handler's call is the contract's. *)
Ltac host_case :=
  intros s; unfold checked;
  repeat match goal with |- context [if ?b then _ else _] => destruct b eqn:?; [try reflexivity|] end;
  cbv [kept natively on_host host_pointer as_int unlink_if_found getcwd_page alloc when bind zoom ret];
  repeat match goal with
  | |- context [az_alloc ?n ?x] => destruct (az_alloc n x) as [[? ?]|?]; [|reflexivity]
  | |- context [Mapping.get_pa ?g ?h ?v ?x] => destruct (Mapping.get_pa g h v x) as [[? ?]|?]; [|reflexivity]
  end;
  dispatching; cbv [call_int call_long call_ptr bind ret]; casts;
  repeat match goal with
  | E : ?b = _ |- context [if ?b then _ else _] => rewrite E
  | |- context [if ?b then _ else _] => destruct b eqn:?
  | |- context [host ?c ?w] => destruct (host c w)
  | |- context [az_free ?a ?x] => destruct (az_free a x) as [[? ?]|?]
  end; casts; first [reflexivity | exfalso; lia].

(** The proxy tells an error from the end of the directory, and the kernel does not. *)
Lemma readdir_case a s :
  (let! r := sys3_off_readdir g_memory_start im (fun r => zoom ks_host (dispatch mm r)) a in ret (u64 r)) s =
  kept (if a =? 0 then AsHost (Refused 0) else Differs (readdir_elsewhere a)) s.
Proof.
  unfold sys3_off_readdir. destruct (a =? 0); [reflexivity|]. cbn [kept]. unfold readdir_elsewhere.
  cbv [bind zoom]. dispatching. cbv [bind call_ptr modify gets ret].
  destruct (host (h_readdir a) (set_errno 0 (ks_host s))) as [p w].
  destruct (Z.eqb_spec (u64 p) 0) as [->|Hp]; cbn [andb negb orb].
  - by destruct (errno w =? 0).
  - rewrite (proj2 (Z.eqb_neq _ _) Hp). by destruct (u64 p =? u64 (-1)).
Qed.

Lemma switch_elem {A} (l : list (Z * A)) no x : switch l no = Some x -> (no, x) ∈ l.
Proof.
  induction l as [|[n y] l IH]; cbn; [done|]. destruct (Z.eqb_spec no n) as [->|]; [intros [= ->]; left|].
  intros ?%IH. by right.
Qed.


(** ** Requests are well formed *)

(** [remote] behind a check of its requests *)
Definition guarded (remote : request -> M kst Z) (r : request) : M kst Z :=
  if request_ok (dispatched mm) r then remote r else fail OutOfBounds.

Lemma u64_qword z : is_qword (u64 z) = true.
Proof. unfold is_qword, u64. rewrite andb_true_iff, Z.leb_le, Z.ltb_lt. zdm. Qed.

Lemma u32_qword z : is_qword (u32 z) = true.
Proof. unfold is_qword, u32. rewrite andb_true_iff, Z.leb_le, Z.ltb_lt. zdm. Qed.

Lemma small_qword z : 0 <= z < 2 ^ 64 -> is_qword z = true.
Proof. unfold is_qword. rewrite andb_true_iff, Z.leb_le, Z.ltb_lt. lia. Qed.

(** What a computation returns satisfies [P]. *)
Definition yields {St A} (P : A -> Prop) (m : M St A) : Prop :=
  forall s a s', m s = Ok (a, s') -> P a.

Lemma yields_ret {St A} (P : A -> Prop) (a : A) : P a -> yields P (ret (St := St) a).
Proof. intros Ha s b s' [= <- _]. done. Qed.

Lemma yields_bind {St A B} (P : B -> Prop) (m : M St A) k : (forall a, yields P (k a)) -> yields P (bind m k).
Proof. intros Hk s b s' E. unfold bind in E. destruct (m s) as [[a s1]|]; [|done]. by apply (Hk a s1 b s'). Qed.

Lemma get_pa_qword v : yields (fun x => is_qword x = true) (Mapping.get_pa g_memory_start g_shared_memory v).
Proof.
  unfold Mapping.get_pa, get_pa_walk, shared_memory_pa, pa.
  repeat first [apply yields_bind; intros | apply yields_ret | apply u64_qword | reflexivity
               | case_match].
Qed.
Lemma kernel_pa_qword v :
  yields (fun x => is_qword x = true) (zoom (R := kst) ks_map (Mapping.get_pa g_memory_start g_shared_memory v)).
Proof.
  intros s x s' E. unfold zoom in E. destruct (Mapping.get_pa _ _ v (ks_map s)) as [[y m]|] eqn:E2; [|done].
  injection E as -> _. by apply get_pa_qword in E2.
Qed.

Definition same {St A} (m1 m2 : M St A) : Prop := forall s, m1 s = m2 s.

Lemma same_refl {St A} (m : M St A) : same m m.
Proof. by intros s. Qed.

Lemma same_bind {St A B} (m1 m2 : M St A) (k : A -> M St B) : same m1 m2 -> same (bind m1 k) (bind m2 k).
Proof. intros E s. unfold bind. by rewrite E. Qed.

Lemma same_after {St A B} (P : A -> Prop) (m : M St A) (k1 k2 : A -> M St B) :
  yields P m -> (forall a, P a -> same (k1 a) (k2 a)) -> same (bind m k1) (bind m k2).
Proof. intros Hm Hk s. unfold bind. destruct (m s) as [[a s']|] eqn:E; [|done]. apply Hk. by eapply Hm. Qed.

Lemma same_guarded remote r : request_ok (dispatched mm) r = true -> same (remote r) (guarded remote r).
Proof. intros E s. unfold guarded. by rewrite E. Qed.

Lemma request_ok_intro r : dispatched mm (r_type r) = true -> is_qword (r_type r) = true ->
  is_qword (r_param1 r) = true -> is_qword (r_param2 r) = true -> is_qword (r_param3 r) = true ->
  is_qword (r_param4 r) = true -> is_qword (r_param5 r) = true -> is_qword (r_param6 r) = true ->
  request_ok (dispatched mm) r = true.
Proof. unfold request_ok. by intros -> -> -> -> -> -> -> ->. Qed.

(** Both sides make the same steps up to the request, whose words are in range. *)
Ltac well_formed :=
  repeat first
    [ apply same_refl | reflexivity
    | eapply same_after; [apply kernel_pa_qword | intros ? ?]
    | apply same_bind, same_guarded, request_ok_intro
    | eapply (same_after (fun _ => True)); [done | intros ? _]
    | apply u64_qword | apply u32_qword | assumption
    | case_match ].

(** C14: every request that the calls send is well formed.  Its function type is one
    that the proxy dispatches and its type and six parameters are 64-bit words, so
    that a check of each request before it is sent would change nothing,
    whatever the registers of the call hold and whatever the channel does. *)
Theorem requests_well_formed remote a b c no :
  0 <= a < 2 ^ 64 -> 0 <= b < 2 ^ 64 -> 0 <= c < 2 ^ 64 ->
  option_Forall2 same
    (process_systemcall g_memory_start g_shared_memory im remote cs_write a b c no)
    (process_systemcall g_memory_start g_shared_memory im (guarded remote) cs_write a b c no).
Proof.
  intros Ha%small_qword Hb%small_qword Hc%small_qword. unfold process_systemcall.
  match goal with |- context [match switch ?l no with _ => _ end] =>
    assert (option_Forall2 same (switch l no) (switch (offload_cases g_memory_start g_shared_memory im
      (guarded remote) cs_write a b c) no)) as E end;
    [|destruct E; constructor; by apply same_bind].
  apply switch_Forall2. repeat constructor; cbn [fst snd]; intros _;
    unfold sys_off_read, sys_write, sys_off_open, sys_off_creat, sys_off_close, sys_off_lseek,
      sys_off_link, sys_off_unlink, sys_off_stat, sys_off_gethostname, sys_off_getsockname, sys_off_socket,
      sys_off_bind, sys_off_listen, sys_off_connect, sys_off_accept, sys3_off_getcwd, sys3_off_system,
      sys_off_chdir, sys3_off_opendir, sys3_off_closedir, sys3_off_readdir, sys3_off_rewinddir, sys_off_write, sys_off_gethostbyname; well_formed.
Qed.
End promises.

(** ** Pointers reach the same bytes *)

Section pointers.
Context {W : Type} `{Host W} (g_memory_start g_memory_end g_shared_memory : Z).
Hypothesis layout : layout_ok g_memory_start g_memory_end g_shared_memory.
Local Notation mapped s v := (translate g_memory_start (ram (mp_mem (ks_map s)))
  (CONFIG_KERNEL_PAGETABLE_ADDRESS g_memory_start) v).

(** An access of the lower half gets its page or halts the kernel: the bound on the page
    faults is enough. *)
Lemma reach_ends im err v (s : kernel_and_host W) :
  map_inv g_memory_start g_memory_end g_shared_memory (ks_map s) -> 0 <= v < 2 ^ 47 ->
  reach g_memory_start im FAULTS err v s = Fault KernelHalt \/
  exists p s', reach g_memory_start im FAULTS err v s = Ok (va g_memory_start p, s') /\
    map_inv g_memory_start g_memory_end g_shared_memory (ks_map s') /\ mapped s' v = Some p.
Proof.
  intros Hs Hv. assert (canonical v = true) as Hc by (unfold canonical; by rewrite (proj2 (Z.ltb_lt _ _)) by lia).
  unfold FAULTS. cbn [reach]. rewrite Hc. cbn [negb]. unfold bind, gets, on_fault.
  destruct (mapped s v) as [p|] eqn:E; [right; by exists p, s|].
  destruct (pagefault_cases _ _ _ layout (mkFaulting (ks_map s) (ks_shell s)) (current_id im) v err (rip_at im v) Hs Hv)
    as [[_ ->]|(f & -> & Hf & Hcase)]; [by left|]. cbn [f_mapping] in *.
  match goal with |- context [translate _ _ _ v] => set (s1 := s <| ks_map := _ |> <| ks_shell := _ |>) end.
  change (ks_map s1) with (f_mapping f). cbv beta iota.
  destruct Hcase as [[Hno Hsame]|(page & _ & _ & _ & Hmap)].
  - left. by rewrite Hsame, E, pagefault_halts.
  - rewrite Hmap, decide_True by done. right. eexists _, s1. split_and!; [reflexivity|exact Hf|].
    change (ks_map s1) with (f_mapping f). by rewrite Hmap, decide_True.
Qed.

(** What the proxy has mapped from the device: the physical byte behind each of its
    addresses; [mmap] maps consecutive bytes from the offset on, below the end of
    the address space. *)
Context (mmap : Z -> Z -> Z) (backing : Z -> option Z).
Hypothesis mmap_maps : forall len off, mmap len off <> MAP_FAILED ->
  0 <= mmap len off /\ mmap len off + len <= 2 ^ 64 /\
  forall i, 0 <= i < len -> backing (mmap len off + i) = Some (off + i).

(** The physical memory that the proxy maps *)
Definition proxied (n_unikernels p : Z) : Prop :=
  UNIKERNELS_MEM_BASE_PA <= p < UNIKERNELS_MEM_BASE_PA + MEMORYS_PER_NODE * n_unikernels * 2 ^ 30 \/
  CONFIG_CHANNEL_PA <= p < CONFIG_CHANNEL_PA + CHANNEL_SIZE.

Lemma maps_set n mm0 len mm : 0 < n <= 100 ->
  mmap_unikernels_memory mmap true n mm0 = Ok (len, mm) -> 1 < len ->
  len = MEMORYS_PER_NODE * n * 2 ^ 30 /\
  g_kernels_mem_base_pa mm = UNIKERNELS_MEM_BASE_PA /\ g_channel_mem_base_pa mm = CONFIG_CHANNEL_PA /\
  g_mmap_unikernels_mem_base_va mm = mmap len UNIKERNELS_MEM_BASE_PA /\
  g_mmap_channel_mem_base_va mm = mmap CHANNEL_SIZE CONFIG_CHANNEL_PA /\
  mmap len UNIKERNELS_MEM_BASE_PA <> MAP_FAILED /\ mmap CHANNEL_SIZE CONFIG_CHANNEL_PA <> MAP_FAILED.
Proof.
  intros Hn E Hlen. unfold mmap_unikernels_memory in E. cbn [negb] in E.
  rewrite s32_small, Z.shiftl_mul_pow2, u64_small in E by (unfold MEMORYS_PER_NODE; lia).
  unfold bind, modify, ret in E.
  destruct (Z.eqb_spec (mmap (MEMORYS_PER_NODE * n * 2 ^ 30) UNIKERNELS_MEM_BASE_PA) MAP_FAILED);
    [injection E as <- _; lia|].
  destruct (Z.eqb_spec (mmap CHANNEL_SIZE CONFIG_CHANNEL_PA) MAP_FAILED); [injection E as <- _; lia|].
  injection E as <- <-. split_and!; done.
Qed.

Lemma get_va_backed n mm0 len mm p : 0 < n <= 100 ->
  mmap_unikernels_memory mmap true n mm0 = Ok (len, mm) -> 1 < len ->
  proxied n p -> backing (get_va mm p) = Some p.
Proof.
  intros Hn E Hlen Hp. destruct (maps_set n mm0 len mm Hn E Hlen) as (-> & Ek & Ec & Eu & Ev & N1 & N2).
  unfold get_va. rewrite Ek, Ec, Eu, Ev.
  destruct (mmap_maps _ _ N1) as (A1 & A2 & A3), (mmap_maps _ _ N2) as (B1 & B2 & B3).
  unfold proxied in Hp. change UNIKERNELS_MEM_BASE_PA with 137438953472 in *.
  change CONFIG_CHANNEL_PA with 135291469824 in *. change CHANNEL_SIZE with 1073741824 in *.
  unfold MEMORYS_PER_NODE in *. rewrite (proj2 (Z.eqb_neq p 0)) by lia.
  destruct (Z.leb_spec 137438953472 p).
  - rewrite (u64_small (p - _)), u64_small by lia. rewrite A3 by lia. f_equal; lia.
  - rewrite (u64_small (p - _)), u64_small by lia. rewrite B3 by lia. f_equal; lia.
Qed.

(** C13: the host works on the bytes that the thread meant.  For an address of the
    lower half, of the kernel or of shared memory, translating it for a request
    returns and keeps every translation, and then the proxy's address is backed by
    the very physical byte that the processor finds for the kernel's address, if
    that byte is in the unikernels' memory or in the channels'; only with the
    memory used up is the address NULL instead. *)
Theorem host_pointer_reaches_byte n mm0 len mm s v :
  0 < n <= 100 -> mmap_unikernels_memory mmap true n mm0 = Ok (len, mm) -> 1 < len ->
  map_inv g_memory_start g_memory_end g_shared_memory (ks_map s) ->
  0 < v < 2 ^ 47 \/ kernel_area g_memory_start g_memory_end v \/ shared_area v ->
  exists h s', host_pointer (W := W) mm g_memory_start g_shared_memory v s = Ok (h, s') /\
    map_inv g_memory_start g_memory_end g_shared_memory (ks_map s') /\
    (forall w x, mapped s w = Some x -> mapped s' w = Some x) /\
    ((exists p, mapped s' v = Some p /\ (proxied n p -> backing h = Some p)) \/
     (h = 0 /\ no_memory (mp_mem (ks_map s')))).
Proof.
  intros Hn E Hlen Hs Hv. unfold host_pointer.
  apply wp_Ok, wp_bind, wp_zoom, (wp_get_pa _ _ _ layout _ _ _ Hs Hv).
  intros r m Hm Hkeep Hr. apply wp_ret. split_and!; [exact Hm|exact Hkeep|].
  destruct Hr as [Hr|[-> Hno]]; [left|by right].
  exists r. split; [exact Hr|]. by eapply get_va_backed.
Qed.
End pointers.

(** ** Witnesses *)

Lemma run_same {St A N} (f : N -> M St A) o1 o2 s : option_Forall2 (fun call n => forall s, call s = f n s) o1 o2 ->
  (fun call => call s) <$> o1 = (fun n => f n s) <$> o2.
Proof. intros [call n E|]; cbn; [by rewrite E|done]. Qed.

(** A host that keeps a log of its calls and answers -7 *)
#[export] Instance logging_host : Host (list host_call) := {|
  host c w := (-7, w ++ [c]);
  errno _ := 0;
  set_errno _ w := w;
  load_ptr _ _ := 0;
  load_int _ _ := 0;
  store_int _ _ w := w
|}.

Definition identity_maps : maps := mkMaps UNIKERNELS_MEM_BASE_PA UNIKERNELS_MEM_BASE_PA CONFIG_CHANNEL_PA CONFIG_CHANNEL_PA.

Definition at_rest (w : list host_call) : kernel_and_host (list host_call) :=
  mkKH unbooted zero_area (mkHostent 0 0 0) 0 w.

Definition some_image : image := mkImage 0xFFFF8000C0301000 0xFFFF8000C0302000 300 (fun _ => 0).

Definition no_console (fd buf count : Z) : M (kernel_and_host (list host_call)) Z := ret 0.


(** A channel that answers with the first parameter *)
Definition echo (r : request) : M (kernel_and_host (list host_call)) Z := ret (r_param1 r).

Lemma requests_well_formed_witness :
  (fun call => call (at_rest [])) <$>
    process_systemcall (128 * 2 ^ 30) (125 * 2 ^ 30) some_image (guarded identity_maps echo) no_console
      2 1 0 SYSCALL_sys_socket =
  Some (Ok (2, at_rest [])).
Proof.
  refine (eq_trans (eq_sym (run_same (fun m => m) _ _ (at_rest []) (requests_well_formed identity_maps
    (128 * 2 ^ 30) (125 * 2 ^ 30) some_image no_console echo 2 1 0 SYSCALL_sys_socket _ _ _))) _); [lia..|].
  reflexivity.
Defined.

(** An [mmap] that places physical memory at its own address *)
Definition identity_mmap (len off : Z) : Z :=
  if (0 <=? off) && (off + len <=? 2 ^ 64) then off else MAP_FAILED.

Lemma host_pointer_reaches_byte_witness :
  exists s h s', host_pointer (W := unit) identity_maps (128 * 2 ^ 30) (125 * 2 ^ 30) 0x40001234 s = Ok (h, s') /\
    (h = 0 \/ exists p, translate (128 * 2 ^ 30) (ram (mp_mem (ks_map s')))
       (CONFIG_KERNEL_PAGETABLE_ADDRESS (128 * 2 ^ 30)) 0x40001234 = Some p /\ (proxied 1 p -> h = p)).
Proof.
  destruct booted_mapping as (s & Hs & _). set (s0 := mkKH s zero_area (mkHostent 0 0 0) 0 tt). exists s0.
  destruct (host_pointer_reaches_byte (W := unit) (128 * 2 ^ 30) (138 * 2 ^ 30) (125 * 2 ^ 30) knl_layout
    identity_mmap Some) with (n := 1) (mm0 := mkMaps 0 0 0 0) (len := 10 * 2 ^ 30) (mm := identity_maps)
    (s := s0) (v := 0x40001234) as (h & s' & E & _ & _ & Hh); [|lia|reflexivity|lia|exact Hs|lia|].
  - intros len off. unfold identity_mmap. destruct (Z.leb_spec 0 off), (Z.leb_spec (off + len) (2 ^ 64)); done.
  - exists h, s'. split; [exact E|].
    destruct Hh as [(p & Hp & Hb)|[-> _]]; [right|by left]. exists p. split; [exact Hp|].
    intros Hin. injection (Hb Hin) as ->. done.
Defined.
