(* ===== verification/OffloadLayout.v ===== *)
(** * The layout of the offload channels

    The proxy lays out the channels' queues in shared memory and describes them in
    an information page ([sideloader/offload_proxy/offload_mmap.c],
    [mmap_channels]); a booting kernel reads the page and computes the addresses of
    the queues of its own channels ([kernel/offload/offload_mmap.c]).  The theorem
    says that the two sides mean the same queues. *)

From S2P Require Import Prelude.
From S2P Require Import Utility.
From S2P Require Import Lock.
From S2P Require Import Memory.
From S2P Require Import ShmPool.
From S2P Require Import Mapping.
From S2P Require Import Channel.
From S2P Require Import Offload.
From S2P Require Import OffloadProxy.

(** ** Addresses *)

Definition CQ_ELE_PAGE_NUM : Z := 2.

(** [sideloader/offload_proxy/offload_memory_config.h] *)
Definition CONFIG_OFFLOAD_CHANNEL_PA : Z := CONFIG_CHANNEL_PA + Z.shiftl 300 20.

Definition OFFLOAD_CHANNEL_INFO_PA : Z := CONFIG_OFFLOAD_CHANNEL_PA + PAGE_SIZE_4K * 200.

Definition OFFLOAD_CHANNEL_BASE_PA : Z := CONFIG_OFFLOAD_CHANNEL_PA + PAGE_SIZE_4K * 300.

(** [kernel/offload/offload_memory_config.h] *)
Definition CONFIG_OFFLOAD_CHANNEL_VA : Z := CONFIG_SHARED_MEMORY + CHANNEL_START_OFFSET + 300 * 1024 * 1024.

Definition OFFLOAD_CHANNEL_INFO_VA : Z := CONFIG_OFFLOAD_CHANNEL_VA + PAGE_SIZE_4K * 200.

Definition OFFLOAD_CHANNEL_BASE_VA : Z := CONFIG_OFFLOAD_CHANNEL_VA + PAGE_SIZE_4K * 300.

(** ** Shared memory: words and queues by physical address *)

Record shared := mkShared {
  sh_words : Z -> Z;
  sh_queues : Z -> circular_queue
}.

#[export] Instance eta_shared : Eta shared := fun s => mkShared (sh_words s) (sh_queues s).

Definition upd {A} (f : Z -> A) (x : Z) (v : A) (y : Z) : A := if y =? x then v else f y.

Definition store_word (p v : Z) : M shared unit := modify (fun s => s <| sh_words := upd (sh_words s) p v |>).

Definition on_queue (p : Z) (f : circular_queue -> circular_queue) : M shared unit :=
  modify (fun s => s <| sh_queues := upd (sh_queues s) p (f (sh_queues s p)) |>).

(** ** The proxy *)

(** [channel_t], without the mutex *)
Record proxy_channel := mkProxyChannel {
  out_cq : Z;
  out_cq_len : Z;
  in_cq : Z;
  in_cq_len : Z
}.

Record proxy_maps := mkProxyMaps {
  g_mmap_offload_channels_info_va : Z;
  g_mmap_offload_channels_va : Z;
  g_mmap_offload_channels_len : Z;
  offload_channels : list proxy_channel;
  px_shared : shared
}.

#[export] Instance eta_proxy_maps : Eta proxy_maps := fun p =>
  mkProxyMaps (g_mmap_offload_channels_info_va p) (g_mmap_offload_channels_va p)
    (g_mmap_offload_channels_len p) (offload_channels p) (px_shared p).

(** The physical address behind [a], in the mapping of the device at [off] that
    [mmap] has placed at [base] *)
Definition behind (base off a : Z) : Z := a - base + off.

(** One round of the loop of [mmap_channels] *)
Definition mmap_channel (opages ipages i : Z) : M proxy_maps unit :=
  let! base := gets g_mmap_offload_channels_va in
  let out_cq_base := u64 (base + u64 (u64 (u64 i * u64 (s32 (opages + ipages))) * PAGE_SIZE_4K)) in
  let in_cq_base := u64 (out_cq_base + u64 (s32 (opages * PAGE_SIZE_4K))) in
  let! chs := gets offload_channels in
  if lenZ chs <=? i then fail OutOfBounds
  else
    modify (fun p => p <| offload_channels := updZ chs i
      (mkProxyChannel out_cq_base (u64 (u64 opages * PAGE_SIZE_4K)) in_cq_base (u64 (u64 ipages * PAGE_SIZE_4K))) |>) ;;
    zoom px_shared (on_queue (behind base OFFLOAD_CHANNEL_BASE_PA out_cq_base)
      (cq_init (u64 (Z.quot (s32 (opages - 1)) CQ_ELE_PAGE_NUM)))) ;;
    zoom px_shared (on_queue (behind base OFFLOAD_CHANNEL_BASE_PA in_cq_base)
      (cq_init (u64 (Z.quot (s32 (ipages - 1)) CQ_ELE_PAGE_NUM)))).

(** The first [mmap] is not checked: with its result [MAP_FAILED] the first store
    faults. *)
Definition mmap_channels (mmap : Z -> Z -> Z) (opened : bool)
    (n_unikernels n_offload_channels opages ipages : Z) : M proxy_maps Z :=
  if negb opened then ret 0
  else
    let info := mmap PAGE_SIZE_4K OFFLOAD_CHANNEL_INFO_PA in
    let store_info k v := zoom px_shared (store_word (behind info OFFLOAD_CHANNEL_INFO_PA (info + 8 * k)) v) in
    modify (fun p => p <| g_mmap_offload_channels_info_va := info |>) ;;
    if info =? MAP_FAILED then fail OutOfBounds
    else
      store_info 0 0 ;;
      store_info 1 (u64 n_offload_channels) ;;
      store_info 2 (u64 opages) ;;
      store_info 3 (u64 ipages) ;;
      store_info 4 (u64 n_unikernels) ;;
      let len := u64 (u64 (u64 (s32 (opages + ipages)) * PAGE_SIZE_4K) * u64 n_offload_channels) in
      modify (fun p => p <| g_mmap_offload_channels_len := len |>) ;;
      let base := mmap len OFFLOAD_CHANNEL_BASE_PA in
      modify (fun p => p <| g_mmap_offload_channels_va := base |>) ;;
      if base =? MAP_FAILED then ret 0
      else
        for_up (Z.to_nat n_offload_channels) 0 (mmap_channel opages ipages) ;;
        store_info 0 OFFLOAD_MAGIC ;;
        ret 1.

(** ** The kernel *)

(** [channel_t]; the array of them is in shared memory too, but a kernel uses only
    its own elements. *)
Record kernel_channel := mkKernelChannel {
  ch_in : Z;
  ch_out : Z;
  init_flag : Z
}.

#[export] Instance eta_kernel_channel : Eta kernel_channel := fun c =>
  mkKernelChannel (ch_in c) (ch_out c) (init_flag c).

Record kernel_offload := mkKernelOffload {
  g_offload_initialization_flag : Z;
  g_offload_channels : Z -> kernel_channel;
  g_n_offload_channels : Z;
  g_n_nodes : Z;
  g_node_id : Z;
  g_channel_size : Z;
  k_shared : shared
}.

#[export] Instance eta_kernel_offload : Eta kernel_offload := fun k =>
  mkKernelOffload (g_offload_initialization_flag k) (g_offload_channels k) (g_n_offload_channels k)
    (g_n_nodes k) (g_node_id k) (g_channel_size k) (k_shared k).

Section kernel_side.
Context (g_shared_memory : Z).
(** The word at [CONFIG_MEM_START], where the loader has left the start of this
    kernel's memory, in gigabytes *)
Context (mem_start : Z).

Definition get_offload_id : Z :=
  let current_memory_start := s32 mem_start in
  s32 (Z.quot (s32 (current_memory_start - UNIKERNEL_START)) MEMORYS_PER_NODE).

Definition load_word_at (v : Z) : M kernel_offload Z :=
  gets (fun k => sh_words (k_shared k) (shared_memory_pa g_shared_memory v)).

(** [lk_memset] of the structure with 0 *)
Definition init_channel (_ : kernel_channel) : kernel_channel := mkKernelChannel 0 0 0.

Definition set_channel (j : Z) (f : kernel_channel -> kernel_channel) : M kernel_offload unit :=
  modify (fun k => k <| g_offload_channels := upd (g_offload_channels k) j (f (g_offload_channels k j)) |>).

(** [spinlock_init(&cur_channel->in->slock)] *)
Definition init_in_lock (j : Z) : M kernel_offload unit :=
  let! k := get in
  zoom k_shared (on_queue (shared_memory_pa g_shared_memory (ch_in (g_offload_channels k j)))
    (fun q => q <| slock := FALSE |>)).

(** One round of the loop of [init_offload_channel] *)
Definition init_one_channel (n_ipages n_opages i : Z) : M kernel_offload unit :=
  let! k := get in
  let offload_channels_offset := s32 (g_channel_size k * g_node_id k + i) in
  let j := s32 (g_node_id k * g_channel_size k + i) in
  set_channel j init_channel ;;
  let icq_base_va := u64 (OFFLOAD_CHANNEL_BASE_VA +
    u64 (u64 (u64 offload_channels_offset * u64 (n_ipages + n_opages)) * PAGE_SIZE_4K)) in
  set_channel j (fun c => c <| ch_in := icq_base_va |>) ;;
  init_in_lock j ;;
  let ocq_base_va := u64 (icq_base_va + u64 (n_ipages * PAGE_SIZE_4K)) in
  set_channel j (fun c => c <| ch_out := ocq_base_va |>) ;;
  init_in_lock j.

Definition init_offload_channel : M kernel_offload Z :=
  let! offload_magic := load_word_at OFFLOAD_CHANNEL_INFO_VA in
  if negb (offload_magic =? OFFLOAD_MAGIC) then
    modify (fun k => k <| g_offload_initialization_flag := FALSE |>) ;;
    ret FALSE
  else
    modify (fun k => k <| g_offload_initialization_flag := TRUE |>) ;;
    let! w := load_word_at (OFFLOAD_CHANNEL_INFO_VA + 8 * 1) in
    modify (fun k => k <| g_n_offload_channels := s32 w |>) ;;
    let! n_ipages := load_word_at (OFFLOAD_CHANNEL_INFO_VA + 8 * 2) in
    let! n_opages := load_word_at (OFFLOAD_CHANNEL_INFO_VA + 8 * 3) in
    let! w := load_word_at (OFFLOAD_CHANNEL_INFO_VA + 8 * 4) in
    modify (fun k => k <| g_n_nodes := s32 w |>) ;;
    let! w := load_word_at (OFFLOAD_CHANNEL_INFO_VA + 8 * 5) in
    modify (fun k => k <| g_node_id := s32 w |>) ;;
    zoom k_shared (store_word (shared_memory_pa g_shared_memory (OFFLOAD_CHANNEL_INFO_VA + 8 * 5)) (u64 (w + 1))) ;;
    modify (fun k => k <| g_node_id := get_offload_id |>) ;;
    let! k := get in
    if g_n_nodes k =? 0 then fail DivideByZero
    else
      let size := s32 (Z.quot (g_n_offload_channels k) (g_n_nodes k)) in
      modify (fun k => k <| g_channel_size := size |>) ;;
      for_up (Z.to_nat size) 0 (init_one_channel n_ipages n_opages) ;;
      ret TRUE.

(** The index of the channel of the core with the given id *)
Definition get_offload_channel (k : kernel_offload) (apic_id : Z) : Z :=
  u64 (u64 (s32 (g_node_id k * g_channel_size k)) + apic_id).
End kernel_side.

(** ** The two sides meet *)

Lemma upd_eq {A} (f : Z -> A) x v : upd f x v x = v.
Proof. unfold upd. by rewrite Z.eqb_refl. Qed.

Lemma upd_other {A} (f : Z -> A) x v y : y <> x -> upd f x v y = f y.
Proof. intros E. unfold upd. by rewrite (proj2 (Z.eqb_neq y x) E). Qed.

(** A queue that is empty, with room for [size - 1] elements *)
Definition empty_queue (size : Z) (q : circular_queue) : Prop :=
  cq_head q = 0 /\ cq_tail q = 0 /\ cq_size q = size.

Section layout.
Context (n_unikernels n opages ipages : Z) (mmap : Z -> Z -> Z).
Local Notation pages := (opages + ipages).

(** The channels fit in the rest of the channel memory, and every kernel gets some. *)
Record setup_ok : Prop := {
  so_nodes : 1 <= n_unikernels <= 100;
  so_channels : n_unikernels <= n;
  so_opages : 1 <= opages;
  so_ipages : 1 <= ipages;
  so_fits : 4096 * pages * n <= CHANNEL_SIZE - (Z.shiftl 300 20 + PAGE_SIZE_4K * 300);
  so_info : mmap PAGE_SIZE_4K OFFLOAD_CHANNEL_INFO_PA <> MAP_FAILED;
  so_base : let base := mmap (4096 * pages * n) OFFLOAD_CHANNEL_BASE_PA in
    base <> MAP_FAILED /\ 0 <= base /\ base + 4096 * pages * n <= 2 ^ 64
}.

Hypothesis setup : setup_ok.
Local Notation base := (mmap (4096 * pages * n) OFFLOAD_CHANNEL_BASE_PA).

(** The channel [j] in the proxy's addresses, and the queues' physical addresses *)
Definition laid_out (j : Z) : proxy_channel :=
  mkProxyChannel (base + 4096 * pages * j) (4096 * opages)
    (base + 4096 * pages * j + 4096 * opages) (4096 * ipages).

Definition out_pa (j : Z) : Z := OFFLOAD_CHANNEL_BASE_PA + 4096 * pages * j.

Definition in_pa (j : Z) : Z := out_pa j + 4096 * opages.

Lemma bounds : 1 <= n <= 2 ^ 18 /\ 2 <= pages <= 2 ^ 18 /\ 4096 * pages * n <= 2 ^ 30.
Proof.
  destruct setup as [S1 S2 S3 S4 S5 _ _]. change (CHANNEL_SIZE - _) with 757940224 in S5. nia.
Qed.

Lemma in_bounds j : 0 <= j < n -> 0 <= 4096 * pages * j /\ 4096 * pages * j + 4096 * pages <= 4096 * pages * n.
Proof. pose proof bounds. nia. Qed.

Lemma queues_apart j j' : 0 <= j < n -> 0 <= j' < n ->
  (out_pa j = out_pa j' <-> j = j') /\ (in_pa j = in_pa j' <-> j = j') /\ out_pa j <> in_pa j'.
Proof.
  intros Hj Hj'. destruct setup as [S1 S2 S3 S4 _ _ _]. unfold in_pa, out_pa.
  assert (j < j' \/ j = j' \/ j' < j) as [E|[->|E]] by lia; [|lia|].
  - assert (pages * j + pages <= pages * j') by nia. lia.
  - assert (pages * j' + pages <= pages * j) by nia. lia.
Qed.

(** *** The proxy *)

Lemma mmap_channel_spec i p :
  0 <= i < n -> n <= lenZ (offload_channels p) -> g_mmap_offload_channels_va p = base ->
  mmap_channel opages ipages i p = Ok (tt, p
    <| offload_channels := updZ (offload_channels p) i (laid_out i) |>
    <| px_shared := mkShared (sh_words (px_shared p))
         (upd (upd (sh_queues (px_shared p)) (out_pa i)
            (cq_init ((opages - 1) / 2) (sh_queues (px_shared p) (out_pa i))))
            (in_pa i) (cq_init ((ipages - 1) / 2) (sh_queues (px_shared p) (in_pa i)))) |>).
Proof.
  intros Hi Hlen Hb. pose proof bounds as (B1 & B2 & B3). pose proof (in_bounds i Hi) as B4.
  destruct setup as [S1 S2 S3 S4 _ _ S7]. cbn zeta in S7. destruct S7 as (_ & S8 & S9).
  unfold mmap_channel, bind, gets. rewrite Hb. unfold PAGE_SIZE_4K, CQ_ELE_PAGE_NUM.
  rewrite (s32_small (opages + ipages)), (s32_small (opages * 4096)), (s32_small (opages - 1)),
    (s32_small (ipages - 1)) by lia.
  rewrite !Z.quot_div_nonneg by lia.
  assert (0 <= (opages - 1) / 2 < 2 ^ 18 /\ 0 <= (ipages - 1) / 2 < 2 ^ 18) as [D1 D2] by zdm.
  rewrite !(u64_small i), !(u64_small (opages + ipages)), !(u64_small ((opages - 1) / 2)),
    !(u64_small ((ipages - 1) / 2)), !(u64_small opages), !(u64_small ipages),
    !(u64_small (opages * 4096)), !(u64_small (ipages * 4096)), !(u64_small (i * _)) by nia.
  replace (i * (opages + ipages) * 4096) with (4096 * (opages + ipages) * i) by lia.
  rewrite !(u64_small (4096 * (opages + ipages) * i)) by lia.
  rewrite !(u64_small (base + 4096 * (opages + ipages) * i)) by lia.
  rewrite !(u64_small (base + 4096 * (opages + ipages) * i + opages * 4096)) by lia.
  rewrite (proj2 (Z.leb_gt _ _)) by lia.
  replace (opages * 4096) with (4096 * opages) by lia. replace (ipages * 4096) with (4096 * ipages) by lia.
  replace (behind _ _ (_ + 4096 * opages)) with (in_pa i) by (unfold behind, in_pa, out_pa; lia).
  replace (behind _ _ _) with (out_pa i) by (unfold behind, out_pa; lia).
  destruct (queues_apart i i Hi Hi) as (_ & _ & A).
  rewrite <- (upd_other (sh_queues (px_shared p)) (out_pa i)
    (cq_init ((opages - 1) / 2) (sh_queues (px_shared p) (out_pa i))) (in_pa i)) by congruence.
  reflexivity.
Qed.

(** After the channels below [i] *)
Record laid (i : Z) (w : Z -> Z) (p : proxy_maps) : Prop := {
  ld_base : g_mmap_offload_channels_va p = base;
  ld_len : n <= lenZ (offload_channels p);
  ld_words : sh_words (px_shared p) = w;
  ld_channel : forall j, 0 <= j < i -> nthZ (offload_channels p) j = Some (laid_out j);
  ld_out : forall j, 0 <= j < i -> empty_queue ((opages - 1) / 2) (sh_queues (px_shared p) (out_pa j));
  ld_in : forall j, 0 <= j < i -> empty_queue ((ipages - 1) / 2) (sh_queues (px_shared p) (in_pa j))
}.

Lemma laid_step i w p : 0 <= i < n -> laid i w p -> wp (mmap_channel opages ipages i) (fun _ => laid (i + 1) w) p.
Proof.
  intros Hi [L1 L2 L3 L4 L5 L6]. unfold wp. rewrite mmap_channel_spec by done.
  split; cbn [offload_channels px_shared set_field g_mmap_offload_channels_va sh_words sh_queues];
    [done|by rewrite lenZ_updZ|done|..]; intros j Hj; destruct (decide (j = i)) as [->|Hne].
  - apply nthZ_updZ_eq. lia.
  - rewrite nthZ_updZ_ne by done. apply L4. lia.
  - destruct (queues_apart i i Hi Hi) as (_ & _ & A). by rewrite upd_other, upd_eq.
  - destruct (queues_apart j i) as (A & _ & B); [lia..|]. rewrite !upd_other by tauto. apply L5. lia.
  - by rewrite upd_eq.
  - destruct (queues_apart j i) as (_ & A & _); [lia..|]. destruct (queues_apart i j) as (_ & _ & B); [lia..|].
    rewrite !upd_other by (tauto || congruence). apply L6. lia.
Qed.
(** What the information page says *)
Record described (w : Z -> Z) : Prop := {
  ds_magic : w (OFFLOAD_CHANNEL_INFO_PA + 8 * 0) = OFFLOAD_MAGIC;
  ds_channels : w (OFFLOAD_CHANNEL_INFO_PA + 8 * 1) = n;
  ds_opages : w (OFFLOAD_CHANNEL_INFO_PA + 8 * 2) = opages;
  ds_ipages : w (OFFLOAD_CHANNEL_INFO_PA + 8 * 3) = ipages;
  ds_nodes : w (OFFLOAD_CHANNEL_INFO_PA + 8 * 4) = n_unikernels
}.

Lemma laid_words i w w' p : laid i w p -> laid i w' (p <| px_shared := mkShared w' (sh_queues (px_shared p)) |>).
Proof. by intros []. Qed.

(** The page before the magic number is set *)
Definition page_words (w : Z -> Z) : Z -> Z :=
  let at_ k := OFFLOAD_CHANNEL_INFO_PA + 8 * k in
  upd (upd (upd (upd (upd w (at_ 0) 0) (at_ 1) n) (at_ 2) opages) (at_ 3) ipages) (at_ 4) n_unikernels.

Lemma page_described w : described (upd (page_words w) (OFFLOAD_CHANNEL_INFO_PA + 8 * 0) OFFLOAD_MAGIC).
Proof. split; unfold page_words; repeat (rewrite upd_other by lia); apply upd_eq. Qed.

Lemma wp_mmap_channels p0 : n <= lenZ (offload_channels p0) ->
  wp (mmap_channels mmap true n_unikernels n opages ipages)
    (fun r p => r = 1 /\ exists w, described w /\ laid n w p) p0.
Proof.
  intros Hlen. pose proof bounds as (B1 & B2 & B3). destruct setup as [S1 S2 S3 S4 _ S6 S7].
  cbn zeta in S7. destruct S7 as (S7 & S8 & S9). destruct p0 as [a b c chs [w q]]. cbn [offload_channels] in Hlen.
  unfold mmap_channels. cbn [negb]. wp_steps. rewrite (proj2 (Z.eqb_neq _ _) S6).
  rewrite (s32_small pages), !(u64_small n), !(u64_small opages), !(u64_small ipages), !(u64_small n_unikernels),
    (u64_small pages), (u64_small (pages * _)), u64_small by (unfold PAGE_SIZE_4K; lia).
  replace (pages * PAGE_SIZE_4K * n) with (4096 * pages * n) by (unfold PAGE_SIZE_4K; lia).
  unfold behind. set (info := mmap PAGE_SIZE_4K OFFLOAD_CHANNEL_INFO_PA).
  assert (forall k, info + 8 * k - info + OFFLOAD_CHANNEL_INFO_PA = OFFLOAD_CHANNEL_INFO_PA + 8 * k) as Ek by lia.
  rewrite !Ek. repeat (wp_step || (apply wp_zoom; unfold store_word)). rewrite (proj2 (Z.eqb_neq _ _) S7).
  wp_step. apply (wp_for_up (fun i p => laid i (page_words w) p)).
  - split; [done|exact Hlen|done|intros; lia..].
  - intros k p Hk Hp. apply laid_step; [lia|done].
  - intros p Hp. rewrite Z2Nat.id in Hp by lia. wp_step. apply wp_zoom. unfold store_word. wp_steps.
    split; [done|]. eexists. split; [apply (page_described w)|]. rewrite (ld_words _ _ _ Hp).
    exact (laid_words _ _ _ p Hp).
Qed.
(** *** The kernel *)

Context (node : Z).
Hypothesis node_ok : 0 <= node < n_unikernels.
Local Notation mem_start := (UNIKERNEL_START + MEMORYS_PER_NODE * node).
Local Notation size := (n / n_unikernels).
Local Notation shared_pa := (shared_memory_pa SHARED_MEMORY_START).

Lemma offload_id : get_offload_id mem_start = node.
Proof.
  destruct setup as [S1 _ _ _ _ _ _]. unfold get_offload_id, UNIKERNEL_START, MEMORYS_PER_NODE.
  rewrite (s32_small (128 + _)), (s32_small (_ - _)) by lia. replace (128 + 10 * node - 128) with (node * 10) by lia.
  rewrite Z.quot_mul, s32_small by lia. done.
Qed.

Lemma base_pa d : 0 <= d < 2 ^ 32 -> shared_pa (OFFLOAD_CHANNEL_BASE_VA + d) = OFFLOAD_CHANNEL_BASE_PA + d.
Proof.
  intros Hd. unfold shared_memory_pa. change OFFLOAD_CHANNEL_BASE_VA with 0xffff800052d2c000.
  change CONFIG_SHARED_MEMORY with 0xffff800000000000. change SHARED_MEMORY_START with 0x1f40000000.
  change OFFLOAD_CHANNEL_BASE_PA with 0x1f92d2c000. rewrite u64_small; lia.
Qed.

Lemma info_pa d : 0 <= d < 2 ^ 32 -> shared_pa (OFFLOAD_CHANNEL_INFO_VA + d) = OFFLOAD_CHANNEL_INFO_PA + d.
Proof.
  intros Hd. unfold shared_memory_pa. change OFFLOAD_CHANNEL_INFO_VA with 0xffff800052cc8000.
  change CONFIG_SHARED_MEMORY with 0xffff800000000000. change SHARED_MEMORY_START with 0x1f40000000.
  change OFFLOAD_CHANNEL_INFO_PA with 0x1f92cc8000. rewrite u64_small; lia.
Qed.

Lemma own_channels : 1 <= size /\ node * size + size <= n.
Proof. destruct setup as [S1 S2 _ _ _ _ _]. split; [zdm|]. assert (n_unikernels * size <= n) by zdm. nia. Qed.

(** The channel [j] in the kernel's addresses *)
Definition kernel_view (j : Z) : kernel_channel :=
  mkKernelChannel (OFFLOAD_CHANNEL_BASE_VA + 4096 * pages * j)
    (OFFLOAD_CHANNEL_BASE_VA + 4096 * pages * j + 4096 * opages) 0.

(** After [i] rounds; of the queues, only locks have changed. *)
Record initialised (i : Z) (q0 : Z -> circular_queue) (k : kernel_offload) : Prop := {
  in_size : g_channel_size k = size;
  in_node : g_node_id k = node;
  in_channels : forall i', 0 <= i' < i -> g_offload_channels k (node * size + i') = kernel_view (node * size + i');
  in_locks : forall i', 0 <= i' < i -> slock (sh_queues (k_shared k) (out_pa (node * size + i'))) = FALSE;
  in_queues : forall a sz, empty_queue sz (q0 a) -> empty_queue sz (sh_queues (k_shared k) a)
}.

Lemma upd_upd {A} (f : Z -> A) x v v' y : upd (upd f x v) x v' y = upd f x v' y.
Proof. unfold upd. by destruct (y =? x). Qed.

Lemma initialised_step i q0 k : 0 <= i < size -> initialised i q0 k ->
  wp (init_one_channel SHARED_MEMORY_START opages ipages i) (fun _ => initialised (i + 1) q0) k.
Proof.
  intros Hi [I1 I2 I3 I4 I5]. pose proof bounds as (B1 & B2 & B3). pose proof own_channels as [O1 O2].
  destruct setup as [S1 S2 S3 S4 _ _ _]. set (j := node * size + i) in *.
  assert (0 <= j < n) as Hj by (subst j; nia). pose proof (in_bounds j Hj) as B4.
  destruct k as [fl ch nc nn nid sz [w q]].
  cbn [g_channel_size g_node_id g_offload_channels k_shared sh_queues] in *. subst sz nid.
  unfold init_one_channel. wp_step. wp_step. cbn [g_channel_size g_node_id].
  rewrite (Z.mul_comm size node), (s32_small (node * size + i)) by (fold j; lia). fold j.
  rewrite (u64_small j), (u64_small pages), (u64_small (j * pages)) by nia.
  replace (j * pages * PAGE_SIZE_4K) with (4096 * pages * j) by (unfold PAGE_SIZE_4K; lia).
  replace (opages * PAGE_SIZE_4K) with (4096 * opages) by (unfold PAGE_SIZE_4K; lia).
  rewrite (u64_small (4096 * pages * j)), (u64_small (4096 * opages)) by lia.
  assert (OFFLOAD_CHANNEL_BASE_VA = 0xffff800052d2c000) as EV by reflexivity.
  rewrite (u64_small (OFFLOAD_CHANNEL_BASE_VA + 4096 * pages * j)), u64_small by lia.
  unfold set_channel, init_in_lock. repeat (wp_step || (apply wp_zoom; unfold on_queue)).
  cbn [k_shared set_field g_offload_channels sh_queues]. rewrite !upd_eq. cbn [ch_in set_field init_channel].
  rewrite base_pa by lia. fold (out_pa j).
  split; cbn [g_channel_size g_node_id g_offload_channels k_shared sh_queues set_field]; [done|done|..].
  - intros i' Hi'. rewrite !upd_upd. destruct (decide (i' = i)) as [->|Hne]; [fold j; by rewrite upd_eq|].
    rewrite upd_other by (subst j; lia). apply I3. lia.
  - intros i' Hi'. unfold upd. destruct (Z.eqb_spec (out_pa (node * size + i')) (out_pa j)) as [E|E]; [done|].
    apply I4. destruct (decide (i' = i)) as [->|Hne]; [done|lia].
  - intros a sz Ha. unfold upd. destruct (Z.eqb_spec a (out_pa j)) as [->|E]; by apply I5.
Qed.
Lemma wp_init_offload_channel k0 : described (sh_words (k_shared k0)) ->
  wp (init_offload_channel SHARED_MEMORY_START mem_start)
    (fun r k => r = TRUE /\ initialised size (sh_queues (k_shared k0)) k) k0.
Proof.
  destruct k0 as [fl ch nc nn nid sz [w q]]. cbn [k_shared sh_words sh_queues].
  intros [D1 D2 D3 D4 D5]. pose proof bounds as (B1 & B2 & B3). pose proof own_channels as [O1 O2].
  destruct setup as [S1 S2 S3 S4 _ _ _].
  assert (shared_pa OFFLOAD_CHANNEL_INFO_VA = OFFLOAD_CHANNEL_INFO_PA + 8 * 0) as E0 by reflexivity.
  unfold init_offload_channel, load_word_at. wp_step. wp_step. rewrite E0. cbn [k_shared sh_words].
  rewrite D1, Z.eqb_refl. cbn [negb].
  repeat (wp_step || (apply wp_zoom; unfold store_word)).
  rewrite !info_pa by lia. cbn [k_shared sh_words sh_queues set_field g_n_nodes g_n_offload_channels g_offload_initialization_flag
    g_offload_channels g_node_id g_channel_size].
  rewrite D2, D3, D4, D5, offload_id, !(s32_small n), !(s32_small n_unikernels) by lia. rewrite (proj2 (Z.eqb_neq n_unikernels 0)) by lia.
  assert (size <= n) by nia. rewrite !(Z.quot_div_nonneg n), !(s32_small size) by lia. wp_step. wp_step. wp_step.
  apply (wp_for_up (fun i k => initialised i q k)).
  - split; try done; intros; lia.
  - intros i k Hi Hk. apply initialised_step; [lia|done].
  - intros k Hk. rewrite Z2Nat.id in Hk by lia. wp_step. done.
Qed.

(** Shared memory [s'] is [s] but for the counter of nodes and for locks, which
    other kernels have changed while they booted. *)
Record others_booted (s s' : shared) : Prop := {
  ob_words : forall a, a <> OFFLOAD_CHANNEL_INFO_PA + 8 * 5 -> sh_words s' a = sh_words s a;
  ob_queues : forall a sz, empty_queue sz (sh_queues s a) -> empty_queue sz (sh_queues s' a)
}.

(** The queues of channel [pc] lie in the mapping, one after the other, with room
    for their elements behind the page of their heads. *)
Record in_mapping (pc : proxy_channel) : Prop := {
  im_low : base <= out_cq pc;
  im_order : out_cq pc + out_cq_len pc <= in_cq pc;
  im_high : in_cq pc + in_cq_len pc <= base + 4096 * pages * n;
  im_out : 4096 + CQ_ELE_SIZE * ((opages - 1) / 2) <= out_cq_len pc;
  im_in : 4096 + CQ_ELE_SIZE * ((ipages - 1) / 2) <= in_cq_len pc
}.

Lemma laid_in_mapping j : 0 <= j < n -> in_mapping (laid_out j).
Proof.
  intros Hj. pose proof (in_bounds j Hj). destruct setup as [_ _ S3 S4 _ _ _].
  assert (2 * ((opages - 1) / 2) <= opages - 1 /\ 2 * ((ipages - 1) / 2) <= ipages - 1) by zdm.
  unfold laid_out. split; cbn [out_cq in_cq out_cq_len in_cq_len]; unfold CQ_ELE_SIZE; lia.
Qed.

Lemma laid_apart j j' : 0 <= j < j' -> in_cq (laid_out j) + in_cq_len (laid_out j) <= out_cq (laid_out j').
Proof. intros Hj. destruct setup as [_ _ S3 S4 _ _ _]. cbn [laid_out in_cq in_cq_len out_cq]. nia. Qed.

(** C9: the proxy and a kernel agree on the channels.  The proxy's set-up succeeds;
    whatever other kernels have initialised since, [init_offload_channel] succeeds
    too, and for each core of this kernel the queue it receives from is the
    proxy's outgoing queue of one channel, the queue it sends to is that channel's
    incoming queue, both are empty rings of the size that the proxy gave them, and
    the lock of the former is free.  The queues of all channels lie in the mapping,
    hold their elements and do not overlap. *)
Theorem channels_meet p0 :
  n <= lenZ (offload_channels p0) ->
  exists p, mmap_channels mmap true n_unikernels n opages ipages p0 = Ok (1, p) /\
    (forall j pc, 0 <= j < n -> nthZ (offload_channels p) j = Some pc -> in_mapping pc /\
       forall j' pc', j < j' < n -> nthZ (offload_channels p) j' = Some pc' ->
         in_cq pc + in_cq_len pc <= out_cq pc') /\
    forall k0, others_booted (px_shared p) (k_shared k0) ->
    exists k, init_offload_channel SHARED_MEMORY_START mem_start k0 = Ok (TRUE, k) /\
      forall i, 0 <= i < n / n_unikernels ->
      exists pc, nthZ (offload_channels p) (node * (n / n_unikernels) + i) = Some pc /\
        let kc := g_offload_channels k (get_offload_channel k i) in
        let to_kernel := sh_queues (k_shared k) (shared_pa (ch_in kc)) in
        let to_proxy := sh_queues (k_shared k) (shared_pa (ch_out kc)) in
        shared_pa (ch_in kc) = behind base OFFLOAD_CHANNEL_BASE_PA (out_cq pc) /\
        shared_pa (ch_out kc) = behind base OFFLOAD_CHANNEL_BASE_PA (in_cq pc) /\
        empty_queue ((opages - 1) / 2) to_kernel /\ slock to_kernel = FALSE /\
        empty_queue ((ipages - 1) / 2) to_proxy.
Proof.
  intros Hlen. destruct (proj1 (wp_Ok _ _ _) (wp_mmap_channels p0 Hlen)) as (r & p & E & -> & w & Hd & Hp).
  destruct Hp as [L1 L2 L3 L4 L5 L6]. exists p. split; [exact E|]. split.
  { intros j pc Hj Ej. rewrite L4 in Ej by lia. injection Ej as <-. split; [by apply laid_in_mapping|].
    intros j' pc' Hj' Ej'. rewrite L4 in Ej' by lia. injection Ej' as <-. apply laid_apart. lia. }
  intros k0 [Hw Hq].
  assert (described (sh_words (k_shared k0))) as Hd0.
  { destruct Hd as [D1 D2 D3 D4 D5]. split; rewrite Hw by lia; rewrite L3; done. }
  destruct (proj1 (wp_Ok _ _ _) (wp_init_offload_channel k0 Hd0)) as (r & k & Ek & -> & [I1 I2 I3 I4 I5]).
  exists k. split; [exact Ek|]. intros i Hi. pose proof own_channels as [O1 O2]. pose proof bounds as (B1 & B2 & B3).
  assert (0 <= node * size + i < n) as Hj by nia. pose proof (in_bounds _ Hj) as B4.
  destruct setup as [S1 S2 S3 S4 _ _ _].
  exists (laid_out (node * size + i)). split; [by apply L4|]. unfold get_offload_channel.
  rewrite I1, I2, (s32_small (node * size)), (u64_small (node * size)), u64_small by nia.
  rewrite (I3 i Hi). unfold kernel_view, laid_out, behind. cbn [ch_in ch_out out_cq in_cq]. cbv zeta.
  rewrite <- Z.add_assoc, !base_pa by lia. rewrite Z.add_assoc. fold (out_pa (node * size + i)) (in_pa (node * size + i)).
  split_and!; [unfold out_pa; lia|unfold in_pa, out_pa; lia|by apply I5, Hq, L5|by apply I4|by apply I5, Hq, L6].
Qed.
End layout.

(** ** Witness: two kernels with 24 channels each, queues of 64 elements *)

Definition placed (len off : Z) : Z := off.

Lemma placed_setup : setup_ok 2 48 129 129 placed.
Proof. split; vm_compute; first [done | lia | by repeat split]. Qed.

Lemma channels_meet_witness :
  exists p pc, mmap_channels placed true 2 48 129 129
      (mkProxyMaps 0 0 0 (replicate 48 (mkProxyChannel 0 0 0 0)) (mkShared (fun _ => 0) (fun _ => mkQueue 0 0 0 0 (fun _ => 0)))) =
      Ok (1, p) /\ nthZ (offload_channels p) 31 = Some pc /\ in_mapping 48 129 129 placed pc.
Proof.
  destruct (channels_meet 2 48 129 129 placed placed_setup 1 ltac:(lia) (mkProxyMaps 0 0 0
    (replicate 48 (mkProxyChannel 0 0 0 0)) (mkShared (fun _ => 0) (fun _ => mkQueue 0 0 0 0 (fun _ => 0)))))
    as (p & E & Hin & Hk); [by vm_compute|].
  destruct (Hk (mkKernelOffload 0 (fun _ => mkKernelChannel 0 0 0) 0 0 0 0 (px_shared p))) as (k & _ & Hi);
    [split; [intros; reflexivity|intros ? ? He; exact He]|].
  destruct (Hi 7) as (pc & Epc & _); [change (48 / 2) with 24; lia|].
  exists p, pc. split; [exact E|]. split; [exact Epc|].
  refine (proj1 (Hin 31 pc _ Epc)). lia.
Defined.
