(* ===== verification/Semaphore.v ===== *)
(** * Semaphores ([kernel/semaphore.h], [kernel/semaphore.c])

    A counter and a ring of waiting threads, both behind an interrupt-safe spin
    lock: what is done under the lock is one step here, which [IrqLock] justifies.
    Between the release of the lock and the end of [schedule] a thread that has to
    wait is queued but not yet asleep; the scheduler discards a wake-up in that
    time ([ThreadSafety]; the consequence for the semaphore is in [Wakeup]). *)

From S2P Require Import Prelude.
From S2P Require Import Memory.
From S2P Require Import IrqLock.
From S2P Require Import ShellStorage.
From S2P Require Import Channel.

Definition MAX_THREAD_ID : Z := MAX_PROCESSOR_COUNT + CONFIG_NUM_THREAD.

Definition MAX_SEM_QUEUE_SIZE : Z := MAX_THREAD_ID.

Definition ECANCELED : Z := 125.

Definition ENOMEM : Z := 12.

(** [sem_t]; [queue] is what the pointer [queue_at] points to, and the lock is not
    a field. *)
Record sem_t := mkSem {
  value : Z;
  queue_at : Z;
  queue : list Z;
  wpos : Z;
  rpos : Z
}.

#[export] Instance eta_sem : Eta sem_t := fun s => mkSem (value s) (queue_at s) (queue s) (wpos s) (rpos s).

(** ** The operations under the lock *)

Definition az_sem_trywait : M sem_t Z :=
  let! s := get in
  if 0 <? value s then
    modify (fun s => s <| value := u32 (value s - 1) |>) ;;
    ret 0
  else ret (- ECANCELED).

(** One round of [az_sem_wait] for thread [id], up to the release of the lock:
    whether it has the semaphore *)
Definition sem_wait_round (id : Z) : M sem_t bool :=
  let! s := get in
  if 0 <? value s then
    modify (fun s => s <| value := u32 (value s - 1) |>) ;;
    ret true
  else if lenZ (queue s) <=? wpos s then fail OutOfBounds
  else
    modify (fun s => s <| queue := updZ (queue s) (wpos s) id |>) ;;
    modify (fun s => s <| wpos := u32 (wpos s + 1) mod MAX_SEM_QUEUE_SIZE |>) ;;
    ret false.

(** [az_sem_post]: the thread for which it calls [thread_wake_up], if any *)
Definition az_sem_post : M sem_t (option Z) :=
  modify (fun s => s <| value := u32 (value s + 1) |>) ;;
  let! s := get in
  let! first := the OutOfBounds (nthZ (queue s) (rpos s)) in
  if first <? MAX_THREAD_ID then
    modify (fun s => s <| queue := updZ (queue s) (rpos s) MAX_THREAD_ID |>) ;;
    modify (fun s => s <| rpos := u32 (rpos s + 1) mod MAX_SEM_QUEUE_SIZE |>) ;;
    ret (Some first)
  else ret None.

(** The result, and the thread woken *)
Definition sys_sem_post (sem : Z) : M sem_t (Z * option Z) :=
  if sem =? 0 then ret (- EINVAL, None)
  else
    let! w := az_sem_post in
    ret (0, w).

(** ** Creation and destruction *)

Record sem_heap := mkSemHeap {
  sh_mem : kmem;
  sh_sems : gmap Z sem_t
}.

#[export] Instance eta_sem_heap : Eta sem_heap := fun h => mkSemHeap (sh_mem h) (sh_sems h).

(** [sizeof(sem_t)], with 32 bytes of lock *)
Definition SEM_SIZE : Z := 56.

Definition new_sem (v q : Z) : sem_t :=
  mkSem v q (replicate (Z.to_nat MAX_SEM_QUEUE_SIZE) MAX_THREAD_ID) 0 0.

(** Without memory for the queue, the stores go through NULL. *)
Definition az_sem_init (s v : Z) : M sem_heap Z :=
  if s =? 0 then ret (- EINVAL)
  else
    let! q := zoom sh_mem (az_alloc (MAX_SEM_QUEUE_SIZE * 4)) in
    if q =? 0 then fail NullPointer
    else
      modify (fun h => h <| sh_sems := <[s := new_sem v q]> (sh_sems h) |>) ;;
      ret 0.

Definition az_sem_destroy (s : Z) : M sem_heap Z :=
  if s =? 0 then ret (- EINVAL)
  else
    let! h := get in
    let! x := the NullPointer (sh_sems h !! s) in
    zoom sh_mem (az_free (queue_at x)) ;;
    ret 0.

(** The result and the new [*sem] *)
Definition sys_sem_init (sem old value : Z) : M sem_heap (Z * Z) :=
  if sem =? 0 then ret (- EINVAL, old)
  else
    let! s := zoom sh_mem (az_alloc SEM_SIZE) in
    if s =? 0 then ret (- ENOMEM, 0)
    else
      let! r := az_sem_init s (u32 value) in
      if negb (r =? 0) then
        zoom sh_mem (az_free s) ;;
        ret (r, 0)
      else ret (r, s).

Definition sys_sem_destroy (sem : Z) : M sem_heap Z :=
  if sem =? 0 then ret (- EINVAL)
  else
    let! r := az_sem_destroy sem in
    when (r =? 0) (zoom sh_mem (az_free sem) ;;
                   modify (fun h => h <| sh_sems := delete sem (sh_sems h) |>)) ;;
    ret r.

(** [az_sem_wait] is compiled with its timed part left out: a call with a timeout
    returns 0 at once, and one without goes to [next_try1]. *)
Definition az_sem_wait (s ms : Z) : option Z :=
  if s =? 0 then Some (- EINVAL) else if negb (ms =? 0) then Some 0 else None.

Definition sys_sem_wait (sem : Z) : option Z := if sem =? 0 then Some (- EINVAL) else az_sem_wait sem 0.

Definition sys_sem_timedwait (sem ms : Z) : option Z :=
  if sem =? 0 then Some (- EINVAL) else az_sem_wait sem (u32 ms).

Definition sys_sem_cancelablewait (sem ms : Z) : option Z :=
  if sem =? 0 then Some (- EINVAL) else az_sem_wait sem (u32 ms).

(** ** Threads that wait and post

    Where a thread is: outside, at [next_try1], in [schedule] on its way to sleep,
    or on the blocked list of its core and switched from. *)

Inductive sem_pc :=
| Outside
| Trying
| Suspending
| Asleep.

(** [ready] are the threads with [THREAD_INTENTION_READY] set; [taken] and [posted]
    count the calls that have taken and given; [queued] and [woken] record the threads
    put into the ring and those [thread_wake_up] was called for, in order. *)
Record sem_sys := mkSemSys {
  the_sem : sem_t;
  sem_threads : gmap Z sem_pc;
  ready : gset Z;
  taken : Z;
  posted : Z;
  queued : list Z;
  woken : list Z
}.

#[export] Instance eta_sem_sys : Eta sem_sys := fun s =>
  mkSemSys (the_sem s) (sem_threads s) (ready s) (taken s) (posted s) (queued s) (woken s).

Definition sem_go (t : Z) (pc : sem_pc) (s : sem_sys) : sem_sys :=
  s <| sem_threads := <[t := pc]> (sem_threads s) |>.

(** [thread_wake_up]: [atomic_or(THREAD_INTENTION_READY, &tcb->intention)] *)
Definition sem_wake (t : Z) (s : sem_sys) : sem_sys := s <| ready := {[ t ]} ∪ ready s |>.

(** The end of [schedule] for a thread that blocks: [__post_context_switch] clears
    READY with BLOCKED, and leaves the thread on the blocked list. *)
Definition sem_sleep (t : Z) (s : sem_sys) : sem_sys :=
  match sem_threads s !! t with
  | Some Suspending => sem_go t Asleep (s <| ready := ready s ∖ {[ t ]} |>)
  | _ => s
  end.

(** A pass of [post_context_switch] over the blocked list, at thread [t]: with READY
    set, it returns from [schedule] to [next_try1]. *)
Definition sem_pass (t : Z) (s : sem_sys) : sem_sys :=
  match sem_threads s !! t with
  | Some Asleep =>
      if decide (t ∈ ready s) then sem_go t Trying (s <| ready := ready s ∖ {[ t ]} |>) else s
  | _ => s
  end.

Inductive sem_event :=
| EWait (t : Z)
| ERound (t : Z)
| ESleep (t : Z)
| EPass (t : Z)
| EPost.

(** A post may come from a thread or from an interrupt. *)
Definition sem_step (s : sem_sys) (e : sem_event) : outcome sem_sys :=
  match e with
  | EWait t => Ok (match sem_threads s !! t with Some Outside => sem_go t Trying s | _ => s end)
  | ERound t =>
      match sem_threads s !! t with
      | Some Trying =>
          match sem_wait_round t (the_sem s) with
          | Ok (true, x) => Ok (sem_go t Outside (s <| the_sem := x |> <| taken := taken s + 1 |>))
          | Ok (false, x) => Ok (sem_go t Suspending (s <| the_sem := x |> <| queued := queued s ++ [t] |>))
          | Fault f => Fault f
          end
      | _ => Ok s
      end
  | ESleep t => Ok (sem_sleep t s)
  | EPass t => Ok (sem_pass t s)
  | EPost =>
      match az_sem_post (the_sem s) with
      | Ok (w, x) =>
          let s := s <| the_sem := x |> <| posted := posted s + 1 |> in
          Ok (match w with Some t => sem_wake t (s <| woken := woken s ++ [t] |>) | None => s end)
      | Fault f => Fault f
      end
  end.

Fixpoint sem_run (es : list sem_event) (s : sem_sys) : outcome sem_sys :=
  match es with
  | [] => Ok s
  | e :: es' => match sem_step s e with Ok s' => sem_run es' s' | Fault f => Fault f end
  end.

Definition sem_start (v q : Z) (tids : gset Z) : sem_sys :=
  mkSemSys (new_sem v q) (gset_to_gmap Outside tids) ∅ 0 0 [] [].

(** ** The ring *)

(** The ring holds [L], oldest first, and nothing else. *)
Record ring_holds (x : sem_t) (L : list Z) : Prop := {
  rh_len : lenZ (queue x) = MAX_SEM_QUEUE_SIZE;
  rh_rpos : 0 <= rpos x < MAX_SEM_QUEUE_SIZE;
  rh_fits : lenZ L <= MAX_SEM_QUEUE_SIZE;
  rh_wpos : wpos x = (rpos x + lenZ L) mod MAX_SEM_QUEUE_SIZE;
  rh_slot : forall k, 0 <= k < MAX_SEM_QUEUE_SIZE ->
    nthZ (queue x) ((rpos x + k) mod MAX_SEM_QUEUE_SIZE) = Some (default MAX_THREAD_ID (nthZ L k))
}.

Lemma slots_differ r j k : 0 <= r < MAX_SEM_QUEUE_SIZE -> 0 <= j < MAX_SEM_QUEUE_SIZE ->
  0 <= k < MAX_SEM_QUEUE_SIZE -> j <> k -> (r + j) mod MAX_SEM_QUEUE_SIZE <> (r + k) mod MAX_SEM_QUEUE_SIZE.
Proof.
  intros Hr Hj Hk Hne. pose proof (mod_sum r j MAX_SEM_QUEUE_SIZE Hr Hj). pose proof (mod_sum r k MAX_SEM_QUEUE_SIZE Hr Hk).
  lia.
Qed.

Lemma ring_slot_range r k : 0 <= (r + k) mod MAX_SEM_QUEUE_SIZE < MAX_SEM_QUEUE_SIZE.
Proof. apply Z.mod_pos_bound. done. Qed.

Lemma next_slot r k : 0 <= (r + k) mod MAX_SEM_QUEUE_SIZE < 2 ^ 32 - 1 ->
  u32 ((r + k) mod MAX_SEM_QUEUE_SIZE + 1) mod MAX_SEM_QUEUE_SIZE = (r + (k + 1)) mod MAX_SEM_QUEUE_SIZE.
Proof.
  intros Hk. unfold u32. rewrite (Z.mod_small (_ + 1)) by lia. rewrite Zplus_mod_idemp_l. f_equal. lia.
Qed.

Lemma ring_enqueue x L t : ring_holds x L -> lenZ L < MAX_SEM_QUEUE_SIZE ->
  ring_holds (x <| queue := updZ (queue x) (wpos x) t |> <| wpos := u32 (wpos x + 1) mod MAX_SEM_QUEUE_SIZE |>)
    (L ++ [t]).
Proof.
  intros [H1 H2 H3 H4 H5] Hroom. pose proof (ring_slot_range (rpos x) (lenZ L)) as HR.
  assert (lenZ (L ++ [t]) = lenZ L + 1) as El by (unfold lenZ; rewrite length_app; cbn; lia).
  split; cbn [queue rpos wpos set_field]; rewrite ?lenZ_updZ, ?El, ?H4; [done|done|lia| |].
  - apply next_slot. unfold MAX_SEM_QUEUE_SIZE, MAX_THREAD_ID, MAX_PROCESSOR_COUNT, CONFIG_NUM_THREAD in *. lia.
  - intros k Hk. destruct (decide (k = lenZ L)) as [->|Hne].
    + rewrite nthZ_updZ_eq by lia. by rewrite nthZ_app_r, Z.sub_diag by lia.
    + rewrite nthZ_updZ_ne, H5 by (done || (apply slots_differ; unfold lenZ in *; lia)).
      do 2 f_equal. destruct (decide (k < lenZ L)); [by rewrite nthZ_app_l|].
      rewrite nthZ_app_r by lia. etrans; [apply nthZ_None; lia|symmetry]. apply nthZ_None.
      unfold lenZ in *. cbn [length] in *. lia.
Qed.

Lemma ring_first x L : ring_holds x L -> nthZ (queue x) (rpos x) = Some (default MAX_THREAD_ID (nthZ L 0)).
Proof.
  intros [H1 H2 H3 H4 H5]. rewrite <- (H5 0) by done. f_equal. rewrite Z.add_0_r, Z.mod_small by done. done.
Qed.

Lemma ring_dequeue x t L : ring_holds x (t :: L) ->
  ring_holds (x <| queue := updZ (queue x) (rpos x) MAX_THREAD_ID |>
                <| rpos := u32 (rpos x + 1) mod MAX_SEM_QUEUE_SIZE |>) L.
Proof.
  intros [H1 H2 H3 H4 H5]. assert (lenZ (t :: L) = lenZ L + 1) as El by (unfold lenZ; cbn; lia). rewrite El in *.
  assert ((rpos x + 0) mod MAX_SEM_QUEUE_SIZE = rpos x) as E0 by (rewrite Z.add_0_r, Z.mod_small; done).
  assert (u32 (rpos x + 1) mod MAX_SEM_QUEUE_SIZE = (rpos x + 1) mod MAX_SEM_QUEUE_SIZE) as E1.
  { change 1 with (0 + 1) at 2. rewrite <- next_slot; rewrite E0; [done|].
    unfold MAX_SEM_QUEUE_SIZE, MAX_THREAD_ID, MAX_PROCESSOR_COUNT, CONFIG_NUM_THREAD in *. lia. }
  assert (forall k, ((rpos x + 1) mod MAX_SEM_QUEUE_SIZE + k) mod MAX_SEM_QUEUE_SIZE =
    (rpos x + (k + 1)) mod MAX_SEM_QUEUE_SIZE) as E2 by (intros k; rewrite Zplus_mod_idemp_l; f_equal; lia).
  split; cbn [queue rpos wpos set_field]; rewrite ?lenZ_updZ, ?E1, ?E2;
    [done|apply ring_slot_range|lia|rewrite H4; f_equal; lia|].
  intros k Hk. rewrite E2. destruct (decide (k + 1 = MAX_SEM_QUEUE_SIZE)) as [Ek|Ek].
  - assert ((rpos x + (k + 1)) mod MAX_SEM_QUEUE_SIZE = rpos x) as ->.
    { rewrite Ek. replace (rpos x + MAX_SEM_QUEUE_SIZE) with (rpos x + 1 * MAX_SEM_QUEUE_SIZE) by lia.
      rewrite Z.mod_add, Z.mod_small; done. }
    rewrite nthZ_updZ_eq by lia. rewrite (proj2 (nthZ_None L k)) by lia. done.
  - rewrite nthZ_updZ_ne, H5 by (lia || (rewrite <- E0 at 1; apply slots_differ; lia)).
    do 2 f_equal. rewrite (nthZ_app_r [t] L) by (unfold lenZ; cbn; lia). f_equal. unfold lenZ. cbn. lia.
Qed.

(** ** The invariant *)

Definition thread_ids (tids : gset Z) : Prop := forall t, t ∈ tids -> 0 <= t < MAX_THREAD_ID.

Definition waits (s : sem_sys) (t : Z) : Prop :=
  sem_threads s !! t = Some Suspending \/ sem_threads s !! t = Some Asleep.

Record sem_inv (v : Z) (tids : gset Z) (s : sem_sys) (L : list Z) : Prop := {
  si_taken : 0 <= taken s <= v + posted s;
  si_posted : 0 <= posted s;
  si_value : value (the_sem s) = v + posted s - taken s;
  si_ring : ring_holds (the_sem s) L;
  si_nodup : NoDup L;
  si_waits : forall t, t ∈ L -> waits s t;
  si_ready : forall t, t ∈ ready s -> waits s t /\ t ∉ L;
  si_order : queued s = woken s ++ L;
  si_dom : dom (sem_threads s) = tids
}.

Section invariant.
Context (v : Z) (tids : gset Z).
Hypothesis ids : thread_ids tids.
Hypothesis v_pos : 0 <= v.
Local Notation sem_inv := (sem_inv v tids).

Lemma known s L t pc : sem_inv s L -> sem_threads s !! t = Some pc -> 0 <= t < MAX_THREAD_ID.
Proof. intros Hs Ht. apply ids. rewrite <- (si_dom _ _ _ _ Hs). by apply elem_of_dom_2 in Ht. Qed.

(** There is a slot for every thread. *)
Lemma ring_has_room s L t : sem_inv s L -> sem_threads s !! t = Some Trying -> lenZ L < MAX_SEM_QUEUE_SIZE.
Proof.
  intros Hs Ht. assert (NoDup (t :: L)) as Hn.
  { constructor; [|apply Hs]. intros Hin. destruct (si_waits _ _ _ _ Hs t Hin); congruence. }
  assert (t :: L ⊆ seqZ 0 MAX_SEM_QUEUE_SIZE) as Hsub.
  { intros u Hu. apply elem_of_seqZ. assert (exists pc, sem_threads s !! u = Some pc) as [pc Hpc].
    { apply elem_of_cons in Hu as [->|Hu]; [by eexists|]. destruct (si_waits _ _ _ _ Hs u Hu); by eexists. }
    pose proof (known s L u pc Hs Hpc). unfold MAX_SEM_QUEUE_SIZE. lia. }
  pose proof (submseteq_length _ _ (NoDup_submseteq _ _ Hn Hsub)) as Hl.
  rewrite length_seqZ in Hl. unfold lenZ. cbn in Hl.
  unfold MAX_SEM_QUEUE_SIZE, MAX_THREAD_ID, MAX_PROCESSOR_COUNT, CONFIG_NUM_THREAD in *. lia.
Qed.

Lemma sinv_clear s L t : sem_inv s L -> sem_inv (s <| ready := ready s ∖ {[ t ]} |>) L.
Proof. intros [H1 H2 H3 H4 H5 H6 HR H7 H8]. split; try done. cbn. intros u Hu. apply HR. set_solver. Qed.

(** Moving a thread that is in the ring or has been woken only to another place
    where it waits *)
Lemma sinv_go s L t pc pc' : sem_inv s L -> sem_threads s !! t = Some pc ->
  (t ∉ L /\ t ∉ ready s) \/ pc' = Asleep -> sem_inv (sem_go t pc' s) L.
Proof.
  intros [H1 H2 H3 H4 H5 H6 HR H7 H8] Ht Hin.
  assert (forall u, waits s u -> (u = t -> pc' = Asleep) -> waits (sem_go t pc' s) u) as Hw.
  { intros u Hu Ha. unfold waits, sem_go. cbn [sem_threads set_field].
    destruct (decide (u = t)) as [->|Hne]; [rewrite lookup_insert_eq, Ha by done; by right|].
    by rewrite lookup_insert_ne. }
  split; try done.
  - intros u Hu. apply Hw; [by apply H6|]. intros ->. by destruct Hin as [[? _]|].
  - intros u Hu. destruct (HR u Hu) as [? ?]. split; [|done]. apply Hw; [done|]. intros ->. by destruct Hin as [[_ ?]|].
  - unfold sem_go. cbn [sem_threads set_field]. rewrite dom_insert_L, <- H8.
    apply elem_of_dom_2 in Ht. set_solver.
Qed.

Lemma not_waiting s L t pc : sem_inv s L -> sem_threads s !! t = Some pc -> pc <> Suspending -> pc <> Asleep -> t ∉ L.
Proof. intros Hs Ht N1 N2 Hin. destruct (si_waits _ _ _ _ Hs t Hin); congruence. Qed.

Lemma not_woken s L t pc : sem_inv s L -> sem_threads s !! t = Some pc -> pc <> Suspending -> pc <> Asleep -> t ∉ ready s.
Proof. intros Hs Ht N1 N2 Hin. destruct (si_ready _ _ _ _ Hs t Hin) as [[?|?] _]; congruence. Qed.

Lemma sinv_round s L t : sem_inv s L -> v + posted s < 2 ^ 32 ->
  exists s' L', sem_step s (ERound t) = Ok s' /\ sem_inv s' L' /\ posted s' = posted s /\
    (sem_threads s !! t = Some Trying -> value (the_sem s) = 0 ->
     L' = L ++ [t] /\ sem_threads s' = <[t := Suspending]> (sem_threads s) /\ taken s' = taken s).
Proof.
  intros Hs Hb. cbn [sem_step]. destruct (sem_threads s !! t) as [[]|] eqn:Et; try (by exists s, L).
  assert (t ∉ L) as Hn by (by eapply not_waiting). assert (t ∉ ready s) as Hnr by (by eapply not_woken).
  pose proof (ring_has_room s L t Hs Et) as Hroom. destruct Hs as [H1 H2 H3 H4 H5 H6 Hrd H7 H8]. unfold sem_wait_round, bind, get, modify, ret.
  destruct (Z.ltb_spec 0 (value (the_sem s))) as [Hv|Hv].
  - eexists _, L. split; [reflexivity|]. split; [|split; [done|lia]].
    apply (sinv_go _ L t Trying); [|exact Et|by left; split].
    split; cbn [taken posted the_sem value set_field queued woken sem_threads]; try done; [lia| |].
    + rewrite u32_small by lia. lia.
    + by destruct H4.
  - destruct H4 as [R1 R2 R3 R4 R5]. pose proof (ring_slot_range (rpos (the_sem s)) (lenZ L)) as HR.
    rewrite (proj2 (Z.leb_gt _ _)) by lia.
    eexists _, (L ++ [t]). split; [reflexivity|]. split; [|done].
    split; cbn [taken posted the_sem value set_field queued woken sem_threads sem_go]; try done.
    + refine (ring_enqueue (the_sem s) L t _ Hroom). by split.
    + apply NoDup_app. split_and!; [done| |apply NoDup_singleton]. set_solver.
    + intros u. rewrite elem_of_app, list_elem_of_singleton. unfold waits, sem_go. cbn [sem_threads set_field].
      destruct (decide (u = t)) as [->|Hne]; [rewrite lookup_insert_eq; by left|].
      rewrite lookup_insert_ne by done. intros [Hu|]; [by apply H6|done].
    + intros u Hu. assert (u <> t) by (by intros ->). destruct (Hrd u Hu) as [? ?]. split; [|set_solver].
      unfold waits, sem_go. cbn [sem_threads set_field]. by rewrite lookup_insert_ne.
    + by rewrite H7, app_assoc.
    + unfold sem_go. cbn [sem_threads set_field]. rewrite dom_insert_L, <- H8. apply elem_of_dom_2 in Et. set_solver.
Qed.

(** A post gives, and wakes the thread that has waited longest. *)
Lemma sinv_post s L : sem_inv s L -> v + posted s + 1 < 2 ^ 32 ->
  exists s' L', sem_step s EPost = Ok s' /\ sem_inv s' L' /\ posted s' = posted s + 1 /\
    match L with
    | [] => L' = [] /\ ready s' = ready s
    | t :: rest => L' = rest /\ woken s' = woken s ++ [t] /\ ready s' = {[ t ]} ∪ ready s
    end /\ sem_threads s' = sem_threads s.
Proof.
  intros Hs Hb. pose proof Hs as [H1 H2 H3 H4 H5 H6 HR H7 H8]. cbn [sem_step].
  unfold az_sem_post, bind, modify, get. cbn [queue rpos set_field]. rewrite (ring_first _ _ H4).
  destruct L as [|t L]; cbn [nthZ default the ret].
  - eexists _, []. split; [reflexivity|]. split_and!; try done.
    split; cbn [taken posted the_sem value set_field queued woken sem_threads]; try done; [lia|lia| |by destruct H4].
    rewrite u32_small by lia. lia.
  - assert (exists pc, sem_threads s !! t = Some pc) as [pc Hpc].
    { destruct (H6 t ltac:(set_solver)); by eexists. }
    pose proof (known s (t :: L) t pc Hs Hpc) as Hid.
    change (default MAX_THREAD_ID (nthZ (t :: L) 0)) with t. rewrite (proj2 (Z.ltb_lt _ _)) by lia.
    eexists _, L. split; [reflexivity|]. apply NoDup_cons in H5 as [Hni H5].
    split_and!; try done.
    split; cbn [taken posted the_sem value set_field queued woken sem_threads sem_wake]; try done; [lia|lia| | | | |].
    + rewrite u32_small by lia. lia.
    + assert (ring_holds (the_sem s <| value := u32 (value (the_sem s) + 1) |>) (t :: L)) as Hr by (by destruct H4).
      apply ring_dequeue in Hr. exact Hr.
    + intros u Hu. apply H6. set_solver.
    + intros u [->%elem_of_singleton|Hu]%elem_of_union; [split; [apply H6; by left|done]|].
      destruct (HR u Hu) as [? ?]. split; [done|set_solver].
    + by rewrite H7, <- app_assoc.
Qed.
End invariant.

Lemma sinv_step v tids s L e : thread_ids tids -> 0 <= v -> sem_inv v tids s L ->
  v + posted s + (match e with EPost => 1 | _ => 0 end) < 2 ^ 32 ->
  exists s' L', sem_step s e = Ok s' /\ sem_inv v tids s' L' /\
    posted s' = posted s + (match e with EPost => 1 | _ => 0 end).
Proof.
  intros ids Hv Hs Hb. destruct e as [t|t|t|t|]; cbn [sem_step].
  - destruct (sem_threads s !! t) as [[]|] eqn:Et; eexists _, L; (split; [done|]); split; try (done || lia).
    + apply (sinv_go v tids ids Hv s L t Outside); [done|done|left]. split; [by eapply not_waiting|by eapply not_woken].
    + cbn. lia.
  - destruct (sinv_round v tids ids Hv s L t Hs) as (s' & L' & E & Hs' & Hp & _); [lia|].
    exists s', L'. split; [exact E|]. split; [done|lia].
  - unfold sem_sleep. destruct (sem_threads s !! t) as [[]|] eqn:Et; eexists _, L; (split; [done|]); split; try (done || lia).
    + apply (sinv_go v tids ids Hv _ L t Suspending); [by apply sinv_clear|done|by right].
    + cbn. lia.
  - unfold sem_pass. destruct (sem_threads s !! t) as [[]|] eqn:Et; try (eexists _, L; (split; [done|]); split; (done || lia)).
    case_decide as Hd; eexists _, L; (split; [done|]); split; try (done || lia).
    + apply (sinv_go v tids ids Hv _ L t Asleep); [by apply sinv_clear|done|left].
      split; [by apply (si_ready _ _ _ _ Hs)|set_solver].
    + cbn. lia.
  - destruct (sinv_post v tids ids Hv s L Hs Hb) as (s' & L' & E & Hs' & Hp & _). exists s', L'. done.
Qed.

#[export] Instance sem_event_eq : EqDecision sem_event.
Proof. solve_decision. Defined.

Definition posts (es : list sem_event) : Z := lenZ (filter (fun e => e = EPost) es).

Lemma posts_cons e es : posts (e :: es) = (match e with EPost => 1 | _ => 0 end) + posts es.
Proof. unfold posts. rewrite filter_cons. destruct e; destruct (decide _); try done. unfold lenZ. cbn. lia. Qed.

Lemma sinv_run v tids es s L : thread_ids tids -> 0 <= v -> sem_inv v tids s L ->
  v + posted s + posts es < 2 ^ 32 ->
  exists s' L', sem_run es s = Ok s' /\ sem_inv v tids s' L' /\ posted s' = posted s + posts es.
Proof.
  intros ids Hv. revert s L. induction es as [|e es IH]; intros s L Hs Hb.
  - exists s, L. split; [done|]. split; [done|]. change (posts []) with 0. lia.
  - rewrite posts_cons in *. assert (0 <= posts es) by apply Nat2Z.is_nonneg.
    destruct (sinv_step v tids s L e ids Hv Hs) as (s1 & L1 & E1 & Hs1 & Hp1); [destruct e; lia|]. cbn [sem_run]. rewrite E1.
    destruct (IH s1 L1 Hs1) as (s' & L' & E & Hs' & Hp); [destruct e; lia|].
    exists s', L'. split; [done|]. split; [done|destruct e; lia].
Qed.

Lemma sinv_start v q tids : 0 <= v -> sem_inv v tids (sem_start v q tids) [].
Proof.
  intros Hv. split; cbn [taken posted the_sem value sem_start new_sem queued woken]; try done; [lia|lia| | | |].
  - split; cbn [queue rpos wpos new_sem]; [by rewrite lenZ_replicate, Z2Nat.id|done|done|done|].
    intros k Hk. rewrite (proj2 (nthZ_None [] k)) by (change (lenZ []) with 0; lia).
    apply nthZ_replicate. rewrite Z2Nat.id by done. apply ring_slot_range.
  - constructor.
  - intros t Ht. by apply not_elem_of_nil in Ht.
  - cbn [sem_start sem_threads]. apply dom_gset_to_gmap.
Qed.

(** C20: a semaphore counts.  With the threads of the system waiting and any thread
    or interrupt posting, interleaved in any way with each other and with the steps of
    the scheduler, every step returns; the value is the initial one plus the posts
    minus the successful waits, so that no more threads get in than there were units;
    threads are woken in the order in which they were queued, none is in the ring
    twice, and those in the ring are waiting and have not been woken yet; the next
    post takes the first of them and sets its READY intention, and if the thread is on
    the blocked list by then, the next pass of its core over that list makes it try
    again. *)
Theorem semaphore_counts v q tids es :
  thread_ids tids -> 0 <= v -> v + posts es + 1 < 2 ^ 32 ->
  exists s L, sem_run es (sem_start v q tids) = Ok s /\
    value (the_sem s) = v + posts es - taken s /\ 0 <= taken s <= v + posts es /\
    queued s = woken s ++ L /\ NoDup L /\ (forall t, t ∈ L -> waits s t /\ t ∉ ready s) /\
    exists s', sem_step s EPost = Ok s' /\ sem_threads s' = sem_threads s /\
      match L with
      | [] => ready s' = ready s
      | t :: _ => woken s' = woken s ++ [t] /\ ready s' = {[ t ]} ∪ ready s /\
          (sem_threads s !! t = Some Asleep ->
           exists s'', sem_step s' (EPass t) = Ok s'' /\ sem_threads s'' !! t = Some Trying)
      end.
Proof.
  intros ids Hv Hb. destruct (sinv_run v tids es _ _ ids Hv (sinv_start v q tids Hv)) as (s & L & E & Hs & Hp);
    [cbn [sem_start posted]; lia|].
  cbn [sem_start posted] in Hp. exists s, L. split; [exact E|].
  destruct (sinv_post v tids ids Hv s L Hs) as (s' & L' & E' & Hs' & Hp' & HL & Ht'); [lia|].
  pose proof (si_ready _ _ _ _ Hs) as HR. destruct Hs as [H1 H2 H3 H4 H5 H6 _ H7 H8]. rewrite Hp in *.
  split_and!; try done; [lia..| |].
  - intros t Ht. split; [by apply H6|]. by intros [_ ?]%HR.
  - exists s'. split_and!; [exact E'|done|]. destruct L as [|t L]; [by destruct HL|].
    destruct HL as (_ & Hw & Hr). split_and!; [done|done|]. intros Ha. eexists. split; [reflexivity|].
    unfold sem_pass. rewrite Ht', Ha, Hr, decide_True by set_solver. apply lookup_insert_eq.
Qed.

(** A thread that gets in at once and one that is woken when it sleeps. *)
Lemma semaphore_counts_witness :
  exists s L, sem_run [EWait 7; ERound 7; EWait 9; ERound 9; ESleep 9; EPost; EPass 9; ERound 9] (sem_start 1 0 {[7; 9]}) = Ok s /\
    queued s = woken s ++ L /\ sem_threads s !! 9 = Some Outside /\ sem_threads s !! 7 = Some Outside.
Proof.
  destruct (semaphore_counts 1 0 {[7; 9]} [EWait 7; ERound 7; EWait 9; ERound 9; ESleep 9; EPost; EPass 9; ERound 9])
    as (s & L & E & _ & _ & Hq & _).
  - intros t Ht. assert (t = 7 \/ t = 9) as [-> | ->] by set_solver; by vm_compute.
  - lia.
  - by vm_compute.
  - exists s, L. split_and!; [exact E|exact Hq|..];
      (assert (match sem_run [EWait 7; ERound 7; EWait 9; ERound 9; ESleep 9; EPost; EPass 9; ERound 9] (sem_start 1 0 {[7; 9]}) with
        | Ok s => sem_threads s !! 9 = Some Outside /\ sem_threads s !! 7 = Some Outside
        | Fault _ => False end) as H by (by vm_compute)); rewrite E in H; apply H.
Defined.
