(* ===== verification/Wakeup.v ===== *)
(** * Semaphores and the scheduler

    The operations of one semaphore ([Semaphore]) beside the kernel's calls ([Sched]):
    what becomes of a thread that is posted between the release of the semaphore's lock
    and its call of [schedule]. *)

From S2P Require Import Prelude.
From S2P Require Import Lock.
From S2P Require Import Memory.
From S2P Require Import ShellStorage.
From S2P Require Import Thread.
From S2P Require Import Sched.
From S2P Require Import ThreadInv.
From S2P Require Import ThreadOps.
From S2P Require Import ThreadSched.
From S2P Require Import ThreadCalls.
From S2P Require Import ThreadSafety.
From S2P Require Import Sleep.
From S2P Require Import Semaphore.

(** ** A semaphore and the kernel

    [az_sem_post] wakes the thread it takes out of the ring; it is the only caller of
    [thread_wake_up]. *)
Definition sem_post_call (c : code) (cpu : Z) (x : sem_t) (k : kernel) : outcome (sem_t * kernel) :=
  match az_sem_post x with
  | Fault f => Fault f
  | Ok (None, x') => Ok (x', k)
  | Ok (Some u, x') =>
      match do_kcall c cpu 0 (KWakeUp u) k with
      | Ok (_, k') => Ok (x', k')
      | Fault f => Fault f
      end
  end.

(** What may happen to the two, except that thread [t] is woken or given a core by
    others than this semaphore: rounds of [az_sem_wait] of running threads, [trywait]s,
    posts, calls of the kernel, and locks taken by other cores. *)
Inductive others (c : code) (t : Z) : sem_t * kernel -> sem_t * kernel -> Prop :=
| others_wait cpu u got x x' k : running_thread k cpu = Some u -> sem_wait_round u x = Ok (got, x') ->
    others c t (x, k) (x', k)
| others_try r x x' k : az_sem_trywait x = Ok (r, x') -> others c t (x, k) (x', k)
| others_post cpu x x' k k' : 0 <= cpu < 256 ->
    (forall u x1, az_sem_post x = Ok (Some u, x1) -> permitted k cpu (KWakeUp u)) ->
    sem_post_call c cpu x k = Ok (x', k') -> others c t (x, k) (x', k')
| others_call cpu sp call r x k k' : 0 <= cpu < 256 -> permitted k cpu call -> ~ names call t ->
    do_kcall c cpu sp call k = Ok (r, k') -> others c t (x, k) (x, k')
| others_lock n held x k : valid n -> others c t (x, k) (x, contend n held k).

(** ** What keeps a thread asleep *)

Record forgotten (t cpu : Z) (s : sem_t * kernel) : Prop := {
  fg_inv : kinv None None s.2;
  fg_sleeps : sleeping t cpu s.2;
  fg_queue : t ∉ queue s.1
}.

Lemma not_elem_of_updZ (t y i : Z) l : t ∉ l -> t <> y -> t ∉ updZ l i y.
Proof.
  unfold updZ. destruct (0 <=? i); [|done]. intros Ht Hy [j Hj]%list_elem_of_lookup.
  apply list_lookup_insert_Some in Hj as [(_ & ? & _)|[_ Hj]]; [done|]. by apply Ht, (list_elem_of_lookup_2 _ j).
Qed.

(** A post takes a thread out of the ring, or finds none. *)
Lemma post_queue x w x' : az_sem_post x = Ok (w, x') ->
  (w = None /\ queue x' = queue x) \/
  (exists u, w = Some u /\ u ∈ queue x /\ queue x' = updZ (queue x) (rpos x) MAX_THREAD_ID).
Proof.
  unfold az_sem_post, bind, modify, get, the. cbn. destruct (nthZ (queue x) (rpos x)) as [u|] eqn:E; [|done].
  cbn. destruct (u <? MAX_THREAD_ID); intros [= <- <-]; [right|by left]. exists u. split_and!; [done| |done].
  unfold nthZ in E. destruct (0 <=? rpos x); [|done]. by eapply list_elem_of_lookup_2.
Qed.

Lemma round_queue u x got x' : sem_wait_round u x = Ok (got, x') ->
  queue x' = queue x \/ queue x' = updZ (queue x) (wpos x) u.
Proof.
  unfold sem_wait_round, bind, modify, get. cbn. destruct (0 <? value x); [intros [= _ <-]; by left|].
  destruct (_ <=? _); [done|]. intros [= _ <-]. by right.
Qed.

Section forgotten.
Context (c : code) (t home : Z).
Hypothesis at_home : is_cpu home.

Lemma forgotten_range s : forgotten t home s -> MAX_PROCESSOR_COUNT <= t < MAX_THREAD_ID.
Proof. intros [Hk Hs _]. by eapply (kinv_lt _ _ _ (Blocked home)); [exact Hk| |apply Hs]. Qed.

Lemma forgotten_call cpu sp call r x x' k k' : forgotten t home (x, k) -> 0 <= cpu < 256 -> permitted k cpu call ->
  ~ names call t -> t ∉ queue x' -> do_kcall c cpu sp call k = Ok (r, k') -> forgotten t home (x', k').
Proof.
  intros [Hk Hs _] Hcpu Hp Hn Hq Hrun. split; [|by eapply (kcall_sleeping c cpu sp call)|done].
  pose proof (wp_kcall c cpu sp call k Hk Hcpu Hp) as Hw. unfold wp in Hw. by rewrite Hrun in Hw.
Qed.

Lemma forgotten_step s s' : others c t s s' -> forgotten t home s -> forgotten t home s'.
Proof.
  intros Hst Hf. pose proof (forgotten_range _ Hf) as Hr. pose proof Hf as [Hk Hs Hq].
  destruct Hst as [cpu u got x x' k Hu Hrun|r x x' k Hrun|cpu x x' k k' Hcpu Hp Hrun|cpu sp call r x k k' Hcpu Hp Hn Hrun|n held x k Hv]; cbn in *.
  - split; [done|done|]. destruct (round_queue _ _ _ _ Hrun) as [E|E]; cbn; rewrite E; [done|].
    apply not_elem_of_updZ; [done|]. intros <-. by apply (pl_runs _ _ _ _ _ Hs) in Hu.
  - split; [done|done|]. revert Hrun. unfold az_sem_trywait, bind, modify, get. cbn.
    by destruct (0 <? value x); intros [= _ <-].
  - unfold sem_post_call in Hrun. destruct (az_sem_post x) as [[w x1]|] eqn:E; [|done].
    destruct (post_queue _ _ _ E) as [[-> Eq]|(u & -> & Hu & Eq)].
    + injection Hrun as <- <-. split; [done|done|]. cbn. by rewrite Eq.
    + destruct (do_kcall c cpu 0 (KWakeUp u) k) as [[r k1]|] eqn:Ek; [|done]. injection Hrun as <- <-.
      eapply (forgotten_call cpu 0 (KWakeUp u)); [exact Hf|done|by eapply Hp| | |exact Ek].
      * cbn. intros ->. done.
      * rewrite Eq. apply not_elem_of_updZ; [done|]. lia.
  - by eapply (forgotten_call cpu sp call).
  - split; [by apply kinv_contend|by apply contend_sleeping|done].
Qed.

Lemma forgotten_forever s s' : rtc (others c t) s s' -> forgotten t home s -> forgotten t home s'.
Proof. induction 1 as [|s1 s2 s3 Hst _ IH]; [done|]. intros Hf. by eapply IH, forgotten_step. Qed.
End forgotten.

(** ** The lost wake-up *)

Lemma empty_ring x y : ring_holds x [] -> y ∈ queue x -> y = MAX_THREAD_ID.
Proof.
  intros [Hl Hr _ _ Hs] [i Hi]%list_elem_of_lookup. pose proof (lookup_lt_Some _ _ _ Hi) as Hlt.
  assert (0 < MAX_SEM_QUEUE_SIZE) by done. unfold lenZ in Hl.
  pose proof (Z.mod_pos_bound (Z.of_nat i - rpos x) MAX_SEM_QUEUE_SIZE ltac:(done)) as Hm.
  specialize (Hs _ Hm). rewrite Zplus_mod_idemp_r in Hs.
  replace (rpos x + (Z.of_nat i - rpos x)) with (Z.of_nat i) in Hs by lia. rewrite Z.mod_small in Hs by lia.
  assert (forall j, nthZ ([] : list Z) j = None) as En by (intros j; unfold nthZ; by destruct (0 <=? j)).
  rewrite En in Hs. unfold nthZ in Hs. rewrite Nat2Z.id, Hi, (proj2 (Z.leb_le _ _)) in Hs by lia. by injection Hs.
Qed.

(** The ring holds nobody else: the next post takes the thread. *)
Lemma round_then_post t x : 0 <= t < MAX_THREAD_ID -> ring_holds x [] -> value x = 0 ->
  exists x1 x2, sem_wait_round t x = Ok (false, x1) /\ az_sem_post x1 = Ok (Some t, x2) /\
    value x2 = 1 /\ t ∉ queue x2.
Proof.
  intros Ht Hx Hv. pose proof (ring_enqueue x [] t Hx ltac:(done)) as H1. set (x1 := _ <| wpos := _ |>) in H1.
  assert (nthZ (updZ (queue x) (wpos x) t) (rpos x) = Some t) as Hf by apply (ring_first _ _ H1).
  pose proof (ring_dequeue (x1 <| value := 1 |>) t [] ltac:(by destruct H1)) as H2.
  set (x2 := _ <| rpos := _ |>) in H2. exists x1, x2. split_and!.
  - unfold sem_wait_round, bind, get. cbn. rewrite Hv. cbn. destruct Hx as [Hl Hr _ Hw _].
    pose proof (ring_slot_range (rpos x) (lenZ (@nil Z))). rewrite (proj2 (Z.leb_gt _ _)) by lia. done.
  - unfold az_sem_post, bind, modify, get, the. cbn -[MAX_THREAD_ID]. rewrite Hv, Hf. cbn -[MAX_THREAD_ID].
    by rewrite (proj2 (Z.ltb_lt t _)) by lia.
  - done.
  - intros Hin%(empty_ring _ _ H2). lia.
Qed.

Lemma wake_then_block c cpu other sp t k b : 0 <= cpu < 256 -> kinv None None k -> running_thread k cpu = Some t ->
  MAX_PROCESSOR_COUNT <= t -> tcbs k !! t = Some b -> has (intention b) THREAD_INTENTION_EXITED = false ->
  exists k1 k2, do_kcall c other 0 (KWakeUp t) k = Ok (0, k1) /\
    schedule cpu sp THREAD_INTENTION_BLOCKED k1 = Ok (FALSE, k2) /\ kinv None None k2 /\ sleeping t cpu k2.
Proof.
  intros Hcpu Hk Hr Ht Hb HE. pose proof (small_cpu cpu Hcpu) as Hic.
  destruct (current_tcb cpu t k Hk Hr) as (b' & Ha & _ & Hok & _). assert (b' = b) as -> by (destruct Ha; congruence).
  assert (wp (thread_wake_up other t) (fun r k1 => r = 0 /\ woken_early t cpu k1) k)
    as (r & k1 & Hrun & -> & Hw)%wp_Ok.
  { eapply wp_wake_up; [exact Hk|exact Ha|]. intros k1 -> Hk1. split; [done|]. split; [done|done|].
    eexists. split; [apply lookup_set_tcb|]. split; [by apply add_range; [apply Hok|]|]. cbn -[THREAD_INTENTION_READY Z.lor]. split.
    - by rewrite (has_add _ 3) by done.
    - rewrite (has_add _ 5) by done. exact HE. }
  assert (wp (schedule cpu sp THREAD_INTENTION_BLOCKED) (fun _ k2 => after_call cpu k1 k2) k1)
    as (r & k2 & Hs & Hk2 & _)%wp_Ok.
  { apply (wp_schedule cpu t); [done|apply Hw|apply Hw|]. split; [done|lia]. }
  destruct (schedule_leads t cpu Ht Hic sp _ _ _ Hw Hs) as [Hsl ->]. by exists k1, k2.
Qed.

(** C38: a thread that is posted before it has gone to sleep sleeps for good, with the
    semaphore free.  Thread [t], running on core [cpu], finds the value 0 and is put
    into the ring; before it calls [schedule], a post raises the value, takes it out of
    the ring again and wakes it; [schedule] then puts it to sleep and clears the
    wake-up.  It is on the blocked list of its core, not running and not asked to wake
    up, and stays so whatever waits, posts of this semaphore, kernel calls and lock
    contention follow, as long as no call names it. *)
Theorem waiter_sleeps_through_posts c cpu other sp t x k b :
  0 <= cpu < 256 -> kinv None None k -> running_thread k cpu = Some t -> MAX_PROCESSOR_COUNT <= t ->
  tcbs k !! t = Some b -> has (intention b) THREAD_INTENTION_EXITED = false ->
  ring_holds x [] -> value x = 0 ->
  exists x1 x2 k1 k2,
    sem_wait_round t x = Ok (false, x1) /\
    sem_post_call c other x1 k = Ok (x2, k1) /\ value x2 = 1 /\
    schedule cpu sp THREAD_INTENTION_BLOCKED k1 = Ok (FALSE, k2) /\
    forall x' k', rtc (others c t) (x2, k2) (x', k') -> sleeping t cpu k' /\ t ∉ queue x'.
Proof.
  intros Hcpu Hk Hr Ht Hb HE Hx Hv. pose proof (small_cpu cpu Hcpu) as Hic.
  destruct (round_then_post t x) as (x1 & x2 & Hround & Hpost & Hv2 & Hq); [|done|done|].
  { assert (0 <= t < NTHREAD) by (apply (ki_dom _ _ _ Hk); by exists b). done. }
  destruct (wake_then_block c cpu other sp t k b) as (k1 & k2 & Hwake & Hsched & Hk2 & Hs); [done..|].
  exists x1, x2, k1, k2. split_and!; [done| |done|done|].
  - unfold sem_post_call. by rewrite Hpost, Hwake.
  - intros x' k' Hst. by destruct (forgotten_forever c t cpu Hic _ _ Hst).
Qed.

Lemma waiter_sleeps_through_posts_witness : exists t x k, running_thread k 0 = Some t /\ value x = 0 /\
  exists x1 x2 k1 k2,
    sem_wait_round t x = Ok (false, x1) /\
    sem_post_call some_code 1 x1 k = Ok (x2, k1) /\ value x2 = 1 /\
    schedule 0 0x5000 THREAD_INTENTION_BLOCKED k1 = Ok (FALSE, k2) /\
    forall x' k', rtc (others some_code t) (x2, k2) (x', k') -> sleeping t 0 k' /\ t ∉ queue x'.
Proof.
  destruct one_runnable as (k & t & b & Hk & Hr & Ht & Hb & Hi).
  set (k0 := k <| running_thread := fupd (running_thread k) 0 (Some t) |>).
  assert (kinv None None k0) as Hk0.
  { apply kinv_switch; [by apply kinv_switching|by rewrite Hr|by right|done]. }
  exists t, (new_sem 0 0), k0. refine (conj eq_refl (conj eq_refl _)).
  apply (waiter_sleeps_through_posts some_code 0 1 0x5000 t (new_sem 0 0) k0 b); [lia|exact Hk0|reflexivity| |exact Hb| | |reflexivity].
  - exact (proj1 (ki_member _ _ _ Hk (Runnable 0) t ltac:(done) Ht)).
  - by rewrite Hi.
  - exact (si_ring _ _ _ _ (sinv_start 0 0 ∅ ltac:(lia))).
Defined.
